(* ===== verification/_CoqProject ===== *)
-Q . S2P
Prelude.v
CppString.v
Table.v
Codec.v
Utils.v
CppStream.v
Rpc.v
Coordinator.v
Worker.v
WorkerFacts.v
Durability.v
Cluster.v
ClusterFacts.v
Replication.v
Kv.v
Threads.v
Heartbeats.v
SharedStore.v
UserAccount.v
StorageText.v
HttpText.v
LoadBalancer.v
Chunked.v
Storage.v
StoragePages.v
StorageFacts.v
StorageTree.v
StorageDeletion.v
StorageRenaming.v
StorageRow.v
StorageIsolation.v
Admin.v
Smtp.v
SmtpFacts.v
ServiceConcurrency.v
Email.v
EmailFacts.v
HttpServer.v
HttpFacts.v
HttpFraming.v
Launch.v
Connections.v
LegacyKvs.v
LegacyWeb.v
