(* ===== verification/Prelude.v ===== *)
(** * PennCloud: a verification of its key-value store and of the services on it

    PennCloud is a small cloud platform in C++.  A coordinator and six workers form a replicated
    key-value store of rows and columns; user accounts, web storage, an email service and an SMTP
    server keep all of their data in it; HTTP servers behind a load balancer bring them to browsers,
    and an admin service watches over all.  This library translates those parts into Rocq functions
    and proves what each of them promises to the next.

    ** The program and the files that model it

    - [Prelude]: integers of fixed width, tactics, [operator[]] of maps.  [CppString]: the functions
      of [std::string], [std::getline] and [std::to_string] that the program uses, with their
      behaviour at [npos] and out of range.  [CppStream]: numbers and words read from text.
    - [Table]: a tablet, rows of columns, and the effect of Get, Put, CPut and Delete on it.
    - [Codec] (utils/serializer.cc, utils/logger.cc): the format of checkpoints and of command logs,
      byte for byte, with 32-bit length fields, and the files of a worker.
    - [Utils] (utils/utils.cc): hashing of keys to tablets, query strings, email metadata.
    - [Rpc] (backend/kvs_client.h): the client methods, which turn a status into a string.
    - [Coordinator] (backend/coordinator.cc): the state of [MasterNode], its handlers, the monitor
      thread, and the steps of the coordinator as an inductive relation.
    - [Worker] (backend/worker.cc): the state of a worker process, its handlers up to replication,
      checkpoints, recovery from the disk and from peers, start-up.  [WorkerFacts] has the invariant
      of a worker; [Durability] the histories of updates, commands and crashes of one worker.
    - [Cluster] (backend/worker.cc, the replication in Put, CPut and Delete): six workers that call
      each other.  [ClusterFacts] and [Replication] prove that they act as one map.
    - [Kv]: what the services see of the store, the class [KvOps] of operations and the class
      [KvLaws] of what a healthy store promises, with the instance that [Coordinator] and [Cluster]
      implement and a second one whose state is the contents; and a program logic ([runs],
      [session]) for services over any such store.
    - [Threads] (backend/worker.cc): the update handlers as threads that interleave between the part
      before replication and each call of a replica.  [Heartbeats] (backend/worker.cc,
      backend/coordinator.cc): the heartbeat threads and the monitor with the clock.  [SharedStore]:
      the store that several programs use at the same time, an instance of [KvOps] in which others
      act before every call.
    - [UserAccount] (frontend/user_account/): authenticate, signup, changePassword.
    - [StorageText], [Chunked], [Storage], [StoragePages] (frontend/storage/storage_service.cc):
      names, queries and multipart bodies; chunked transfer encoding; files and folders and the
      requests on them; the pages that list, rename and move.  [StorageFacts] has the theorems on
      upload, download and deletion from any listings, [StorageTree] those on moving and on renaming
      files, with the columns of a user as trees of files and folders, [StorageDeletion] and
      [StorageRenaming] those on deleting a tree and on renaming a folder.  [StorageRow] shows once,
      for any property of programs that is closed under calls on one row ([RowClosed]), that it holds
      of all requests; [StorageIsolation] and [ServiceConcurrency] use it for what a request can change
      and for what others can change of its answers.
    - [Smtp] (frontend/email/smtp_server.cc, client_pool.h) and [SmtpFacts]: a connection to the SMTP
      server, delivery and relaying.
    - [Email] (frontend/email/email_service.cc) and [EmailFacts]: the pages and the requests.
    - [LoadBalancer] (frontend/load_balancer.cc): probes, round-robin choice and redirection, and the
      threads of the server as a step relation.
    - [Admin] (frontend/admin/admin_service.cc): the dashboard, the pages of workers and tablets, and
      the switches, over the class [AdminOps] that the coordinator and the workers implement.
    - [HttpText], [HttpServer] (frontend/http_server.cc): headers, cookies and forms; sessions, the
      routes of [client_connection] as the type [route] with a handler per branch, and the open
      connections.  [HttpFacts] has their theorems; [HttpFraming] has a reader of HTTP responses, as a
      browser is one, and the theorem on what it reads.
    - [Launch]: the [main] functions of all programs, with their options and sockets.  [Connections]:
      the loops that accept connections and the threads that they start, as a step relation over the
      class [Tracking] of the tables that the HTTP server, the SMTP server and the first key-value
      server keep.
    - [LegacyKvs] (backend/key_val_store.cc, kvs_server.h), [LegacyWeb] (web_storage_service): the
      first versions of the store and of the storage service.

    ** How the code is translated

    State that the code keeps in global variables or members is a record ([master], [worker],
    [smtp], [connections]) that handlers take and return.  A handler that throws or ends the process
    returns [None].  The services are programs of the monad [M St]: they pass the state of the store
    and may throw.  Strings are Rocq strings of bytes, positions are [nat] with [None] for [npos], and
    other integers are in [Z], with the conversions to 32 and 64 bits where the code makes them.  Names
    are those of the code.  Where threads interleave, a step is as long as the code can rely on: the part
    of an update handler before its replication loop and each call of the loop ([Threads]), each call
    of a service to the store ([SharedStore]), each call of the system or statement on a table of
    connections ([Connections]), each use of the lock in the load balancer.  Reading a vector out of its bounds is undefined in C++ and
    counts as a throw.

    What is not in the repository is a parameter: [StdHash] for [std::hash], [UMapOrder] for the order
    in which an [unordered_map] enumerates its elements, [Grpc] for the status of a call that reaches
    nobody, [MailEnv] for the clock, random numbers, DNS and sockets of the SMTP server, [network] for
    the answers the load balancer gets, [admin_env] for the answer, the shell and the random numbers
    the admin service gets, and [event] for what a browser sends in one round.  Their laws, where they
    have any, are fields of the class, and the examples instantiate them.

    ** What is proved

    - Replication ([replicated_update], [replicated_get], [failover], [restart_rejoins],
      [start_rejoins], [CopyTablet_stream]): while a holder of the key is up and the coordinator knows
      who is up, an update at the worker that Lookup names acts on all live holders as one operation
      on a map, and keeps them equal; reads return what was written; crashes lose nothing that
      another holder has; a worker that restarts ends equal to the live holders.
    - Concurrency: updates handled by interleaving threads act one after the other and are answered
      accordingly ([updates_linearize]); when all have been answered the copies agree again, if no two
      were about the same cell ([concurrent_updates_converge]); a thread alone is the handler
      ([thread_alone]); whatever others do to other rows, a session of storage requests and the calls
      about an account go as they go alone ([storage_undisturbed], [accounts_undisturbed]).
    - Time: nine seconds after a worker came up or went down, at the latest, the coordinator knows
      ([coordinator_settles]).
    - Durability ([crash_recovery], [worker_invariant], [crash_before_clear_recovers],
      [getLogs_torn]): over any history of updates, commands and crashes, a new process recovers from
      checkpoint and log exactly what was in memory.
    - Formats ([deserialize_serialize], [deserializeTablet_fuel], [chunked_roundtrip],
      [readChunked_fuel], [parseQueryString_form], [parseMetadata_createMetadata],
      [urlDecode_urlEncode]): what is written is read back; the readers stop on every input.
    - Coordinator ([Lookup_correct], [WorkerLookup_correct], [coordinator_fresh]): which worker is
      named, and that it was heard from less than four seconds before the last monitor pass.
    - Services over any store that keeps [KvLaws]: accounts ([authenticate_correct],
      [signup_correct], [changePassword_correct]), storage ([upload_download],
      [deleteRec_terminates], [deletePath_correct], [isValidName_safe], [moveFolder_correct],
      [moveFile_correct], [renameFile_correct], [renameFolder_correct]), mail ([endData_delivers], [deliverRemote_correct], [smtp_invariant],
      [handle_client_packets], [sendEmail_delivers], [deleteEmail_correct]).
    - The HTTP server: a login is recognised by its cookie and ends with the logout
      ([login_session], [logout_ends_session]); a request changes nothing that is not its user's
      ([request_confined]); its responses on one connection are read back one for each request
      ([responses_read]); its threads never share a socket, and its tables are empty when all clients
      have left ([http_connections], and [kvs_connections] for the first key-value server).
    - The launch: which port and address every server takes ([requested_port], [taken_port],
      [server_addresses]), and what its options mean ([smtp_arguments_written]).
    - The load balancer: its indices stay in range whatever its threads do ([balancer_invariant]),
      requests go to the live frontends in turn ([redirect_correct], [select_fair]), and an HTTP
      server that runs counts as live ([health_probe_answered]).
    - The admin service over the coordinator and the workers: the pages show the tablets in memory
      ([tabletPage_correct]) and who is alive ([fetchWorkerStatuses_correct]), and a worker that is
      shut down and restarted comes back with its tablets ([toggle_roundtrip]).
    - The first version of the store: a session of its text protocol ([session_correct]).
    - Behaviour that the code does not intend, each as a theorem on a concrete history:
      [crash_before_clear_cput], [torn_log_loses_put], [restart_too_soon],
      [unreachable_peer_empties_tablet], [delete_hides_siblings], [renamed_folder_loses_files],
      [emptied_folder_hides_files], [ensureSameExtension_strips], [rcpt_after_refused_mail],
      [rset_keeps_remote], [body_line_lost], [comma_in_subject], [status_without_balancer],
      [active_users_is_a_session], [inbox_of_another_user], [logout_drops_later_users],
      [put_empty_throws], [scan_lists_deleted_row], [filePart_first_line], [crossing_puts_diverge],
      [signup_race], [upload_race], [delivery_race], [changePassword_race],
      [not_allowed_has_no_length], [download_of_nothing], [download_header_injection],
      [renamed_empty_folder], [two_threads_one_socket], [served_but_not_registered],
      [smtp_keeps_descriptors], [connection_without_thread], [announced_port_differs], [not_a_port],
      [lb_value_as_option], [worker_zero].

    ** Fuel

    Loops that are not structural take fuel.  [deserializeTablet] and [readChunkedBodyRaw] give the
    length of the input, which [deserializeTablet_fuel] and [readChunked_fuel] prove enough;
    [storeChunks] and [sendChunkLoop] give the length of the data, of which every round takes at
    least a byte; [smtp_lines] gives the length of the buffer, of which every line takes two.  For
    [deleteRec] a depth above the number of folders is proved enough, and one above the depth of the
    tree; for [renameFolderMoveRec] and [renameFolderRec] the depth of the tree, for [freeName] one more than the number of names that are taken.  The search
    [uploadName] takes its fuel as an argument and throws when it runs out; the theorem about uploads
    concerns names that are free.  The reader of responses takes the length of the stream, and
    [read_stream_framed] proves one more than the number of responses enough.  The loops of the text server take the number
    of packets, of which every message takes at least one.

    ** What is not modelled, and what comes next

    The statements of two handlers on one worker that run at the same time before replication are a
    data race, which C++ gives no meaning, and have no model; nor have log lines, the demonstration
    client kvstore_client.cc, build files, pages and tests.  Next come the handlers of the HTTP server
    for several users at the same time, with their sessions, and the mailboxes under concurrent
    delivery to different users. *)
From stdpp Require Export gmap strings list fin_maps pretty.
From Stdlib Require Export Ascii.

(** ** Scopes and notations *)
Declare Scope cpp_scope.
Delimit Scope cpp_scope with cpp.
Open Scope Z_scope.
Open Scope cpp_scope.

(** C++'s remainder on [int] truncates towards zero. *)
Notation "a '%%' b" := (Z.rem a b) (at level 40, left associativity) : cpp_scope.

(** ** Machine integers *)

(** Conversion to [uint32_t], to [size_t] (64 bits) and to [int] (32 bits, two's complement). *)
Definition to_u32 (z : Z) : Z := z mod 2 ^ 32.
Definition to_u64 (z : Z) : Z := z mod 2 ^ 64.
Definition to_i32 (z : Z) : Z := (z + 2 ^ 31) mod 2 ^ 32 - 2 ^ 31.

Lemma to_u32_small z : 0 ≤ z < 2 ^ 32 → to_u32 z = z.
Proof. apply Z.mod_small. Qed.
Lemma to_u64_small z : 0 ≤ z < 2 ^ 64 → to_u64 z = z.
Proof. apply Z.mod_small. Qed.
Lemma to_i32_small z : - 2 ^ 31 ≤ z < 2 ^ 31 → to_i32 z = z.
Proof. intros. unfold to_i32. rewrite Z.mod_small; lia. Qed.
Lemma to_u32_range z : 0 ≤ to_u32 z < 2 ^ 32.
Proof. apply Z.mod_pos_bound. lia. Qed.

Create HintDb penncloud.
Create Rewrite HintDb penncloud.
#[export] Hint Resolve to_u32_range : penncloud.

(** ** [operator[]] on a map with a default value

    [m[k]] on a [std::unordered_map] inserts the value-initialised element when [k] is absent:
    the result is the element and the map afterwards. *)
Definition map_index {V} (d : V) (k : Z) (m : gmap Z V) : V * gmap Z V :=
  match m !! k with
  | Some v => (v, m)
  | None => (d, <[k := d]> m)
  end.

(** ** Tactics of the development *)

(** Case analysis on every [if], [match] and [decide] of the goal, cleaning up after each. *)
Ltac split_cases :=
  repeat (simplify_eq/=; first [case_decide | case_bool_decide | case_match]);
  simplify_eq/=.

(** Enumerates an integer between 1 and 6 given [H : 1 ≤ z ≤ 6]. *)
Ltac worker_cases z :=
  let H := fresh in
  assert (z = 1 ∨ z = 2 ∨ z = 3 ∨ z = 4 ∨ z = 5 ∨ z = 6) as H by lia;
  destruct H as [->|[->|[->|[->|[->| ->]]]]].

(** ** Generic lemmas *)

Lemma map_index_fst {V} (d : V) k m : (map_index d k m).1 = default d (m !! k).
Proof. unfold map_index. by destruct (m !! k). Qed.

Lemma map_index_default {V} (d : V) k m j :
  default d ((map_index d k m).2 !! j) = default d (m !! j).
Proof.
  unfold map_index. destruct (m !! k) eqn:E; simpl; [done|].
  destruct (decide (k = j)) as [->|Hne].
  - by rewrite lookup_insert_eq, E.
  - by rewrite lookup_insert_ne.
Qed.
