(* ===== verification/CppString.v ===== *)
(** * std::string

    The part of the C++ string library the sources use, on [string]: positions are [nat], the value
    [npos] of a failed search is [None].  The lemmas are those the components share. *)
From S2P Require Import Prelude.

Abbreviation slen := String.length.

(** [s.substr(0, n)] and what is left of [s] after its first [n] characters. *)
Fixpoint str_take (n : nat) (s : string) : string :=
  match n, s with
  | S n, String c s => String c (str_take n s)
  | _, _ => ""
  end.
Fixpoint str_drop (n : nat) (s : string) : string :=
  match n, s with
  | O, _ => s
  | S n, String _ s => str_drop n s
  | S _, "" => ""
  end.

(** [s.substr(pos, n)] and [s.substr(pos)] for [pos <= s.size()]. *)
Definition substr (pos n : nat) (s : string) : string := str_take n (str_drop pos s).
Definition substr_from (pos : nat) (s : string) : string := str_drop pos s.

(** [s.substr(pos)] with its exception: [None] is [std::out_of_range], thrown for
    [pos > s.size()]. *)
Definition substr_from_exc (pos : nat) (s : string) : option string :=
  if bool_decide (slen s < pos)%nat then None else Some (str_drop pos s).

(** [s.find(p)] and [s.find(p, pos)]. *)
Fixpoint find0 (p s : string) : option nat :=
  if String.prefix p s then Some 0%nat
  else match s with
       | "" => None
       | String _ s' => S <$> find0 p s'
       end.
Definition find (p : string) (pos : nat) (s : string) : option nat :=
  if bool_decide (slen s < pos)%nat then None
  else Nat.add pos <$> find0 p (str_drop pos s).

(** Characters: [s.find(c, pos)] and [s.find_last_of(c)]. *)
Fixpoint find_char0 (c : ascii) (s : string) : option nat :=
  match s with
  | "" => None
  | String a s' => if decide (a = c) then Some 0%nat else S <$> find_char0 c s'
  end.
Definition find_char (c : ascii) (pos : nat) (s : string) : option nat :=
  Nat.add pos <$> find_char0 c (str_drop pos s).
Fixpoint find_last_of (c : ascii) (s : string) : option nat :=
  match s with
  | "" => None
  | String a s' =>
      match find_last_of c s' with
      | Some i => Some (S i)
      | None => if decide (a = c) then Some 0%nat else None
      end
  end.

(** [pos + k] on a [size_t] that may be [npos] (which is [2^64 - 1], so [npos + k] wraps to
    [k - 1]); [k] is positive at every use. *)
Definition npos_add (o : option nat) (k : nat) : nat :=
  match o with Some p => p + k | None => k - 1 end%nat.

(** [s.substr(0, p)] where [p] is the result of a search: all of [s] for [npos]. *)
Definition substr_to (o : option nat) (s : string) : string :=
  match o with Some p => str_take p s | None => s end.

(** [s.substr(0, n) == p] with [n] the size of [p], and [s.rfind(p, 0) == 0]. *)
Definition starts_with (p s : string) : bool := String.prefix p s.
(** [s.find(p) != npos]. *)
Definition contains (p s : string) : bool := bool_decide (is_Some (find0 p s)).

(** Reference splitting of a string at every occurrence of a character. *)
Fixpoint split_on (d : ascii) (s : string) : list string :=
  match s with
  | "" => [""]
  | String c s' =>
      if decide (c = d) then "" :: split_on d s'
      else match split_on d s' with
           | t :: ts => String c t :: ts
           | [] => [String c ""]
           end
  end.

(** The tokens a loop [while (getline(ss, token, d))] over [s] produces: those of the splitting,
    without the last one when it is empty (end of file before any character). *)
Definition getlines (d : ascii) (s : string) : list string :=
  let ts := split_on d s in
  match last ts with
  | Some "" => removelast ts
  | _ => ts
  end.

(** The loops that join a list with a separator between consecutive elements. *)
Fixpoint join (sep : string) (l : list string) : string :=
  match l with
  | [] => ""
  | [x] => x
  | x :: l' => x +:+ sep +:+ join sep l'
  end.

(** [std::reverse_copy], [isspace], [toupper] in the C locale, and [std::to_string]. *)
Definition str_rev (s : string) : string := String.rev s.
Definition isspace (c : ascii) : bool := Ascii.is_space c.
Definition toupper_char (c : ascii) : ascii :=
  let n := nat_of_ascii c in
  if (97 <=? n)%nat && (n <=? 122)%nat then ascii_of_nat (n - 32) else c.
Fixpoint toupper (s : string) : string :=
  match s with "" => "" | String c s' => String (toupper_char c) (toupper s') end.
Definition to_string (z : Z) : string := pretty z.

(** ** Named strings *)
Definition CR : ascii := "013"%char.
Definition LF : ascii := "010"%char.
Definition crlf : string := String CR (String LF "").
Definition crlf2 : string := crlf +:+ crlf.
Definition lf : string := String LF "".
Definition dquote : ascii := "034"%char.
Definition dq : string := String dquote "".

(** ** Lemmas *)

Lemma sapp_nil_l s : "" +:+ s = s.
Proof. done. Qed.
Lemma sapp_cons c s t : String c s +:+ t = String c (s +:+ t).
Proof. done. Qed.
Lemma sapp_nil_r s : s +:+ "" = s.
Proof. induction s as [|c s IH]; [done|]. by rewrite sapp_cons, IH. Qed.
Lemma sapp_assoc s t u : (s +:+ t) +:+ u = s +:+ (t +:+ u).
Proof. induction s as [|c s IH]; [done|]. by rewrite !sapp_cons, IH. Qed.
Lemma slen_app s t : slen (s +:+ t) = (slen s + slen t)%nat.
Proof. induction s as [|c s IH]; [done|]. rewrite sapp_cons. simpl. by rewrite IH. Qed.
Lemma slen_nil s : slen s = 0%nat ↔ s = "".
Proof. by destruct s. Qed.
Lemma sapp_nil_inv s t : s +:+ t = "" ↔ s = "" ∧ t = "".
Proof. destruct s; naive_solver. Qed.

Lemma str_take_app s t : str_take (slen s) (s +:+ t) = s.
Proof. induction s as [|c s IH]; [by destruct t|]. rewrite sapp_cons. simpl. by rewrite IH. Qed.
Lemma str_drop_app s t : str_drop (slen s) (s +:+ t) = t.
Proof. induction s as [|c s IH]; [done|]. by rewrite sapp_cons. Qed.
Lemma str_take_all s n : (slen s ≤ n)%nat → str_take n s = s.
Proof.
  revert n. induction s as [|c s IH]; intros [|n] Hn; simpl in *; try done; [lia|].
  f_equal. apply IH. lia.
Qed.
Lemma str_drop_all s n : (slen s ≤ n)%nat → str_drop n s = "".
Proof.
  revert n. induction s as [|c s IH]; intros [|n] Hn; simpl in *; try done; [lia|].
  apply IH. lia.
Qed.
Lemma str_drop_nil n : str_drop n "" = "".
Proof. by destruct n. Qed.
Lemma str_take_drop n s : str_take n s +:+ str_drop n s = s.
Proof.
  revert s. induction n as [|n IH]; intros [|c s]; try done.
  simpl. by rewrite sapp_cons, IH.
Qed.
Lemma slen_take n s : slen (str_take n s) = Nat.min n (slen s).
Proof. revert s. induction n as [|n IH]; intros [|c s]; simpl; auto. Qed.
Lemma slen_drop n s : slen (str_drop n s) = (slen s - n)%nat.
Proof. revert s. induction n as [|n IH]; intros [|c s]; simpl; auto. Qed.
Lemma str_drop_drop n m s : str_drop n (str_drop m s) = str_drop (m + n) s.
Proof.
  revert s. induction m as [|m IH]; intros s; [done|].
  destruct s; simpl; [by rewrite str_drop_nil|]. apply IH.
Qed.

#[export] Hint Rewrite sapp_assoc sapp_nil_r sapp_nil_l : penncloud.

(** ** Searching for a character *)

(** [c] does not occur in [s]. *)
Definition no_char (c : ascii) (s : string) : Prop := find_char0 c s = None.
Global Instance no_char_dec c s : Decision (no_char c s).
Proof. unfold no_char. apply _. Defined.

Lemma no_char_cons c a s : no_char c (String a s) ↔ a ≠ c ∧ no_char c s.
Proof.
  unfold no_char. simpl. case_decide; [naive_solver|]. rewrite fmap_None. naive_solver.
Qed.

Lemma no_char_app c s t : no_char c (s +:+ t) ↔ no_char c s ∧ no_char c t.
Proof.
  induction s as [|a s IH]; [naive_solver|]. rewrite sapp_cons, !no_char_cons, IH. naive_solver.
Qed.

Lemma find_char0_app c s t :
  no_char c s → find_char0 c (s +:+ t) = Nat.add (slen s) <$> find_char0 c t.
Proof.
  induction s as [|a s IH]; intros Hs.
  - rewrite sapp_nil_l. by destruct (find_char0 c t).
  - apply no_char_cons in Hs as [? Hs]. rewrite sapp_cons. simpl. rewrite decide_False by done.
    rewrite IH by done. by destruct (find_char0 c t).
Qed.

Lemma find_char0_here c s t : no_char c s → find_char0 c (s +:+ String c t) = Some (slen s).
Proof. intros. rewrite find_char0_app by done. simpl. rewrite decide_True by done. simpl. f_equal. lia. Qed.

Lemma find_char0_split c s i :
  find_char0 c s = Some i →
  no_char c (str_take i s) ∧ s = str_take i s +:+ String c (str_drop (S i) s).
Proof.
  revert i. induction s as [|a s IH]; intros i; simpl; [done|]. case_decide as Hc.
  - intros [= <-]. subst. split; [done|]. by destruct s.
  - intros (j & Hj & ->)%fmap_Some. destruct (IH j Hj) as [H1 H2]. split.
    + simpl. apply no_char_cons. done.
    + simpl. rewrite sapp_cons. f_equal. done.
Qed.

(** ** Splitting and joining *)

Lemma split_on_ne d s : split_on d s ≠ [].
Proof. destruct s; simpl; [done|]. case_decide; [done|]. by case_match. Qed.

Lemma split_on_no_char d s : no_char d s → split_on d s = [s].
Proof.
  induction s as [|a s IH]; intros Hs; [done|]. apply no_char_cons in Hs as [? Hs].
  simpl. rewrite decide_False by done. by rewrite IH.
Qed.

Lemma split_on_app d s t : no_char d s → split_on d (s +:+ String d t) = s :: split_on d t.
Proof.
  induction s as [|a s IH]; intros Hs.
  - rewrite sapp_nil_l. simpl. by rewrite decide_True.
  - apply no_char_cons in Hs as [? Hs]. rewrite sapp_cons. simpl.
    rewrite decide_False by done. by rewrite IH.
Qed.

Lemma split_on_find d s i :
  find_char0 d s = Some i → split_on d s = str_take i s :: split_on d (str_drop (S i) s).
Proof. intros [H1 H2]%find_char0_split. rewrite H2 at 1. by rewrite split_on_app. Qed.

Lemma split_on_pieces d s : Forall (no_char d) (split_on d s).
Proof.
  induction s as [|a s IH]; simpl; [by repeat constructor|]. case_decide; [by constructor|].
  destruct (split_on d s) as [|t ts]; [repeat constructor|].
  - unfold no_char. simpl. by rewrite decide_False.
  - apply Forall_cons in IH as [Ht Hts]. constructor; [|done]. by apply no_char_cons.
Qed.

(** Splitting inverts joining, for non-empty lists of pieces without the separator. *)
Lemma split_on_join d l :
  l ≠ [] → Forall (no_char d) l → split_on d (join (String d "") l) = l.
Proof.
  induction l as [|x l IH]; intros Hne Hl; [done|]. apply Forall_cons in Hl as [Hx Hl].
  destruct l as [|y l]; [by apply split_on_no_char|].
  change (join (String d "") (x :: y :: l)) with (x +:+ String d (join (String d "") (y :: l))).
  rewrite split_on_app by done. by rewrite IH.
Qed.

(** Joining inverts splitting. *)
Lemma join_split_on d s : join (String d "") (split_on d s) = s.
Proof.
  induction s as [|a s IH]; [done|]. simpl. pose proof (split_on_ne d s) as Hne.
  case_decide as Ha.
  - destruct (split_on d s) as [|t ts]; [done|]. subst a.
    change (join (String d "") ("" :: t :: ts)) with (String d (join (String d "") (t :: ts))).
    by rewrite IH.
  - destruct (split_on d s) as [|t ts]; [done|]. destruct ts as [|u ts].
    + simpl in *. by rewrite IH.
    + change (String a (join (String d "") (t :: u :: ts)) = String a s). by rewrite IH.
Qed.

Lemma join_snoc sep l x : l ≠ [] → join sep (l ++ [x]) = join sep l +:+ sep +:+ x.
Proof.
  induction l as [|y l IH]; intros Hl; [done|]. destruct l as [|z l]; [done|].
  change (join sep ((y :: z :: l) ++ [x])) with (y +:+ sep +:+ join sep ((z :: l) ++ [x])).
  rewrite IH by done. change (join sep (y :: z :: l)) with (y +:+ sep +:+ join sep (z :: l)).
  by rewrite !sapp_assoc.
Qed.

(** ** Reversal *)

Lemma rev_app_spec s t : String.rev_app s t = String.rev s +:+ t.
Proof.
  unfold String.rev. revert t. induction s as [|a s IH]; intros t; [done|].
  simpl. rewrite IH, (IH (String a "")), sapp_assoc. done.
Qed.

Lemma str_rev_cons a s : str_rev (String a s) = str_rev s +:+ String a "".
Proof. unfold str_rev, String.rev. simpl. by rewrite rev_app_spec. Qed.

Lemma str_rev_app s t : str_rev (s +:+ t) = str_rev t +:+ str_rev s.
Proof.
  induction s as [|a s IH]; [by rewrite sapp_nil_r|].
  by rewrite sapp_cons, !str_rev_cons, IH, sapp_assoc.
Qed.

Lemma str_rev_involutive s : str_rev (str_rev s) = s.
Proof. induction s as [|a s IH]; [done|]. by rewrite str_rev_cons, str_rev_app, IH. Qed.

Lemma no_char_rev c s : no_char c (str_rev s) ↔ no_char c s.
Proof.
  induction s as [|a s IH]; [done|]. rewrite str_rev_cons, no_char_app, IH, !no_char_cons.
  unfold no_char at 2. naive_solver.
Qed.

(** ** Prefixes *)

Lemma starts_with_app p s : starts_with p (p +:+ s) = true.
Proof.
  unfold starts_with. induction p as [|a p IH]; [by destruct s|]. rewrite sapp_cons. simpl.
  by destruct (ascii_dec a a).
Qed.

Lemma starts_with_spec p s : starts_with p s = true ↔ ∃ t, s = p +:+ t.
Proof.
  split; [|intros [t ->]; apply starts_with_app].
  unfold starts_with. revert s. induction p as [|a p IH]; intros s Hs; [by exists s|].
  destruct s as [|b s]; [done|]. simpl in Hs. destruct (ascii_dec a b) as [->|]; [|done].
  destruct (IH s Hs) as [t ->]. by exists t.
Qed.
