(* ===== verification/Table.v ===== *)
(** * Tables: rows of columns

    [unordered_map<string, unordered_map<string, string>>], the data structure of every key-value
    server of the repository, with the four accesses the servers make, their invariant (no row is
    empty) and their specification: a flat map from (row, column) pairs to values. *)
From S2P Require Import Prelude CppString.

Abbreviation row := (gmap string string).
Abbreviation table := (gmap string row).

(** What [find] on the row and then on the column answers. *)
Inductive access := RowMissing | ColMissing | Found (v : string).

Global Instance access_eq_dec : EqDecision access.
Proof. solve_decision. Defined.

(** [kvs.find(row) == kvs.end()], then [kvs.at(row).find(column) == kvs.at(row).end()], then
    [kvs.at(row).at(column)]. *)
Definition table_get (r c : string) (t : table) : access :=
  match t !! r with
  | None => RowMissing
  | Some m => match m !! c with None => ColMissing | Some v => Found v end
  end.

(** [if (kvs.find(row) == kvs.end()) kvs[row] = entry; kvs.at(row)[column] = value;] *)
Definition table_put (r c v : string) (t : table) : table :=
  let t := match t !! r with None => <[r := ∅]> t | Some _ => t end in
  alter (<[c := v]>) r t.

(** [kvs.at(row)[column] = value;] on a row that exists. *)
Definition table_set (r c v : string) (t : table) : table := alter (<[c := v]>) r t.

(** [table[row][column] = value;] *)
Definition table_assign (r c v : string) (t : table) : table :=
  <[r := <[c := v]> (default ∅ (t !! r))]> t.

(** The nested [if]s of every delete: erase the column, then the row if it is left empty. *)
Definition table_delete (r c : string) (t : table) : table :=
  match t !! r with
  | None => t
  | Some m =>
      match m !! c with
      | None => t
      | Some _ =>
          let m' := delete c m in
          if bool_decide (m' = ∅) then delete r t else <[r := m']> t
      end
  end.

(** Compare-and-put: the guards of a conditional put, in the order of the code. *)
Inductive cput_result := CPutRow | CPutCol | CPutMismatch | CPutDone (t : table).
Definition table_cput (r c cur new : string) (t : table) : cput_result :=
  match table_get r c t with
  | RowMissing => CPutRow
  | ColMissing => CPutCol
  | Found v => if bool_decide (v = cur) then CPutDone (table_set r c new t) else CPutMismatch
  end.

(** ** The invariant and the abstract map *)

Definition no_empty_rows (t : table) : Prop := map_Forall (λ _ m, m ≠ ∅) t.
Global Instance no_empty_rows_dec t : Decision (no_empty_rows t).
Proof. unfold no_empty_rows. apply _. Defined.

(** The specification: one finite map from (row, column) to value. *)
Definition flat (t : table) : gmap (string * string) string :=
  map_uncurry (M1:=gmap string) (M2:=gmap string) (M12:=gmap (string * string)) t.

(** ** Lemmas *)

Lemma flat_lookup t r c : flat t !! (r, c) = t !! r ≫= (.!! c).
Proof. apply (lookup_map_uncurry (M1:=gmap string) (M2:=gmap string)). Qed.

Lemma table_put_assign r c v t : table_put r c v t = table_assign r c v t.
Proof.
  unfold table_put, table_assign. apply map_eq; intros i.
  destruct (t !! r) as [m|] eqn:E;
    (destruct (decide (r = i)) as [<-|?];
      [rewrite lookup_alter_eq, lookup_insert_eq|rewrite lookup_alter_ne, lookup_insert_ne by done]).
  - by rewrite E.
  - done.
  - rewrite lookup_insert_eq. done.
  - by rewrite lookup_insert_ne.
Qed.

Lemma table_set_put r c v t : is_Some (t !! r) → table_set r c v t = table_put r c v t.
Proof. unfold table_set, table_put. intros [m ->]. done. Qed.

(** Reading is a lookup in the flat map. *)
Lemma table_get_flat r c t v : table_get r c t = Found v ↔ flat t !! (r, c) = Some v.
Proof.
  rewrite flat_lookup. unfold table_get.
  destruct (t !! r) as [m|]; simpl; [|naive_solver]. destruct (m !! c); naive_solver.
Qed.

Lemma table_get_flat_None r c t :
  (table_get r c t = RowMissing ∨ table_get r c t = ColMissing) ↔ flat t !! (r, c) = None.
Proof.
  rewrite flat_lookup. unfold table_get.
  destruct (t !! r) as [m|]; simpl; [|naive_solver]. destruct (m !! c); naive_solver.
Qed.

Lemma table_put_flat r c v t : flat (table_put r c v t) = <[(r, c) := v]> (flat t).
Proof.
  rewrite table_put_assign. unfold table_assign. apply map_eq; intros [i j].
  rewrite flat_lookup. destruct (decide (r = i)) as [<-|?].
  - rewrite lookup_insert_eq. simpl. destruct (decide (c = j)) as [<-|?].
    + by rewrite !lookup_insert_eq.
    + rewrite !lookup_insert_ne by congruence. rewrite flat_lookup.
      by destruct (t !! r).
  - rewrite !lookup_insert_ne by congruence. by rewrite flat_lookup.
Qed.

Lemma table_delete_flat r c t : flat (table_delete r c t) = delete (r, c) (flat t).
Proof.
  unfold table_delete. apply map_eq; intros [i j]. rewrite flat_lookup.
  destruct (t !! r) as [m|] eqn:E; [destruct (m !! c) as [x|] eqn:Ec|].
  - destruct (decide (r = i)) as [<-|?].
    + assert ((if bool_decide (delete c m = ∅) then delete r t else <[r:=delete c m]> t) !! r
                ≫= (.!! j) = delete c m !! j) as ->.
      { case_bool_decide as He.
        - rewrite lookup_delete_eq, He. done.
        - by rewrite lookup_insert_eq. }
      destruct (decide (c = j)) as [<-|?]; [by rewrite !lookup_delete_eq|].
      rewrite !lookup_delete_ne by congruence. by rewrite flat_lookup, E.
    + rewrite lookup_delete_ne by congruence. rewrite flat_lookup.
      case_bool_decide; [by rewrite lookup_delete_ne|by rewrite lookup_insert_ne].
  - destruct (decide ((r, c) = (i, j))) as [[= <- <-]|?].
    + by rewrite lookup_delete_eq, E.
    + by rewrite lookup_delete_ne, flat_lookup.
  - destruct (decide ((r, c) = (i, j))) as [[= <- <-]|?].
    + by rewrite lookup_delete_eq, E.
    + by rewrite lookup_delete_ne, flat_lookup.
Qed.

(** ** The invariant is preserved *)

Lemma no_empty_rows_empty : no_empty_rows ∅.
Proof. apply map_Forall_empty. Qed.

Lemma no_empty_rows_put r c v t : no_empty_rows t → no_empty_rows (table_put r c v t).
Proof.
  rewrite table_put_assign. intros H. apply map_Forall_insert_2; [|done]. apply insert_non_empty.
Qed.

Lemma no_empty_rows_delete r c t : no_empty_rows t → no_empty_rows (table_delete r c t).
Proof.
  intros H. unfold table_delete.
  destruct (t !! r) as [m|]; [|done]. destruct (m !! c); [|done]. simpl.
  case_bool_decide; [by apply map_Forall_delete|by apply map_Forall_insert_2].
Qed.

Lemma table_get_set r c v0 v t : table_get r c t = Found v0 → table_set r c v t = table_put r c v t.
Proof.
  unfold table_get. intros. apply table_set_put. destruct (t !! r); naive_solver.
Qed.

Lemma table_cput_done r c cur new t t' :
  table_cput r c cur new t = CPutDone t' ↔
  table_get r c t = Found cur ∧ t' = table_put r c new t.
Proof.
  unfold table_cput. destruct (table_get r c t) as [| |v] eqn:E; [naive_solver..|].
  case_bool_decide; [|naive_solver]. rewrite (table_get_set _ _ _ _ _ E). naive_solver.
Qed.

Lemma no_empty_rows_cput r c cur new t t' :
  no_empty_rows t → table_cput r c cur new t = CPutDone t' → no_empty_rows t'.
Proof. intros ? [_ ->]%table_cput_done. by apply no_empty_rows_put. Qed.

#[export] Hint Resolve no_empty_rows_empty no_empty_rows_put no_empty_rows_delete
  no_empty_rows_cput : penncloud.

(** A table without empty rows is determined by its flat map. *)
Lemma flat_inj t1 t2 : no_empty_rows t1 → no_empty_rows t2 → flat t1 = flat t2 → t1 = t2.
Proof.
  unfold flat. intros H1 H2 E.
  rewrite <-(map_curry_uncurry_non_empty (M1:=gmap string) (M2:=gmap string) (MC:=gmap (string * string)) t1 H1).
  rewrite <-(map_curry_uncurry_non_empty (M1:=gmap string) (M2:=gmap string) (MC:=gmap (string * string)) t2 H2).
  by rewrite E.
Qed.
