(* ===== verification/Codec.v ===== *)
(** * Binary codecs: utils/serializer.cc and utils/logger.cc

    Length-prefixed strings on a byte stream (a [uint32_t] length in the byte order of the x86-64
    hosts, little endian, then the bytes), the serialisation of a tablet and the command log of a
    worker.  A stream being read is the string of the bytes not yet read; a failed read is [None]. *)
From S2P Require Import Prelude CppString Table.

(** ** The iteration order of [std::unordered_map]

    A range-for over an [unordered_map] visits every entry once, in an order the library does not
    specify: the development holds for every enumeration of the entries. *)
Class UMapOrder := {
  umap_entries : ∀ {V}, gmap string V → list (string * V);
  umap_entries_perm : ∀ {V} (m : gmap string V), umap_entries m ≡ₚ map_to_list m;
}.

(** The enumeration the witnesses run with. *)
Definition canonical_order : UMapOrder :=
  {| umap_entries := λ V m, map_to_list m; umap_entries_perm := λ V m, reflexivity _ |}.

(** ** Fixed-width integers on the wire *)

Definition byte_of (z : Z) : ascii := ascii_of_N (Z.to_N (z mod 256)).
Definition of_byte (c : ascii) : Z := Z.of_N (N_of_ascii c).

(** [out.write(reinterpret_cast<const char*>(&len), sizeof(len))] *)
Definition write_u32 (z : Z) : string :=
  String (byte_of z) (String (byte_of (z / 2 ^ 8))
    (String (byte_of (z / 2 ^ 16)) (String (byte_of (z / 2 ^ 24)) ""))).

(** [in.read(reinterpret_cast<char*>(&len), sizeof(len))] *)
Definition read_u32 (inp : string) : option (Z * string) :=
  match inp with
  | String a (String b (String c (String d rest))) =>
      Some (of_byte a + 2 ^ 8 * of_byte b + 2 ^ 16 * of_byte c + 2 ^ 24 * of_byte d, rest)
  | _ => None
  end.

(** ** Strings *)

Definition writeString (str : string) : string :=
  let len := to_u32 (Z.of_nat (slen str)) in
  write_u32 len +:+ str_take (Z.to_nat len) str.

Definition readString (inp : string) : option (string * string) :=
  '(len, rest) ← read_u32 inp;
  if bool_decide (Z.of_nat (slen rest) < len) then None
  else Some (str_take (Z.to_nat len) rest, str_drop (Z.to_nat len) rest).

(** ** Tablets *)

Section serializer.
Context `{UMapOrder}.

Definition serializeCols (cols : list (string * string)) : string :=
  foldr (λ cv acc, writeString cv.1 +:+ writeString cv.2 +:+ acc) "" cols.

Definition serializeRow (rm : string * row) : string :=
  writeString rm.1 +:+ write_u32 (to_u32 (Z.of_nat (size rm.2))) +:+
  serializeCols (umap_entries rm.2).

Definition serializeTablet (t : table) : string :=
  write_u32 (to_u32 (Z.of_nat (size t))) +:+
  foldr (λ rm acc, serializeRow rm +:+ acc) "" (umap_entries t).

End serializer.

(** The inner loop: [n] columns of row [r].  The table is updated in place, so it is returned on a
    failed read too.  Every iteration consumes input: [fuel] above its length never runs out
    ([deserializeTablet_fuel]). *)
Fixpoint deserializeCols (fuel : nat) (r : string) (n : Z) (t : table) (inp : string) :
    table * option string :=
  if bool_decide (n ≤ 0) then (t, Some inp)
  else match fuel with
       | O => (t, None)
       | S fuel =>
           match readString inp with
           | None => (t, None)
           | Some (col, inp) =>
               match readString inp with
               | None => (t, None)
               | Some (val, inp) => deserializeCols fuel r (n - 1) (table_assign r col val t) inp
               end
           end
       end.

(** The outer loop: [n] rows. *)
Fixpoint deserializeRows (fuel : nat) (n : Z) (t : table) (inp : string) :
    table * option string :=
  if bool_decide (n ≤ 0) then (t, Some inp)
  else match fuel with
       | O => (t, None)
       | S fuel =>
           match readString inp with
           | None => (t, None)
           | Some (r, inp) =>
               match read_u32 inp with
               | None => (t, None)
               | Some (innerSize, inp) =>
                   match deserializeCols (S (slen inp)) r innerSize t inp with
                   | (t, None) => (t, None)
                   | (t, Some inp) => deserializeRows fuel (n - 1) t inp
                   end
               end
           end
       end.

Definition deserializeTablet (t : table) (buffer : string) : table * bool :=
  match buffer with
  | "" => (t, true)
  | _ =>
      match read_u32 buffer with
      | None => (t, false)
      | Some (outerSize, inp) =>
          let '(t, rest) := deserializeRows (S (slen inp)) outerSize t inp in
          (t, bool_decide (is_Some rest))
      end
  end.

(** ** The command log (utils/logger.cc) *)

Record CommandLog := {
  cl_command : string;
  cl_row : string;
  cl_column : string;
  cl_value1 : string;
  cl_value2 : string;
}.

(** The files of a worker's machine: name to contents. *)
Abbreviation filesystem := (gmap string string).

(** [Logger::Logger(path)]: opening for append creates the file when it is missing. *)
Definition Logger_open (path : string) (fs : filesystem) : filesystem :=
  match fs !! path with Some _ => fs | None => <[path := ""]> fs end.

Definition encodeCommand (cl : CommandLog) : string :=
  writeString (cl_command cl) +:+ writeString (cl_row cl) +:+ writeString (cl_column cl) +:+
  writeString (cl_value1 cl) +:+ writeString (cl_value2 cl).

(** [Logger::logCommand]: the five strings at the end of the file. *)
Definition logCommand (path : string) (cl : CommandLog) (fs : filesystem) : filesystem :=
  <[path := default "" (fs !! path) +:+ encodeCommand cl]> fs.

(** [Logger::readNextCommand]. *)
Definition readNextCommand (inp : string) : option (CommandLog * string) :=
  '(command, inp) ← readString inp;
  '(r, inp) ← readString inp;
  '(column, inp) ← readString inp;
  '(value1, inp) ← readString inp;
  '(value2, inp) ← readString inp;
  Some ({| cl_command := command; cl_row := r; cl_column := column;
           cl_value1 := value1; cl_value2 := value2 |}, inp).

(** The loop of [Logger::getLogs], from the beginning of the file. *)
Fixpoint readCommands (fuel : nat) (inp : string) : list CommandLog :=
  match fuel with
  | O => []
  | S fuel =>
      match readNextCommand inp with
      | None => []
      | Some (cl, inp) => cl :: readCommands fuel inp
      end
  end.
Definition getLogs (path : string) (fs : filesystem) : list CommandLog :=
  let inp := default "" (fs !! path) in readCommands (S (slen inp)) inp.

(** [Logger::clearLog]: truncation. *)
Definition clearLog (path : string) (fs : filesystem) : filesystem := <[path := ""]> fs.

(** ** Sizes that the 32-bit length fields can represent *)

Definition fits32 (n : nat) : Prop := Z.of_nat n < 2 ^ 32.
Definition string_fits (s : string) : Prop := fits32 (slen s).
Definition row_fits (m : row) : Prop :=
  fits32 (size m) ∧ map_Forall (λ c v, string_fits c ∧ string_fits v) m.
Definition table_fits (t : table) : Prop :=
  fits32 (size t) ∧ map_Forall (λ r m, string_fits r ∧ row_fits m) t.
Definition command_fits (cl : CommandLog) : Prop :=
  string_fits (cl_command cl) ∧ string_fits (cl_row cl) ∧ string_fits (cl_column cl) ∧
  string_fits (cl_value1 cl) ∧ string_fits (cl_value2 cl).

Global Instance string_fits_dec s : Decision (string_fits s).
Proof. unfold string_fits, fits32. apply _. Defined.
Global Instance row_fits_dec m : Decision (row_fits m).
Proof. unfold row_fits, fits32. apply _. Defined.
Global Instance table_fits_dec t : Decision (table_fits t).
Proof. unfold table_fits, fits32. apply _. Defined.
Global Instance command_fits_dec cl : Decision (command_fits cl).
Proof. unfold command_fits. apply _. Defined.

(** ** Round trips of the primitives *)

Lemma of_byte_of z : of_byte (byte_of z) = z mod 256.
Proof.
  unfold of_byte, byte_of. pose proof (Z.mod_pos_bound z 256 ltac:(lia)).
  rewrite N_ascii_embedding; [|lia]. rewrite Z2N.id; lia.
Qed.

Lemma read_write_u32 z s : read_u32 (write_u32 z +:+ s) = Some (z mod 2 ^ 32, s).
Proof.
  unfold write_u32. rewrite !sapp_cons, sapp_nil_l. unfold read_u32. f_equal. f_equal.
  rewrite !of_byte_of. Z.to_euclidean_division_equations. lia.
Qed.

Lemma slen_write_u32 z : slen (write_u32 z) = 4%nat.
Proof. done. Qed.

Lemma read_write_size n s :
  fits32 n → read_u32 (write_u32 (to_u32 (Z.of_nat n)) +:+ s) = Some (Z.of_nat n, s).
Proof.
  unfold fits32. intros Hn. rewrite read_write_u32. rewrite to_u32_small by lia.
  by rewrite Z.mod_small by lia.
Qed.

Lemma read_write_string str s : string_fits str → readString (writeString str +:+ s) = Some (str, s).
Proof.
  intros Hf. unfold readString, writeString. rewrite sapp_assoc.
  rewrite read_write_size by done. simpl.
  unfold string_fits, fits32 in Hf. rewrite to_u32_small by lia. rewrite Nat2Z.id.
  rewrite (str_take_all str) by lia. rewrite bool_decide_eq_false_2.
  - by rewrite str_take_app, str_drop_app.
  - rewrite slen_app. lia.
Qed.

Lemma readString_shrinks inp str rest : readString inp = Some (str, rest) → (slen rest < slen inp)%nat.
Proof.
  unfold readString. intros Hr.
  destruct inp as [|a [|b [|c [|d inp]]]]; try done. simpl in Hr.
  case_bool_decide; [done|]. injection Hr as _ <-. rewrite slen_drop. simpl. lia.
Qed.

Lemma read_u32_shrinks inp z rest : read_u32 inp = Some (z, rest) → (slen rest < slen inp)%nat.
Proof. destruct inp as [|a [|b [|c [|d inp]]]]; naive_solver. Qed.

#[export] Hint Resolve readString_shrinks read_u32_shrinks : penncloud.

(** ** Loops: enough fuel, and the inverse of the writers *)

Lemma deserializeCols_shrinks fuel r n t inp t' rest :
  deserializeCols fuel r n t inp = (t', Some rest) → (slen rest ≤ slen inp)%nat.
Proof.
  revert n t inp. induction fuel as [|fuel IH]; intros n t inp; simpl; case_bool_decide;
    try naive_solver lia.
  destruct (readString inp) as [[col inp1]|] eqn:E1; [|done].
  destruct (readString inp1) as [[val inp2]|] eqn:E2; [|done].
  intros Hd%IH. apply readString_shrinks in E1, E2. lia.
Qed.

Lemma deserializeCols_fuel f1 f2 r n t inp :
  (slen inp < f1)%nat → (slen inp < f2)%nat →
  deserializeCols f1 r n t inp = deserializeCols f2 r n t inp.
Proof.
  revert f2 n t inp. induction f1 as [|f1 IH]; intros [|f2] n t inp H1 H2; try lia.
  simpl. case_bool_decide; [done|].
  destruct (readString inp) as [[col inp1]|] eqn:E1; [|done].
  destruct (readString inp1) as [[val inp2]|] eqn:E2; [|done].
  apply readString_shrinks in E1, E2. apply IH; lia.
Qed.

Lemma deserializeRows_fuel f1 f2 n t inp :
  (slen inp < f1)%nat → (slen inp < f2)%nat →
  deserializeRows f1 n t inp = deserializeRows f2 n t inp.
Proof.
  revert f2 n t inp. induction f1 as [|f1 IH]; intros [|f2] n t inp H1 H2; try lia.
  cbn [deserializeRows]. case_bool_decide; [done|].
  destruct (readString inp) as [[r inp1]|] eqn:E1; [|done].
  destruct (read_u32 inp1) as [[inner inp2]|] eqn:E2; [|done].
  destruct (deserializeCols _ _ _ _ _) as [t' [inp3|]] eqn:E3; [|done].
  apply readString_shrinks in E1. apply read_u32_shrinks in E2.
  apply deserializeCols_shrinks in E3. apply IH; lia.
Qed.

Definition load_cols (r : string) (l : list (string * string)) (t : table) : table :=
  foldl (λ t cv, table_assign r cv.1 cv.2 t) t l.

Lemma deserializeCols_serialize fuel r l t s :
  (length l < fuel)%nat → Forall (λ cv, string_fits cv.1 ∧ string_fits cv.2) l →
  deserializeCols fuel r (Z.of_nat (length l)) t (serializeCols l +:+ s) =
    (load_cols r l t, Some s).
Proof.
  revert fuel t. induction l as [|[c v] l IH]; intros [|fuel] t Hl Hf; simpl in Hl; try lia; [done|].
  apply Forall_cons in Hf as [[Hc Hv] Hf].
  cbn [deserializeCols length]. rewrite bool_decide_eq_false_2 by lia.
  cbn [serializeCols foldr fst snd]. fold (serializeCols l). rewrite !sapp_assoc.
  rewrite read_write_string by done. rewrite read_write_string by done.
  replace (Z.of_nat (S (length l)) - 1) with (Z.of_nat (length l)) by lia.
  rewrite IH by (done || lia). done.
Qed.

Lemma load_cols_lookup r l t i :
  load_cols r l t !! i =
    if decide (i = r ∧ l ≠ []) then
      Some (foldl (λ m cv, <[cv.1 := cv.2]> m) (default ∅ (t !! r)) l)
    else t !! i.
Proof.
  unfold load_cols. revert t. induction l as [|[c v] l IH]; intros t.
  { case_decide; naive_solver. }
  cbn [foldl]. rewrite IH. unfold table_assign. cbn [fst snd].
  destruct (decide (i = r)) as [->|Hne].
  - rewrite lookup_insert_eq. simpl. destruct l as [|p l].
    + by rewrite decide_False, decide_True by naive_solver.
    + by rewrite !decide_True by done.
  - rewrite !decide_False by naive_solver. by rewrite lookup_insert_ne.
Qed.

Lemma foldl_insert_reverse {V} (l : list (string * V)) :
  foldl (λ m cv, <[cv.1 := cv.2]> m) ∅ l = (list_to_map (reverse l) : gmap string V).
Proof.
  induction l as [|cv l IH] using rev_ind; [done|].
  rewrite foldl_snoc, IH, reverse_snoc. done.
Qed.

(** Inserting the entries of a map one after the other, in any order, rebuilds it. *)
Lemma foldl_insert_entries {V} (l : list (string * V)) (m : gmap string V) :
  l ≡ₚ map_to_list m → foldl (λ m cv, <[cv.1 := cv.2]> m) ∅ l = m.
Proof.
  intros Hp. rewrite foldl_insert_reverse.
  assert (reverse l ≡ₚ map_to_list m) as Hr by (by rewrite reverse_Permutation).
  rewrite (list_to_map_proper _ (map_to_list m)); [apply list_to_map_to_list| |done].
  rewrite Hr. apply NoDup_fst_map_to_list.
Qed.

Section serializer_proofs.
Context `{UMapOrder}.

Definition load_rows (l : list (string * row)) (t : table) : table :=
  foldl (λ t rm, load_cols rm.1 (umap_entries rm.2) t) t l.

Lemma length_umap_entries {V} (m : gmap string V) : length (umap_entries m) = size m.
Proof. by rewrite umap_entries_perm, length_map_to_list. Qed.

Lemma row_fits_entries m :
  row_fits m → Forall (λ cv, string_fits cv.1 ∧ string_fits cv.2) (umap_entries m).
Proof.
  intros [_ Hf]. rewrite umap_entries_perm. apply Forall_forall. intros [c v] Hin.
  apply elem_of_map_to_list in Hin. apply (Hf c v Hin).
Qed.

Lemma slen_serializeCols l : (length l ≤ slen (serializeCols l))%nat.
Proof.
  induction l as [|[c v] l IH]; [done|]. cbn [serializeCols foldr]. fold (serializeCols l).
  rewrite !slen_app. unfold writeString. rewrite slen_app, slen_write_u32. simpl in *. lia.
Qed.

Lemma deserializeRows_serialize fuel l t s :
  (length l < fuel)%nat → Forall (λ rm, string_fits rm.1 ∧ row_fits rm.2) l →
  deserializeRows fuel (Z.of_nat (length l)) t (foldr (λ rm acc, serializeRow rm +:+ acc) "" l +:+ s)
    = (load_rows l t, Some s).
Proof.
  revert fuel t. induction l as [|[r m] l IH]; intros [|fuel] t Hl Hf; simpl in Hl; try lia; [done|].
  apply Forall_cons in Hf as [[Hr Hm] Hf].
  cbn [deserializeRows length]. rewrite bool_decide_eq_false_2 by lia.
  cbn [foldr]. unfold serializeRow at 1. rewrite !sapp_assoc. cbn [fst snd].
  rewrite read_write_string by done. rewrite read_write_size by apply Hm.
  rewrite <-(length_umap_entries m).
  rewrite deserializeCols_serialize;
    [|rewrite slen_app; pose proof (slen_serializeCols (umap_entries m)); lia
     |by apply row_fits_entries].
  replace (Z.of_nat (S (length l)) - 1) with (Z.of_nat (length l)) by lia.
  rewrite IH by (done || lia). done.
Qed.

(** Loading rows with distinct names into a table that has none of them. *)
Lemma load_rows_lookup l t i :
  NoDup l.*1 → (∀ r, r ∈ l.*1 → t !! r = None) → Forall (λ rm, rm.2 ≠ ∅) l →
  load_rows l t !! i = foldl (λ m rm, <[rm.1 := rm.2]> m) t l !! i.
Proof.
  unfold load_rows. revert t. induction l as [|[r m] l IH]; intros t Hnd Hfresh Hne; [done|].
  cbn [foldl fst snd]. apply NoDup_cons in Hnd as [Hr Hnd]. apply Forall_cons in Hne as [Hm Hne].
  simpl in Hm. assert (load_cols r (umap_entries m) t = <[r := m]> t) as ->.
  { apply map_eq; intros j. rewrite load_cols_lookup.
    assert (umap_entries m ≠ []) as He.
    { intros He. apply Hm, map_size_empty_inv. by rewrite <-(length_umap_entries m), He. }
    destruct (decide (j = r)) as [->|?].
    - rewrite decide_True by done. rewrite (Hfresh r) by set_solver. simpl.
      rewrite (foldl_insert_entries _ m) by apply umap_entries_perm. by rewrite lookup_insert_eq.
    - rewrite decide_False by naive_solver. by rewrite lookup_insert_ne. }
  apply IH; [done| |done]. intros r' Hr'. rewrite lookup_insert_ne by set_solver.
  apply Hfresh. set_solver.
Qed.

Lemma load_rows_entries t : no_empty_rows t → load_rows (umap_entries t) ∅ = t.
Proof.
  intros Hne. apply map_eq; intros i. rewrite load_rows_lookup.
  - by rewrite (foldl_insert_entries _ t) by apply umap_entries_perm.
  - rewrite umap_entries_perm. apply NoDup_fst_map_to_list.
  - done.
  - rewrite umap_entries_perm. apply Forall_forall. intros [r m] Hin.
    apply elem_of_map_to_list in Hin. apply (Hne r m Hin).
Qed.

Lemma slen_serializeRows l :
  (length l ≤ slen (foldr (λ rm acc, serializeRow rm +:+ acc) "" l))%nat.
Proof.
  induction l as [|rm l IH]; [done|]. cbn [foldr]. rewrite slen_app. unfold serializeRow at 1.
  rewrite !slen_app, slen_write_u32. cbn [length]. lia.
Qed.

Lemma deserialize_serialize_table t :
  table_fits t → no_empty_rows t → deserializeTablet ∅ (serializeTablet t) = (t, true).
Proof.
  intros [Hs Hf] Hne. unfold deserializeTablet.
  assert (serializeTablet t = write_u32 (to_u32 (Z.of_nat (size t))) +:+
    foldr (λ rm acc, serializeRow rm +:+ acc) "" (umap_entries t) +:+ "") as E.
  { unfold serializeTablet. by rewrite sapp_nil_r. }
  destruct (serializeTablet t) as [|c s] eqn:Es.
  { apply (f_equal slen) in E. rewrite slen_app, slen_write_u32 in E. done. }
  rewrite E, read_write_size by done. rewrite <-(length_umap_entries t).
  rewrite deserializeRows_serialize.
  - rewrite load_rows_entries by done. done.
  - rewrite slen_app. pose proof (slen_serializeRows (umap_entries t)). lia.
  - rewrite umap_entries_perm. apply Forall_forall. intros [r m] Hin.
    apply elem_of_map_to_list in Hin. apply (Hf r m Hin).
Qed.

End serializer_proofs.

(** ** The command log *)

(** The contents of a log file after a list of commands. *)
Definition encodeLog (cmds : list CommandLog) : string :=
  foldr (λ cl acc, encodeCommand cl +:+ acc) "" cmds.

(** More input behind what was read does not change what is read. *)
Lemma read_u32_app p q z r : read_u32 p = Some (z, r) → read_u32 (p +:+ q) = Some (z, r +:+ q).
Proof. destruct p as [|a [|b [|c [|d p]]]]; naive_solver. Qed.

Lemma str_take_drop_app n s q :
  (n ≤ slen s)%nat → str_take n (s +:+ q) = str_take n s ∧ str_drop n (s +:+ q) = str_drop n s +:+ q.
Proof.
  revert s. induction n as [|n IH]; intros [|c s] Hn; simpl in Hn; try lia; rewrite ?sapp_cons; simpl;
    [by destruct q|done|].
  destruct (IH s) as [-> ->]; [lia|done].
Qed.

Lemma readString_app p q s r : readString p = Some (s, r) → readString (p +:+ q) = Some (s, r +:+ q).
Proof.
  unfold readString. destruct (read_u32 p) as [[len rest]|] eqn:E; [|done].
  rewrite (read_u32_app _ _ _ _ E). simpl. intros Hr. case_bool_decide as Hlen; [done|].
  injection Hr as <- <-. rewrite bool_decide_eq_false_2 by (rewrite slen_app; lia).
  by destruct (str_take_drop_app (Z.to_nat len) rest q) as [-> ->]; [lia|].
Qed.

Lemma readNextCommand_app p q cl r :
  readNextCommand p = Some (cl, r) → readNextCommand (p +:+ q) = Some (cl, r +:+ q).
Proof.
  unfold readNextCommand. intros Hr.
  repeat (match type of Hr with
    | context [readString ?p ≫= _] =>
        let E := fresh in
        destruct (readString p) as [[? ?]|] eqn:E; [|done]; simpl in Hr;
        apply (readString_app _ q) in E; rewrite E; simpl
    end).
  by simplify_eq.
Qed.

Lemma readNextCommand_encode cl s :
  command_fits cl → readNextCommand (encodeCommand cl +:+ s) = Some (cl, s).
Proof.
  intros (H1 & H2 & H3 & H4 & H5). unfold readNextCommand, encodeCommand.
  rewrite !sapp_assoc.
  do 5 (rewrite read_write_string by done; simpl). by destruct cl.
Qed.

(** A record that was cut short does not decode. *)
Lemma readNextCommand_torn cl n :
  command_fits cl → (n < slen (encodeCommand cl))%nat →
  readNextCommand (str_take n (encodeCommand cl)) = None.
Proof.
  intros Hf Hn. destruct (readNextCommand _) as [[cl' r]|] eqn:E; [|done].
  apply (readNextCommand_app _ (str_drop n (encodeCommand cl))) in E.
  rewrite str_take_drop in E.
  pose proof (readNextCommand_encode cl "" Hf) as E'. rewrite sapp_nil_r in E'.
  rewrite E in E'. injection E' as _ E'. apply (f_equal slen) in E'.
  rewrite slen_app, slen_drop in E'. change (slen "") with 0%nat in E'. lia.
Qed.

Lemma readCommands_encode cmds tail fuel :
  Forall command_fits cmds → readNextCommand tail = None → (length cmds < fuel)%nat →
  readCommands fuel (encodeLog cmds +:+ tail) = cmds.
Proof.
  revert fuel. induction cmds as [|cl cmds IH]; intros [|fuel] Hf Ht Hl; simpl in Hl; try lia.
  - change (encodeLog [] +:+ tail) with tail. cbn [readCommands]. by rewrite Ht.
  - apply Forall_cons in Hf as [Hcl Hf]. cbn [encodeLog foldr]. fold (encodeLog cmds).
    rewrite sapp_assoc. cbn [readCommands]. rewrite readNextCommand_encode by done.
    f_equal. apply IH; [done..|lia].
Qed.

Lemma slen_encodeLog cmds : (length cmds ≤ slen (encodeLog cmds))%nat.
Proof.
  induction cmds as [|cl cmds IH]; [done|]. cbn [encodeLog foldr]. fold (encodeLog cmds).
  rewrite slen_app. unfold encodeCommand, writeString at 1. rewrite !slen_app, slen_write_u32.
  cbn [length]. lia.
Qed.

Lemma getLogs_encode path fs cmds tail :
  Forall command_fits cmds → readNextCommand tail = None →
  fs !! path = Some (encodeLog cmds +:+ tail) → getLogs path fs = cmds.
Proof.
  intros Hf Ht Hp. unfold getLogs. rewrite Hp. simpl. apply (readCommands_encode _ _ (S _)); [done..|].
  rewrite slen_app. pose proof (slen_encodeLog cmds). lia.
Qed.

Lemma encodeLog_app c1 c2 : encodeLog (c1 ++ c2) = encodeLog c1 +:+ encodeLog c2.
Proof.
  induction c1 as [|cl c1 IH]; [done|]. cbn [encodeLog foldr app]. fold (encodeLog (c1 ++ c2)).
  fold (encodeLog c1). by rewrite IH, sapp_assoc.
Qed.

Lemma logCommand_encode path fs cmds cl :
  fs !! path = Some (encodeLog cmds) →
  logCommand path cl fs !! path = Some (encodeLog (cmds ++ [cl])).
Proof.
  intros Hp. unfold logCommand. rewrite lookup_insert_eq, Hp, encodeLog_app. simpl.
  by rewrite sapp_nil_r.
Qed.

(** ** Properties *)

(** C16: a tablet written by [serializeTablet], in whatever order the hash map enumerates its
    entries, is read back by [deserializeTablet] as the same tablet, when its sizes fit the 32-bit
    length fields and no row is empty. *)
Theorem deserialize_serialize `{UMapOrder} t :
  table_fits t → no_empty_rows t → deserializeTablet ∅ (serializeTablet t) = (t, true).
Proof. apply deserialize_serialize_table. Qed.

Definition example_table : table :=
  {[ "alice" := {[ "col1" := "hello"; "col3" := "" ]}; "bob" := {[ "x" := "y" ]} ]}.

Lemma deserialize_serialize_witness :
  deserializeTablet ∅ (@serializeTablet canonical_order example_table) = (example_table, true).
Proof.
  apply (@deserialize_serialize canonical_order example_table).
  - apply (@bool_decide_unpack _ (table_fits_dec _)). vm_compute. exact I.
  - apply (@bool_decide_unpack _ (no_empty_rows_dec _)). vm_compute. exact I.
Defined.

(** The loops of [deserializeTablet] terminate on every input, corrupted ones included: each
    iteration consumes input, so any fuel above the number of bytes gives the same result. *)
Theorem deserializeTablet_fuel n fuel t inp :
  (slen inp < fuel)%nat →
  deserializeRows fuel n t inp = deserializeRows (S (slen inp)) n t inp.
Proof. intros. apply deserializeRows_fuel; lia. Qed.

Lemma deserializeTablet_fuel_witness :
  deserializeRows 100 7 ∅ "ERR " = deserializeRows 5 7 ∅ "ERR ".
Proof. apply (deserializeTablet_fuel 7 100 ∅ "ERR "). simpl. lia. Defined.

(** C39: whatever commands a [Logger] has appended to a file that ends in a record cut short by a
    crash, [getLogs] returns exactly the complete commands, in order. *)
Theorem getLogs_torn path fs cmds last n :
  Forall command_fits cmds → command_fits last → (n < slen (encodeCommand last))%nat →
  fs !! path = Some (encodeLog cmds) →
  getLogs path (<[path := encodeLog cmds +:+ str_take n (encodeCommand last)]> fs) = cmds.
Proof.
  intros Hf Hl Hn Hp. eapply getLogs_encode; [done| |apply lookup_insert_eq].
  by apply readNextCommand_torn.
Qed.

Definition example_command : CommandLog :=
  {| cl_command := "PUT"; cl_row := "alice"; cl_column := "col1"; cl_value1 := "hello";
     cl_value2 := "NULL" |}.

Lemma getLogs_torn_witness :
  getLogs "w.log" (<["w.log" := encodeLog [example_command] +:+
    str_take 10 (encodeCommand example_command)]> {["w.log" := encodeLog [example_command]]})
  = [example_command].
Proof.
  apply getLogs_torn.
  - repeat constructor; simpl; lia.
  - repeat constructor; simpl; lia.
  - simpl. lia.
  - done.
Defined.
