(* ===== verification/Utils.v ===== *)
(** * utils/utils.cc

    Hashing of keys to tablets, the query-string and metadata parsers, URL decoding and the
    metadata "encryption" of the email services. *)
From S2P Require Import Prelude CppString.

(** [std::hash<std::string>]: an unspecified function to [size_t]. *)
Class StdHash := std_hash : string → Z.

Definition hashToBucket `{StdHash} (input : string) (numBuckets : Z) : Z :=
  let hash := to_u64 (std_hash input) in
  to_i32 (to_u64 (hash mod to_u64 numBuckets + 1)).

(** The loop of [parseQueryString]; [start] grows at every iteration, so the length of the query
    bounds the number of iterations. *)
Fixpoint parseQueryLoop (fuel : nat) (query : string) (start : nat)
    (params : gmap string string) : gmap string string :=
  match fuel with
  | O => params
  | S fuel =>
      if bool_decide (start < slen query)%nat then
        match find_char "="%char start query with
        | None => params
        | Some eqPos =>
            let key := substr start (eqPos - start) query in
            match find_char "&"%char (eqPos + 1) query with
            | None => <[key := substr_from (eqPos + 1) query]> params
            | Some ampPos =>
                let value := substr (eqPos + 1) (ampPos - eqPos - 1) query in
                parseQueryLoop fuel query (ampPos + 1) (<[key := value]> params)
            end
        end
      else params
  end.
Definition parseQueryString (query : string) : gmap string string :=
  parseQueryLoop (S (slen query)) query 0 ∅.

(** [parseMetadata]: the ';'-separated tokens, each split at its first ':'. *)
Definition parseMetadata (meta : string) : gmap string string :=
  foldl (λ headers token,
    match find_char0 ":"%char token with
    | Some colon => <[str_take colon token := substr_from (colon + 1) token]> headers
    | None => headers
    end) ∅ (getlines ";"%char meta).

(** Hexadecimal digits, as [std::hex] extraction and [std::stoi] read them. *)
Definition hex_digit (c : ascii) : option Z :=
  let n := Z.of_N (N_of_ascii c) in
  if bool_decide (48 ≤ n ≤ 57) then Some (n - 48)
  else if bool_decide (65 ≤ n ≤ 70) then Some (n - 55)
  else if bool_decide (97 ≤ n ≤ 102) then Some (n - 87)
  else None.
Fixpoint hex_digits (acc : option Z) (s : string) : option Z :=
  match s with
  | "" => acc
  | String c s =>
      match hex_digit c with
      | Some d => hex_digits (Some (default 0 acc * 16 + d)) s
      | None => acc
      end
  end.
Fixpoint skip_space (s : string) : string :=
  match s with
  | String c s' => if isspace c then skip_space s' else s
  | "" => ""
  end.
(** An optional sign, then digits; [None] when there are none. *)
Definition signed_hex (s : string) : option Z :=
  match s with
  | String "-"%char s' => Z.opp <$> hex_digits None s'
  | String "+"%char s' => hex_digits None s'
  | _ => hex_digits None s
  end.
(** [iss >> hex >> hexVal] on a string of at most two characters: leading white space is skipped,
    and the prefix "0x" alone is not a number. *)
Definition extract_hex (s : string) : option Z :=
  let s := skip_space s in
  if bool_decide (s = "0x" ∨ s = "0X") then None else signed_hex s.

(** [static_cast<char>] of an [int]. *)
Definition char_of_int (z : Z) : ascii := ascii_of_N (Z.to_N (z mod 256)).

(** [urlDecode]: the test [i + 2 < src.length()] is that at least two characters follow. *)
Fixpoint urlDecode (src : string) : string :=
  match src with
  | "" => ""
  | String c rest =>
      if decide (c = "%"%char) then
        match rest with
        | String h1 (String h2 rest') =>
            match extract_hex (String h1 (String h2 "")) with
            | Some hexVal => String (char_of_int hexVal) (urlDecode rest')
            | None => urlDecode rest'
            end
        | _ => String c (urlDecode rest)
        end
      else if decide (c = "+"%char) then String " "%char (urlDecode rest)
      else String c (urlDecode rest)
  end.

Definition createMetadata (sender recipient subject timestamp : string) : string :=
  "sender:" +:+ sender +:+ ";" +:+ "recipient:" +:+ recipient +:+ ";" +:+
  "subject:" +:+ subject +:+ ";" +:+ "timestamp:" +:+ timestamp +:+ ";".

Definition encryptMetadata (metadata : string) : string := str_rev metadata.
Definition decryptMetadata (encrypted : string) : string := str_rev encrypted.

(** ** Reference definitions *)

(** An HTML form's fields as a query string. *)
Definition form_field (kv : string * string) : string := kv.1 +:+ "=" +:+ kv.2.
Definition encodeForm (kvs : list (string * string)) : string := join "&" (form_field <$> kvs).

(** Percent-encoding of every byte. *)
Definition hex_char (z : Z) : ascii :=
  char_of_int (if bool_decide (z < 10) then z + 48 else z + 55).
Fixpoint urlEncode (s : string) : string :=
  match s with
  | "" => ""
  | String c s =>
      let n := Z.of_N (N_of_ascii c) in
      String "%"%char (String (hex_char (n / 16)) (String (hex_char (n mod 16)) (urlEncode s)))
  end.

(** ** Lemmas *)

Lemma hashToBucket_range `{StdHash} input n :
  0 < n < 2 ^ 31 → 1 ≤ hashToBucket input n ≤ n.
Proof.
  intros Hn. unfold hashToBucket. rewrite (to_u64_small n) by lia.
  pose proof (Z.mod_pos_bound (to_u64 (std_hash input)) n ltac:(lia)).
  rewrite to_u64_small, to_i32_small; lia.
Qed.
#[export] Hint Resolve hashToBucket_range : penncloud.

(** The loop on the part of the query that is left. *)
Fixpoint parseQueryRest (fuel : nat) (rest : string) (params : gmap string string) :
    gmap string string :=
  match fuel with
  | O => params
  | S fuel =>
      match rest with
      | "" => params
      | _ =>
          match find_char0 "="%char rest with
          | None => params
          | Some i =>
              let key := str_take i rest in
              let value := str_drop (S i) rest in
              match find_char0 "&"%char value with
              | None => <[key := value]> params
              | Some j => parseQueryRest fuel (str_drop (S j) value)
                            (<[key := str_take j value]> params)
              end
          end
      end
  end.

Lemma parseQueryLoop_rest fuel query start params :
  parseQueryLoop fuel query start params = parseQueryRest fuel (str_drop start query) params.
Proof.
  revert start params. induction fuel as [|fuel IH]; intros start params; [done|].
  cbn [parseQueryLoop parseQueryRest]. case_bool_decide as Hs.
  - pose proof (slen_drop start query) as Hd.
    destruct (str_drop start query) as [|a rest] eqn:E; [simpl in Hd; lia|].
    unfold find_char. rewrite E.
    destruct (find_char0 "="%char (String a rest)) as [i|]; cbn [fmap option_fmap option_map]; [|done].
    unfold substr, substr_from. rewrite E.
    replace (start + i - start)%nat with i by lia.
    assert (str_drop (start + i + 1) query = str_drop (S i) (String a rest)) as Hv.
    { rewrite <-E, str_drop_drop. f_equal. lia. }
    rewrite Hv.
    destruct (find_char0 "&"%char (str_drop (S i) (String a rest))) as [j|];
      cbn [fmap option_fmap option_map]; [|done].
    rewrite IH. f_equal.
    + rewrite <-Hv, str_drop_drop. f_equal. lia.
    + repeat f_equal. lia.
  - rewrite str_drop_all by lia. done.
Qed.

Lemma parseQueryRest_form kvs params fuel :
  Forall (λ kv, no_char "="%char kv.1 ∧ no_char "&"%char kv.2) kvs →
  (length kvs < fuel)%nat →
  parseQueryRest fuel (encodeForm kvs) params = foldl (λ m kv, <[kv.1 := kv.2]> m) params kvs.
Proof.
  revert params fuel. induction kvs as [|[k v] kvs IH]; intros params [|fuel] Hf Hl;
    simpl in Hl; try lia; [done|].
  apply Forall_cons in Hf as [[Hk Hv] Hf]. cbn [fst snd] in *.
  assert (∃ tail, encodeForm ((k, v) :: kvs) = k +:+ String "="%char (v +:+ tail) ∧
    ((kvs = [] ∧ tail = "") ∨ tail = String "&"%char (encodeForm kvs))) as (tail & E & Ht).
  { unfold encodeForm. destruct kvs as [|kv kvs].
    - exists "". rewrite sapp_nil_r. split; [done|by left].
    - exists (String "&"%char (encodeForm (kv :: kvs))). split; [|by right].
      change (join "&" (form_field <$> (k, v) :: kv :: kvs))
        with (form_field (k, v) +:+ "&" +:+ encodeForm (kv :: kvs)).
      unfold form_field. cbn [fst snd]. by rewrite !sapp_assoc. }
  rewrite E. cbn [parseQueryRest foldl fst snd].
  rewrite find_char0_here by done. rewrite str_take_app.
  replace (str_drop (S (slen k)) (k +:+ String "="%char (v +:+ tail))) with (v +:+ tail); last first.
  { rewrite <-Nat.add_1_r, <-str_drop_drop, str_drop_app. done. }
  destruct (k +:+ String "="%char (v +:+ tail)) as [|a s] eqn:Ek.
  { apply sapp_nil_inv in Ek as [_ ?]. done. }
  rewrite find_char0_app by done. destruct Ht as [[-> ->]| ->].
  - cbn. by rewrite sapp_nil_r.
  - cbn [find_char0]. rewrite decide_True by done. cbn [fmap option_fmap option_map].
    rewrite Nat.add_0_r, str_take_app.
    replace (str_drop (S (slen v)) (v +:+ String "&"%char (encodeForm kvs))) with (encodeForm kvs).
    + apply IH; [done|lia].
    + rewrite <-Nat.add_1_r, <-str_drop_drop, str_drop_app. done.
Qed.

Lemma length_encodeForm kvs : (length kvs ≤ slen (encodeForm kvs))%nat.
Proof.
  unfold encodeForm. induction kvs as [|[k v] kvs IH]; [done|].
  destruct kvs as [|kv kvs].
  - change (slen (join "&" (form_field <$> [(k, v)]))) with (slen (k +:+ "=" +:+ v)).
    rewrite !slen_app. cbn [String.length length]. lia.
  - change (join "&" (form_field <$> (k, v) :: kv :: kvs))
      with ((k +:+ "=" +:+ v) +:+ "&" +:+ join "&" (form_field <$> kv :: kvs)).
    rewrite !slen_app. cbn [String.length length] in *. lia.
Qed.

(** One "key:value;" token of a metadata string. *)
Lemma getlines_token d s t : no_char d s → getlines d (s +:+ String d t) = s :: getlines d t.
Proof.
  intros Hs. unfold getlines. rewrite split_on_app by done.
  pose proof (split_on_ne d t) as Hne. destruct (split_on d t) as [|u us]; [done|].
  cbn [last]. destruct (last (u :: us)) as [w|] eqn:E; [|done]. by destruct w.
Qed.

Lemma find_char0_key c key v : no_char c key →
  find_char0 c (key +:+ String c v) = Some (slen key) ∧
  str_take (slen key) (key +:+ String c v) = key ∧
  substr_from (slen key + 1) (key +:+ String c v) = v.
Proof.
  intros Hk. split; [by apply find_char0_here|]. split; [apply str_take_app|].
  unfold substr_from. by rewrite <-str_drop_drop, str_drop_app.
Qed.

(** Every byte survives two hexadecimal digits. *)
Lemma extract_hex_byte c :
  let n := Z.of_N (N_of_ascii c) in
  char_of_int <$> extract_hex (String (hex_char (n / 16)) (String (hex_char (n mod 16)) "")) = Some c.
Proof. by destruct c as [[] [] [] [] [] [] [] []]. Qed.

(** ** Properties *)

(** [hashToBucket] always answers a bucket in [1, numBuckets], whatever the hash function,
    with the conversions between [size_t] and [int] of the code. *)
Theorem hashToBucket_bounds `{StdHash} input numBuckets :
  0 < numBuckets < 2 ^ 31 → 1 ≤ hashToBucket input numBuckets ≤ numBuckets.
Proof. apply hashToBucket_range. Qed.

Lemma hashToBucket_bounds_witness :
  1 ≤ @hashToBucket (λ _, 2 ^ 64 - 1) "alice123-userinfo" 6 ≤ 6.
Proof. apply (@hashToBucket_bounds (λ _, 2 ^ 64 - 1) "alice123-userinfo" 6). lia. Defined.

(** [parseQueryString] reads back the fields of a form: later fields win, and only the
    separators themselves are excluded from keys ('=') and values ('&'). *)
Theorem parseQueryString_form kvs :
  Forall (λ kv, no_char "="%char kv.1 ∧ no_char "&"%char kv.2) kvs →
  parseQueryString (encodeForm kvs) = foldl (λ m kv, <[kv.1 := kv.2]> m) ∅ kvs.
Proof.
  intros Hf. unfold parseQueryString. rewrite parseQueryLoop_rest. apply parseQueryRest_form; [done|].
  pose proof (length_encodeForm kvs). lia.
Qed.

Lemma parseQueryString_form_witness :
  parseQueryString "to=bob@localhost&subject=a=b&subject=hi" =
    foldl (λ m kv, <[kv.1 := kv.2]> m) ∅
      [("to", "bob@localhost"); ("subject", "a=b"); ("subject", "hi")].
Proof.
  apply (parseQueryString_form [("to", "bob@localhost"); ("subject", "a=b"); ("subject", "hi")]).
  repeat constructor.
Defined.

(** The metadata of an email is recovered field by field by [parseMetadata] from what
    [createMetadata] and the two metadata ciphers produce, when no field contains ';'. *)
Theorem parseMetadata_createMetadata sender recipient subject timestamp :
  no_char ";"%char sender → no_char ";"%char recipient →
  no_char ";"%char subject → no_char ";"%char timestamp →
  parseMetadata (decryptMetadata (encryptMetadata
    (createMetadata sender recipient subject timestamp))) =
    {[ "sender" := sender; "recipient" := recipient; "subject" := subject;
       "timestamp" := timestamp ]}.
Proof.
  intros H1 H2 H3 H4. unfold decryptMetadata, encryptMetadata. rewrite str_rev_involutive.
  assert (getlines ";"%char (createMetadata sender recipient subject timestamp) =
    ["sender" +:+ String ":" sender; "recipient" +:+ String ":" recipient;
     "subject" +:+ String ":" subject; "timestamp" +:+ String ":" timestamp]) as Hl.
  { transitivity (getlines ";"%char
      (("sender" +:+ String ":" sender) +:+ String ";"
      (("recipient" +:+ String ":" recipient) +:+ String ";"
      (("subject" +:+ String ":" subject) +:+ String ";"
      (("timestamp" +:+ String ":" timestamp) +:+ String ";" ""))))).
    { by rewrite !sapp_assoc. }
    assert (∀ k v, no_char ";"%char k → no_char ";"%char v → no_char ";"%char (k +:+ String ":" v))
      as Htok.
    { intros k v Hk Hv. apply no_char_app. split; [done|]. by apply no_char_cons. }
    do 4 (rewrite getlines_token by (apply Htok; done)). done. }
  unfold parseMetadata. rewrite Hl. cbn [foldl].
  repeat match goal with
  | |- context [find_char0 ?c (?key +:+ String ?c ?v)] =>
      destruct (find_char0_key c key v eq_refl) as (-> & -> & ->)
  end.
  apply map_eq; intros i.
  repeat (rewrite lookup_insert; case_decide; subst; simplify_map_eq; try done).
Qed.

Lemma parseMetadata_createMetadata_witness :
  parseMetadata (decryptMetadata (encryptMetadata
    (createMetadata "alice@localhost" "bob@localhost" "Re: hi, bob" "2025-05-01 10:00:00"))) =
    {[ "sender" := "alice@localhost"; "recipient" := "bob@localhost"; "subject" := "Re: hi, bob";
       "timestamp" := "2025-05-01 10:00:00" ]}.
Proof. by apply parseMetadata_createMetadata. Defined.

(** [urlDecode] inverts percent-encoding on every byte string, control characters, '%' and '+'
    included. *)
Theorem urlDecode_urlEncode s : urlDecode (urlEncode s) = s.
Proof.
  induction s as [|c s IH]; [done|]. cbn [urlEncode urlDecode]. rewrite decide_True by done.
  pose proof (extract_hex_byte c) as Hc. cbv zeta in Hc.
  destruct (extract_hex _) as [z|]; [|done]. injection Hc as ->. by rewrite IH.
Qed.
