(* ===== verification/CppStream.v ===== *)
(** * Numbers and words read from text

    The conversions of the C++ library that the components share: decimal numbers and
    white-space-separated words from a stream, [std::stoi], and C strings in receive buffers. *)
From S2P Require Import Prelude CppString Utils.

Definition digit (c : ascii) : option Z :=
  let n := Z.of_N (N_of_ascii c) in
  if bool_decide (48 ≤ n ≤ 57) then Some (n - 48) else None.
(** The longest run of digits, its value, and what follows. *)
Fixpoint digits (acc : option Z) (s : string) : option Z * string :=
  match s with
  | String c s' =>
      match digit c with
      | Some d => digits (Some (default 0 acc * 10 + d)) s'
      | None => (acc, s)
      end
  | "" => (acc, "")
  end.
(** An optional sign. *)
Definition read_sign (s : string) : Z * string :=
  match s with
  | String "-"%char s' => (-1, s')
  | String "+"%char s' => (1, s')
  | _ => (1, s)
  end.
(** [in >> id]: white space, an optional sign, digits; a value outside [int] fails. *)
Definition extract_int (s : string) : option (Z * string) :=
  let s := skip_space s in
  let '(sign, s) := read_sign s in
  match digits None s with
  | (Some v, rest) =>
      if bool_decide (- 2 ^ 31 ≤ sign * v < 2 ^ 31) then Some (sign * v, rest) else None
  | (None, _) => None
  end.
(** [in >> address]: white space, then a non-empty run of other characters. *)
Fixpoint span_word (s : string) : string * string :=
  match s with
  | String c s' =>
      if isspace c then ("", s) else let '(w, rest) := span_word s' in (String c w, rest)
  | "" => ("", "")
  end.
Definition extract_word (s : string) : option (string * string) :=
  match span_word (skip_space s) with
  | ("", _) => None
  | r => Some r
  end.
(** [std::stoi]: [None] is an exception. *)
Definition stoi (s : string) : option Z := fst <$> extract_int s.

(** [atoi]: [strtol], whose result is a [long], and the conversion to [int].  0 when the text has no
    number. *)
Definition atoi (s : string) : Z :=
  let '(sign, s) := read_sign (skip_space s) in
  let v := (sign * default 0 (digits None s).1) `max` (- 2 ^ 63) `min` (2 ^ 63 - 1) in
  to_i32 v.

(** [in >> a >> b >> ...]: the words of a string; every word takes at least a character. *)
Fixpoint words_loop (fuel : nat) (s : string) : list string :=
  match fuel with
  | O => []
  | S fuel =>
      match extract_word s with
      | None => []
      | Some (w, rest) => w :: words_loop fuel rest
      end
  end.
Definition words (s : string) : list string := words_loop (slen s) s.

(** [s.find_first_of("0123456789", ...)] and what follows. *)
Fixpoint skip_to_digit (s : string) : string :=
  match s with
  | "" => ""
  | String c s' => match digit c with Some _ => s | None => skip_to_digit s' end
  end.

(** The part of a receive buffer before its first NUL, as [string(buf)] and [+= buf] read it. *)
Fixpoint c_string (s : string) : string :=
  match s with
  | "" => ""
  | String a s => if decide (a = "000"%char) then "" else String a (c_string s)
  end.

(** [s[pos]] for [pos <= s.size()], which is NUL at the end. *)
Definition char_at (pos : nat) (s : string) : ascii := default "000"%char (String.get pos s).

(** ** Numbers that [to_string] wrote *)

Lemma digit_pretty (m : N) : (m < 10)%N → digit (pretty_N_char m) = Some (Z.of_N m).
Proof.
  intros Hm. destruct m as [|p]; [reflexivity|].
  do 4 (destruct p as [p|p|]; try reflexivity); exfalso; lia.
Qed.
Lemma digits_number (n : N) s :
  digits None (pretty_N_go n s) = digits (if decide (n = 0)%N then None else Some (Z.of_N n)) s.
Proof.
  revert s. induction (N.lt_wf_0 n) as [n _ IH]. intros s. case_decide as Hn.
  { subst. by rewrite pretty_N_go_0. }
  rewrite pretty_N_go_step by lia. rewrite IH by (apply N.div_lt; lia). cbn [digits].
  pose proof (N.mod_lt n 10 ltac:(lia)) as Hm.
  rewrite digit_pretty by done.
  do 2 f_equal. pose proof (N.div_mod n 10 ltac:(lia)) as Hd.
  clear IH Hm. revert Hd. generalize (n mod 10)%N (n / 10)%N. intros m q Hd.
  case_decide; cbn [default from_option id]; lia.
Qed.
Lemma digits_to_string (n : nat) : digits None (to_string (Z.of_nat n)) = (Some (Z.of_nat n), "").
Proof.
  unfold to_string. destruct n as [|n]; [done|].
  change (pretty (Z.of_nat (S n))) with (pretty (N.pos (Pos.of_succ_nat n))). unfold pretty, pretty_N.
  rewrite decide_False by done. rewrite digits_number, decide_False by done. done.
Qed.

Lemma skip_space_digit c d s : digit c = Some d → skip_space (String c s) = String c s.
Proof.
  intros Hd. cbn [skip_space]. replace (isspace c) with false; [done|].
  destruct c as [[] [] [] [] [] [] [] []]; vm_compute in Hd |- *; congruence.
Qed.
(** A number starts with a digit. *)
Lemma to_string_digit (n : nat) :
  ∃ c d s, to_string (Z.of_nat n) = String c s ∧ digit c = Some d.
Proof.
  pose proof (digits_to_string n) as E. destruct (to_string (Z.of_nat n)) as [|c s]; [discriminate E|].
  cbn [digits] in E. destruct (digit c) as [d|] eqn:Hd; [by eauto|discriminate E].
Qed.
Lemma read_sign_digit c d s : digit c = Some d → read_sign (String c s) = (1, String c s).
Proof.
  intros Hd. destruct c as [[] [] [] [] [] [] [] []]; vm_compute in Hd; try discriminate Hd; reflexivity.
Qed.
Lemma to_string_opp (n : nat) : n ≠ 0%nat → to_string (- Z.of_nat n) = "-" +:+ to_string (Z.of_nat n).
Proof. intros Hn. destruct n as [|n]; [done|]. done. Qed.
(** The sign and the digits of a written number. *)
Lemma read_to_string z :
  ∃ sign s, read_sign (skip_space (to_string z)) = (sign, s) ∧
            digits None s = (Some (Z.abs z), "") ∧ sign * Z.abs z = z.
Proof.
  destruct (decide (0 ≤ z)) as [H0|H0].
  - destruct (to_string_digit (Z.to_nat z)) as (c & d & s & Es & Hd).
    pose proof (digits_to_string (Z.to_nat z)) as E. rewrite Z2Nat.id in Es, E by lia.
    exists 1, (String c s). rewrite Es in *.
    rewrite (skip_space_digit _ _ _ Hd), (read_sign_digit _ _ _ Hd), Z.abs_eq by lia.
    split; [done|]. split; [done|lia].
  - exists (-1), (to_string (Z.of_nat (Z.to_nat (- z)))).
    pose proof (to_string_opp (Z.to_nat (- z)) ltac:(lia)) as E. rewrite digits_to_string.
    rewrite Z2Nat.id in * by lia. rewrite Z.opp_involutive in E. rewrite E, Z.abs_neq by lia.
    split; [done|]. split; [done|lia].
Qed.
Lemma stoi_to_string z : - 2 ^ 31 ≤ z < 2 ^ 31 → stoi (to_string z) = Some z.
Proof.
  intros Hz. unfold stoi, extract_int. destruct (read_to_string z) as (sign & s & -> & -> & ->).
  by rewrite bool_decide_true by done.
Qed.
Lemma atoi_to_string z : - 2 ^ 31 ≤ z < 2 ^ 31 → atoi (to_string z) = z.
Proof.
  intros Hz. unfold atoi. destruct (read_to_string z) as (sign & s & -> & -> & E).
  cbn [fst default from_option id]. rewrite E, Z.max_l, Z.min_l by lia.
  by rewrite to_i32_small by done.
Qed.
