(* ===== verification/Rpc.v ===== *)
(** * gRPC statuses and the client wrappers of backend/kvs_client.h

    A remote call answers a status and a reply; the client classes turn both into one string, with
    "ERR " in front of every error.  The services of the frontend only see these strings. *)
From S2P Require Import Prelude CppString.

(** [grpc::StatusCode], the codes the sources use, with gRPC's numbers. *)
Inductive StatusCode :=
  | OK | CANCELLED | INVALID_ARGUMENT | NOT_FOUND | FAILED_PRECONDITION | INTERNAL | UNAVAILABLE.
Definition error_code (c : StatusCode) : Z :=
  match c with
  | OK => 0 | CANCELLED => 1 | INVALID_ARGUMENT => 3 | NOT_FOUND => 5
  | FAILED_PRECONDITION => 9 | INTERNAL => 13 | UNAVAILABLE => 14
  end.

Global Instance StatusCode_eq_dec : EqDecision StatusCode.
Proof. solve_decision. Defined.

Record Status := mkStatus { st_code : StatusCode; st_message : string }.
Definition Status_OK : Status := mkStatus OK "".
Definition status_ok (s : Status) : bool := bool_decide (st_code s = OK).

Global Instance Status_eq_dec : EqDecision Status.
Proof. solve_decision. Defined.

(** The error string every client method builds:
    ["ERR " + to_string(status.error_code()) + ": " + status.error_message() + "\n"]. *)
Definition err_string (s : Status) : string :=
  "ERR " +:+ to_string (error_code (st_code s)) +:+ ": " +:+ st_message s +:+ lf.

(** [res.substr(0, 3) == "ERR"], [res.rfind("ERR", 0) == 0]. *)
Definition is_ERR (res : string) : bool := starts_with "ERR" res.

(** [KeyValueStoreClient]: what each method returns for the status and reply of its call. *)
Definition client_Get (res : Status * string) : string :=
  if status_ok res.1 then res.2 else err_string res.1.
Definition client_Put (res : Status * bool) : string :=
  if status_ok res.1 then "PUT Successful" else err_string res.1.
Definition client_CPut (res : Status * bool) : string :=
  if status_ok res.1 then "CPUT Successful" else err_string res.1.
Definition client_Delete (res : Status * bool) : string :=
  if status_ok res.1 then "Delete Successful" else err_string res.1.
Definition client_ReplicatePut (res : Status * bool) : string :=
  if status_ok res.1 then "PUT Successful" else err_string res.1.
Definition client_ReplicateCPut (res : Status * bool) : string :=
  if status_ok res.1 then "CPUT Successful" else err_string res.1.
Definition client_ReplicateDelete (res : Status * bool) : string :=
  if status_ok res.1 then "Delete Successful" else err_string res.1.

(** [KeyValueStoreClient::CopyTablet]: the chunks of the stream are appended as they come. *)
Definition client_CopyTablet (res : Status * list string) : string :=
  let tabletData := foldl (λ acc chunk, acc +:+ chunk) "" res.2 in
  if negb (status_ok res.1) then err_string res.1 else tabletData.

Definition client_AdminConsole (res : Status * bool) : string :=
  if status_ok res.1 then "AdminConsole request successful" else err_string res.1.

(** [MasterNodeClient]. *)
Definition client_Lookup (res : Status * string) : string :=
  if status_ok res.1 then res.2 else err_string res.1.
Definition client_Heartbeat (res : Status * bool) : string :=
  if status_ok res.1 then "Heartbeat Successful" else err_string res.1.
Definition client_WorkerLookup (res : Status * (string * string * string)) : string :=
  let '(primary, secondary, tertiary) := res.2 in
  if status_ok res.1 then primary +:+ ";" +:+ secondary +:+ ";" +:+ tertiary else err_string res.1.
Definition client_Alive (res : Status * bool) : string :=
  if status_ok res.1 then (if res.2 then "Alive" else "Dead") else err_string res.1.

(** ** Lemmas *)

Lemma err_string_is_ERR s : is_ERR (err_string s) = true.
Proof. unfold is_ERR, err_string. apply (starts_with_app "ERR" (" " +:+ _)). Qed.

Lemma foldl_append l acc : foldl (λ a c, a +:+ c) acc l = acc +:+ foldr String.append "" l.
Proof.
  revert acc. induction l as [|x l IH]; intros acc; simpl; [by rewrite sapp_nil_r|].
  by rewrite IH, sapp_assoc.
Qed.
