(* ===== verification/Coordinator.v ===== *)
(** * The coordinator: backend/coordinator.cc

    The state of [MasterNode] and of the globals [hostMap] and [isAlive], its four RPC handlers and
    one iteration of the heartbeat monitor.  Times are [steady_clock] readings in nanoseconds. *)
From S2P Require Import Prelude CppString Utils CppStream Rpc.

Definition NUM_TABLETS : Z := 6.
Definition DEFAULT_HOST : string := "127.0.0.1".

(** [DEFAULT_HOST + string(":") + to_string(10000 + id)] *)
Definition worker_addr (id : Z) : string := DEFAULT_HOST +:+ ":" +:+ to_string (10000 + id).

Record master := {
  hostMap : gmap Z string;
  isAlive : gmap Z bool;
  lastHeartbeat : gmap Z Z;
}.
Definition set_isAlive (al : gmap Z bool) (m : master) : master :=
  {| hostMap := hostMap m; isAlive := al; lastHeartbeat := lastHeartbeat m |}.
Definition set_lastHeartbeat (hb : gmap Z Z) (m : master) : master :=
  {| hostMap := hostMap m; isAlive := isAlive m; lastHeartbeat := hb |}.

(** The workers that hold a tablet, in the order in which they are tried. *)
Definition candidateIds (tablet : Z) : list Z :=
  [tablet; tablet %% NUM_TABLETS + 1; (tablet + 1) %% NUM_TABLETS + 1].

(** ** hosts.txt *)

(** [while (infile >> id >> address) hostMap[id] = address;]: every iteration consumes input. *)
Fixpoint loadHostMapLoop (fuel : nat) (inp : string) (hosts : gmap Z string) : gmap Z string :=
  match fuel with
  | O => hosts
  | S fuel =>
      match extract_int inp with
      | None => hosts
      | Some (id, inp) =>
          match extract_word inp with
          | None => hosts
          | Some (address, inp) => loadHostMapLoop fuel inp (<[id := address]> hosts)
          end
      end
  end.
Definition loadHostMap (contents : string) : gmap Z string :=
  loadHostMapLoop (S (slen contents)) contents ∅.

(** [MasterNode::MasterNode] at time [now]: no worker has been seen for an hour. *)
Definition MasterNode (hosts : gmap Z string) (now : Z) : master :=
  {| hostMap := hosts; isAlive := ∅;
     lastHeartbeat := list_to_map ((λ id, (id, now - 3600 * 10 ^ 9)) <$> [1; 2; 3; 4; 5; 6]) |}.

(** ** The handlers *)

Section coordinator.
Context `{StdHash}.

(** [MasterNode::Lookup].  [isAlive[id]] inserts [false] for an id that is not there yet; a missing
    host makes [hostMap.at] throw ([None]). *)
Definition Lookup (key : string) (m : master) : option (master * (Status * string)) :=
  let tablet := hashToBucket key NUM_TABLETS in
  let '(a1, al) := map_index false tablet (isAlive m) in
  if a1 then
    worker ← hostMap m !! tablet; Some (set_isAlive al m, (Status_OK, worker))
  else
    let '(a2, al) := map_index false (tablet %% NUM_TABLETS + 1) al in
    if a2 then
      worker ← hostMap m !! (tablet %% NUM_TABLETS + 1);
      Some (set_isAlive al m, (Status_OK, worker))
    else
      let '(a3, al) := map_index false ((tablet + 1) %% NUM_TABLETS + 1) al in
      if a3 then
        worker ← hostMap m !! ((tablet + 1) %% NUM_TABLETS + 1);
        Some (set_isAlive al m, (Status_OK, worker))
      else Some (set_isAlive al m, (mkStatus UNAVAILABLE "All workers are down", "")).

End coordinator.

(** [MasterNode::Heartbeat] at time [now]. *)
Definition Heartbeat (worker_id now : Z) (m : master) : master * (Status * bool) :=
  (set_lastHeartbeat (<[worker_id := now]> (lastHeartbeat m)) m, (Status_OK, true)).

(** [MasterNode::getCurrentPrimary]: the first live candidate, or "ALLDEAD". *)
Fixpoint firstAlive (candidates : list Z) (al : gmap Z bool) : string * gmap Z bool :=
  match candidates with
  | [] => ("ALLDEAD", al)
  | candidate :: rest =>
      let '(alive, al) := map_index false candidate al in
      if alive then (worker_addr candidate, al) else firstAlive rest al
  end.
Definition getCurrentPrimary (tablet_id : Z) (m : master) : master * string :=
  let '(primary, al) := firstAlive (candidateIds tablet_id) (isAlive m) in
  (set_isAlive al m, primary).

(** [MasterNode::WorkerLookup]: where the three tablets of a worker can be copied from. *)
Definition WorkerLookup (primary_id : Z) (m : master) :
    master * (Status * (string * string * string)) :=
  let secondary_id := (primary_id + NUM_TABLETS - 2) %% NUM_TABLETS + 1 in
  let tertiary_id := (primary_id + NUM_TABLETS - 3) %% NUM_TABLETS + 1 in
  let '(m, primary) := getCurrentPrimary primary_id m in
  let '(m, secondary) := getCurrentPrimary secondary_id m in
  let '(m, tertiary) := getCurrentPrimary tertiary_id m in
  (m, (Status_OK, (primary, secondary, tertiary))).

(** [MasterNode::Alive]. *)
Definition Alive (worker : Z) (m : master) : Status * bool :=
  match isAlive m !! worker with
  | None => (mkStatus INVALID_ARGUMENT "Only workers 1-6 exist.", false)
  | Some alive => (Status_OK, alive)
  end.

(** One iteration of [monitorThreadFunc] at time [now]: [duration_cast] to seconds truncates. *)
Definition monitor (now : Z) (m : master) : master :=
  let check last_seen :=
    let elapsed := Z.quot (now - last_seen) (10 ^ 9) in
    negb (bool_decide (elapsed > 3)) in
  set_isAlive ((check <$> lastHeartbeat m) ∪ isAlive m) m.

(** The clock has passed every recorded heartbeat. *)
Definition clock_ok (now : Z) (m : master) : Prop :=
  map_Forall (λ _ seen, seen ≤ now) (lastHeartbeat m).
Global Instance clock_ok_dec now m : Decision (clock_ok now m).
Proof. unfold clock_ok. apply _. Defined.

(** ** The coordinator as a transition system

    [mstep t0 m t1 m']: the coordinator goes from [m], whose last monitor pass was at [t0], to [m'],
    whose last pass is at [t1].  The handlers run under [aliveMutex] and [heartbeatMutex_]: each is
    one step.  The clock is monotonic: nothing happens before the last pass or before a recorded
    heartbeat. *)
Inductive mstep `{StdHash} : Z → master → Z → master → Prop :=
  | step_Lookup t key m m' res :
      Lookup key m = Some (m', res) → mstep t m t m'
  | step_Heartbeat t id now m :
      t ≤ now → clock_ok now m →
      mstep t m t (Heartbeat id now m).1
  | step_WorkerLookup t id m :
      mstep t m t (WorkerLookup id m).1
  | step_monitor t now m :
      t ≤ now → clock_ok now m →
      mstep t m now (monitor now m).

Inductive mreach `{StdHash} (m0 : master) (t0 : Z) : Z → master → Prop :=
  | mreach_init : mreach m0 t0 t0 m0
  | mreach_step t m t' m' : mreach m0 t0 t m → mstep t m t' m' → mreach m0 t0 t' m'.

(** ** Reference: the live holder of a tablet *)

Definition alive (m : master) (id : Z) : bool := default false (isAlive m !! id).
Definition current_holder (m : master) (tablet : Z) : option Z :=
  head (filter (λ id, alive m id = true) (candidateIds tablet)).

(** backend/hosts.txt *)
Definition hosts_txt : string :=
  "1 127.0.0.1:10001" +:+ lf +:+ "2 127.0.0.1:10002" +:+ lf +:+ "3 127.0.0.1:10003" +:+ lf +:+
  "4 127.0.0.1:10004" +:+ lf +:+ "5 127.0.0.1:10005" +:+ lf +:+ "6 127.0.0.1:10006".

(** Every worker 1..6 has the address it listens on. *)
Definition hosts_complete (m : master) : Prop :=
  ∀ id, 1 ≤ id ≤ 6 → hostMap m !! id = Some (worker_addr id).

(** ** Lemmas *)

Lemma hosts_txt_complete now : hosts_complete (MasterNode (loadHostMap hosts_txt) now).
Proof. intros id Hid. by worker_cases id. Qed.

Lemma candidateIds_range tablet : 1 ≤ tablet ≤ 6 → Forall (λ id, 1 ≤ id ≤ 6) (candidateIds tablet).
Proof. intros Ht. unfold candidateIds. rewrite !Forall_cons, Forall_nil.
  by worker_cases tablet. Qed.

Lemma hashToBucket_tablet `{StdHash} key : 1 ≤ hashToBucket key NUM_TABLETS ≤ 6.
Proof. apply hashToBucket_range. unfold NUM_TABLETS. lia. Qed.

(** The liveness table is only touched by the insertion of [false]. *)
Definition same_liveness (al al' : gmap Z bool) : Prop :=
  ∀ j, default false (al' !! j) = default false (al !! j).
Global Instance same_liveness_equiv : Equivalence same_liveness.
Proof. split; unfold same_liveness; [done|by intros ???|by intros ??? H1 H2 j; rewrite H2]. Qed.

Lemma map_index_same k al : same_liveness al (map_index false k al).2.
Proof. intros j. apply map_index_default. Qed.

Lemma firstAlive_spec candidates al :
  let r := firstAlive candidates al in
  same_liveness al r.2 ∧
  r.1 = match head (filter (λ id, default false (al !! id) = true) candidates) with
        | Some id => worker_addr id
        | None => "ALLDEAD"
        end.
Proof.
  revert al. induction candidates as [|c cs IH]; intros al; [done|].
  cbn [firstAlive]. pose proof (map_index_fst false c al) as Hv.
  pose proof (map_index_same c al) as Hs.
  destruct (map_index false c al) as [a al1]. cbn [fst snd] in Hv, Hs. rewrite filter_cons, <-Hv.
  destruct a; [done|]. rewrite decide_False by done.
  destruct (IH al1) as [H1 H2]. split; [by etrans|]. rewrite H2.
  assert (filter (λ id, default false (al1 !! id) = true) cs =
          filter (λ id, default false (al !! id) = true) cs) as ->; [|done].
  apply list_filter_iff. intros id. by rewrite Hs.
Qed.

Lemma getCurrentPrimary_spec tablet m :
  let r := getCurrentPrimary tablet m in
  same_liveness (isAlive m) (isAlive r.1) ∧ hostMap r.1 = hostMap m ∧
  lastHeartbeat r.1 = lastHeartbeat m ∧
  r.2 = match current_holder m tablet with Some id => worker_addr id | None => "ALLDEAD" end.
Proof.
  unfold getCurrentPrimary, current_holder, alive. cbv zeta.
  destruct (firstAlive_spec (candidateIds tablet) (isAlive m)) as [H1 H2].
  destruct (firstAlive _ _). done.
Qed.

Lemma current_holder_same m m' tablet :
  same_liveness (isAlive m) (isAlive m') → current_holder m' tablet = current_holder m tablet.
Proof.
  intros Hs. unfold current_holder, alive. f_equal. apply list_filter_iff. intros id. by rewrite Hs.
Qed.

Lemma current_holder_candidate m tablet id :
  current_holder m tablet = Some id → id ∈ candidateIds tablet ∧ alive m id = true.
Proof.
  unfold current_holder. intros Hh%head_Some_elem_of. by apply list_elem_of_filter in Hh as [? ?].
Qed.

Lemma current_holder_range m tablet id :
  1 ≤ tablet ≤ 6 → current_holder m tablet = Some id → 1 ≤ id ≤ 6.
Proof.
  intros Ht [Hin _]%current_holder_candidate.
  eapply Forall_forall in Hin; [|by apply candidateIds_range]. done.
Qed.

Section lookup_spec.
Context `{StdHash}.

(** [Lookup] with a complete host map. *)
Lemma Lookup_result key m :
  hosts_complete m →
  ∃ m', same_liveness (isAlive m) (isAlive m') ∧ hostMap m' = hostMap m ∧
    lastHeartbeat m' = lastHeartbeat m ∧
    Lookup key m = Some (m',
      match current_holder m (hashToBucket key NUM_TABLETS) with
      | Some id => (Status_OK, worker_addr id)
      | None => (mkStatus UNAVAILABLE "All workers are down", "")
      end).
Proof.
  intros Hh. unfold Lookup, current_holder, alive.
  set (t := hashToBucket key NUM_TABLETS).
  pose proof (candidateIds_range t (hashToBucket_tablet key)) as Hc.
  apply Forall_cons in Hc as [Ht Hc]. apply Forall_cons in Hc as [Ht1 Hc].
  apply Forall_cons in Hc as [Ht2 _]. unfold candidateIds.
  rewrite !filter_cons, filter_nil.
  pose proof (map_index_fst false t (isAlive m)) as V1.
  pose proof (map_index_same t (isAlive m)) as S1.
  destruct (map_index false t (isAlive m)) as [a1 al1]. cbn [fst snd] in V1, S1. rewrite <-V1.
  destruct a1; cbv iota.
  { exists (set_isAlive al1 m). by rewrite (Hh t Ht). }
  pose proof (map_index_fst false (t %% NUM_TABLETS + 1) al1) as V2.
  pose proof (map_index_same (t %% NUM_TABLETS + 1) al1) as S2.
  destruct (map_index _ _ al1) as [a2 al2]. cbn [fst snd] in V2, S2. rewrite S1 in V2. rewrite <-V2.
  assert (same_liveness (isAlive m) al2) as S12 by (by etrans).
  destruct a2; cbv iota.
  { exists (set_isAlive al2 m). by rewrite (Hh _ Ht1). }
  pose proof (map_index_fst false ((t + 1) %% NUM_TABLETS + 1) al2) as V3.
  pose proof (map_index_same ((t + 1) %% NUM_TABLETS + 1) al2) as S3.
  destruct (map_index _ _ al2) as [a3 al3]. cbn [fst snd] in V3, S3. rewrite S12 in V3. rewrite <-V3.
  assert (same_liveness (isAlive m) al3) as S123 by (by etrans).
  destruct a3; cbv iota.
  { exists (set_isAlive al3 m). by rewrite (Hh _ Ht2). }
  by exists (set_isAlive al3 m).
Qed.

End lookup_spec.

(** ** Failure detection *)

(** Alive means: the last heartbeat is less than four seconds older than the last monitor pass. *)
Definition fresh (t : Z) (m : master) : Prop :=
  ∀ id, alive m id = true → ∃ seen, lastHeartbeat m !! id = Some seen ∧ t - seen < 4 * 10 ^ 9.

Lemma check_fresh now seen :
  seen ≤ now → negb (bool_decide (Z.quot (now - seen) (10 ^ 9) > 3)) = true ↔ now - seen < 4 * 10 ^ 9.
Proof.
  intros. rewrite negb_true_iff, bool_decide_eq_false. rewrite Z.quot_div_nonneg by lia.
  Z.to_euclidean_division_equations. lia.
Qed.

Lemma fresh_same t m m' :
  same_liveness (isAlive m) (isAlive m') → lastHeartbeat m' = lastHeartbeat m →
  fresh t m → fresh t m'.
Proof. intros Hs Hl Hf id. unfold alive. rewrite Hs, Hl. apply Hf. Qed.

Lemma WorkerLookup_same id m :
  same_liveness (isAlive m) (isAlive (WorkerLookup id m).1) ∧
  hostMap (WorkerLookup id m).1 = hostMap m ∧
  lastHeartbeat (WorkerLookup id m).1 = lastHeartbeat m.
Proof.
  unfold WorkerLookup.
  pose proof (getCurrentPrimary_spec id m) as H1. cbv zeta in H1.
  destruct (getCurrentPrimary id m) as [m1 p1].
  set (id2 := (id + NUM_TABLETS - 2) %% NUM_TABLETS + 1).
  pose proof (getCurrentPrimary_spec id2 m1) as H2. cbv zeta in H2.
  destruct (getCurrentPrimary id2 m1) as [m2 p2].
  set (id3 := (id + NUM_TABLETS - 3) %% NUM_TABLETS + 1).
  pose proof (getCurrentPrimary_spec id3 m2) as H3. cbv zeta in H3.
  destruct (getCurrentPrimary id3 m2) as [m3 p3].
  cbn [fst snd] in *. destruct_and!. split_and!; [|congruence..].
  by repeat (etrans; [eassumption|]).
Qed.

Section detection.
Context `{StdHash}.

Lemma Lookup_same key m m' res :
  Lookup key m = Some (m', res) →
  same_liveness (isAlive m) (isAlive m') ∧ hostMap m' = hostMap m ∧ lastHeartbeat m' = lastHeartbeat m.
Proof.
  unfold Lookup. set (t := hashToBucket key NUM_TABLETS).
  pose proof (map_index_same t (isAlive m)) as S1.
  destruct (map_index false t (isAlive m)) as [a1 al1]. cbn [snd] in S1. destruct a1.
  { intros (? & _ & [= <- <-])%bind_Some. done. }
  pose proof (map_index_same (t %% NUM_TABLETS + 1) al1) as S2.
  destruct (map_index _ _ al1) as [a2 al2]. cbn [snd] in S2.
  assert (same_liveness (isAlive m) al2) as S12 by (by etrans). destruct a2.
  { intros (? & _ & [= <- <-])%bind_Some. done. }
  pose proof (map_index_same ((t + 1) %% NUM_TABLETS + 1) al2) as S3.
  destruct (map_index _ _ al2) as [a3 al3]. cbn [snd] in S3.
  assert (same_liveness (isAlive m) al3) as S123 by (by etrans). destruct a3.
  { intros (? & _ & [= <- <-])%bind_Some. done. }
  by intros [= <- <-].
Qed.

Lemma monitor_alive now m id :
  clock_ok now m →
  alive (monitor now m) id = true ↔
    match lastHeartbeat m !! id with
    | Some seen => now - seen < 4 * 10 ^ 9
    | None => alive m id = true
    end.
Proof.
  intros Hle. unfold alive, monitor. simpl. rewrite lookup_union, lookup_fmap.
  destruct (lastHeartbeat m !! id) as [seen|] eqn:E; simpl.
  - rewrite union_Some_l. simpl. apply check_fresh. by apply (Hle id).
  - by destruct (isAlive m !! id).
Qed.

Lemma mstep_fresh t m t' m' : mstep t m t' m' → fresh t m → fresh t' m'.
Proof.
  intros Hstep Hf. destruct Hstep as [t key m m' res HL|t id now m Hle Hall|t id m|t now m Hle Hall].
  - apply Lookup_same in HL as (? & _ & ?). by eapply fresh_same.
  - intros j Hj. destruct (Hf j Hj) as (seen & Hs & Hlt). simpl.
    destruct (decide (id = j)) as [->|?].
    + exists now. rewrite lookup_insert_eq. split; [done|lia].
    + exists seen. by rewrite lookup_insert_ne.
  - destruct (WorkerLookup_same id m) as (? & _ & ?). by eapply fresh_same.
  - intros j Hj. apply monitor_alive in Hj; [|done]. simpl.
    destruct (lastHeartbeat m !! j) as [seen|] eqn:E; [by exists seen|].
    destruct (Hf j Hj) as (seen & Hs & _). congruence.
Qed.

End detection.

(** The address [getCurrentPrimary] gives for a tablet. *)
Definition source (m : master) (t : Z) : string :=
  match current_holder m t with Some w => worker_addr w | None => "ALLDEAD" end.

Lemma WorkerLookup_answer id m :
  (WorkerLookup id m).2 =
    (Status_OK, (source m id, source m ((id + 4) %% 6 + 1), source m ((id + 3) %% 6 + 1))).
Proof.
  unfold WorkerLookup, NUM_TABLETS, source.
  replace (id + 6 - 2) with (id + 4) by lia. replace (id + 6 - 3) with (id + 3) by lia.
  pose proof (getCurrentPrimary_spec id m) as (H1 & _ & _ & E1).
  destruct (getCurrentPrimary id m) as [m1 p1]. cbn [fst snd] in *.
  pose proof (getCurrentPrimary_spec ((id + 4) %% 6 + 1) m1) as (H2 & _ & _ & E2).
  destruct (getCurrentPrimary ((id + 4) %% 6 + 1) m1) as [m2 p2]. cbn [fst snd] in *.
  pose proof (getCurrentPrimary_spec ((id + 3) %% 6 + 1) m2) as (_ & _ & _ & E3).
  destruct (getCurrentPrimary ((id + 3) %% 6 + 1) m2) as [m3 p3]. cbn [fst snd] in *.
  rewrite (current_holder_same m m1) in E2 by done.
  rewrite (current_holder_same m m2) in E3 by (by etrans). by subst.
Qed.

(** ** Properties *)

(** C17: with the shipped host map, [Lookup] never throws; it answers the address of the first live
    worker among the tablet's primary and its two successors on the ring, and UNAVAILABLE exactly
    when all three are down; the liveness table, the hosts and the heartbeats are unchanged. *)
Theorem Lookup_correct `{StdHash} key m :
  hosts_complete m →
  ∃ m', Lookup key m = Some (m',
      match current_holder m (hashToBucket key NUM_TABLETS) with
      | Some id => (Status_OK, worker_addr id)
      | None => (mkStatus UNAVAILABLE "All workers are down", "")
      end) ∧
    (∀ id, alive m' id = alive m id) ∧ hostMap m' = hostMap m ∧ lastHeartbeat m' = lastHeartbeat m.
Proof.
  intros Hh. destruct (Lookup_result key m Hh) as (m' & Hs & ? & ? & ?).
  exists m'. split_and!; try done.
Qed.

Definition example_master : master :=
  set_isAlive {[ 1 := false; 2 := true; 3 := true; 4 := true; 5 := true; 6 := true ]}
    (MasterNode (loadHostMap hosts_txt) 0).

Lemma Lookup_correct_witness :
  ∃ m', @Lookup (λ _, 0) "alice-storage" example_master =
      Some (m', (Status_OK, "127.0.0.1:10002")) ∧
    (∀ id, alive m' id = alive example_master id) ∧ hostMap m' = hostMap example_master ∧
    lastHeartbeat m' = lastHeartbeat example_master.
Proof. apply (@Lookup_correct (λ _, 0) "alice-storage" example_master), hosts_txt_complete. Defined.

(** The three addresses [WorkerLookup] gives a restarting worker are, for each of its three
    tablets, the address of the first live holder of that tablet, or "ALLDEAD". *)
Theorem WorkerLookup_correct id m :
  (WorkerLookup id m).2 =
    (Status_OK, (source m id, source m ((id + 4) %% 6 + 1), source m ((id + 3) %% 6 + 1))).
Proof. apply WorkerLookup_answer. Qed.

(** C18: in every state the coordinator can reach, a worker it considers alive sent a heartbeat
    less than four seconds before the last pass of the monitor: a silent worker is detected. *)
Theorem coordinator_fresh `{StdHash} hosts t0 t m :
  mreach (MasterNode hosts t0) t0 t m → fresh t m.
Proof.
  induction 1 as [|t m t' m' _ IH Hstep]; [|by eapply mstep_fresh].
  intros id. unfold alive. simpl. by rewrite lookup_empty.
Qed.

(** A heartbeat of worker 3 at 5 s, then a monitor pass at 8 s. *)
Definition beaten_master : master :=
  monitor (8 * 10 ^ 9) (Heartbeat 3 (5 * 10 ^ 9) (MasterNode (loadHostMap hosts_txt) 0)).1.

Lemma coordinator_fresh_witness : alive beaten_master 3 = true ∧ fresh (8 * 10 ^ 9) beaten_master.
Proof.
  split; [reflexivity|].
  apply (@coordinator_fresh (λ _, 0) (loadHostMap hosts_txt) 0 (8 * 10 ^ 9) beaten_master).
  eapply mreach_step; [eapply mreach_step; [apply mreach_init|]|].
  - apply (step_Heartbeat 0 3 (5 * 10 ^ 9)); [lia|].
    apply (@bool_decide_unpack _ (clock_ok_dec _ _)). vm_compute. exact I.
  - apply (step_monitor 0 (8 * 10 ^ 9)); [lia|].
    apply (@bool_decide_unpack _ (clock_ok_dec _ _)). vm_compute. exact I.
Defined.
