(* ===== verification/Worker.v ===== *)
(** * A worker process: backend/worker.cc

    The globals of the process and the files it owns, the RPC handlers up to the point where they
    call other workers (the replication loops are in [Cluster]), checkpointing, and recovery.  The
    handlers return [None] where the C++ throws or ends the process. *)
From S2P Require Import Prelude CppString Table Codec Utils Rpc Coordinator.

Definition MAX_UPDATE_COUNT : Z := 10.
Definition TABLET_NOT_FOUND : Z := -1.
Definition ADMIN_PASS : string := "admin".

Record worker := {
  workerId : Z;
  tablets : list table;
  loggers : list string;
  updateRequestCount : gmap Z Z;
  admin_workerUp : bool;
  disk : filesystem;
}.

Definition set_tablet (i : nat) (t : table) (w : worker) : worker :=
  {| workerId := workerId w; tablets := <[i := t]> (tablets w); loggers := loggers w;
     updateRequestCount := updateRequestCount w; admin_workerUp := admin_workerUp w;
     disk := disk w |}.
Definition set_count (n c : Z) (w : worker) : worker :=
  {| workerId := workerId w; tablets := tablets w; loggers := loggers w;
     updateRequestCount := <[n := c]> (updateRequestCount w); admin_workerUp := admin_workerUp w;
     disk := disk w |}.
Definition set_up (b : bool) (w : worker) : worker :=
  {| workerId := workerId w; tablets := tablets w; loggers := loggers w;
     updateRequestCount := updateRequestCount w; admin_workerUp := b; disk := disk w |}.
Definition set_disk (d : filesystem) (w : worker) : worker :=
  {| workerId := workerId w; tablets := tablets w; loggers := loggers w;
     updateRequestCount := updateRequestCount w; admin_workerUp := admin_workerUp w; disk := d |}.

(** ** Which tablet of this worker *)

Definition prev1 (id : Z) : Z := (id + NUM_TABLETS - 2) %% NUM_TABLETS + 1.
Definition prev2 (id : Z) : Z := (id + NUM_TABLETS - 3) %% NUM_TABLETS + 1.

(** [getTablet(int)]: the index in [tablets] of the tablet with number [t]. *)
Definition getTabletById (t : Z) (w : worker) : option nat :=
  if bool_decide (t = workerId w) then Some 0%nat
  else if bool_decide (t = prev1 (workerId w)) then Some 1%nat
  else if bool_decide (t = prev2 (workerId w)) then Some 2%nat
  else None.

(** [getTabletNumberOnThisWorker(int)]. *)
Definition getTabletNumberById (t : Z) (w : worker) : Z :=
  if bool_decide (t = workerId w) then 1
  else if bool_decide (t = prev1 (workerId w)) then 2
  else if bool_decide (t = prev2 (workerId w)) then 3
  else TABLET_NOT_FOUND.

(** [getLogger(int)]: the file of the logger. *)
Definition getLoggerById (t : Z) (w : worker) : option string :=
  if bool_decide (t = workerId w) then loggers w !! 0%nat
  else if bool_decide (t = prev1 (workerId w)) then loggers w !! 1%nat
  else if bool_decide (t = prev2 (workerId w)) then loggers w !! 2%nat
  else None.

Section by_key.
Context `{StdHash}.
Definition getTablet (key : string) (w : worker) : option nat :=
  getTabletById (hashToBucket key NUM_TABLETS) w.
Definition getTabletNumberOnThisWorker (key : string) (w : worker) : Z :=
  getTabletNumberById (hashToBucket key NUM_TABLETS) w.
Definition getLogger (key : string) (w : worker) : option string :=
  getLoggerById (hashToBucket key NUM_TABLETS) w.
End by_key.

(** ** Clients of the other workers *)

(** [workerClientPtrs], filled by [main] for every other worker.  The result of
    [workerClientPtrs[addr].get()]: [None] is the null pointer. *)
Definition workerClientPtrs (w : worker) : list string :=
  worker_addr <$> filter (λ i, i ≠ workerId w) [1; 2; 3; 4; 5; 6].
Definition client_ptr (addr : string) (w : worker) : option string :=
  if bool_decide (addr ∈ workerClientPtrs w) then Some addr else None.

Definition getReplicasForReplication `{StdHash} (key : string) (w : worker) :
    list (string * option string) :=
  let t := hashToBucket key NUM_TABLETS in
  if bool_decide (t = workerId w) then
    let replica1_addr := worker_addr (workerId w %% NUM_TABLETS + 1) in
    let replica2_addr := worker_addr ((workerId w + 1) %% NUM_TABLETS + 1) in
    [(replica1_addr, client_ptr replica1_addr w); (replica2_addr, client_ptr replica2_addr w)]
  else if bool_decide (t = prev1 (workerId w)) then
    let replica_addr := worker_addr (workerId w %% NUM_TABLETS + 1) in
    if bool_decide (replica_addr ∈ workerClientPtrs w) then
      [(replica_addr, client_ptr replica_addr w)]
    else []
  else [].

(** ** Files *)

Definition checkpointFile (id n : Z) : string :=
  "../backend/checkpoints/worker" +:+ to_string id +:+ "_tablet" +:+ to_string n +:+ ".bin".
Definition logFile (id n : Z) : string :=
  "../backend/command_logs/worker" +:+ to_string id +:+ "_tablet" +:+ to_string n +:+ ".log".

Definition commitCheckpoint (filename binaryData : string) (fs : filesystem) : filesystem :=
  <[filename := binaryData]> fs.

(** [retrieveCheckpoint(filename, binaryData)] with [binaryData] empty before the call. *)
Definition retrieveCheckpoint (filename : string) (fs : filesystem) : bool * string :=
  match fs !! filename with
  | None => (false, "")
  | Some "" => (false, "")
  | Some data => (true, data)
  end.

(** ** Statuses *)

Definition st_down : Status := mkStatus UNAVAILABLE "Worker is shut down".
Definition st_not_here : Status := mkStatus NOT_FOUND "Key does not belong in this worker".
Definition st_no_row : Status := mkStatus NOT_FOUND "Row key not found".
Definition st_no_col : Status := mkStatus NOT_FOUND "Column key not found".
Definition st_mismatch : Status :=
  mkStatus FAILED_PRECONDITION "Current value does not match specified value".

(** ** The handlers *)

Section handlers.
Context `{StdHash} `{UMapOrder}.

(** [WorkerNodeKVS::Get]. *)
Definition Get (r c : string) (w : worker) : option (Status * string) :=
  if negb (admin_workerUp w) then Some (st_down, "")
  else
    let tabletNum := getTabletNumberOnThisWorker r w in
    if bool_decide (tabletNum = TABLET_NOT_FOUND) then Some (st_not_here, "")
    else
      i ← getTablet r w;
      kvs ← tablets w !! i;
      match table_get r c kvs with
      | RowMissing => Some (st_no_row, "")
      | ColMissing => Some (st_no_col, "")
      | Found value => Some (Status_OK, value)
      end.

(** "log command", "update counter", "checkpoint tablet if required": the same statements in all
    six update handlers. *)
Definition record_update (cl : CommandLog) (tabletNum : Z) (logger : string) (kvs : table)
    (w : worker) : worker :=
  let w := set_disk (logCommand logger cl (disk w)) w in
  let count := default 0 (updateRequestCount w !! tabletNum) + 1 in
  let w := set_count tabletNum count w in
  if bool_decide (MAX_UPDATE_COUNT ≤ count) then
    let binaryData := serializeTablet kvs in
    let d := commitCheckpoint (checkpointFile (workerId w) tabletNum) binaryData (disk w) in
    set_count tabletNum 0 (set_disk (clearLog logger d) w)
  else w.

(** [WorkerNodeKVS::Put] before its replication loop. *)
Definition Put_local (r c value : string) (w : worker) : option (worker * (Status * bool)) :=
  if negb (admin_workerUp w) then Some (w, (st_down, false))
  else
    let tabletNum := getTabletNumberOnThisWorker r w in
    if bool_decide (tabletNum = TABLET_NOT_FOUND) then Some (w, (st_not_here, false))
    else
      i ← getTablet r w;
      logger ← getLogger r w;
      kvs ← tablets w !! i;
      let kvs := table_put r c value kvs in
      let w := set_tablet i kvs w in
      Some (record_update
        {| cl_command := "PUT"; cl_row := r; cl_column := c; cl_value1 := value;
           cl_value2 := "NULL" |} tabletNum logger kvs w, (Status_OK, true)).

(** [WorkerNodeKVS::CPut] before its replication loop. *)
Definition CPut_local (r c current_value new_value : string) (w : worker) :
    option (worker * (Status * bool)) :=
  if negb (admin_workerUp w) then Some (w, (st_down, false))
  else
    let tabletNum := getTabletNumberOnThisWorker r w in
    if bool_decide (tabletNum = TABLET_NOT_FOUND) then Some (w, (st_not_here, false))
    else
      i ← getTablet r w;
      logger ← getLogger r w;
      kvs ← tablets w !! i;
      match table_cput r c current_value new_value kvs with
      | CPutRow => Some (w, (st_no_row, false))
      | CPutCol => Some (w, (st_no_col, false))
      | CPutMismatch => Some (w, (st_mismatch, false))
      | CPutDone kvs =>
          let w := set_tablet i kvs w in
          Some (record_update
            {| cl_command := "CPUT"; cl_row := r; cl_column := c; cl_value1 := current_value;
               cl_value2 := new_value |} tabletNum logger kvs w, (Status_OK, true))
      end.

(** [WorkerNodeKVS::Delete] before its replication loop. *)
Definition Delete_local (r c : string) (w : worker) : option (worker * (Status * bool)) :=
  if negb (admin_workerUp w) then Some (w, (st_down, false))
  else
    let tabletNum := getTabletNumberOnThisWorker r w in
    if bool_decide (tabletNum = TABLET_NOT_FOUND) then Some (w, (st_not_here, false))
    else
      i ← getTablet r w;
      logger ← getLogger r w;
      kvs ← tablets w !! i;
      let kvs := table_delete r c kvs in
      let w := set_tablet i kvs w in
      Some (record_update
        {| cl_command := "DELETE"; cl_row := r; cl_column := c; cl_value1 := "NULL";
           cl_value2 := "NULL" |} tabletNum logger kvs w, (Status_OK, true)).

(** [WorkerNodeKVS::ReplicatePut], [ReplicateCPut] and [ReplicateDelete]: statement for statement
    the handlers above, without a replication loop. *)
Definition ReplicatePut (r c value : string) (w : worker) := Put_local r c value w.
Definition ReplicateCPut (r c current_value new_value : string) (w : worker) :=
  CPut_local r c current_value new_value w.
Definition ReplicateDelete (r c : string) (w : worker) := Delete_local r c w.

(** [const size_t CHUNK_SIZE = 1024 * 1024] *)
Definition CHUNK_SIZE : nat := Z.to_nat (1024 * 1024).

(** The loop of [CopyTablet]: [write k] is whether [writer->Write] accepts the [k]-th chunk. *)
Fixpoint sendChunks (fuel size : nat) (write : nat → bool) (k : nat) (data : string) :
    Status * list string :=
  match fuel with
  | O => (Status_OK, [])
  | S fuel =>
      match data with
      | "" => (Status_OK, [])
      | _ =>
          if write k then
            let '(st, chunks) := sendChunks fuel size write (S k) (str_drop size data) in
            (st, str_take size data :: chunks)
          else (mkStatus INTERNAL "Stream write failed", [])
      end
  end.

(** [WorkerNodeKVS::CopyTablet]: the status and the chunks put on the stream. *)
Definition CopyTablet (write : nat → bool) (tablet_id : Z) (w : worker) :
    option (Status * list string) :=
  if negb (admin_workerUp w) then Some (st_down, [])
  else
    let tabletNum := getTabletNumberById tablet_id w in
    if bool_decide (tabletNum = TABLET_NOT_FOUND) then Some (st_not_here, [])
    else
      i ← getTabletById tablet_id w;
      kvs ← tablets w !! i;
      let binaryData := serializeTablet kvs in
      Some (sendChunks (slen binaryData) CHUNK_SIZE write 0 binaryData).

End handlers.

(** ** Recovery *)

(** [replayLogs]: the tablet afterwards and whether every command was replayed. *)
Fixpoint replayLogs (logs : list CommandLog) (t : table) : table * bool :=
  match logs with
  | [] => (t, true)
  | cl :: logs =>
      if bool_decide (cl_command cl = "PUT") then
        replayLogs logs (table_put (cl_row cl) (cl_column cl) (cl_value1 cl) t)
      else if bool_decide (cl_command cl = "CPUT") then
        match table_cput (cl_row cl) (cl_column cl) (cl_value1 cl) (cl_value2 cl) t with
        | CPutDone t => replayLogs logs t
        | _ => (t, false)
        end
      else if bool_decide (cl_command cl = "DELETE") then
        replayLogs logs (table_delete (cl_row cl) (cl_column cl) t)
      else (t, false)
  end.

(** [recoverFromLocal]: [None] when the process exits. *)
Definition recoverFromLocal (tabletNum tabletOnThisWorker : Z) (w : worker) : option worker :=
  logger ← getLoggerById tabletNum w;
  i ← getTabletById tabletNum w;
  let '(_, binaryData) :=
    retrieveCheckpoint (checkpointFile (workerId w) tabletOnThisWorker) (disk w) in
  let '(tablet, ok) :=
    if bool_decide (binaryData = "") then (∅, true) else deserializeTablet ∅ binaryData in
  if negb ok then None
  else
    let logs := getLogs logger (disk w) in
    match logs with
    | [] => Some (set_tablet i tablet w)
    | _ =>
        let '(tablet, success) := replayLogs logs tablet in
        if success then Some (set_tablet i tablet w) else None
    end.

(** The loop of [recoverAllTablets] over the hosts of the answer of [WorkerLookup];
    [copy host tablet] is what [workerClientPtrs[host]->CopyTablet(tablet)] returns. *)
Fixpoint recoverLoop (copy : string → Z → string) (hosts : list string) (tablet : Z) (w : worker) :
    option worker :=
  match hosts with
  | [] => Some w
  | host :: hosts =>
      let tabletNum := getTabletNumberById tablet w in
      if bool_decide (tabletNum = TABLET_NOT_FOUND) then None
      else
        w ← (if bool_decide (host = "ALLDEAD") then recoverFromLocal tablet tabletNum w
             else
               addr ← client_ptr host w;
               i ← getTabletById tablet w;
               let '(kvs, _) := deserializeTablet ∅ (copy addr tablet) in
               Some (set_tablet i kvs w));
        recoverLoop copy hosts ((tablet + NUM_TABLETS - 2) %% NUM_TABLETS + 1) w
  end.
Definition recoverAllTablets (copy : string → Z → string) (res : string) (w : worker) :
    option worker :=
  if is_ERR res then None else recoverLoop copy (getlines ";"%char res) (workerId w) w.

(** [WorkerNodeKVS::AdminConsole]; [recover] is the effect of [recoverAllTablets]. *)
Definition AdminConsole (recover : worker → option worker) (password command : string)
    (w : worker) : option (worker * (Status * bool)) :=
  if bool_decide (password ≠ ADMIN_PASS) then
    Some (w, (mkStatus INVALID_ARGUMENT "Invalid admin password", false))
  else
    w ← (if bool_decide (command = "SHUTDOWN") then
           Some (if admin_workerUp w then set_up false w else w)
         else if bool_decide (command = "RESTART") then
           if negb (admin_workerUp w) then set_up true <$> recover w else Some w
         else Some w);
    Some (w, (Status_OK, true)).

(** The process of [main] up to [recoverAllTablets]: empty tablets, the log files open. *)
Definition boot (id : Z) (fs : filesystem) : worker :=
  let logs := [logFile id 1; logFile id 2; logFile id 3] in
  {| workerId := id; tablets := [∅; ∅; ∅]; loggers := logs;
     updateRequestCount := {[ 1 := 0; 2 := 0; 3 := 0 ]};
     admin_workerUp := true;
     disk := foldl (λ d path, Logger_open path d) fs logs |}.
Definition worker_main (copy : string → Z → string) (res : string) (id : Z) (fs : filesystem) :
    option worker :=
  recoverAllTablets copy res (boot id fs).
