(* ===== verification/WorkerFacts.v ===== *)
(** * Facts about a worker: placement, updates, well-formedness

    The six update handlers as one operation on an [update], which the durability and replication
    proofs share; placement of tablets on the ring; the well-formedness invariant of a worker. *)
From S2P Require Import Prelude CppString Table Codec Utils Rpc Coordinator Worker.

(** ** Updates *)

Inductive update :=
  | UPut (r c v : string)
  | UCPut (r c cur new : string)
  | UDelete (r c : string).

Definition update_row (u : update) : string :=
  match u with UPut r _ _ | UCPut r _ _ _ | UDelete r _ => r end.
(** The command the handlers log. *)
Definition update_log (u : update) : CommandLog :=
  match u with
  | UPut r c v => {| cl_command := "PUT"; cl_row := r; cl_column := c; cl_value1 := v;
                     cl_value2 := "NULL" |}
  | UCPut r c cur new => {| cl_command := "CPUT"; cl_row := r; cl_column := c; cl_value1 := cur;
                            cl_value2 := new |}
  | UDelete r c => {| cl_command := "DELETE"; cl_row := r; cl_column := c; cl_value1 := "NULL";
                      cl_value2 := "NULL" |}
  end.
(** The effect on the tablet, or the status that refuses it. *)
Definition update_table (u : update) (t : table) : Status + table :=
  match u with
  | UPut r c v => inr (table_put r c v t)
  | UCPut r c cur new =>
      match table_cput r c cur new t with
      | CPutRow => inl st_no_row
      | CPutCol => inl st_no_col
      | CPutMismatch => inl st_mismatch
      | CPutDone t' => inr t'
      end
  | UDelete r c => inr (table_delete r c t)
  end.

(** The tablet and the answer after an update, refused or not. *)
Definition new_table (u : update) (T : table) : table :=
  match update_table u T with inr T' => T' | inl _ => T end.
Definition update_answer (u : update) (T : table) : Status * bool :=
  match update_table u T with inr _ => (Status_OK, true) | inl st => (st, false) end.

Definition update_local `{StdHash} `{UMapOrder} (u : update) (w : worker) :
    option (worker * (Status * bool)) :=
  if negb (admin_workerUp w) then Some (w, (st_down, false))
  else
    let tabletNum := getTabletNumberOnThisWorker (update_row u) w in
    if bool_decide (tabletNum = TABLET_NOT_FOUND) then Some (w, (st_not_here, false))
    else
      i ← getTablet (update_row u) w;
      logger ← getLogger (update_row u) w;
      kvs ← tablets w !! i;
      match update_table u kvs with
      | inl st => Some (w, (st, false))
      | inr kvs =>
          Some (record_update (update_log u) tabletNum logger kvs (set_tablet i kvs w),
                (Status_OK, true))
      end.

(** The handler a request runs. *)
Definition update_handler `{StdHash} `{UMapOrder} (u : update) (w : worker) :
    option (worker * (Status * bool)) :=
  match u with
  | UPut r c v => Put_local r c v w
  | UCPut r c cur new => CPut_local r c cur new w
  | UDelete r c => Delete_local r c w
  end.

Lemma update_handler_local `{StdHash} `{UMapOrder} u w : update_handler u w = update_local u w.
Proof.
  destruct u; [done| |done]. cbn [update_handler]. unfold CPut_local, update_local.
  cbn [update_row update_table update_log].
  repeat (case_match; try done). destruct (getTablet _ _); [|done].
  simpl. destruct (getLogger _ _); [|done]. simpl. destruct (tablets w !! n); [|done].
  simpl. by destruct (table_cput _ _ _ _ _).
Qed.

(** ** Well-formed workers *)

Record wf_worker (w : worker) : Prop := {
  wf_id : 1 ≤ workerId w ≤ 6;
  wf_tablets : length (tablets w) = 3%nat;
  wf_loggers : loggers w = [logFile (workerId w) 1; logFile (workerId w) 2; logFile (workerId w) 3];
  wf_rows : Forall no_empty_rows (tablets w);
  wf_counts : ∀ n, 0 ≤ default 0 (updateRequestCount w !! n) < MAX_UPDATE_COUNT;
}.

(** ** Placement *)

(** The tablet a worker keeps at index [i]. *)
Definition tablet_at_index (id : Z) (i : nat) : Z :=
  match i with O => id | 1%nat => prev1 id | _ => prev2 id end.

Lemma getTabletById_index t w i :
  1 ≤ workerId w ≤ 6 → getTabletById t w = Some i ↔ (i < 3)%nat ∧ t = tablet_at_index (workerId w) i.
Proof.
  unfold getTabletById. intros Hid. generalize dependent (workerId w). intros id Hid.
  split.
  - repeat case_bool_decide; naive_solver lia.
  - intros [Hi ->]. destruct i as [|[|[|i]]]; [by rewrite bool_decide_true|..|lia];
      by worker_cases id.
Qed.

(** The three lookups agree. *)
Lemma getTablet_number t w :
  getTabletNumberById t w =
    match getTabletById t w with Some i => Z.of_nat (S i) | None => TABLET_NOT_FOUND end.
Proof. unfold getTabletNumberById, getTabletById. by repeat case_bool_decide. Qed.

Lemma getTablet_logger t w :
  getLoggerById t w = getTabletById t w ≫= λ i, loggers w !! i.
Proof. unfold getLoggerById, getTabletById. by repeat case_bool_decide. Qed.

Lemma getTablet_not_found t w :
  bool_decide (getTabletNumberById t w = TABLET_NOT_FOUND) =
    match getTabletById t w with Some _ => false | None => true end.
Proof.
  rewrite getTablet_number. unfold TABLET_NOT_FOUND.
  destruct (getTabletById t w); [rewrite bool_decide_false by lia|rewrite bool_decide_true by done];
    done.
Qed.

Lemma getTabletById_lt t w i : getTabletById t w = Some i → (i < 3)%nat.
Proof. unfold getTabletById. repeat case_bool_decide; naive_solver lia. Qed.

Lemma wf_logger w i : wf_worker w → (i < 3)%nat → loggers w !! i = Some (logFile (workerId w) (Z.of_nat (S i))).
Proof. intros Hw Hi. rewrite (wf_loggers w Hw). by destruct i as [|[|[|i]]]; [..|lia]. Qed.

Lemma wf_tablet w i : wf_worker w → (i < 3)%nat → is_Some (tablets w !! i).
Proof. intros Hw Hi. apply lookup_lt_is_Some. by rewrite (wf_tablets w Hw). Qed.

(** On a well-formed worker the handlers never throw, and run as follows. *)
Lemma update_local_wf `{StdHash} `{UMapOrder} u w :
  wf_worker w →
  update_local u w = Some (
    if negb (admin_workerUp w) then (w, (st_down, false))
    else match getTablet (update_row u) w with
         | None => (w, (st_not_here, false))
         | Some i =>
             match update_table u (tablets w !!! i) with
             | inl st => (w, (st, false))
             | inr kvs =>
                 (record_update (update_log u) (Z.of_nat (S i)) (logFile (workerId w) (Z.of_nat (S i)))
                    kvs (set_tablet i kvs w), (Status_OK, true))
             end
         end).
Proof.
  intros Hw. unfold update_local. destruct (negb _); [done|].
  unfold getTabletNumberOnThisWorker, getTablet, getLogger.
  rewrite getTablet_not_found, getTablet_number, getTablet_logger.
  destruct (getTabletById _ w) as [i|] eqn:Ei; [|done]. simpl.
  pose proof (getTabletById_lt _ _ _ Ei) as Hi. rewrite (wf_logger w i Hw Hi). simpl.
  destruct (wf_tablet w i Hw Hi) as [t Ht]. rewrite (list_lookup_total_correct _ _ _ Ht), Ht. simpl.
  by destruct (update_table u t).
Qed.

(** Every update keeps rows non-empty. *)
Lemma update_table_rows u t t' : no_empty_rows t → update_table u t = inr t' → no_empty_rows t'.
Proof.
  intros Ht. destruct u as [r c v|r c cur new|r c]; simpl.
  - intros [= <-]. auto with penncloud.
  - destruct (table_cput _ _ _ _ _) eqn:E; intros [= <-]. eauto with penncloud.
  - intros [= <-]. auto with penncloud.
Qed.

Lemma record_update_fields `{UMapOrder} cl n logger kvs w :
  let w' := record_update cl n logger kvs w in
  workerId w' = workerId w ∧ tablets w' = tablets w ∧ loggers w' = loggers w ∧
  admin_workerUp w' = admin_workerUp w.
Proof. unfold record_update. cbv zeta. by case_bool_decide. Qed.

Lemma record_update_counts `{UMapOrder} cl n logger kvs w :
  (∀ k, 0 ≤ default 0 (updateRequestCount w !! k) < MAX_UPDATE_COUNT) →
  ∀ k, 0 ≤ default 0 (updateRequestCount (record_update cl n logger kvs w) !! k) < MAX_UPDATE_COUNT.
Proof.
  intros Hc k. pose proof (Hc n) as Hn. pose proof (Hc k) as Hk.
  unfold record_update, MAX_UPDATE_COUNT in *. simpl. case_bool_decide as Hd; simpl.
  - rewrite !lookup_insert. repeat case_decide; simpl; lia.
  - rewrite !lookup_insert. repeat case_decide; simpl; lia.
Qed.

Lemma wf_record `{UMapOrder} cl n logger kvs i w :
  wf_worker w → no_empty_rows kvs → wf_worker (record_update cl n logger kvs (set_tablet i kvs w)).
Proof.
  intros [H1 H2 H3 H4 H5] Hk.
  destruct (record_update_fields cl n logger kvs (set_tablet i kvs w)) as (E1 & E2 & E3 & E4).
  split; rewrite ?E1, ?E2, ?E3; simpl.
  - done.
  - by rewrite length_insert.
  - done.
  - apply Forall_insert; done.
  - by apply record_update_counts.
Qed.

Lemma update_local_preserves `{StdHash} `{UMapOrder} u w w' res :
  wf_worker w → update_local u w = Some (w', res) →
  wf_worker w' ∧ workerId w' = workerId w ∧ admin_workerUp w' = admin_workerUp w.
Proof.
  intros Hw. rewrite update_local_wf by done. intros [= Hr].
  destruct (negb (admin_workerUp w)); simplify_eq/=; [done|].
  destruct (getTablet (update_row u) w) as [i|] eqn:Ei; simplify_eq/=; [|done].
  destruct (update_table u _) as [st|kvs] eqn:Eu; simplify_eq/=; [done|].
  pose proof (getTabletById_lt _ _ _ Ei) as Hi. destruct (wf_tablet w i Hw Hi) as [t Ht].
  rewrite (list_lookup_total_correct _ _ _ Ht) in Eu.
  destruct (record_update_fields (update_log u) (Z.of_nat (S i)) (logFile (workerId w) (Z.of_nat (S i)))
    kvs (set_tablet i kvs w)) as (E1 & E2 & E3 & E4).
  split; [|by rewrite E1, E4]. apply wf_record; [done|].
  eapply update_table_rows; [|done]. eapply Forall_lookup_1; [apply Hw|done].
Qed.

Lemma wf_boot id fs : 1 ≤ id ≤ 6 → wf_worker (boot id fs).
Proof.
  intros Hid. split; simpl; [done..| |].
  - repeat constructor; apply no_empty_rows_empty.
  - intros n. rewrite !lookup_insert. unfold MAX_UPDATE_COUNT.
    repeat case_decide; simpl; try lia.
    rewrite lookup_singleton. case_decide; simpl; lia.
Qed.

#[export] Hint Resolve wf_boot : penncloud.
