(* ===== verification/Durability.v ===== *)
(** * Durability: checkpoints, command logs and recovery from the local disk

    The invariant that ties the tablets in memory to the checkpoint and the log on disk, its
    preservation by every update, and the correctness of recovery after a crash. *)
From S2P Require Import Prelude CppString Table Codec Utils Rpc Coordinator Worker WorkerFacts.

(** ** The durable state of a tablet *)

(** The table of the checkpoint file that [recoverFromLocal] starts from. *)
Definition checkpoint_table (file : string) (fs : filesystem) : table * bool :=
  let binaryData := (retrieveCheckpoint file fs).2 in
  if bool_decide (binaryData = "") then (∅, true) else deserializeTablet ∅ binaryData.

(** The [i]-th tablet of worker [id] can be rebuilt from its checkpoint and its log. *)
Definition durable_tablet (fs : filesystem) (id : Z) (i : nat) (t : table) : Prop :=
  ∃ base cmds,
    checkpoint_table (checkpointFile id (Z.of_nat (S i))) fs = (base, true) ∧
    fs !! logFile id (Z.of_nat (S i)) = Some (encodeLog cmds) ∧
    Forall command_fits cmds ∧
    replayLogs cmds base = (t, true).

Definition durable (w : worker) : Prop :=
  ∀ i t, tablets w !! i = Some t → durable_tablet (disk w) (workerId w) i t.

(** ** File names *)

Lemma logFile_inj id i j :
  1 ≤ id ≤ 6 → (i < 3)%nat → (j < 3)%nat →
  logFile id (Z.of_nat (S i)) = logFile id (Z.of_nat (S j)) → i = j.
Proof.
  intros Hid Hi Hj. worker_cases id; destruct i as [|[|[|i]]], j as [|[|[|j]]]; try lia;
    vm_compute; done.
Qed.

Lemma checkpointFile_inj id i j :
  1 ≤ id ≤ 6 → (i < 3)%nat → (j < 3)%nat →
  checkpointFile id (Z.of_nat (S i)) = checkpointFile id (Z.of_nat (S j)) → i = j.
Proof.
  intros Hid Hi Hj. worker_cases id; destruct i as [|[|[|i]]], j as [|[|[|j]]]; try lia;
    vm_compute; done.
Qed.

Lemma checkpoint_not_log id n m : checkpointFile id n ≠ logFile id m.
Proof. by unfold checkpointFile, logFile. Qed.

(** ** Replaying *)

Lemma replayLogs_app l1 l2 t :
  replayLogs (l1 ++ l2) t =
    let '(t', ok) := replayLogs l1 t in if ok then replayLogs l2 t' else (t', false).
Proof.
  revert t. induction l1 as [|cl l1 IH]; intros t; [done|]. simpl.
  repeat case_bool_decide; try done; [].
  by destruct (table_cput _ _ _ _ t).
Qed.

(** Replaying a logged update repeats it. *)
Lemma replay_update u t t' : update_table u t = inr t' → replayLogs [update_log u] t = (t', true).
Proof.
  destruct u as [r c v|r c cur new|r c]; simpl; [by intros [= <-]| |by intros [= <-]].
  by destruct (table_cput _ _ _ _ _); intros [= <-].
Qed.

(** ** Preservation *)

Lemma checkpoint_table_frame file fs fs' :
  fs !! file = fs' !! file → checkpoint_table file fs = checkpoint_table file fs'.
Proof. intros E. unfold checkpoint_table, retrieveCheckpoint. by rewrite E. Qed.

Lemma durable_frame fs fs' id i t :
  fs !! checkpointFile id (Z.of_nat (S i)) = fs' !! checkpointFile id (Z.of_nat (S i)) →
  fs !! logFile id (Z.of_nat (S i)) = fs' !! logFile id (Z.of_nat (S i)) →
  durable_tablet fs id i t → durable_tablet fs' id i t.
Proof.
  intros Ec El (base & cmds & H1 & H2 & H3 & H4). exists base, cmds.
  rewrite <-El. by rewrite <-(checkpoint_table_frame _ fs fs' Ec).
Qed.

Section preservation.
Context `{StdHash} `{UMapOrder}.

(** A committed checkpoint reads back as the table. *)
Lemma checkpoint_table_commit file t fs :
  table_fits t → no_empty_rows t → fs !! file = Some (serializeTablet t) →
  checkpoint_table file fs = (t, true).
Proof.
  intros Hf Hn Hl. pose proof (deserialize_serialize_table t Hf Hn) as Hd.
  unfold checkpoint_table, retrieveCheckpoint. rewrite Hl.
  destruct (serializeTablet t) eqn:E; [|by rewrite bool_decide_false].
  by rewrite bool_decide_true.
Qed.

Lemma record_update_disk cl n logger kvs w :
  disk (record_update cl n logger kvs w) =
    if bool_decide (MAX_UPDATE_COUNT ≤ default 0 (updateRequestCount w !! n) + 1)
    then clearLog logger (commitCheckpoint (checkpointFile (workerId w) n) (serializeTablet kvs)
           (logCommand logger cl (disk w)))
    else logCommand logger cl (disk w).
Proof. unfold record_update. cbv zeta. simpl. by case_bool_decide. Qed.

(** The tablet that was updated. *)
Lemma durable_record u i t t' w :
  1 ≤ workerId w ≤ 6 → durable_tablet (disk w) (workerId w) i t →
  update_table u t = inr t' → command_fits (update_log u) → table_fits t' → no_empty_rows t' →
  durable_tablet (disk (record_update (update_log u) (Z.of_nat (S i))
    (logFile (workerId w) (Z.of_nat (S i))) t' w)) (workerId w) i t'.
Proof.
  intros Hid (base & cmds & Hb & Hl & Hc & Hr) Hu Hcf Htf Hne. rewrite record_update_disk.
  case_bool_decide.
  - exists t', []. split_and!; [|apply lookup_insert_eq|done..].
    apply checkpoint_table_commit; [done..|]. unfold clearLog, commitCheckpoint.
    rewrite lookup_insert_ne by (apply not_eq_sym, checkpoint_not_log). apply lookup_insert_eq.
  - exists base, (cmds ++ [update_log u]). split_and!.
    + rewrite <-Hb. apply checkpoint_table_frame. unfold logCommand.
      by rewrite lookup_insert_ne by (apply not_eq_sym, checkpoint_not_log).
    + by apply logCommand_encode.
    + apply Forall_app_2; auto.
    + rewrite replayLogs_app, Hr. by apply replay_update.
Qed.

(** The other tablets. *)
Lemma durable_record_other cl kvs i j t w :
  1 ≤ workerId w ≤ 6 → (i < 3)%nat → (j < 3)%nat → i ≠ j →
  durable_tablet (disk w) (workerId w) j t →
  durable_tablet (disk (record_update cl (Z.of_nat (S i))
    (logFile (workerId w) (Z.of_nat (S i))) kvs w)) (workerId w) j t.
Proof.
  intros Hid Hi Hj Hij. apply durable_frame; rewrite record_update_disk;
    unfold clearLog, commitCheckpoint, logCommand;
    pose proof (logFile_inj (workerId w) i j Hid Hi Hj);
    pose proof (checkpointFile_inj (workerId w) i j Hid Hi Hj);
    pose proof (λ n m, not_eq_sym (checkpoint_not_log (workerId w) n m));
    case_bool_decide; rewrite ?lookup_insert_ne by auto using checkpoint_not_log; done.
Qed.

Lemma durable_update u w w' res :
  wf_worker w → durable w → update_local u w = Some (w', res) →
  command_fits (update_log u) → Forall table_fits (tablets w') → durable w'.
Proof.
  intros Hw Hd. rewrite update_local_wf by done. intros [= Hr].
  destruct (negb (admin_workerUp w)); simplify_eq/=; [done|].
  destruct (getTablet (update_row u) w) as [i|] eqn:Ei; simplify_eq/=; [|done].
  destruct (update_table u _) as [st|kvs] eqn:Eu; simplify_eq/=; [done|].
  intros Hcf Htf j tj.
  pose proof (getTabletById_lt _ _ _ Ei) as Hi. destruct (wf_tablet w i Hw Hi) as [t Ht].
  rewrite (list_lookup_total_correct _ _ _ Ht) in Eu.
  destruct (record_update_fields (update_log u) (Z.of_nat (S i)) (logFile (workerId w) (Z.of_nat (S i)))
    kvs (set_tablet i kvs w)) as (E1 & E2 & E3 & E4).
  rewrite E1. rewrite E2 in *. simpl in *. intros Hj.
  pose proof (Hd i t Ht) as Hdi. pose proof (wf_id w Hw) as Hid.
  assert (no_empty_rows kvs) as Hne.
  { eapply update_table_rows; [|done]. eapply Forall_lookup_1; [apply Hw|done]. }
  assert (<[i:=kvs]> (tablets w) !! i = Some kvs) as Hkvs.
  { apply list_lookup_insert_eq. by apply lookup_lt_Some in Ht. }
  destruct (decide (i = j)) as [<-|Hij].
  - rewrite Hkvs in Hj. simplify_eq.
    apply (durable_record u i t tj (set_tablet i tj w)); try done.
    eapply Forall_lookup_1; done.
  - rewrite list_lookup_insert_ne in Hj by done.
    apply (durable_record_other _ _ i j tj (set_tablet i kvs w)); try done.
    + apply lookup_lt_Some in Hj. rewrite (wf_tablets w Hw) in Hj. done.
    + apply (Hd j tj Hj).
Qed.

End preservation.

(** ** Recovery *)

(** The answer of the coordinator when no other holder of the three tablets is alive. *)
Definition all_dead : string := "ALLDEAD;ALLDEAD;ALLDEAD".

Lemma replay_branch cmds t t' :
  replayLogs cmds t = (t', true) →
  match cmds with
  | [] => Some t
  | _ => let '(tablet, success) := replayLogs cmds t in if success then Some tablet else None
  end = Some t'.
Proof. intros E. destruct cmds; [by simplify_eq/=|by rewrite E]. Qed.

(** [recoverFromLocal] rebuilds a durable tablet. *)
Lemma recoverFromLocal_durable w i t :
  1 ≤ workerId w ≤ 6 → (i < 3)%nat →
  loggers w !! i = Some (logFile (workerId w) (Z.of_nat (S i))) →
  durable_tablet (disk w) (workerId w) i t →
  recoverFromLocal (tablet_at_index (workerId w) i) (Z.of_nat (S i)) w = Some (set_tablet i t w).
Proof.
  intros Hid Hi Hlog (base & cmds & Hb & Hl & Hc & Hr). unfold recoverFromLocal.
  assert (getTabletById (tablet_at_index (workerId w) i) w = Some i) as E by
    (by apply getTabletById_index).
  rewrite getTablet_logger, E. cbn [mbind option_bind]. rewrite Hlog. cbn [mbind option_bind].
  unfold checkpoint_table in Hb. destruct (retrieveCheckpoint _ _) as [b data]. simpl in Hb.
  rewrite Hb. cbn [negb].
  rewrite (getLogs_encode _ _ cmds "") by (by rewrite ?sapp_nil_r).
  apply replay_branch in Hr. destruct cmds; [by simplify_eq|].
  destruct (replayLogs _ base) as [t' []]; by simplify_eq.
Qed.

Lemma getTabletNumberById_index w i :
  1 ≤ workerId w ≤ 6 → (i < 3)%nat →
  getTabletNumberById (tablet_at_index (workerId w) i) w = Z.of_nat (S i).
Proof.
  intros Hid Hi. rewrite getTablet_number.
  by rewrite (proj2 (getTabletById_index _ w i Hid) (conj Hi eq_refl)).
Qed.

Lemma tablet_at_index_next id i :
  1 ≤ id ≤ 6 → (i < 2)%nat →
  (tablet_at_index id i + NUM_TABLETS - 2) %% NUM_TABLETS + 1 = tablet_at_index id (S i).
Proof. intros Hid Hi. worker_cases id; by destruct i as [|[|i]]; [..|lia]. Qed.

(** One iteration of the loop of [recoverAllTablets] on a dead tablet. *)
Lemma recoverLoop_dead copy hosts w i t :
  1 ≤ workerId w ≤ 6 → (i < 3)%nat →
  loggers w !! i = Some (logFile (workerId w) (Z.of_nat (S i))) →
  durable_tablet (disk w) (workerId w) i t →
  recoverLoop copy ("ALLDEAD" :: hosts) (tablet_at_index (workerId w) i) w =
    recoverLoop copy hosts ((tablet_at_index (workerId w) i + NUM_TABLETS - 2) %% NUM_TABLETS + 1)
      (set_tablet i t w).
Proof.
  intros Hid Hi Hlog Hd. cbn [recoverLoop]. rewrite getTabletNumberById_index by done.
  rewrite bool_decide_false by (unfold TABLET_NOT_FOUND; lia).
  rewrite bool_decide_true by done.
  by rewrite (recoverFromLocal_durable w i t).
Qed.

Lemma recoverAllTablets_dead copy w t0 t1 t2 :
  1 ≤ workerId w ≤ 6 → length (tablets w) = 3%nat →
  loggers w = [logFile (workerId w) 1; logFile (workerId w) 2; logFile (workerId w) 3] →
  durable_tablet (disk w) (workerId w) 0 t0 → durable_tablet (disk w) (workerId w) 1 t1 →
  durable_tablet (disk w) (workerId w) 2 t2 →
  recoverAllTablets copy all_dead w =
    Some {| workerId := workerId w; tablets := [t0; t1; t2]; loggers := loggers w;
            updateRequestCount := updateRequestCount w; admin_workerUp := admin_workerUp w;
            disk := disk w |}.
Proof.
  intros Hid Hlen Hlog H0 H1 H2. unfold recoverAllTablets.
  change (is_ERR all_dead) with false. cbv iota.
  change (getlines _ _) with ["ALLDEAD"; "ALLDEAD"; "ALLDEAD"].
  pose proof (recoverLoop_dead copy ["ALLDEAD"; "ALLDEAD"] w 0 t0) as E0.
  pose proof (recoverLoop_dead copy ["ALLDEAD"] (set_tablet 0 t0 w) 1 t1) as E1.
  pose proof (recoverLoop_dead copy [] (set_tablet 1 t1 (set_tablet 0 t0 w)) 2 t2) as E2.
  unfold set_tablet in E0, E1, E2. cbn [workerId loggers disk tablets] in E0, E1, E2.
  rewrite Hlog in E0, E1, E2.
  specialize (E0 Hid ltac:(lia) eq_refl H0). specialize (E1 Hid ltac:(lia) eq_refl H1).
  specialize (E2 Hid ltac:(lia) eq_refl H2).
  change (workerId w) with (tablet_at_index (workerId w) 0) at 1.
  etrans; [exact E0|]. pose proof (tablet_at_index_next (workerId w) 0 Hid ltac:(lia)) as N0.
  pose proof (tablet_at_index_next (workerId w) 1 Hid ltac:(lia)) as N1.
  rewrite N0. etrans; [exact E1|]. rewrite N1. etrans; [exact E2|].
  cbn [recoverLoop]. rewrite <-Hlog.
  by destruct (tablets w) as [|? [|? [|? [|??]]]].
Qed.

Lemma durable_three w :
  wf_worker w → durable w →
  ∃ t0 t1 t2, tablets w = [t0; t1; t2] ∧ durable_tablet (disk w) (workerId w) 0 t0 ∧
    durable_tablet (disk w) (workerId w) 1 t1 ∧ durable_tablet (disk w) (workerId w) 2 t2.
Proof.
  intros Hw Hd. pose proof (wf_tablets w Hw) as Hlen. unfold durable in Hd.
  destruct (tablets w) as [|t0 [|t1 [|t2 [|??]]]]; try by simpl in Hlen.
  exists t0, t1, t2. split_and!; [done|apply (Hd 0%nat)|apply (Hd 1%nat)|apply (Hd 2%nat)]; done.
Qed.

Lemma durable_log fs id i t :
  durable_tablet fs id i t → is_Some (fs !! logFile id (Z.of_nat (S i))).
Proof. intros (base & cmds & _ & Hl & _). by eexists. Qed.

Lemma Logger_open_present path fs : is_Some (fs !! path) → Logger_open path fs = fs.
Proof. unfold Logger_open. by intros [? ->]. Qed.

(** The process of worker [id] right after it recovered [w]'s tablets from [w]'s disk. *)
Definition restarted (w : worker) : worker :=
  {| workerId := workerId w; tablets := tablets w;
     loggers := [logFile (workerId w) 1; logFile (workerId w) 2; logFile (workerId w) 3];
     updateRequestCount := {[ 1 := 0; 2 := 0; 3 := 0 ]}; admin_workerUp := true; disk := disk w |}.

Lemma boot_disk w : wf_worker w → durable w → disk (boot (workerId w) (disk w)) = disk w.
Proof.
  intros Hw Hd. destruct (durable_three w Hw Hd) as (t0 & t1 & t2 & Ht & D0 & D1 & D2).
  apply durable_log in D0, D1, D2.
  change (Z.of_nat 1) with 1 in *. change (Z.of_nat 2) with 2 in *. change (Z.of_nat 3) with 3 in *.
  unfold boot. cbn [disk foldl].
  apply Logger_open_present in D0, D1, D2. by rewrite D0, D1, D2.
Qed.

Lemma worker_main_durable copy w :
  wf_worker w → durable w →
  worker_main copy all_dead (workerId w) (disk w) = Some (restarted w).
Proof.
  intros Hw Hd. unfold worker_main. pose proof (boot_disk w Hw Hd) as Eb.
  destruct (durable_three w Hw Hd) as (t0 & t1 & t2 & Ht & D0 & D1 & D2).
  rewrite (recoverAllTablets_dead copy (boot (workerId w) (disk w)) t0 t1 t2);
    rewrite ?Eb; try done; [|apply Hw].
  unfold restarted. by rewrite Ht.
Qed.

Lemma recover_durable copy w :
  wf_worker w → durable w → recoverAllTablets copy all_dead w = Some w.
Proof.
  intros Hw Hd. destruct (durable_three w Hw Hd) as (t0 & t1 & t2 & Ht & D0 & D1 & D2).
  rewrite (recoverAllTablets_dead copy w t0 t1 t2); try done; [|apply Hw..].
  destruct w; simpl in *. by subst.
Qed.

Lemma wf_restarted w : wf_worker w → wf_worker (restarted w).
Proof. intros Hw. split; try apply Hw; try done. apply (wf_counts _ (wf_boot _ ∅ (wf_id w Hw))). Qed.

Lemma durable_boot id : 1 ≤ id ≤ 6 → durable (boot id ∅).
Proof.
  intros Hid i t Hi. exists ∅, [].
  assert (i < 3)%nat as Hi3 by (by apply lookup_lt_Some in Hi).
  destruct i as [|[|[|i]]]; [..|lia]; simpl in Hi; simplify_eq; split_and!; try done;
    worker_cases id; vm_compute; done.
Qed.

(** ** Histories of a worker whose peers are never alive *)

Section history.
Context `{StdHash} `{UMapOrder}.

(** One event in the life of a worker: an update request, from a client or from another worker
    (the handlers are the same up to replication); an administrator's command; a crash of the
    process followed by a new start on the files that the crash left behind. *)
Inductive wstep (copy : string → Z → string) : worker → worker → Prop :=
  | wstep_update u w w' res :
      update_handler u w = Some (w', res) → command_fits (update_log u) →
      Forall table_fits (tablets w') → wstep copy w w'
  | wstep_admin password command w w' res :
      AdminConsole (recoverAllTablets copy all_dead) password command w = Some (w', res) →
      wstep copy w w'
  | wstep_crash w w' :
      worker_main copy all_dead (workerId w) (disk w) = Some w' → wstep copy w w'.

Lemma wstep_inv copy w w' :
  wstep copy w w' → wf_worker w ∧ durable w → wf_worker w' ∧ durable w'.
Proof.
  intros Hs [Hw Hd]. destruct Hs as [u w w' res Hu Hc Ht|password command w w' res Ha|w w' Hm].
  - rewrite update_handler_local in Hu. split; [|by eapply durable_update].
    by eapply update_local_preserves.
  - unfold AdminConsole in Ha. rewrite recover_durable in Ha by done.
    destruct w as [id ts ls cs up d]; simpl in *.
    assert (wf_worker {| workerId := id; tablets := ts; loggers := ls; updateRequestCount := cs;
      admin_workerUp := true; disk := d |}) by (destruct Hw; by split).
    assert (wf_worker {| workerId := id; tablets := ts; loggers := ls; updateRequestCount := cs;
      admin_workerUp := false; disk := d |}) by (destruct Hw; by split).
    split_cases; done.
  - rewrite worker_main_durable in Hm by done. simplify_eq. split; [by apply wf_restarted|].
    exact Hd.
Qed.

Lemma wreach_inv copy id w :
  1 ≤ id ≤ 6 → rtc (wstep copy) (boot id ∅) w → wf_worker w ∧ durable w.
Proof.
  intros Hid Hr.
  assert (∀ w0 w1, rtc (wstep copy) w0 w1 → wf_worker w0 ∧ durable w0 → wf_worker w1 ∧ durable w1)
    as Hind by (induction 1; eauto using wstep_inv).
  eapply Hind; [done|]. split; [by apply wf_boot|by apply durable_boot].
Qed.

End history.

(** ** A crash between the checkpoint and the truncation of the log

    [commitCheckpoint] and [clearLog] are two separate file operations.  If the process dies between
    them, recovery replays over the new checkpoint the commands that the checkpoint already
    includes. *)

Definition is_cput (cl : CommandLog) : bool := bool_decide (cl_command cl = "CPUT").

(** What a log without conditional puts does at a key: nothing, or the same whatever was there. *)
Lemma replay_key cmds r c t1 t2 t1' t2' :
  Forall (λ cl, is_cput cl = false) cmds →
  replayLogs cmds t1 = (t1', true) → replayLogs cmds t2 = (t2', true) →
  flat t1' !! (r, c) = flat t2' !! (r, c) ∨
  (flat t1' !! (r, c) = flat t1 !! (r, c) ∧ flat t2' !! (r, c) = flat t2 !! (r, c)).
Proof.
  revert t1 t2. induction cmds as [|cl cmds IH]; intros t1 t2 Hf H1 H2; [simplify_eq/=; by right|].
  apply Forall_cons in Hf as [Hcl Hf]. unfold is_cput in Hcl. cbn [replayLogs] in H1, H2.
  rewrite Hcl in H1, H2. repeat case_bool_decide; simplify_eq.
  - destruct (IH _ _ Hf H1 H2) as [?|[E1 E2]]; [by left|].
    rewrite E1, E2, !table_put_flat.
    destruct (decide ((cl_row cl, cl_column cl) = (r, c))) as [->|Hne];
      [left; by rewrite !lookup_insert_eq|right; by rewrite !lookup_insert_ne].
  - destruct (IH _ _ Hf H1 H2) as [?|[E1 E2]]; [by left|].
    rewrite E1, E2, !table_delete_flat.
    destruct (decide ((cl_row cl, cl_column cl) = (r, c))) as [->|Hne];
      [left; by rewrite !lookup_delete_eq|right; by rewrite !lookup_delete_ne].
Qed.

Lemma replay_total cmds t t' t2 :
  Forall (λ cl, is_cput cl = false) cmds → replayLogs cmds t = (t', true) →
  ∃ t2', replayLogs cmds t2 = (t2', true).
Proof.
  revert t t2. induction cmds as [|cl cmds IH]; intros t t2 Hf H1; [by eexists|].
  apply Forall_cons in Hf as [Hcl Hf]. unfold is_cput in Hcl. cbn [replayLogs] in *.
  rewrite Hcl in *. repeat case_bool_decide; simplify_eq; eauto.
Qed.

Lemma replay_rows cmds t t' b :
  no_empty_rows t → replayLogs cmds t = (t', b) → no_empty_rows t'.
Proof.
  revert t. induction cmds as [|cl cmds IH]; intros t Ht; cbn [replayLogs]; [by intros [= <- _]|].
  repeat case_bool_decide; [|destruct (table_cput _ _ _ _ _) eqn:E; try by intros [= <- _]|
    |by intros [= <- _]]; apply IH; eauto with penncloud.
Qed.

Lemma deserializeCols_rows fuel r n t inp :
  no_empty_rows t → no_empty_rows (deserializeCols fuel r n t inp).1.
Proof.
  revert n t inp. induction fuel as [|fuel IH]; intros n t inp Ht; cbn [deserializeCols];
    case_bool_decide; try done; [].
  destruct (readString inp) as [[col inp1]|]; [|done].
  destruct (readString inp1) as [[val inp2]|]; [|done].
  apply IH. rewrite <-table_put_assign. by apply no_empty_rows_put.
Qed.
Lemma deserializeRows_rows fuel n t inp :
  no_empty_rows t → no_empty_rows (deserializeRows fuel n t inp).1.
Proof.
  revert n t inp. induction fuel as [|fuel IH]; intros n t inp Ht; cbn [deserializeRows];
    case_bool_decide; try done; [].
  destruct (readString inp) as [[r inp1]|]; [|done].
  destruct (read_u32 inp1) as [[k inp2]|]; [|done].
  pose proof (deserializeCols_rows (S (slen inp2)) r k t inp2 Ht) as Hc.
  destruct (deserializeCols _ _ _ _ _) as [t' [inp3|]]; simpl in *; auto.
Qed.
(** Whatever bytes a checkpoint holds, the table read from it has no empty row. *)
Lemma checkpoint_table_rows file fs : no_empty_rows (checkpoint_table file fs).1.
Proof.
  unfold checkpoint_table. case_bool_decide; [apply no_empty_rows_empty|].
  unfold deserializeTablet. case_match; [apply no_empty_rows_empty|].
  destruct (read_u32 _) as [[n inp]|]; [|apply no_empty_rows_empty].
  pose proof (deserializeRows_rows (S (slen inp)) n ∅ inp no_empty_rows_empty) as Hr.
  by destruct (deserializeRows _ _ _ _).
Qed.
Lemma durable_tablet_rows fs id i t : durable_tablet fs id i t → no_empty_rows t.
Proof.
  intros (base & cmds & Hb & _ & _ & Hr). eapply replay_rows; [|done].
  pose proof (checkpoint_table_rows (checkpointFile id (Z.of_nat (S i))) fs) as Hc. by rewrite Hb in Hc.
Qed.

(** Replaying over its own result a log without conditional puts changes nothing. *)
Lemma replay_idempotent cmds base t :
  no_empty_rows base → Forall (λ cl, is_cput cl = false) cmds →
  replayLogs cmds base = (t, true) → replayLogs cmds t = (t, true).
Proof.
  intros Hb Hf Hr. destruct (replay_total cmds base t t Hf Hr) as [t' Ht'].
  rewrite Ht'. f_equal. assert (no_empty_rows t) as Ht by (by eapply replay_rows).
  apply flat_inj; [by eapply replay_rows|done|]. apply map_eq. intros [r c].
  by destruct (replay_key cmds r c _ _ _ _ Hf Hr Ht') as [?|[? ?]].
Qed.

(** The files of a worker that dies after [commitCheckpoint] and before [clearLog] for tablet
    [i]. *)
Definition crash_before_clear `{UMapOrder} (i : nat) (kvs : table) (w : worker) : filesystem :=
  commitCheckpoint (checkpointFile (workerId w) (Z.of_nat (S i))) (serializeTablet kvs) (disk w).

Lemma durable_crash_before_clear `{UMapOrder} w i t cmds base :
  1 ≤ workerId w ≤ 6 → (i < 3)%nat → disk w !! logFile (workerId w) (Z.of_nat (S i)) = Some (encodeLog cmds) →
  Forall command_fits cmds → Forall (λ cl, is_cput cl = false) cmds →
  no_empty_rows base → replayLogs cmds base = (t, true) → table_fits t →
  durable_tablet (crash_before_clear i t w) (workerId w) i t.
Proof.
  intros Hid Hi Hl Hc Hnc Hb Hr Ht. exists t, cmds. split_and!; [|..|done|].
  - apply checkpoint_table_commit; [done|by eapply replay_rows|apply lookup_insert_eq].
  - unfold crash_before_clear, commitCheckpoint. by rewrite lookup_insert_ne by apply checkpoint_not_log.
  - by eapply replay_idempotent.
Qed.

(** ** Properties *)


(** Worker 1 after one put. *)
Definition example_put : update := UPut "alice-storage" "metadata" "/".
Definition one_put : worker :=
  match @update_handler (λ _, 0) canonical_order example_put (boot 1 ∅) with
  | Some (w, _) => w
  | None => boot 1 ∅
  end.
Lemma one_put_step :
  ∃ res, @update_handler (λ _, 0) canonical_order example_put (boot 1 ∅) = Some (one_put, res).
Proof. unfold one_put. by eexists. Qed.
Lemma one_put_reach : rtc (@wstep (λ _, 0) canonical_order (λ _ _, "")) (boot 1 ∅) one_put.
Proof.
  destruct one_put_step as [res Hres].
  eapply rtc_l; [eapply wstep_update; [exact Hres|..]|apply rtc_refl].
  - apply (@bool_decide_unpack _ (command_fits_dec _)). vm_compute. exact I.
  - apply (@bool_decide_unpack _ (Forall_dec table_fits _)). vm_compute. exact I.
Qed.




(** A process that dies after it has written a checkpoint and before it has truncated the log
    still recovers the tablet, when the log holds puts and deletes only. *)
Theorem crash_before_clear_recovers `{UMapOrder} w i t cmds base :
  1 ≤ workerId w ≤ 6 → (i < 3)%nat →
  loggers w !! i = Some (logFile (workerId w) (Z.of_nat (S i))) →
  disk w !! logFile (workerId w) (Z.of_nat (S i)) = Some (encodeLog cmds) →
  Forall command_fits cmds → Forall (λ cl, is_cput cl = false) cmds →
  no_empty_rows base → replayLogs cmds base = (t, true) → table_fits t →
  let w' := set_disk (crash_before_clear i t w) w in
  recoverFromLocal (tablet_at_index (workerId w) i) (Z.of_nat (S i)) w' = Some (set_tablet i t w').
Proof.
  intros Hid Hi Hlog Hl Hc Hnc Hb Hr Ht w'.
  apply (recoverFromLocal_durable w' i t); [done..|].
  by apply (durable_crash_before_clear w i t cmds base).
Qed.

Lemma crash_before_clear_recovers_witness :
  let t := {["alice-storage" := {["metadata" := "/"]}]} in
  let w' := set_disk (@crash_before_clear canonical_order 0 t one_put) one_put in
  recoverFromLocal 1 1 w' = Some (set_tablet 0 t w').
Proof.
  apply (@crash_before_clear_recovers canonical_order one_put 0
    {["alice-storage" := {["metadata" := "/"]}]} [update_log example_put] ∅).
  - vm_compute. intuition congruence.
  - lia.
  - reflexivity.
  - vm_compute. reflexivity.
  - repeat constructor; apply (@bool_decide_unpack _ (string_fits_dec _)); vm_compute; exact I.
  - repeat constructor.
  - apply no_empty_rows_empty.
  - vm_compute. reflexivity.
  - apply (@bool_decide_unpack _ (table_fits_dec _)); vm_compute; exact I.
Defined.

(** Worker 1 after a list of updates. *)
Definition updates (us : list update) : option worker :=
  foldl (λ w u, w ← w; fst <$> @update_handler (λ _, 0) canonical_order u w) (Some (boot 1 ∅)) us.
(** Ten puts, which a checkpoint follows, then a conditional put and eight puts of another cell. *)
Definition cput_history : option worker :=
  updates (replicate 10 (UPut "r" "c" "a") ++ [UCPut "r" "c" "a" "b"] ++
    replicate 8 (UPut "r" "d" "x")).

(** With a conditional put in the log the same crash can be fatal.  In this history the tenth
    update after the first checkpoint is logged and the second checkpoint written, and the process
    dies before it truncates the log: the replay of the conditional put over a checkpoint that
    already holds its new value fails, and the process of the worker exits at every attempt to start
    it. *)
Theorem crash_before_clear_cput copy :
  match cput_history with
  | Some w =>
      let last := UPut "r" "d" "y" in
      let kvs := new_table last (tablets w !!! 0%nat) in
      let logged := set_disk (logCommand (logFile 1 1) (update_log last) (disk w)) w in
      updateRequestCount w !! 1 = Some 9 ∧
      worker_main copy all_dead 1 (@crash_before_clear canonical_order 0 kvs logged) = None
  | None => False
  end.
Proof. vm_compute. done. Qed.

(** The files of a new worker 1 that dies while it appends its first command. *)
Definition torn_disk : filesystem :=
  <[logFile 1 1 := str_take 5 (encodeCommand (update_log (UPut "r" "c" "a")))]> (disk (boot 1 ∅)).
(** The next process, after an acknowledged put. *)
Definition after_torn : option (worker * (Status * bool)) :=
  w ← worker_main (λ _ _, "") all_dead 1 torn_disk;
  @update_handler (λ _, 0) canonical_order (UPut "bob" "password" "secret") w.

(** A record cut short by a crash is never removed from the log: the next process recovers,
    acknowledges a put, and the put is lost if that process crashes too, because the log can not be
    read past the broken record. *)
Theorem torn_log_loses_put copy :
  match after_torn with
  | Some (w, answer) =>
      answer = (Status_OK, true) ∧
      table_get "bob" "password" <$> tablets w !! 0%nat = Some (Found "secret") ∧
      (w' ← worker_main copy all_dead 1 (disk w); table_get "bob" "password" <$> tablets w' !! 0%nat) =
        Some RowMissing
  | None => False
  end.
Proof. vm_compute. done. Qed.
