(* ===== verification/Cluster.v ===== *)
(** * The workers together: replication and recovery from peers

    The processes of the workers, by address.  The client-facing handlers of backend/worker.cc with
    their replication loops, copying a tablet from a peer, and the restart of a worker with the
    coordinator's answer. *)
From S2P Require Import Prelude CppString Table Codec Utils Rpc Coordinator Worker WorkerFacts.

(** The processes that answer, by the address they listen on. *)
Abbreviation cluster := (gmap string worker).

(** The text of gRPC's own UNAVAILABLE error, for a peer that can not be reached. *)
Class Grpc := unreachable_message : string.

Section cluster_ops.
Context `{StdHash} `{UMapOrder} `{Grpc}.

Definition st_unreachable : Status := mkStatus UNAVAILABLE unreachable_message.

(** A remote call: the cluster and the status afterwards.  When the handler ends the process, the
    caller sees the connection break. *)
Definition call (addr : string) (handler : worker → option (worker * (Status * bool)))
    (cl : cluster) : cluster * (Status * bool) :=
  match cl !! addr with
  | None => (cl, (st_unreachable, false))
  | Some w =>
      match handler w with
      | Some (w', res) => (<[addr := w']> cl, res)
      | None => (delete addr cl, (st_unreachable, false))
      end
  end.

(** "replicate operation": one call per replica, in order, whose result is only logged.  [None]: a
    call through a null pointer. *)
Fixpoint replicate_loop (handler : worker → option (worker * (Status * bool)))
    (replicas : list (string * option string)) (cl : cluster) : option cluster :=
  match replicas with
  | [] => Some cl
  | (addr, replica) :: replicas =>
      replica ← replica;
      replicate_loop handler replicas (call replica handler cl).1
  end.

(** The handlers of the worker at [addr]; only a request that succeeded locally reaches the
    loop. *)
Definition Put (addr r c value : string) (cl : cluster) : option (cluster * (Status * bool)) :=
  w ← cl !! addr;
  '(w, (st, success)) ← Put_local r c value w;
  let cl := <[addr := w]> cl in
  if success : bool then
    cl ← replicate_loop (ReplicatePut r c value) (getReplicasForReplication r w) cl;
    Some (cl, (st, success))
  else Some (cl, (st, success)).

Definition CPut (addr r c current_value new_value : string) (cl : cluster) :
    option (cluster * (Status * bool)) :=
  w ← cl !! addr;
  '(w, (st, success)) ← CPut_local r c current_value new_value w;
  let cl := <[addr := w]> cl in
  if success : bool then
    cl ← replicate_loop (ReplicateCPut r c current_value new_value)
           (getReplicasForReplication r w) cl;
    Some (cl, (st, success))
  else Some (cl, (st, success)).

Definition Delete (addr r c : string) (cl : cluster) : option (cluster * (Status * bool)) :=
  w ← cl !! addr;
  '(w, (st, success)) ← Delete_local r c w;
  let cl := <[addr := w]> cl in
  if success : bool then
    cl ← replicate_loop (ReplicateDelete r c) (getReplicasForReplication r w) cl;
    Some (cl, (st, success))
  else Some (cl, (st, success)).

(** ** The calls of a client of the workers *)

Definition rpc (addr : string) (handler : cluster → option (cluster * (Status * bool)))
    (cl : cluster) : cluster * (Status * bool) :=
  match cl !! addr with
  | None => (cl, (st_unreachable, false))
  | Some _ =>
      match handler cl with
      | Some r => r
      | None => (delete addr cl, (st_unreachable, false))
      end
  end.
Definition rpc_Put (addr r c v : string) (cl : cluster) : cluster * string :=
  let '(cl, res) := rpc addr (Put addr r c v) cl in (cl, client_Put res).
Definition rpc_CPut (addr r c cur new : string) (cl : cluster) : cluster * string :=
  let '(cl, res) := rpc addr (CPut addr r c cur new) cl in (cl, client_CPut res).
Definition rpc_Delete (addr r c : string) (cl : cluster) : cluster * string :=
  let '(cl, res) := rpc addr (Delete addr r c) cl in (cl, client_Delete res).
Definition rpc_Get (addr r c : string) (cl : cluster) : string :=
  match cl !! addr with
  | None => client_Get (st_unreachable, "")
  | Some w =>
      match Get r c w with
      | Some res => client_Get res
      | None => client_Get (st_unreachable, "")
      end
  end.

(** [KeyValueStoreClient::CopyTablet] from the worker at [host], over a stream that accepts every
    chunk. *)
Definition rpc_CopyTablet (cl : cluster) (host : string) (tablet : Z) : string :=
  match cl !! host with
  | None => client_CopyTablet (st_unreachable, [])
  | Some w =>
      match CopyTablet (λ _, true) tablet w with
      | Some res => client_CopyTablet res
      | None => client_CopyTablet (st_unreachable, [])
      end
  end.

(** The administrator's RESTART of the worker at [addr], with the coordinator [m]. *)
Definition restart (m : master) (addr password : string) (cl : cluster) :
    option (cluster * (Status * bool)) :=
  w ← cl !! addr;
  let res := client_WorkerLookup (WorkerLookup (workerId w) m).2 in
  '(w, r) ← AdminConsole (recoverAllTablets (rpc_CopyTablet cl) res) password "RESTART" w;
  Some (<[addr := w]> cl, r).

(** A new process of worker [id] on the files of the old one, with the coordinator [m]. *)
Definition start (m : master) (id : Z) (fs : filesystem) (cl : cluster) : option cluster :=
  let res := client_WorkerLookup (WorkerLookup id m).2 in
  w ← worker_main (rpc_CopyTablet cl) res id fs;
  Some (<[worker_addr id := w]> cl).

End cluster_ops.
