(* ===== verification/ClusterFacts.v ===== *)
(** * Agreement of the replicas

    The workers that are up and hold a tablet agree on it; every request sent to the worker the
    coordinator names keeps them in agreement and acts on all of them at once. *)
From S2P Require Import Prelude CppString Table Codec Utils Rpc Coordinator Worker WorkerFacts Cluster.

(** ** Abstraction *)

Definition tablet_of (t : Z) (w : worker) : option table :=
  i ← getTabletById t w; tablets w !! i.

(** The process of worker [id], when it is running and not shut down by the administrator. *)
Definition up (cl : cluster) (id : Z) : option worker :=
  w ← cl !! worker_addr id; if admin_workerUp w then Some w else None.

(** The first holder of a tablet that is up, and its copy. *)
Definition first_up (cl : cluster) (t : Z) : option Z :=
  head (filter (λ id, is_Some (up cl id)) (candidateIds t)).
Definition table_at (cl : cluster) (t : Z) : option table :=
  id ← first_up cl t; w ← up cl id; tablet_of t w.

(** The contents of the store. *)
Definition view `{StdHash} (cl : cluster) (r c : string) : option string :=
  T ← table_at cl (hashToBucket r NUM_TABLETS); flat T !! (r, c).

Definition wf_cluster (cl : cluster) : Prop :=
  ∀ a w, cl !! a = Some w → wf_worker w ∧ a = worker_addr (workerId w).

Definition holders_agree (cl : cluster) : Prop :=
  ∀ t id id' w w', 1 ≤ t ≤ 6 → id ∈ candidateIds t → id' ∈ candidateIds t →
    up cl id = Some w → up cl id' = Some w' → tablet_of t w = tablet_of t w'.

(** The coordinator knows which workers are up. *)
Definition accurate (m : master) (cl : cluster) : Prop :=
  ∀ id, 1 ≤ id ≤ 6 → alive m id = bool_decide (is_Some (up cl id)).

(** ** The ring *)

Lemma worker_addr_inj id id' : 1 ≤ id ≤ 6 → 1 ≤ id' ≤ 6 → worker_addr id = worker_addr id' → id = id'.
Proof. intros H1 H2. worker_cases id; worker_cases id'; vm_compute; done. Qed.

(** The holders of tablet [t] are the workers that have an index for it. *)
Lemma candidate_holds t w :
  1 ≤ t ≤ 6 → 1 ≤ workerId w ≤ 6 →
  workerId w ∈ candidateIds t ↔ is_Some (getTabletById t w).
Proof.
  intros Ht Hid. unfold getTabletById. generalize dependent (workerId w). intros id Hid.
  rewrite <-(bool_decide_eq_true (id ∈ candidateIds t)).
  split; [|intros [i Hi]; revert Hi]; worker_cases t; worker_cases id; vm_compute; try done; eauto.
Qed.

(** The holders after [id] in the coordinator's order. *)
Definition later (t id : Z) : list Z :=
  match candidateIds t with
  | [a; b; c] => if bool_decide (id = a) then [b; c] else if bool_decide (id = b) then [c] else []
  | _ => []
  end.

Lemma getReplicas_later `{StdHash} r w :
  let t := hashToBucket r NUM_TABLETS in
  1 ≤ workerId w ≤ 6 → workerId w ∈ candidateIds t →
  getReplicasForReplication r w =
    (λ id, (worker_addr id, Some (worker_addr id))) <$> later t (workerId w).
Proof.
  cbv zeta. unfold getReplicasForReplication, client_ptr, workerClientPtrs.
  pose proof (hashToBucket_tablet r) as Ht. revert Ht.
  generalize (hashToBucket r NUM_TABLETS). generalize (workerId w). intros id t Ht Hid.
  rewrite <-(bool_decide_eq_true (id ∈ candidateIds t)).
  worker_cases t; worker_cases id; vm_compute; done.
Qed.

Lemma later_spec t id :
  1 ≤ t ≤ 6 → id ∈ candidateIds t →
  NoDup (id :: later t id) ∧ Forall (λ x, 1 ≤ x ≤ 6) (id :: later t id) ∧
  ∃ before, candidateIds t = before ++ id :: later t id.
Proof.
  intros Ht Hin. unfold candidateIds in Hin.
  assert (Decision (NoDup (id :: later t id))) by apply _.
  rewrite !elem_of_cons, elem_of_nil in Hin.
  destruct Hin as [->|[->|[->|[]]]]; worker_cases t;
    (split; [by apply (@bool_decide_unpack _ (NoDup_dec _)); vm_compute|]);
    (split; [repeat constructor; vm_compute; done|]);
    first [by exists []|by eexists [_]|by eexists [_; _]].
Qed.

Lemma head_filter_split {A} (P : A → Prop) `{∀ x, Decision (P x)} before x after :
  head (filter P (before ++ x :: after)) = Some x → x ∉ before → Forall (λ y, ¬ P y) before ∧ P x.
Proof.
  induction before as [|y before IH]; simpl; rewrite ?filter_cons; case_decide; intros Hh Hx.
  - done.
  - apply head_Some_elem_of, list_elem_of_filter in Hh. naive_solver.
  - simplify_eq/=. by destruct Hx; left.
  - destruct IH; [done|set_solver|]. split; [by constructor|done].
Qed.

Lemma first_up_spec cl t id :
  1 ≤ t ≤ 6 → first_up cl t = Some id →
  id ∈ candidateIds t ∧ is_Some (up cl id) ∧
  ∀ id', id' ∈ candidateIds t → is_Some (up cl id') → id' ∈ id :: later t id.
Proof.
  intros Ht Hf.
  assert (id ∈ candidateIds t) as Hin.
  { by apply head_Some_elem_of, list_elem_of_filter in Hf as [_ Hin]. }
  destruct (later_spec t id Ht Hin) as (Hnd & _ & before & Eb).
  assert (NoDup (candidateIds t)) as Hnd'.
  { worker_cases t; apply (@bool_decide_unpack _ (NoDup_dec _)); vm_compute; done. }
  unfold first_up in Hf. rewrite Eb in *.
  apply NoDup_app in Hnd' as (_ & Hd & _).
  apply head_filter_split in Hf as [Hb Hu]; [|intros Hx; apply (Hd _ Hx); by left].
  split_and!; [done..|]. intros id' [Hi|Hi]%elem_of_app Hup; [|done].
  by eapply Forall_forall in Hb.
Qed.

(** The coordinator's choice. *)
Lemma current_holder_first_up m cl t :
  accurate m cl → 1 ≤ t ≤ 6 → current_holder m t = first_up cl t.
Proof.
  intros Ha Ht. unfold current_holder, first_up. pose proof (candidateIds_range t Ht) as Hc.
  f_equal. induction Hc as [|id ids Hid Hc IH]; [done|].
  rewrite !filter_cons, IH, (Ha id Hid). by case_bool_decide; repeat case_decide.
Qed.

(** ** One worker *)

Section updates.
Context `{StdHash} `{UMapOrder}.

(** The worker after an update, whatever its answer. *)
Definition upd (u : update) (w : worker) : worker :=
  match update_local u w with Some (w', _) => w' | None => w end.

Lemma update_local_total u w : wf_worker w → ∃ res, update_local u w = Some (upd u w, res).
Proof.
  intros Hw. unfold upd. rewrite update_local_wf by done.
  match goal with |- context [Some ?r] => by destruct r as [w' res]; eauto end.
Qed.

Lemma upd_fields u w :
  wf_worker w → wf_worker (upd u w) ∧ workerId (upd u w) = workerId w ∧
    admin_workerUp (upd u w) = admin_workerUp w.
Proof.
  intros Hw. destruct (update_local_total u w Hw) as [res Hres].
  by eapply update_local_preserves.
Qed.

Lemma getTabletById_id t w w' : workerId w' = workerId w → getTabletById t w' = getTabletById t w.
Proof. unfold getTabletById. by intros ->. Qed.

Lemma tablet_of_wf t w : wf_worker w → is_Some (getTabletById t w) → is_Some (tablet_of t w).
Proof.
  intros Hw [i Hi]. unfold tablet_of. rewrite Hi. simpl. eapply wf_tablet; [done|].
  by eapply getTabletById_lt.
Qed.

(** What an update does to the worker that runs it. *)
Lemma update_local_tablet u w T :
  wf_worker w → admin_workerUp w = true → tablet_of (hashToBucket (update_row u) NUM_TABLETS) w = Some T →
  update_local u w = Some (upd u w, update_answer u T) ∧
  tablet_of (hashToBucket (update_row u) NUM_TABLETS) (upd u w) = Some (new_table u T) ∧
  ∀ t, t ≠ hashToBucket (update_row u) NUM_TABLETS → tablet_of t (upd u w) = tablet_of t w.
Proof.
  intros Hw Hup HT. pose proof (upd_fields u w Hw) as (_ & Hid & _).
  pose proof (update_local_wf u w Hw) as Hu. unfold upd in *. rewrite Hu in *.
  rewrite Hup in *. cbn [negb] in *. unfold getTablet, update_answer, new_table in *.
  unfold tablet_of in *. destruct (getTabletById _ w) as [i|] eqn:Ei; [|done]. simpl in HT.
  rewrite (list_lookup_total_correct _ _ _ HT) in *.
  destruct (update_table u T) as [st|T'] eqn:ET; simpl.
  { rewrite Ei. simpl. rewrite HT. done. }
  destruct (record_update_fields (update_log u) (Z.of_nat (S i)) (logFile (workerId w) (Z.of_nat (S i)))
    T' (set_tablet i T' w)) as (E1 & E2 & _ & _). split; [done|].
  rewrite E2. split.
  - rewrite (getTabletById_id _ w) by done. rewrite Ei. simpl.
    apply list_lookup_insert_eq. by apply lookup_lt_Some in HT.
  - intros t Ht. rewrite (getTabletById_id _ w) by done.
    destruct (getTabletById t w) as [j|] eqn:Ej; [|done]. simpl.
    apply list_lookup_insert_ne. intros <-.
    apply (getTabletById_index _ w i (wf_id w Hw)) in Ei, Ej. naive_solver.
Qed.

(** ** Calls *)

Context `{Grpc}.

Lemma call_update u a cl :
  wf_cluster cl → (call a (update_handler u) cl).1 = alter (upd u) a cl.
Proof.
  intros Hcl. unfold call. destruct (cl !! a) as [w|] eqn:Ea.
  - destruct (Hcl a w Ea) as [Hw _]. rewrite update_handler_local.
    destruct (update_local_total u w Hw) as [res ->]. simpl. apply map_eq. intros b.
    destruct (decide (a = b)) as [<-|Hne].
    + by rewrite lookup_insert_eq, lookup_alter_eq, Ea.
    + by rewrite lookup_insert_ne, lookup_alter_ne.
  - simpl. apply map_eq. intros b.
    destruct (decide (a = b)) as [<-|Hne]; [by rewrite lookup_alter_eq, Ea|by rewrite lookup_alter_ne].
Qed.

Lemma wf_alter_upd u a cl : wf_cluster cl → wf_cluster (alter (upd u) a cl).
Proof.
  intros Hcl b w. destruct (decide (a = b)) as [<-|Hne].
  - rewrite lookup_alter_eq. intros (w0 & Ew0 & ->)%fmap_Some.
    destruct (Hcl a w0 Ew0) as [Hw Ha]. destruct (upd_fields u w0 Hw) as (? & -> & _). done.
  - rewrite lookup_alter_ne by done. apply Hcl.
Qed.

Lemma wf_alter_all u l cl : wf_cluster cl → wf_cluster (foldl (λ cl a, alter (upd u) a cl) cl l).
Proof. revert cl. induction l as [|a l IH]; intros cl Hcl; [done|]. by apply IH, wf_alter_upd. Qed.

(** The replication loop. *)
Lemma replicate_loop_upd u ids cl :
  wf_cluster cl →
  replicate_loop (update_handler u) ((λ id, (worker_addr id, Some (worker_addr id))) <$> ids) cl =
    Some (foldl (λ cl a, alter (upd u) a cl) cl (worker_addr <$> ids)).
Proof.
  revert cl. induction ids as [|id ids IH]; intros cl Hcl; [done|]. cbn -[call]. simpl.
  rewrite call_update by done. by apply IH, wf_alter_upd.
Qed.

Lemma alter_all_lookup u (l : list string) (cl : cluster) (b : string) :
  NoDup l →
  foldl (λ cl a, alter (upd u) a cl) cl l !! b =
    if decide (b ∈ l) then upd u <$> cl !! b else cl !! b.
Proof.
  revert cl. induction l as [|a l IH]; intros cl Hnd; [done|].
  apply NoDup_cons in Hnd as [Ha Hnd]. cbn [foldl]. rewrite IH by done.
  destruct (decide (a = b)) as [<-|Hne].
  - rewrite decide_False by done. rewrite decide_True by (by left). by rewrite lookup_alter_eq.
  - rewrite lookup_alter_ne by done. repeat case_decide; set_solver.
Qed.

End updates.

(** ** A request to the first holder that is up *)

Section requests.
Context `{StdHash} `{UMapOrder} `{Grpc}.

(** The three handlers as one. *)
Definition cluster_update (u : update) (addr : string) (cl : cluster) :
    option (cluster * (Status * bool)) :=
  w ← cl !! addr;
  '(w, (st, success)) ← update_handler u w;
  let cl := <[addr := w]> cl in
  if success : bool then
    cl ← replicate_loop (update_handler u) (getReplicasForReplication (update_row u) w) cl;
    Some (cl, (st, success))
  else Some (cl, (st, success)).
Definition cluster_handler (u : update) (addr : string) : cluster → option (cluster * (Status * bool)) :=
  match u with
  | UPut r c v => Put addr r c v
  | UCPut r c cur new => CPut addr r c cur new
  | UDelete r c => Delete addr r c
  end.
Lemma cluster_handler_update u addr cl : cluster_handler u addr cl = cluster_update u addr cl.
Proof. by destruct u. Qed.

Lemma up_Some cl id w :
  up cl id = Some w ↔ cl !! worker_addr id = Some w ∧ admin_workerUp w = true.
Proof.
  unfold up. destruct (cl !! worker_addr id) as [w'|]; simpl; [|by split; [|intros [? _]]].
  destruct (admin_workerUp w') eqn:E; (split; [intros [= <-]|intros [[= <-] ?]]); try done; congruence.
Qed.

Lemma up_wf cl id w :
  wf_cluster cl → 1 ≤ id ≤ 6 → up cl id = Some w → wf_worker w ∧ workerId w = id.
Proof.
  intros Hcl Hid [Hw _]%up_Some. destruct (Hcl _ _ Hw) as [Hwf Ha]. split; [done|].
  symmetry. apply worker_addr_inj; [done|apply Hwf|done].
Qed.

Lemma candidate_range t id : 1 ≤ t ≤ 6 → id ∈ candidateIds t → 1 ≤ id ≤ 6.
Proof. intros Ht. pose proof (candidateIds_range t Ht) as Hr. rewrite Forall_forall in Hr. auto. Qed.

(** The lookups of the cluster a request leaves behind. *)
Definition updated (u : update) (ids : list Z) (cl cl' : cluster) : Prop :=
  ∀ id, 1 ≤ id ≤ 6 →
    cl' !! worker_addr id = if decide (id ∈ ids) then upd u <$> cl !! worker_addr id
                            else cl !! worker_addr id.

Lemma addr_elem id ids :
  1 ≤ id ≤ 6 → Forall (λ x, 1 ≤ x ≤ 6) ids → worker_addr id ∈ worker_addr <$> ids ↔ id ∈ ids.
Proof.
  intros Hid Hids. rewrite list_elem_of_fmap. split; [|naive_solver].
  intros (x & Ex & Hx). rewrite Forall_forall in Hids.
  by rewrite (worker_addr_inj id x Hid (Hids x Hx) Ex).
Qed.

Lemma NoDup_addr ids : Forall (λ x, 1 ≤ x ≤ 6) ids → NoDup ids → NoDup (worker_addr <$> ids).
Proof.
  induction 1 as [|id ids Hid Hids IH]; intros Hnd; [constructor|].
  apply NoDup_cons in Hnd as [Hn Hnd]. rewrite fmap_cons. apply NoDup_cons.
  split; [by rewrite addr_elem|by apply IH].
Qed.

Lemma cluster_update_run u id w T cl :
  let t := hashToBucket (update_row u) NUM_TABLETS in
  wf_cluster cl → id ∈ candidateIds t → up cl id = Some w → tablet_of t w = Some T →
  ∃ cl', cluster_update u (worker_addr id) cl = Some (cl', update_answer u T) ∧ wf_cluster cl' ∧
    (updated u (id :: later t id) cl cl' ∨ (new_table u T = T ∧ cl' = cl)).
Proof.
  intros t Hcl Hin Hup HT. pose proof (hashToBucket_tablet (update_row u)) as Ht. fold t in Ht.
  pose proof (candidate_range t id Ht Hin) as Hid.
  destruct (up_wf cl id w Hcl Hid Hup) as [Hw Eid]. apply up_Some in Hup as [Ew Hadm].
  destruct (update_local_tablet u w T Hw Hadm HT) as (Eu & HT' & _).
  destruct (upd_fields u w Hw) as (Hw' & Eid' & _).
  unfold cluster_update. rewrite Ew. simpl. rewrite update_handler_local, Eu. simpl.
  unfold update_answer, new_table in *. destruct (update_table u T) as [st|T'] eqn:ET.
  { exists cl. simpl. split; [|by auto]. do 2 f_equal. apply insert_id. rewrite Ew. f_equal.
    pose proof (update_local_wf u w Hw) as E. unfold getTablet in E. fold t in E.
    unfold tablet_of in HT. destruct (getTabletById t w) as [i|] eqn:Ei; [|done]. simpl in HT.
    rewrite (list_lookup_total_correct _ _ _ HT), ET, Hadm, Eu in E. by simplify_eq/=. }
  assert (<[worker_addr id := upd u w]> cl = alter (upd u) (worker_addr id) cl) as Ea.
  { apply map_eq. intros b. destruct (decide (worker_addr id = b)) as [<-|Hne].
    - by rewrite lookup_insert_eq, lookup_alter_eq, Ew.
    - by rewrite lookup_insert_ne, lookup_alter_ne. }
  rewrite Ea, getReplicas_later by (fold t; by rewrite Eid', Eid). fold t. rewrite Eid', Eid.
  rewrite replicate_loop_upd by (by apply wf_alter_upd). simpl.
  eexists. split; [done|].
  change (foldl _ _ (worker_addr <$> later t id))
    with (foldl (λ cl a, alter (upd u) a cl) cl (worker_addr <$> (id :: later t id))).
  split; [by apply wf_alter_all|]. left. intros id' Hid'.
  destruct (later_spec t id Ht Hin) as (Hnd & Hr & _).
  rewrite alter_all_lookup by (by apply NoDup_addr).
  pose proof (addr_elem id' (id :: later t id) Hid' Hr). repeat case_decide; tauto.
Qed.

(** The tablets after the request: every holder that is up has made the update. *)
Lemma cluster_update_spec u id cl :
  let t := hashToBucket (update_row u) NUM_TABLETS in
  wf_cluster cl → holders_agree cl → first_up cl t = Some id →
  ∃ cl' T, cluster_update u (worker_addr id) cl = Some (cl', update_answer u T) ∧
    table_at cl t = Some T ∧ wf_cluster cl' ∧
    ∀ id', 1 ≤ id' ≤ 6 → match up cl id', up cl' id' with
      | None, None => True
      | Some w, Some w' =>
          ∀ t', 1 ≤ t' ≤ 6 → id' ∈ candidateIds t' →
            tablet_of t' w' = (if decide (t' = t) then new_table u <$> tablet_of t' w
                               else tablet_of t' w)
      | _, _ => False
      end.
Proof.
  intros t Hcl Hag Hf. pose proof (hashToBucket_tablet (update_row u)) as Ht. fold t in Ht.
  destruct (first_up_spec cl t id Ht Hf) as (Hin & [w Hup] & Hall).
  pose proof (candidate_range t id Ht Hin) as Hid.
  destruct (up_wf cl id w Hcl Hid Hup) as [Hw Eid].
  destruct (tablet_of_wf t w Hw) as [T HT].
  { apply candidate_holds; [done|by rewrite Eid..]. }
  destruct (cluster_update_run u id w T cl Hcl Hin Hup HT) as (cl' & Eu & Hcl' & Hupd).
  exists cl', T. split; [done|]. split.
  { unfold table_at. rewrite Hf. simpl. rewrite Hup. done. }
  split; [done|]. intros id' Hid'.
  assert (∀ w', up cl id' = Some w' → id' ∈ candidateIds t → tablet_of t w' = Some T) as HagT.
  { intros w' Hup' Hin'. rewrite <-HT. by apply (Hag t id' id). }
  destruct Hupd as [Hupd|[Hnew ->]].
  - specialize (Hupd id' Hid').
    destruct (decide (id' ∈ id :: later t id)) as [Hl|Hl];
      [rewrite decide_True in Hupd by done|rewrite decide_False in Hupd by done]; cycle 1.
    { assert (up cl' id' = up cl id') as -> by (unfold up; by rewrite Hupd). destruct (up cl id') as [w'|] eqn:Eup; [|done].
      intros t' Ht' Hin'. case_decide; [|done]. subst t'. destruct Hl. by apply Hall. }
    assert (up cl' id' = (w ← upd u <$> cl !! worker_addr id';
      if admin_workerUp w then Some w else None)) as -> by (unfold up; by rewrite Hupd).
    destruct (up cl id') as [w'|] eqn:Eup.
    + pose proof (up_wf cl id' w' Hcl Hid' Eup) as [Hw' Eid'].
      apply up_Some in Eup as [-> Hadm]. simpl. destruct (upd_fields u w' Hw') as (_ & _ & ->).
      rewrite Hadm. intros t' Ht' Hin'.
      assert (tablet_of t w' = Some T) as HT'.
      { apply HagT; [done|]. destruct (later_spec t id Ht Hin) as (_ & _ & b & ->).
        apply elem_of_app. by right. }
      destruct (update_local_tablet u w' T Hw' Hadm HT') as (_ & E1 & E2). fold t in E1, E2.
      case_decide; [subst t'; by rewrite E1, HT'|by apply E2].
    + unfold up in Eup. destruct (cl !! worker_addr id') as [w'|] eqn:Ew; simpl in *; [|done].
      destruct (Hcl _ _ Ew) as [Hw' _]. destruct (upd_fields u w' Hw') as (_ & _ & ->).
      by destruct (admin_workerUp w').
  - destruct (up cl id') as [w'|] eqn:Eup; [|done]. intros t' Ht' Hin'. case_decide; [|done].
    subst t'. rewrite (HagT w' eq_refl Hin'). simpl. by rewrite Hnew.
Qed.

End requests.
