(* ===== verification/Replication.v ===== *)
(** * Replication and recovery from peers

    Requests through the coordinator act on the store's contents as on one table, the replicas stay
    in agreement, and a worker that restarts joins them again. *)
From S2P Require Import Prelude CppString Table Codec Utils Rpc Coordinator Worker WorkerFacts.
From S2P Require Import Durability Cluster ClusterFacts.

(** ** Updates *)

Section updates.
Context `{StdHash} `{UMapOrder} `{Grpc}.

(** The workers that are up after an update are those that were up before. *)
Definition same_up (cl cl' : cluster) : Prop :=
  ∀ id, 1 ≤ id ≤ 6 → is_Some (up cl' id) ↔ is_Some (up cl id).

Lemma first_up_same cl cl' t : 1 ≤ t ≤ 6 → same_up cl cl' → first_up cl' t = first_up cl t.
Proof.
  intros Ht Hs. unfold first_up. f_equal. pose proof (candidateIds_range t Ht) as Hc.
  induction Hc as [|id ids Hid Hc IH]; [done|].
  rewrite !filter_cons, IH. pose proof (Hs id Hid). by repeat case_decide; try tauto.
Qed.

Lemma accurate_same m cl cl' : same_up cl cl' → accurate m cl → accurate m cl'.
Proof.
  intros Hs Ha id Hid. rewrite (Ha id Hid). apply bool_decide_ext. symmetry. by apply Hs.
Qed.

(** The effect of an update on the copies of a tablet. *)
Definition tablet_effect (u : update) (t : Z) (T : option table) : option table :=
  if decide (t = hashToBucket (update_row u) NUM_TABLETS) then new_table u <$> T else T.

Lemma cluster_update_effect u id cl :
  wf_cluster cl → holders_agree cl →
  first_up cl (hashToBucket (update_row u) NUM_TABLETS) = Some id →
  ∃ cl' T, rpc (worker_addr id) (cluster_handler u (worker_addr id)) cl = (cl', update_answer u T) ∧
    table_at cl (hashToBucket (update_row u) NUM_TABLETS) = Some T ∧
    wf_cluster cl' ∧ holders_agree cl' ∧ same_up cl cl' ∧
    ∀ t, 1 ≤ t ≤ 6 → table_at cl' t = tablet_effect u t (table_at cl t).
Proof.
  intros Hcl Hag Hf. pose proof (hashToBucket_tablet (update_row u)) as Ht.
  destruct (cluster_update_spec u id cl Hcl Hag Hf) as (cl' & T & Eu & HT & Hcl' & Hall).
  exists cl', T. split.
  { destruct (first_up_spec _ _ _ Ht Hf) as (_ & [w [Hw _]%up_Some] & _).
    unfold rpc. by rewrite Hw, cluster_handler_update, Eu. }
  assert (same_up cl cl') as Hsame.
  { intros id' Hid'. specialize (Hall id' Hid').
    destruct (up cl id'), (up cl' id'); try done; by split; eexists. }
  split_and!; [done..| |done|].
  - intros t id1 id2 w1 w2 Htr Hi1 Hi2 U1 U2.
    pose proof (Hall id1 (candidate_range t id1 Htr Hi1)) as A1.
    pose proof (Hall id2 (candidate_range t id2 Htr Hi2)) as A2. rewrite U1 in A1. rewrite U2 in A2.
    destruct (up cl id1) as [w1'|] eqn:E1; [|done]. destruct (up cl id2) as [w2'|] eqn:E2; [|done].
    rewrite (A1 t Htr Hi1), (A2 t Htr Hi2).
    by rewrite (Hag t id1 id2 w1' w2' Htr Hi1 Hi2 E1 E2).
  - intros t Htr. unfold table_at, tablet_effect. rewrite (first_up_same cl cl') by done.
    destruct (first_up cl t) as [id'|] eqn:Ef; [|by case_decide].
    destruct (first_up_spec cl t id' Htr Ef) as (Hin & [w Hw] & _).
    pose proof (Hall id' (candidate_range t id' Htr Hin)) as A. simpl. rewrite Hw in *.
    destruct (up cl' id') as [w'|]; [|done]. simpl. by apply A.
Qed.

(** The abstract operation: a function on the contents of the store. *)
Definition view_effect (u : update) (V : string → string → option string) :
    string → string → option string :=
  λ r c, match u with
         | UPut r' c' v => if decide ((r, c) = (r', c')) then Some v else V r c
         | UCPut r' c' cur new =>
             if decide ((r, c) = (r', c') ∧ V r c = Some cur) then Some new else V r c
         | UDelete r' c' => if decide ((r, c) = (r', c')) then None else V r c
         end.

(** A request succeeds unless it is a conditional put whose cell does not hold the value it
    names. *)
Definition update_succeeds (u : update) (V : string → string → option string) : Prop :=
  match u with UCPut r c cur _ => V r c = Some cur | _ => True end.

Lemma cput_flat r c cur new T :
  match table_cput r c cur new T with
  | CPutDone T' => flat T !! (r, c) = Some cur ∧ flat T' = <[(r, c) := new]> (flat T)
  | _ => flat T !! (r, c) ≠ Some cur
  end.
Proof.
  unfold table_cput. destruct (table_get r c T) as [| |v] eqn:G.
  - intros F%table_get_flat. congruence.
  - intros F%table_get_flat. congruence.
  - case_bool_decide as E; [subst v|intros F%table_get_flat; congruence].
    split; [by apply table_get_flat|]. rewrite (table_get_set _ _ _ _ _ G). apply table_put_flat.
Qed.

(** On one table the update is the abstract operation. *)
Lemma new_table_flat u T r c :
  flat (new_table u T) !! (r, c) = view_effect u (λ r c, flat T !! (r, c)) r c.
Proof.
  destruct u as [r' c' v|r' c' cur new|r' c']; unfold new_table; simpl.
  - rewrite table_put_flat. case_decide; [simplify_eq; by rewrite lookup_insert_eq|].
    by rewrite lookup_insert_ne.
  - pose proof (cput_flat r' c' cur new T) as E. destruct (table_cput _ _ _ _ _).
    1-3: rewrite decide_False by naive_solver; done.
    destruct E as [E1 ->].
    destruct (decide ((r, c) = (r', c'))) as [Heq|Hne].
    + simplify_eq. by rewrite decide_True, lookup_insert_eq.
    + rewrite decide_False by naive_solver. by rewrite lookup_insert_ne.
  - rewrite table_delete_flat. case_decide; [simplify_eq; by rewrite lookup_delete_eq|].
    by rewrite lookup_delete_ne.
Qed.

Lemma update_answer_ok u T :
  status_ok (update_answer u T).1 = true ↔ update_succeeds u (λ r c, flat T !! (r, c)).
Proof.
  destruct u as [r' c' v|r' c' cur new|r' c']; unfold update_answer; simpl; [done| |done].
  pose proof (cput_flat r' c' cur new T) as E. destruct (table_cput _ _ _ _ _); simpl in *; naive_solver.
Qed.

Lemma view_effect_row u V V' r c :
  (∀ c, V r c = V' r c) → view_effect u V r c = view_effect u V' r c.
Proof. intros E. destruct u; simpl; rewrite ?E; done. Qed.

Lemma view_effect_other u V r c : r ≠ update_row u → view_effect u V r c = V r c.
Proof. intros Hr. destruct u; simpl in *; rewrite decide_False by naive_solver; done. Qed.

Lemma view_table cl r c T :
  table_at cl (hashToBucket r NUM_TABLETS) = Some T → view cl r c = flat T !! (r, c).
Proof. intros E. unfold view. by rewrite E. Qed.

Lemma view_update u cl cl' T :
  table_at cl (hashToBucket (update_row u) NUM_TABLETS) = Some T →
  (∀ t, 1 ≤ t ≤ 6 → table_at cl' t = tablet_effect u t (table_at cl t)) →
  ∀ r c, view cl' r c = view_effect u (view cl) r c.
Proof.
  intros HT He r c. pose proof (hashToBucket_tablet r) as Hr. unfold view at 1.
  rewrite (He _ Hr). unfold tablet_effect. case_decide as Hd.
  - rewrite Hd, HT. simpl. rewrite new_table_flat. apply view_effect_row. intros c'.
    symmetry. apply view_table. by rewrite Hd.
  - rewrite view_effect_other by congruence. done.
Qed.

(** ** Reads *)

Lemma rpc_Get_view cl r c id :
  wf_cluster cl → first_up cl (hashToBucket r NUM_TABLETS) = Some id →
  match view cl r c with
  | Some v => rpc_Get (worker_addr id) r c cl = v
  | None => rpc_Get (worker_addr id) r c cl = err_string st_no_row ∨
            rpc_Get (worker_addr id) r c cl = err_string st_no_col
  end.
Proof.
  intros Hcl Hf. pose proof (hashToBucket_tablet r) as Ht.
  destruct (first_up_spec _ _ _ Ht Hf) as (Hin & [w Hup] & _).
  pose proof (candidate_range _ _ Ht Hin) as Hid. destruct (up_wf cl id w Hcl Hid Hup) as [Hw Eid].
  assert (is_Some (tablet_of (hashToBucket r NUM_TABLETS) w)) as [T HT].
  { apply tablet_of_wf; [done|]. apply candidate_holds; [done|by rewrite Eid..]. }
  rewrite (view_table cl r c T) by (unfold table_at; rewrite Hf; simpl; rewrite Hup; done).
  apply up_Some in Hup as [Ew Hadm]. unfold rpc_Get. rewrite Ew. unfold Get. rewrite Hadm. simpl.
  unfold tablet_of in HT. unfold getTabletNumberOnThisWorker, getTablet.
  rewrite getTablet_not_found. destruct (getTabletById _ w) as [i|]; [|done]. simpl in *.
  rewrite HT. simpl. destruct (table_get r c T) as [| |v] eqn:G.
  - rewrite (proj1 (table_get_flat_None r c T)) by auto. by left.
  - rewrite (proj1 (table_get_flat_None r c T)) by auto. by right.
  - apply table_get_flat in G. by rewrite G.
Qed.

End updates.

(** ** Copying a tablet *)

(** The stream carries the data in chunks of the given size at most. *)
Lemma sendChunks_all fuel size k data :
  (0 < size)%nat → (slen data ≤ fuel)%nat →
  ∃ chunks, sendChunks fuel size (λ _, true) k data = (Status_OK, chunks) ∧
    foldr String.append "" chunks = data ∧ Forall (λ c, slen c ≤ size)%nat chunks.
Proof.
  intros Hs. revert k data. induction fuel as [|fuel IH]; intros k data Hf.
  - exists []. split_and!; [done| |done]. symmetry. apply slen_nil. simpl. lia.
  - destruct data as [|a data]; [by exists []|]. cbn [sendChunks].
    destruct (IH (S k) (str_drop size (String a data))) as (chunks & -> & E & Hc).
    { rewrite slen_drop. simpl in *. lia. }
    eexists. split; [done|]. split.
    + cbn [foldr]. rewrite E. apply str_take_drop.
    + constructor; [rewrite slen_take; lia|done].
Qed.

Section recovery.
Context `{StdHash} `{UMapOrder} `{Grpc}.

Lemma CHUNK_SIZE_pos : (0 < CHUNK_SIZE)%nat.
Proof. unfold CHUNK_SIZE. lia. Qed.

Lemma rpc_CopyTablet_data cl id w t T :
  up cl id = Some w → tablet_of t w = Some T →
  rpc_CopyTablet cl (worker_addr id) t = serializeTablet T.
Proof.
  intros [Ew Hadm]%up_Some HT. unfold rpc_CopyTablet. rewrite Ew. unfold CopyTablet.
  rewrite Hadm. cbn [negb]. rewrite getTablet_not_found. unfold tablet_of in HT.
  destruct (getTabletById t w) as [i|]; [|done]. simpl in HT. cbn [mbind option_bind].
  rewrite HT. cbn [mbind option_bind].
  destruct (sendChunks_all (slen (serializeTablet T)) CHUNK_SIZE 0 (serializeTablet T))
    as (chunks & -> & E & _); [apply CHUNK_SIZE_pos|done|].
  unfold client_CopyTablet. cbn [fst snd]. rewrite foldl_append, E. done.
Qed.

(** Where a worker gets its [i]-th tablet from, and what it gets. *)
Definition recoverable (cl : cluster) (w : worker) (i : nat) (T : table) : Prop :=
  let t := tablet_at_index (workerId w) i in
  (table_at cl t = Some T ∧ table_fits T ∧ no_empty_rows T) ∨
  (first_up cl t = None ∧ durable_tablet (disk w) (workerId w) i T).

Lemma source_no_semicolon m t : 1 ≤ t ≤ 6 → no_char ";" (source m t) ∧ source m t ≠ "".
Proof.
  intros Ht. unfold source. destruct (current_holder m t) as [id|] eqn:E; [|done].
  apply current_holder_range in E; [|done].
  worker_cases id; (split; [apply (@bool_decide_unpack _ (no_char_dec _ _)); vm_compute; done|done]).
Qed.

Lemma tablet_at_index_range id i : 1 ≤ id ≤ 6 → (i < 3)%nat → 1 ≤ tablet_at_index id i ≤ 6.
Proof. intros Hid Hi. worker_cases id; destruct i as [|[|[|i]]]; vm_compute; intuition congruence. Qed.

Lemma client_ptr_peer w id :
  1 ≤ workerId w ≤ 6 → 1 ≤ id ≤ 6 → id ≠ workerId w →
  client_ptr (worker_addr id) w = Some (worker_addr id) ∧ worker_addr id ≠ "ALLDEAD".
Proof.
  unfold client_ptr, workerClientPtrs. generalize (workerId w). intros me Hme Hid Hne.
  rewrite bool_decide_true; [done|]. apply list_elem_of_fmap_2, list_elem_of_filter.
  split; [done|]. worker_cases id; set_solver.
Qed.

(** One iteration of the loop of [recoverAllTablets]. *)
Lemma recoverLoop_step m cl w i T hosts :
  1 ≤ workerId w ≤ 6 → (i < 3)%nat → wf_cluster cl → accurate m cl → up cl (workerId w) = None →
  loggers w !! i = Some (logFile (workerId w) (Z.of_nat (S i))) → recoverable cl w i T →
  recoverLoop (rpc_CopyTablet cl) (source m (tablet_at_index (workerId w) i) :: hosts)
      (tablet_at_index (workerId w) i) w =
    recoverLoop (rpc_CopyTablet cl) hosts
      ((tablet_at_index (workerId w) i + NUM_TABLETS - 2) %% NUM_TABLETS + 1) (set_tablet i T w).
Proof.
  intros Hid Hi Hcl Hacc Hdown Hlog Hrec. set (t := tablet_at_index (workerId w) i) in *.
  pose proof (tablet_at_index_range (workerId w) i Hid Hi) as Ht. fold t in Ht.
  unfold source. rewrite (current_holder_first_up m cl t Hacc Ht).
  destruct Hrec as [(HT & Hfit & Hne)|[Hf Hd]]; cycle 1.
  { fold t in Hf. rewrite Hf. by apply recoverLoop_dead. }
  fold t in HT. unfold table_at in HT. destruct (first_up cl t) as [id|] eqn:Ef; [|done].
  simpl in HT. destruct (first_up_spec cl t id Ht Ef) as (Hin & [w' Hup] & _).
  rewrite Hup in HT. simpl in HT. pose proof (candidate_range t id Ht Hin) as Hidr.
  destruct (client_ptr_peer w id Hid Hidr) as [Ep Ena]; [congruence|].
  cbn [recoverLoop]. rewrite (getTabletNumberById_index w i Hid Hi : getTabletNumberById t w = _).
  rewrite bool_decide_false by (unfold TABLET_NOT_FOUND; lia).
  rewrite bool_decide_false by done. rewrite Ep. cbn [mbind option_bind].
  rewrite (proj2 (getTabletById_index t w i Hid) (conj Hi eq_refl)). cbn [mbind option_bind].
  rewrite (rpc_CopyTablet_data cl id w' t T Hup HT).
  by rewrite deserialize_serialize_table.
Qed.

Lemma source_not_ERR m t s : 1 ≤ t ≤ 6 → is_ERR (source m t +:+ s) = false.
Proof.
  intros Ht. unfold source. destruct (current_holder m t) as [id|] eqn:E; [|done].
  apply current_holder_range in E; [|done]. by worker_cases id.
Qed.

(** The three hosts of the answer. *)
Lemma WorkerLookup_hosts id m :
  1 ≤ id ≤ 6 →
  let res := client_WorkerLookup (WorkerLookup id m).2 in
  is_ERR res = false ∧
  getlines ";" res = [source m id; source m (prev1 id); source m (prev2 id)].
Proof.
  intros Hid. cbv zeta. rewrite WorkerLookup_answer. unfold client_WorkerLookup. cbn [fst snd].
  change (status_ok Status_OK) with true. cbv iota.
  replace ((id + 4) %% 6 + 1) with (prev1 id) by (unfold prev1, NUM_TABLETS; do 2 f_equal; lia).
  replace ((id + 3) %% 6 + 1) with (prev2 id) by (unfold prev2, NUM_TABLETS; do 2 f_equal; lia).
  split; [by apply source_not_ERR|].
  destruct (source_no_semicolon m id) as [N0 _]; [done|].
  destruct (source_no_semicolon m (prev1 id)) as [N1 _]; [apply (tablet_at_index_range id 1); lia|].
  destruct (source_no_semicolon m (prev2 id)) as [N2 E2]; [apply (tablet_at_index_range id 2); lia|].
  unfold getlines.
  change (source m id +:+ ";" +:+ source m (prev1 id) +:+ ";" +:+ source m (prev2 id))
    with (join (String ";" "") [source m id; source m (prev1 id); source m (prev2 id)]).
  rewrite (split_on_join ";" [source m id; source m (prev1 id); source m (prev2 id)]); [|done|auto].
  cbn [last]. by destruct (source m (prev2 id)).
Qed.

Definition loaded (T0 T1 T2 : table) (w : worker) : worker :=
  {| workerId := workerId w; tablets := [T0; T1; T2]; loggers := loggers w;
     updateRequestCount := updateRequestCount w; admin_workerUp := admin_workerUp w;
     disk := disk w |}.

Lemma recoverAllTablets_peers m cl w T0 T1 T2 :
  1 ≤ workerId w ≤ 6 → length (tablets w) = 3%nat →
  loggers w = [logFile (workerId w) 1; logFile (workerId w) 2; logFile (workerId w) 3] →
  wf_cluster cl → accurate m cl → up cl (workerId w) = None →
  recoverable cl w 0 T0 → recoverable cl w 1 T1 → recoverable cl w 2 T2 →
  recoverAllTablets (rpc_CopyTablet cl) (client_WorkerLookup (WorkerLookup (workerId w) m).2) w =
    Some (loaded T0 T1 T2 w).
Proof.
  intros Hid Hlen Hlog Hcl Hacc Hdown R0 R1 R2. unfold recoverAllTablets.
  destruct (WorkerLookup_hosts (workerId w) m Hid) as [-> ->].
  pose proof (recoverLoop_step m cl w 0 T0
    [source m (prev1 (workerId w)); source m (prev2 (workerId w))] Hid) as E0.
  pose proof (recoverLoop_step m cl (set_tablet 0 T0 w) 1 T1 [source m (prev2 (workerId w))] Hid) as E1.
  pose proof (recoverLoop_step m cl (set_tablet 1 T1 (set_tablet 0 T0 w)) 2 T2 [] Hid) as E2.
  unfold set_tablet in E0, E1, E2. cbn [workerId loggers disk tablets] in E0, E1, E2.
  rewrite Hlog in E0, E1, E2.
  specialize (E0 ltac:(lia) Hcl Hacc Hdown eq_refl R0).
  specialize (E1 ltac:(lia) Hcl Hacc Hdown eq_refl R1).
  specialize (E2 ltac:(lia) Hcl Hacc Hdown eq_refl R2).
  etrans; [exact E0|]. rewrite (tablet_at_index_next (workerId w) 0 Hid) by lia.
  etrans; [exact E1|]. rewrite (tablet_at_index_next (workerId w) 1 Hid) by lia.
  etrans; [exact E2|]. cbn [recoverLoop]. unfold loaded. rewrite <-Hlog.
  by destruct (tablets w) as [|? [|? [|? [|??]]]].
Qed.

(** ** A worker joins the cluster *)

(** The process of worker [w] answers at its address, with the tablets it recovered. *)
Definition joined (w : worker) (cl : cluster) : cluster := <[worker_addr (workerId w) := w]> cl.

Lemma up_joined w cl id :
  1 ≤ workerId w ≤ 6 → 1 ≤ id ≤ 6 → admin_workerUp w = true →
  up (joined w cl) id = if decide (id = workerId w) then Some w else up cl id.
Proof.
  intros Hw Hid Hadm. unfold up, joined. case_decide as E.
  - subst id. rewrite lookup_insert_eq. simpl. by rewrite Hadm.
  - rewrite lookup_insert_ne; [done|]. intros Ea. apply worker_addr_inj in Ea; congruence.
Qed.

(** The tablets of a worker that has recovered. *)
Lemma recovered_tablet cl w T0 T1 T2 t :
  wf_worker w → recoverable cl w 0 T0 → recoverable cl w 1 T1 → recoverable cl w 2 T2 →
  workerId w ∈ candidateIds t → 1 ≤ t ≤ 6 →
  ∃ T, tablet_of t (loaded T0 T1 T2 w) = Some T ∧ (table_at cl t = Some T ∨ first_up cl t = None).
Proof.
  intros Hw R0 R1 R2 Hin Ht. apply candidate_holds in Hin as [i Hi]; [|done|apply Hw].
  pose proof Hi as [Hi3 Et]%getTabletById_index; [|apply Hw].
  unfold tablet_of. rewrite (getTabletById_id t w) by done. rewrite Hi. simpl. rewrite Et.
  unfold recoverable in *. destruct i as [|[|[|i]]]; [..|lia]; eexists; (split; [done|]); naive_solver.
Qed.

Lemma first_up_None cl t id : first_up cl t = None → id ∈ candidateIds t → up cl id = None.
Proof.
  intros Ef Hin. destruct (up cl id) as [w|] eqn:U; [|done]. apply head_None in Ef.
  assert (id ∈ filter (λ id, is_Some (up cl id)) (candidateIds t)) as Hf
    by (apply list_elem_of_filter; rewrite U; by split; [eexists|]).
  rewrite Ef in Hf. by apply elem_of_nil in Hf.
Qed.

(** A holder that is up has the table of the first one. *)
Lemma table_at_up cl t id w :
  wf_cluster cl → holders_agree cl → 1 ≤ t ≤ 6 → id ∈ candidateIds t → up cl id = Some w →
  tablet_of t w = table_at cl t ∧ is_Some (table_at cl t).
Proof.
  intros Hcl Hag Ht Hin Hup.
  assert (tablet_of t w = table_at cl t) as E.
  { unfold table_at. destruct (first_up cl t) as [id0|] eqn:Ef.
    - simpl. destruct (first_up_spec cl t id0 Ht Ef) as (Hin0 & [w0 Hup0] & _). rewrite Hup0.
      by apply (Hag t id id0).
    - by rewrite (first_up_None cl t id Ef Hin) in Hup. }
  split; [done|]. rewrite <-E.
  destruct (up_wf cl id w Hcl (candidate_range t id Ht Hin) Hup) as [Hw Eid].
  apply tablet_of_wf; [done|]. apply candidate_holds; [done|..]; rewrite Eid; [|done].
  by apply (candidate_range t).
Qed.

Lemma joined_agree cl w T0 T1 T2 :
  wf_cluster cl → holders_agree cl → wf_worker w → up cl (workerId w) = None →
  recoverable cl w 0 T0 → recoverable cl w 1 T1 → recoverable cl w 2 T2 →
  let cl' := joined (set_up true (loaded T0 T1 T2 w)) cl in
  holders_agree cl' ∧
  ∀ t T, 1 ≤ t ≤ 6 → table_at cl t = Some T → table_at cl' t = Some T.
Proof.
  intros Hcl Hag Hw Hdown R0 R1 R2 cl'. set (w' := set_up true (loaded T0 T1 T2 w)) in *.
  assert (∀ id, 1 ≤ id ≤ 6 → up cl' id = if decide (id = workerId w) then Some w' else up cl id)
    as Eup by (intros id Hid; apply (up_joined w' cl id); [apply Hw|done..]).
  assert (∀ t id w1 T, 1 ≤ t ≤ 6 → id ∈ candidateIds t → up cl' id = Some w1 →
    table_at cl t = Some T → tablet_of t w1 = Some T) as Hone.
  { intros t id w1 T Ht Hin. rewrite (Eup id (candidate_range t id Ht Hin)). case_decide as Ed.
    - subst id. intros [= <-] HT.
      destruct (recovered_tablet cl w T0 T1 T2 t Hw R0 R1 R2 Hin Ht) as (T' & E' & [E|E]).
      + etrans; [exact E'|]. congruence.
      + unfold table_at in HT. by rewrite E in HT.
    - intros Hup HT. by rewrite (proj1 (table_at_up cl t id w1 Hcl Hag Ht Hin Hup)). }
  split.
  - intros t id1 id2 w1 w2 Ht Hin1 Hin2 U1 U2.
    destruct (table_at cl t) as [T|] eqn:HT.
    { by rewrite (Hone t id1 w1 T Ht Hin1 U1 HT), (Hone t id2 w2 T Ht Hin2 U2 HT). }
    assert (∀ id w0, id ∈ candidateIds t → up cl' id = Some w0 → w0 = w') as Hself.
    { intros id w0 Hin. rewrite (Eup id (candidate_range t id Ht Hin)). case_decide; [congruence|].
      intros U. destruct (table_at_up cl t id w0 Hcl Hag Ht Hin U) as [_ [??]]. congruence. }
    by rewrite (Hself id1 w1 Hin1 U1), (Hself id2 w2 Hin2 U2).
  - intros t T Ht HT. unfold table_at at 1. destruct (first_up cl' t) as [id|] eqn:Ef.
    + destruct (first_up_spec cl' t id Ht Ef) as (Hin & [w1 U] & _). simpl. rewrite U. simpl.
      by apply (Hone t id w1).
    + exfalso. unfold table_at in HT. destruct (first_up cl t) as [id|] eqn:Ef0; [|done].
      destruct (first_up_spec cl t id Ht Ef0) as (Hin & [w1 U] & _).
      pose proof (first_up_None cl' t id Ef Hin) as E.
      rewrite (Eup id (candidate_range t id Ht Hin)) in E. case_decide; congruence.
Qed.

End recovery.

(** ** A cluster of new workers *)

Definition booted : cluster :=
  list_to_map ((λ id, (worker_addr id, boot id ∅)) <$> [1; 2; 3; 4; 5; 6]).

Lemma booted_lookup a w : booted !! a = Some w → ∃ id, 1 ≤ id ≤ 6 ∧ a = worker_addr id ∧ w = boot id ∅.
Proof.
  intros Hl%elem_of_list_to_map_2. apply list_elem_of_fmap in Hl as (id & E & Hid). simplify_eq.
  exists id. split; [|done]. rewrite !elem_of_cons, elem_of_nil in Hid. lia.
Qed.

Lemma booted_wf : wf_cluster booted.
Proof. intros a w (id & Hid & -> & ->)%booted_lookup. split; [by apply wf_boot|done]. Qed.

Lemma boot_tablet t id fs T : tablet_of t (boot id fs) = Some T → T = ∅.
Proof.
  unfold tablet_of. destruct (getTabletById _ _) as [i|]; [|done]. simpl.
  destruct i as [|[|[|i]]]; intros E; by simplify_eq/=.
Qed.

Lemma booted_agree : holders_agree booted.
Proof.
  intros t id id' w w' Ht Hin Hin' U U'.
  destruct (up_wf _ _ _ booted_wf (candidate_range t id Ht Hin) U) as [Hw E].
  destruct (up_wf _ _ _ booted_wf (candidate_range t id' Ht Hin') U') as [Hw' E'].
  apply up_Some in U as [(i & _ & _ & ->)%booted_lookup _].
  apply up_Some in U' as [(i' & _ & _ & ->)%booted_lookup _].
  destruct (tablet_of_wf t _ Hw) as [T HT]; [apply candidate_holds; [done|apply Hw|by rewrite E]|].
  destruct (tablet_of_wf t _ Hw') as [T' HT']; [apply candidate_holds; [done|apply Hw'|by rewrite E']|].
  rewrite HT, HT'. by rewrite (boot_tablet _ _ _ _ HT), (boot_tablet _ _ _ _ HT').
Qed.

(** A coordinator that has heard from all workers. *)
Definition all_alive : master :=
  set_isAlive {[ 1 := true; 2 := true; 3 := true; 4 := true; 5 := true; 6 := true ]}
    (MasterNode (loadHostMap hosts_txt) 0).
Lemma all_alive_accurate : accurate all_alive booted.
Proof. intros id Hid. worker_cases id; vm_compute; done. Qed.

(** ** Properties *)

Section through_coordinator.
Context `{StdHash} `{UMapOrder} `{Grpc}.

(** C1: as long as one holder of the key's tablet is up and the coordinator knows who is up, an
    update (put, conditional put or delete) sent to the worker the coordinator names acts on the
    store as on one map from (row, column) to value, at every holder that is up: the cell changes
    as requested and no other, a conditional put is refused exactly when the cell does not hold
    the value it names, and the replicas stay in agreement. *)
Theorem replicated_update u m cl :
  hosts_complete m → accurate m cl → wf_cluster cl → holders_agree cl →
  is_Some (first_up cl (hashToBucket (update_row u) NUM_TABLETS)) →
  ∃ m' addr cl' res,
    Lookup (update_row u) m = Some (m', (Status_OK, addr)) ∧
    rpc addr (cluster_handler u addr) cl = (cl', res) ∧
    (status_ok res.1 = true ↔ update_succeeds u (view cl)) ∧
    (∀ r c, view cl' r c = view_effect u (view cl) r c) ∧
    wf_cluster cl' ∧ holders_agree cl' ∧ accurate m' cl'.
Proof.
  intros Hh Hacc Hcl Hag [id Hf]. pose proof (hashToBucket_tablet (update_row u)) as Ht.
  destruct (Lookup_result (update_row u) m Hh) as (m' & Hs & _ & _ & El).
  rewrite (current_holder_first_up m cl _ Hacc Ht), Hf in El.
  destruct (cluster_update_effect u id cl Hcl Hag Hf) as (cl' & T & Er & HT & Hcl' & Hag' & Hsame & He).
  exists m', (worker_addr id), cl', (update_answer u T). split_and!; [done..| | |done|done|].
  - rewrite update_answer_ok. destruct u; simpl; [done| |done]. by rewrite (view_table cl _ _ T).
  - by apply (view_update u cl cl' T).
  - apply (accurate_same m' cl cl' Hsame). intros id' Hid'. rewrite <-(Hacc id' Hid').
    unfold alive. apply Hs.
Qed.

(** C11: a read at the worker the coordinator names returns the value of the cell, or an error
    string when there is none. *)
Theorem replicated_get r c m cl :
  hosts_complete m → accurate m cl → wf_cluster cl →
  is_Some (first_up cl (hashToBucket r NUM_TABLETS)) →
  ∃ m' addr, Lookup r m = Some (m', (Status_OK, addr)) ∧
    match view cl r c with
    | Some v => rpc_Get addr r c cl = v
    | None => is_ERR (rpc_Get addr r c cl) = true
    end.
Proof.
  intros Hh Hacc Hcl [id Hf]. pose proof (hashToBucket_tablet r) as Ht.
  destruct (Lookup_result r m Hh) as (m' & _ & _ & _ & El).
  rewrite (current_holder_first_up m cl _ Hacc Ht), Hf in El.
  exists m', (worker_addr id). split; [done|].
  pose proof (rpc_Get_view cl r c id Hcl Hf) as Hg. destruct (view cl r c); [done|].
  destruct Hg as [-> | ->]; apply err_string_is_ERR.
Qed.

End through_coordinator.

Lemma replicated_update_witness :
  ∃ m' addr cl' res,
    @Lookup (λ _, 0) "alice-storage" all_alive = Some (m', (Status_OK, addr)) ∧
    @rpc "" addr (@cluster_handler (λ _, 0) canonical_order "" example_put addr) booted = (cl', res) ∧
    (status_ok res.1 = true ↔ True) ∧
    (∀ r c, @view (λ _, 0) cl' r c = view_effect example_put (@view (λ _, 0) booted) r c) ∧
    wf_cluster cl' ∧ holders_agree cl' ∧ accurate m' cl'.
Proof.
  apply (@replicated_update (λ _, 0) canonical_order "" example_put all_alive booted).
  - apply hosts_txt_complete.
  - apply all_alive_accurate.
  - apply booted_wf.
  - apply booted_agree.
  - exists 1. vm_compute. reflexivity.
Defined.

Lemma replicated_get_witness :
  ∃ m' addr, @Lookup (λ _, 0) "alice-storage" all_alive = Some (m', (Status_OK, addr)) ∧
    match @view (λ _, 0) booted "alice-storage" "metadata" with
    | Some v => @rpc_Get (λ _, 0) "" addr "alice-storage" "metadata" booted = v
    | None => is_ERR (@rpc_Get (λ _, 0) "" addr "alice-storage" "metadata" booted) = true
    end.
Proof.
  apply (@replicated_get (λ _, 0) "" "alice-storage" "metadata" all_alive booted).
  - apply hosts_txt_complete.
  - apply all_alive_accurate.
  - apply booted_wf.
  - exists 1. vm_compute. reflexivity.
Defined.

(** ** Failures *)

Lemma up_subseteq cl cl' id w : cl' ⊆ cl → up cl' id = Some w → up cl id = Some w.
Proof. intros Hs [Hw Ha]%up_Some. apply up_Some. split; [by eapply lookup_weaken|done]. Qed.

Lemma agree_fewer cl cl' :
  (∀ id w, up cl' id = Some w → up cl id = Some w) → holders_agree cl → holders_agree cl'.
Proof. intros Hs Hag t id1 id2 w1 w2 Ht Hi1 Hi2 U1 U2. apply (Hag t id1 id2); auto. Qed.



Lemma wf_loaded w T0 T1 T2 b :
  wf_worker w → no_empty_rows T0 → no_empty_rows T1 → no_empty_rows T2 →
  wf_worker (set_up b (loaded T0 T1 T2 w)).
Proof. intros [H1 H2 H3 H4 H5] N0 N1 N2. split; try done. repeat constructor; done. Qed.

Lemma recoverable_rows cl w i T : recoverable cl w i T → no_empty_rows T.
Proof. intros [(_ & _ & ?)|[_ ?]]; [done|by eapply durable_tablet_rows]. Qed.

Lemma wf_joined w cl : wf_cluster cl → wf_worker w → wf_cluster (joined w cl).
Proof.
  intros Hcl Hw a w'. unfold joined. destruct (decide (a = worker_addr (workerId w))) as [->|Hne].
  - rewrite lookup_insert_eq. by intros [= <-].
  - rewrite lookup_insert_ne by done. apply Hcl.
Qed.

(** C6: an administrator's RESTART of a worker that is shut down, and that the coordinator knows to
    be down: the worker loads each of its tablets from the first holder that is up, or from its own
    disk when there is none, comes up, and agrees with all other holders; the tables that could be
    read before are unchanged. *)
Theorem restart_rejoins `{StdHash} `{UMapOrder} `{Grpc} m cl w T0 T1 T2 :
  wf_cluster cl → holders_agree cl → accurate m cl →
  cl !! worker_addr (workerId w) = Some w → admin_workerUp w = false →
  recoverable cl w 0 T0 → recoverable cl w 1 T1 → recoverable cl w 2 T2 →
  ∃ cl', restart m (worker_addr (workerId w)) ADMIN_PASS cl = Some (cl', (Status_OK, true)) ∧
    tablets <$> up cl' (workerId w) = Some [T0; T1; T2] ∧
    wf_cluster cl' ∧ holders_agree cl' ∧
    ∀ t T, 1 ≤ t ≤ 6 → table_at cl t = Some T → table_at cl' t = Some T.
Proof.
  intros Hcl Hag Hacc Hw Hdown R0 R1 R2. destruct (Hcl _ _ Hw) as [Hwf _].
  assert (up cl (workerId w) = None) as Hup by (unfold up; rewrite Hw; simpl; by rewrite Hdown).
  exists (joined (set_up true (loaded T0 T1 T2 w)) cl). split.
  { unfold restart. rewrite Hw. cbn [mbind option_bind]. unfold AdminConsole.
    rewrite bool_decide_false by (by intros []).
    change (bool_decide ("RESTART" = "SHUTDOWN")) with false.
    change (bool_decide ("RESTART" = "RESTART")) with true. cbv iota. rewrite Hdown. cbn [negb].
    rewrite (recoverAllTablets_peers m cl w T0 T1 T2) by (done || apply Hwf). done. }
  rewrite up_joined by (apply Hwf || done). rewrite decide_True by done. split; [done|].
  split; [|by apply joined_agree]. apply wf_joined; [done|].
  apply wf_loaded; eauto using recoverable_rows.
Qed.

(** C19: a new process of worker [id], on whatever files are there, ends its recovery in the same
    way. *)
Theorem start_rejoins `{StdHash} `{UMapOrder} `{Grpc} m cl id fs T0 T1 T2 :
  1 ≤ id ≤ 6 → wf_cluster cl → holders_agree cl → accurate m cl → cl !! worker_addr id = None →
  recoverable cl (boot id fs) 0 T0 → recoverable cl (boot id fs) 1 T1 →
  recoverable cl (boot id fs) 2 T2 →
  ∃ cl', start m id fs cl = Some cl' ∧ tablets <$> up cl' id = Some [T0; T1; T2] ∧
    wf_cluster cl' ∧ holders_agree cl' ∧
    ∀ t T, 1 ≤ t ≤ 6 → table_at cl t = Some T → table_at cl' t = Some T.
Proof.
  intros Hid Hcl Hag Hacc Hw R0 R1 R2. pose proof (wf_boot id fs Hid) as Hwf.
  assert (up cl (workerId (boot id fs)) = None) as Hup by (unfold up; simpl; by rewrite Hw).
  exists (joined (set_up true (loaded T0 T1 T2 (boot id fs))) cl). split.
  { unfold start, worker_main. rewrite (recoverAllTablets_peers m cl (boot id fs) T0 T1 T2)
      by (done || apply Hwf). done. }
  rewrite up_joined by done. rewrite decide_True by done. split; [done|].
  split; [|by apply joined_agree]. apply wf_joined; [done|].
  apply wf_loaded; eauto using recoverable_rows.
Qed.

Lemma empty_recoverable cl w i :
  table_at cl (tablet_at_index (workerId w) i) = Some ∅ → recoverable cl w i ∅.
Proof. intros E. left. split; [done|]. split; [by split|apply no_empty_rows_empty]. Qed.

(** Worker 1 shut down by the administrator, among new workers; its process gone. *)
Definition one_shut : cluster := <[worker_addr 1 := set_up false (boot 1 ∅)]> booted.
Definition one_gone : cluster := delete (worker_addr 1) booted.

Lemma one_gone_wf : wf_cluster one_gone.
Proof. unfold one_gone. intros a w [_ Hw]%lookup_delete_Some. by apply booted_wf. Qed.
Lemma one_gone_agree : holders_agree one_gone.
Proof. eapply agree_fewer; [|apply booted_agree]. intros id w. apply up_subseteq, delete_subseteq. Qed.
Lemma one_gone_accurate : accurate example_master one_gone.
Proof. intros id Hid. worker_cases id; vm_compute; done. Qed.

Lemma one_shut_wf : wf_cluster one_shut.
Proof.
  intros a w. unfold one_shut. destruct (decide (a = worker_addr 1)) as [->|Hne].
  - rewrite lookup_insert_eq. intros [= <-]. split; [|done]. destruct (wf_boot 1 ∅); [lia|by split].
  - rewrite lookup_insert_ne by done. apply booted_wf.
Qed.
Lemma one_shut_agree : holders_agree one_shut.
Proof.
  eapply agree_fewer; [|apply booted_agree]. intros id w [Hw Ha]%up_Some. apply up_Some.
  split; [|done]. unfold one_shut in Hw. destruct (decide (worker_addr 1 = worker_addr id)) as [E|Hne].
  - rewrite E, lookup_insert_eq in Hw. by simplify_eq/=.
  - by rewrite lookup_insert_ne in Hw.
Qed.
Lemma one_shut_accurate : accurate example_master one_shut.
Proof. intros id Hid. worker_cases id; vm_compute; done. Qed.

Lemma restart_rejoins_witness :
  ∃ cl', @restart canonical_order "" example_master (worker_addr 1) ADMIN_PASS one_shut =
      Some (cl', (Status_OK, true)) ∧
    tablets <$> up cl' 1 = Some [∅; ∅; ∅] ∧ wf_cluster cl' ∧ holders_agree cl' ∧
    ∀ t T, 1 ≤ t ≤ 6 → table_at one_shut t = Some T → table_at cl' t = Some T.
Proof.
  apply (@restart_rejoins (λ _, 0) canonical_order "" example_master one_shut (set_up false (boot 1 ∅))).
  - apply one_shut_wf.
  - apply one_shut_agree.
  - apply one_shut_accurate.
  - apply lookup_insert_eq.
  - reflexivity.
  - apply empty_recoverable. vm_compute. reflexivity.
  - apply empty_recoverable. vm_compute. reflexivity.
  - apply empty_recoverable. vm_compute. reflexivity.
Defined.

Lemma start_rejoins_witness :
  ∃ cl', @start canonical_order "" example_master 1 ∅ one_gone = Some cl' ∧
    tablets <$> up cl' 1 = Some [∅; ∅; ∅] ∧ wf_cluster cl' ∧ holders_agree cl' ∧
    ∀ t T, 1 ≤ t ≤ 6 → table_at one_gone t = Some T → table_at cl' t = Some T.
Proof.
  apply (@start_rejoins (λ _, 0) canonical_order "" example_master one_gone 1 ∅).
  - lia.
  - apply one_gone_wf.
  - apply one_gone_agree.
  - apply one_gone_accurate.
  - apply lookup_delete_eq.
  - apply empty_recoverable. vm_compute. reflexivity.
  - apply empty_recoverable. vm_compute. reflexivity.
  - apply empty_recoverable. vm_compute. reflexivity.
Defined.

(** [CopyTablet] streams the serialized tablet in chunks of at most 1 MiB, and the client that
    appends the chunks has the serialized tablet back. *)
Theorem CopyTablet_stream `{UMapOrder} t w T :
  admin_workerUp w = true → tablet_of t w = Some T →
  ∃ chunks, CopyTablet (λ _, true) t w = Some (Status_OK, chunks) ∧
    Forall (λ c, Z.of_nat (slen c) ≤ 1048576) chunks ∧
    client_CopyTablet (Status_OK, chunks) = serializeTablet T.
Proof.
  intros Hadm HT. unfold CopyTablet. rewrite Hadm. cbn [negb]. rewrite getTablet_not_found.
  unfold tablet_of in HT. destruct (getTabletById t w) as [i|]; [|done]. simpl in HT.
  cbn [mbind option_bind]. rewrite HT. cbn [mbind option_bind].
  destruct (sendChunks_all (slen (serializeTablet T)) CHUNK_SIZE 0 (serializeTablet T))
    as (chunks & -> & E & Hc); [apply CHUNK_SIZE_pos|done|].
  exists chunks. split; [done|]. split.
  - eapply Forall_impl; [done|]. intros c. unfold CHUNK_SIZE. cbv beta. lia.
  - unfold client_CopyTablet. cbn [fst snd]. by rewrite foldl_append, E.
Qed.

Lemma CopyTablet_stream_witness :
  ∃ chunks, @CopyTablet canonical_order (λ _, true) 1 one_put = Some (Status_OK, chunks) ∧
    Forall (λ c, Z.of_nat (slen c) ≤ 1048576) chunks ∧
    client_CopyTablet (Status_OK, chunks) =
      @serializeTablet canonical_order {["alice-storage" := {["metadata" := "/"]}]}.
Proof. apply CopyTablet_stream; vm_compute; reflexivity. Defined.

(** A RESTART that reaches a worker before the coordinator has noticed that it is down ends its
    process: the coordinator answers the worker's own address for its first tablet, and the worker
    has no client for itself. *)
Theorem restart_too_soon `{UMapOrder} `{Grpc} m cl w :
  1 ≤ workerId w ≤ 6 → alive m (workerId w) = true →
  cl !! worker_addr (workerId w) = Some w → admin_workerUp w = false →
  restart m (worker_addr (workerId w)) ADMIN_PASS cl = None.
Proof.
  intros Hid Hal Hw Hdown. unfold restart. rewrite Hw. cbn [mbind option_bind]. unfold AdminConsole.
  rewrite bool_decide_false by (by intros []).
  change (bool_decide ("RESTART" = "SHUTDOWN")) with false.
  change (bool_decide ("RESTART" = "RESTART")) with true. cbv iota. rewrite Hdown. cbn [negb].
  unfold recoverAllTablets. destruct (WorkerLookup_hosts (workerId w) m Hid) as [-> ->].
  assert (source m (workerId w) = worker_addr (workerId w)) as ->.
  { unfold source, current_holder, candidateIds. rewrite filter_cons. by rewrite decide_True. }
  cbn [recoverLoop]. 
  pose proof (getTabletNumberById_index w 0 Hid ltac:(lia)) as En. cbn [tablet_at_index] in En.
  rewrite En, bool_decide_false by (unfold TABLET_NOT_FOUND; lia).
  assert (worker_addr (workerId w) ≠ "ALLDEAD" ∧ client_ptr (worker_addr (workerId w)) w = None)
    as [Hne ->].
  { unfold client_ptr, workerClientPtrs. clear -Hid. generalize dependent (workerId w). intros id Hid.
    worker_cases id; vm_compute; done. }
  by rewrite (bool_decide_false _ Hne).
Qed.

Lemma restart_too_soon_witness :
  @restart canonical_order "" all_alive (worker_addr 1) ADMIN_PASS one_shut = None.
Proof.
  apply (@restart_too_soon canonical_order "" all_alive one_shut (set_up false (boot 1 ∅))).
  - simpl. lia.
  - reflexivity.
  - apply lookup_insert_eq.
  - reflexivity.
Defined.

(** The error string of a failed copy, read as a tablet: its length fields are too large. *)
Lemma deserialize_error s :
  Z.of_nat (slen s) < 540685361 → deserializeTablet ∅ ("ERR 14: " +:+ s) = (∅, false).
Proof.
  intros Hs. rewrite !sapp_cons, sapp_nil_l. unfold deserializeTablet. cbn [read_u32].
  cbn [deserializeRows]. rewrite bool_decide_false by (vm_compute; done).
  unfold readString. cbn [read_u32 mbind option_bind].
  change (of_byte "1" + 2 ^ 8 * of_byte "4" + 2 ^ 16 * of_byte ":" + 2 ^ 24 * of_byte " ")
    with 540685361. by rewrite bool_decide_true.
Qed.

(** When the peer that the coordinator named can not be reached, the error string of the failed
    copy is parsed as a tablet: the worker takes the tablet to be empty, and goes on. *)
Theorem unreachable_peer_empties_tablet `{UMapOrder} `{Grpc} cl host w i hosts :
  1 ≤ workerId w ≤ 6 → (i < 3)%nat → Z.of_nat (slen unreachable_message) < 2 ^ 29 →
  cl !! host = None → client_ptr host w = Some host →
  recoverLoop (rpc_CopyTablet cl) (host :: hosts) (tablet_at_index (workerId w) i) w =
    recoverLoop (rpc_CopyTablet cl) hosts
      ((tablet_at_index (workerId w) i + NUM_TABLETS - 2) %% NUM_TABLETS + 1) (set_tablet i ∅ w).
Proof.
  intros Hid Hi Hlen Hh Hp.
  assert (host ≠ "ALLDEAD") as Hne.
  { intros ->. revert Hp. unfold client_ptr, workerClientPtrs. clear -Hid.
    generalize dependent (workerId w). intros id Hid. worker_cases id; vm_compute; done. }
  cbn [recoverLoop]. rewrite getTabletNumberById_index by done.
  rewrite bool_decide_false by (unfold TABLET_NOT_FOUND; lia).
  rewrite bool_decide_false by done. rewrite Hp. cbn [mbind option_bind].
  rewrite (proj2 (getTabletById_index _ w i Hid) (conj Hi eq_refl)). cbn [mbind option_bind].
  unfold rpc_CopyTablet. rewrite Hh.
  change (client_CopyTablet (st_unreachable, [])) with ("ERR 14: " +:+ unreachable_message +:+ lf).
  rewrite deserialize_error; [done|]. rewrite slen_app. change (slen lf) with 1%nat. lia.
Qed.

Lemma unreachable_peer_empties_tablet_witness :
  @recoverLoop (@rpc_CopyTablet canonical_order "failed to connect" ∅) [worker_addr 2] 1 one_put =
    Some (set_tablet 0 ∅ one_put).
Proof.
  apply (@unreachable_peer_empties_tablet canonical_order "failed to connect" ∅ (worker_addr 2)
    one_put 0 []).
  - vm_compute. intuition congruence.
  - lia.
  - vm_compute. reflexivity.
  - reflexivity.
  - vm_compute. reflexivity.
Defined.
