(* ===== verification/Kv.v ===== *)
(** * The store as the frontend services see it

    The services reach the backend through the methods of [MasterNodeClient] and
    [KeyValueStoreClient] only, which return strings.  [KvOps] is that interface, [KvLaws] what a
    healthy store promises, and the last section proves that the coordinator and the workers keep
    the promise.  The theorems about the services are proved against the interface. *)
From S2P Require Import Prelude CppString Table Codec Utils Rpc Coordinator Worker WorkerFacts.
From S2P Require Import Cluster ClusterFacts Replication.

(** ** Programs over the store *)

(** A program that changes the state and returns a value, or throws ([None]). *)
Definition M (St A : Type) : Type := St → St * option A.
Global Instance M_ret St : MRet (M St) := λ A x s, (s, Some x).
Global Instance M_bind St : MBind (M St) := λ A B f m s,
  match m s with
  | (s, Some x) => f x s
  | (s, None) => (s, None)
  end.
Definition throw {St A} : M St A := λ s, (s, None).

Class KvOps (St : Type) := {
  kv_Lookup : string → M St string;
  kv_Get : string → string → string → M St string;
  kv_Put : string → string → string → string → M St string;
  kv_CPut : string → string → string → string → string → M St string;
  kv_Delete : string → string → string → M St string;
}.

(** The loop [for (auto &x : l) body(x);]. *)
Fixpoint for_each {St A} (body : A → M St unit) (l : list A) : M St unit :=
  match l with
  | [] => mret tt
  | x :: l => _ ← body x; for_each body l
  end.

(** ** What a healthy store promises *)

(** What [Get] returns for a cell that does not exist. *)
Definition missing (v : string) : Prop := v = err_string st_no_row ∨ v = err_string st_no_col.
Lemma missing_is_ERR v : missing v → is_ERR v = true.
Proof. intros [-> | ->]; apply err_string_is_ERR. Qed.
Lemma missing_not_found v : missing v → contains "not found" v = true ∧ v ≠ "".
Proof. by intros [-> | ->]. Qed.

Class KvLaws (St : Type) `{KvOps St} := {
  kv_ok : St → Prop;
  (** The value of a cell. *)
  kv_view : St → string → string → option string;
  (** The worker at an address serves a row. *)
  kv_home : St → string → string → Prop;
  kv_Lookup_law s r :
    kv_ok s →
    ∃ s' addr, kv_Lookup r s = (s', Some addr) ∧ is_ERR addr = false ∧ kv_ok s' ∧
      (∀ r c, kv_view s' r c = kv_view s r c) ∧ kv_home s' r addr ∧
      (∀ r a, kv_home s r a → kv_home s' r a);
  kv_Get_law s a r c :
    kv_ok s → kv_home s r a →
    ∃ v, kv_Get a r c s = (s, Some v) ∧
      match kv_view s r c with Some x => v = x | None => missing v end;
  kv_update_law s a u :
    kv_ok s → kv_home s (update_row u) a →
    ∃ s' res,
      match u with
      | UPut r c v => kv_Put a r c v
      | UCPut r c cur new => kv_CPut a r c cur new
      | UDelete r c => kv_Delete a r c
      end s = (s', Some res) ∧ kv_ok s' ∧
      (∀ r c, kv_view s' r c = view_effect u (kv_view s) r c) ∧
      (∀ r a, kv_home s r a → kv_home s' r a) ∧
      (is_ERR res = false ↔ update_succeeds u (kv_view s));
}.

(** ** Reasoning about programs *)

(** The program returns, with a result and a state that satisfy [Q]. *)
Definition runs {St A} (m : M St A) (Q : A → St → Prop) (s : St) : Prop :=
  ∃ x s', m s = (s', Some x) ∧ Q x s'.

Lemma runs_ret {St A} (x : A) (Q : A → St → Prop) s : Q x s → runs (mret x) Q s.
Proof. intros HQ. by exists x, s. Qed.
Lemma runs_bind {St A B} (m : M St A) (f : A → M St B) (Q : B → St → Prop) s :
  runs m (λ x, runs (f x) Q) s → runs (m ≫= f) Q s.
Proof.
  intros (x & s' & E & y & s'' & E' & HQ). exists y, s''. split; [|done].
  unfold mbind, M_bind. by rewrite E.
Qed.
Lemma runs_mono {St A} (m : M St A) (Q Q' : A → St → Prop) s :
  runs m Q s → (∀ x s, Q x s → Q' x s) → runs m Q' s.
Proof. intros (x & s' & E & HQ) HQQ'. exists x, s'. auto. Qed.

(** A client of the worker at [a] works on row [r] of a store with contents [V]. *)
Record session `{KvLaws St} (a r : string) (V : string → string → option string) (s : St) : Prop := {
  session_ok : kv_ok s;
  session_home : kv_home s r a;
  session_view : ∀ r c, kv_view s r c = V r c;
}.

(** What [Get] returns. *)
Definition got (V : string → string → option string) (r c v : string) : Prop :=
  match V r c with Some x => v = x | None => missing v end.

Section programs.
Context `{KvLaws St}.

Lemma runs_Lookup r V (Q : string → St → Prop) s :
  kv_ok s → (∀ r c, kv_view s r c = V r c) →
  (∀ a s', is_ERR a = false → session a r V s' → Q a s') → runs (kv_Lookup r) Q s.
Proof.
  intros Hok HV HQ. destruct (kv_Lookup_law s r Hok) as (s' & a & E & Ha & Hok' & HV' & Hh & _).
  exists a, s'. split; [done|]. apply HQ; [done|]. split; [done..|]. intros r' c. by rewrite HV'.
Qed.

Lemma runs_Get a r c V (Q : string → St → Prop) s :
  session a r V s → (∀ v, got V r c v → Q v s) → runs (kv_Get a r c) Q s.
Proof.
  intros [Hok Hh HV] HQ. destruct (kv_Get_law s a r c Hok Hh) as (v & E & Hv).
  exists v, s. split; [done|]. apply HQ. unfold got. by rewrite <-HV.
Qed.

Lemma update_succeeds_ext u V V' : (∀ r c, V r c = V' r c) → update_succeeds u V ↔ update_succeeds u V'.
Proof. intros E. destruct u; simpl; [done|by rewrite E|done]. Qed.

Lemma runs_update u a V (Q : string → St → Prop) s m :
  m = match u with
      | UPut r c v => kv_Put a r c v
      | UCPut r c cur new => kv_CPut a r c cur new
      | UDelete r c => kv_Delete a r c
      end →
  session a (update_row u) V s →
  (∀ res s', (is_ERR res = false ↔ update_succeeds u V) →
    session a (update_row u) (view_effect u V) s' → Q res s') →
  runs m Q s.
Proof.
  intros -> [Hok Hh HV] HQ. destruct (kv_update_law s a u Hok Hh) as (s' & res & E & Hok' & HV' & Hh' & Hr).
  exists res, s'. split; [done|]. apply HQ.
  - rewrite Hr. by apply update_succeeds_ext.
  - split; [done|by apply Hh'|]. intros r c. rewrite HV'. by apply view_effect_row.
Qed.

Lemma runs_Put a r c v V (Q : string → St → Prop) s :
  session a r V s →
  (∀ res s', is_ERR res = false → session a r (view_effect (UPut r c v) V) s' → Q res s') →
  runs (kv_Put a r c v) Q s.
Proof.
  intros Hs HQ. apply (runs_update (UPut r c v) a V); [done..|].
  intros res s' Hr Hs'. apply HQ; [by apply Hr|done].
Qed.

Lemma runs_CPut a r c cur new V (Q : string → St → Prop) s :
  session a r V s →
  (∀ res s', (is_ERR res = false ↔ V r c = Some cur) →
    session a r (view_effect (UCPut r c cur new) V) s' → Q res s') →
  runs (kv_CPut a r c cur new) Q s.
Proof. intros Hs HQ. by apply (runs_update (UCPut r c cur new) a V). Qed.

Lemma runs_Delete a r c V (Q : string → St → Prop) s :
  session a r V s →
  (∀ res s', is_ERR res = false → session a r (view_effect (UDelete r c) V) s' → Q res s') →
  runs (kv_Delete a r c) Q s.
Proof.
  intros Hs HQ. apply (runs_update (UDelete r c) a V); [done..|].
  intros res s' Hr Hs'. apply HQ; [by apply Hr|done].
Qed.

(** A loop whose body takes the store from [V] to [f x V]. *)
Lemma runs_for_each {A} (body : A → M St unit) (f : A → (string → string → option string) →
    string → string → option string) a r l V (Q : unit → St → Prop) s :
  (∀ x V s, x ∈ l → session a r V s → runs (body x) (λ _, session a r (f x V)) s) →
  session a r V s → (∀ s', session a r (foldl (λ V x, f x V) V l) s' → Q tt s') →
  runs (for_each body l) Q s.
Proof.
  revert V s. induction l as [|x l IH]; intros V s Hb Hs HQ; [by apply runs_ret, HQ|].
  cbn [for_each]. apply runs_bind. eapply runs_mono; [apply Hb; [by left|done]|].
  intros [] s' Hs'. eapply IH; [|done|done]. intros y V' s'' Hy. apply Hb. by right.
Qed.

End programs.

(** ** The coordinator and the workers *)

Record system := { sys_master : master; sys_cluster : cluster }.

Section backend.
Context `{StdHash} `{UMapOrder} `{Grpc}.

Definition on_cluster (f : cluster → cluster * string) : M system string :=
  λ s, let '(cl, res) := f (sys_cluster s) in
       ({| sys_master := sys_master s; sys_cluster := cl |}, Some res).

(** A missing host ends the coordinator's handler with an exception, which gRPC turns into an
    error status. *)
Global Instance backend_ops : KvOps system := {
  kv_Lookup r := λ s,
    match Lookup r (sys_master s) with
    | Some (m, res) => ({| sys_master := m; sys_cluster := sys_cluster s |}, Some (client_Lookup res))
    | None => (s, Some (client_Lookup (st_unreachable, "")))
    end;
  kv_Get a r c := λ s, (s, Some (rpc_Get a r c (sys_cluster s)));
  kv_Put a r c v := on_cluster (rpc_Put a r c v);
  kv_CPut a r c cur new := on_cluster (rpc_CPut a r c cur new);
  kv_Delete a r c := on_cluster (rpc_Delete a r c);
}.

Definition healthy (s : system) : Prop :=
  hosts_complete (sys_master s) ∧ accurate (sys_master s) (sys_cluster s) ∧
  wf_cluster (sys_cluster s) ∧ holders_agree (sys_cluster s) ∧
  ∀ t, 1 ≤ t ≤ 6 → is_Some (first_up (sys_cluster s) t).
Definition home (s : system) (r a : string) : Prop :=
  ∃ id, first_up (sys_cluster s) (hashToBucket r NUM_TABLETS) = Some id ∧ a = worker_addr id.

Lemma backend_Lookup s r :
  healthy s →
  ∃ s' addr, kv_Lookup r s = (s', Some addr) ∧ is_ERR addr = false ∧ healthy s' ∧
    (∀ r c, view (sys_cluster s') r c = view (sys_cluster s) r c) ∧ home s' r addr ∧
    (∀ r a, home s r a → home s' r a).
Proof.
  intros (Hh & Hacc & Hcl & Hag & Hall). pose proof (hashToBucket_tablet r) as Ht.
  destruct (Lookup_result r (sys_master s) Hh) as (m' & Hs & Ehost & _ & El).
  destruct (Hall _ Ht) as [id Hid]. rewrite (current_holder_first_up _ _ _ Hacc Ht), Hid in El.
  exists {| sys_master := m'; sys_cluster := sys_cluster s |}, (worker_addr id).
  simpl. rewrite El. split; [done|]. split.
  { apply first_up_spec in Hid as (Hin & _); [|done]. apply candidate_range in Hin; [|done].
    by worker_cases id. }
  split_and!; simpl; try done; [|by exists id].
  split_and!; simpl; try done.
  - intros i Hi. by rewrite Ehost, Hh.
  - intros i Hi. rewrite <-(Hacc i Hi). unfold alive. apply Hs.
Qed.

Lemma backend_Get s a r c :
  healthy s → home s r a →
  ∃ v, kv_Get a r c s = (s, Some v) ∧
    match view (sys_cluster s) r c with Some x => v = x | None => missing v end.
Proof.
  intros (Hh & Hacc & Hcl & Hag & Hall) (id & Hid & ->). eexists. split; [done|].
  by apply rpc_Get_view.
Qed.

(** The three update calls. *)
Definition backend_update (u : update) (a : string) (s : system) : system * option string :=
  match u with
  | UPut r c v => kv_Put a r c v
  | UCPut r c cur new => kv_CPut a r c cur new
  | UDelete r c => kv_Delete a r c
  end s.

Lemma backend_update_rpc u a s :
  ∃ show : Status * bool → string,
    backend_update u a s =
      (let '(cl, res) := rpc a (cluster_handler u a) (sys_cluster s) in
       ({| sys_master := sys_master s; sys_cluster := cl |}, Some (show res))) ∧
  ∀ res, is_ERR (show res) = negb (status_ok res.1).
Proof.
  assert (∀ good (res : Status * bool), is_ERR good = false →
    is_ERR (if status_ok res.1 then good else err_string res.1) = negb (status_ok res.1)) as Herr.
  { intros good res Hg. destruct (status_ok res.1); [done|]. apply err_string_is_ERR. }
  destruct u; simpl; unfold on_cluster, rpc_Put, rpc_CPut, rpc_Delete;
    [exists client_Put|exists client_CPut|exists client_Delete];
    (split; [by destruct (rpc _ _ _)|intros res; by apply Herr]).
Qed.

Lemma backend_update_law s a u :
  healthy s → home s (update_row u) a →
  ∃ s' res, backend_update u a s = (s', Some res) ∧ healthy s' ∧
    (∀ r c, view (sys_cluster s') r c = view_effect u (view (sys_cluster s)) r c) ∧
    (∀ r a, home s r a → home s' r a) ∧
    (is_ERR res = false ↔ update_succeeds u (view (sys_cluster s))).
Proof.
  intros (Hh & Hacc & Hcl & Hag & Hall) (id & Hid & ->).
  destruct (cluster_update_effect u id (sys_cluster s) Hcl Hag Hid)
    as (cl' & T & Er & HT & Hcl' & Hag' & Hsame & He).
  destruct (backend_update_rpc u (worker_addr id) s) as (show & Eb & Hshow).
  rewrite Er in Eb. eexists _, _. split; [exact Eb|].
  assert (∀ t, 1 ≤ t ≤ 6 → first_up cl' t = first_up (sys_cluster s) t) as Hfirst
    by (intros; by apply first_up_same).
  split_and!; simpl.
  - split_and!; simpl; try done; [by eapply accurate_same|]. intros t Ht. rewrite Hfirst; auto.
  - by apply (view_update u (sys_cluster s) cl' T).
  - intros r a (id' & Hid' & ->). exists id'. simpl. split; [|done]. rewrite Hfirst; [done|].
    apply hashToBucket_tablet.
  - rewrite Hshow, negb_false_iff, update_answer_ok.
    destruct u; simpl; [done| |done]. by rewrite (view_table (sys_cluster s) _ _ T).
Qed.

(** The backend keeps the promise. *)
Global Instance backend_laws : KvLaws system := {
  kv_ok := healthy;
  kv_view s := view (sys_cluster s);
  kv_home := home;
  kv_Lookup_law := backend_Lookup;
  kv_Get_law := backend_Get;
  kv_update_law := backend_update_law;
}.

End backend.

(** The system of six new workers. *)
Definition new_system : system := {| sys_master := all_alive; sys_cluster := booted |}.
Lemma new_system_healthy : healthy new_system.
Proof.
  split_and!; [apply hosts_txt_complete|apply all_alive_accurate|apply booted_wf|apply booted_agree|].
  intros t Ht. simpl. worker_cases t; vm_compute; by eexists.
Qed.

(** The backend with a constant hash, for examples. *)
Definition example_ops : KvOps system := @backend_ops (λ _, 0) canonical_order "unreachable".
Definition example_laws : @KvLaws system example_ops :=
  @backend_laws (λ _, 0) canonical_order "unreachable".
Lemma new_system_ok : @kv_ok system example_ops example_laws new_system.
Proof. exact new_system_healthy. Qed.

(** ** The store as one table *)

Global Instance update_succeeds_dec u V : Decision (update_succeeds u V).
Proof. destruct u; simpl; apply _. Defined.
(** The smallest store that keeps the promise: its state is the contents. *)
Definition table_update (u : update) : M (string → string → option string) string := λ V,
  (view_effect u V, Some (if bool_decide (update_succeeds u V) then "OK" else err_string st_no_col)).
Definition table_ops : KvOps (string → string → option string) := {|
  kv_Lookup _ := mret "127.0.0.1:10001";
  kv_Get _ r c := λ V, (V, Some (default (err_string st_no_col) (V r c)));
  kv_Put _ r c v := table_update (UPut r c v);
  kv_CPut _ r c cur new := table_update (UCPut r c cur new);
  kv_Delete _ r c := table_update (UDelete r c);
|}.
Lemma table_update_law V u :
  ∃ res, table_update u V = (view_effect u V, Some res) ∧ (is_ERR res = false ↔ update_succeeds u V).
Proof. eexists. split; [done|]. by case_bool_decide. Qed.
Program Definition table_laws : @KvLaws _ table_ops := {|
  kv_ok _ := True;
  kv_view V := V;
  kv_home _ _ _ := True;
|}.
Next Obligation. intros V r _. by eexists _, _. Qed.
Next Obligation. intros V a r c _ _. eexists. split; [done|]. destruct (V r c); [done|by right]. Qed.
Next Obligation.
  intros V a u _ _. destruct (table_update_law V u) as (res & E & Hres).
  exists (view_effect u V), res. by destruct u.
Qed.
