(* ===== verification/Threads.v ===== *)
(** * Requests at the same time: the threads of the workers

    gRPC runs every request on a thread of its own, and the handlers of backend/worker.cc take no
    lock: while a handler waits for the answer of a replica, others run.  A thread here goes through
    its handler in steps: the part up to the replication loop, one step per iteration of the loop,
    and the return.  Any number of threads interleave.  The part before the loop, which touches the
    memory of one process only, is one step. *)
From S2P Require Import Prelude CppString Table Codec Utils Rpc Coordinator Worker WorkerFacts.
From S2P Require Import Cluster ClusterFacts Replication Kv.

(** ** The model *)

Inductive thread :=
  | Arrived (u : update) (addr : string)
  | Replicating (u : update) (replicas : list (string * option string)) (res : Status * bool)
  | Answered (u : update) (res : Status * bool).

(** The processes and the threads of all of them. *)
Abbreviation threads := (cluster * list thread)%type.

Section threads.
Context `{StdHash} `{UMapOrder} `{Grpc}.

(** One step of a thread: [None] when its handler throws or has returned. *)
Definition thread_step (th : thread) (cl : cluster) : option (cluster * thread) :=
  match th with
  | Arrived u addr =>
      w ← cl !! addr;
      '(w, (st, success)) ← update_handler u w;
      let replicas :=
        if success : bool then getReplicasForReplication (update_row u) w else [] in
      Some (<[addr := w]> cl, Replicating u replicas (st, success))
  | Replicating u ((_, replica) :: replicas) res =>
      replica ← replica;
      Some ((call replica (update_handler u) cl).1, Replicating u replicas res)
  | Replicating u [] res => Some (cl, Answered u res)
  | Answered _ _ => None
  end.

(** The update whose handler this step starts. *)
Definition starts (th : thread) : list update :=
  match th with Arrived u _ => [u] | _ => [] end.

(** A step of the system: a client that asked the coordinator [m] for the row sends its request to
    the worker named, or one thread goes on.  The label holds the update that a step starts. *)
Inductive tstep (m : master) : threads → list update → threads → Prop :=
  | step_arrive cl ths u m' addr :
      Lookup (update_row u) m = Some (m', (Status_OK, addr)) →
      tstep m (cl, ths) [] (cl, ths ++ [Arrived u addr])
  | step_thread cl ths i th cl' th' :
      ths !! i = Some th → thread_step th cl = Some (cl', th') →
      tstep m (cl, ths) (starts th) (cl', <[i := th']> ths).

(** Any number of steps, with the updates in the order in which their handlers started. *)
Inductive history (m : master) (cl : cluster) : list update → threads → Prop :=
  | history_nil : history m cl [] (cl, [])
  | history_step hist s l s' :
      history m cl hist s → tstep m s l s' → history m cl (hist ++ l) s'.

(** A schedule: the thread that goes next, by number. *)
Fixpoint run_schedule (schedule : list nat) (s : threads) : option (list update * threads) :=
  match schedule with
  | [] => Some ([], s)
  | i :: schedule =>
      th ← s.2 !! i;
      '(cl, th') ← thread_step th s.1;
      '(l, s) ← run_schedule schedule (cl, <[i := th']> s.2);
      Some (starts th ++ l, s)
  end.

(** A thread alone runs until it has answered. *)
Fixpoint run_thread (fuel : nat) (th : thread) (cl : cluster) : option (cluster * (Status * bool)) :=
  match th, fuel with
  | Answered _ res, _ => Some (cl, res)
  | _, O => None
  | _, S fuel => '(cl, th) ← thread_step th cl; run_thread fuel th cl
  end.

(** ** A thread alone is the handler *)

Lemma run_replicating u replicas res cl :
  run_thread (S (length replicas)) (Replicating u replicas res) cl =
    (cl ← replicate_loop (update_handler u) replicas cl; Some (cl, res)).
Proof.
  revert cl. induction replicas as [|[a [p|]] replicas IH]; intros cl; [done| |done].
  cbn [length]. set (n := S (length replicas)) in *. simpl. apply IH.
Qed.

Lemma run_replicating_more k u replicas res cl :
  run_thread (S (length replicas) + k) (Replicating u replicas res) cl =
    run_thread (S (length replicas)) (Replicating u replicas res) cl.
Proof.
  revert cl. induction replicas as [|[a [p|]] replicas IH]; intros cl; [by destruct k| |done].
  cbn [length]. simpl in *. apply IH.
Qed.

Lemma getReplicas_length r w : (length (getReplicasForReplication r w) ≤ 2)%nat.
Proof. unfold getReplicasForReplication. repeat case_bool_decide; simpl; lia. Qed.

(** A request whose thread nobody interrupts behaves as the handlers of [Cluster]: the part before the
    loop, two replicas at most, and the return. *)
Theorem thread_alone u addr cl : run_thread 4 (Arrived u addr) cl = cluster_handler u addr cl.
Proof.
  rewrite cluster_handler_update. unfold cluster_update. simpl.
  destruct (cl !! addr) as [w|]; [|done]. simpl.
  destruct (update_handler u w) as [[w' [st []]]|]; [|done..]. simpl.
  set (reps := getReplicasForReplication (update_row u) w').
  pose proof (getReplicas_length (update_row u) w') as Hlen. fold reps in Hlen.
  pose proof (run_replicating_more (2 - length reps) u reps (st, true) (<[addr:=w']> cl)) as Hm.
  replace (S (length reps) + (2 - length reps))%nat with 3%nat in Hm by lia.
  etrans; [exact Hm|]. apply run_replicating.
Qed.

(** ** The effect of a step on the processes *)

Abbreviation tab u := (hashToBucket (update_row u) NUM_TABLETS).

Lemma up_alter u id id' cl :
  wf_cluster cl → 1 ≤ id ≤ 6 → 1 ≤ id' ≤ 6 →
  up (alter (upd u) (worker_addr id) cl) id' =
    if decide (id' = id) then upd u <$> up cl id' else up cl id'.
Proof.
  intros Hcl Hid Hid'. unfold up. case_decide as E.
  - subst id'. rewrite lookup_alter_eq. destruct (cl !! worker_addr id) as [w|] eqn:Ew; [|done].
    destruct (Hcl _ _ Ew) as [Hw _]. simpl. destruct (upd_fields u w Hw) as (_ & _ & ->).
    by destruct (admin_workerUp w).
  - rewrite lookup_alter_ne; [done|]. intros Ea. by apply worker_addr_inj in Ea.
Qed.

Lemma same_up_alter u id cl :
  wf_cluster cl → 1 ≤ id ≤ 6 → same_up cl (alter (upd u) (worker_addr id) cl).
Proof. intros Hcl Hid id' Hid'. rewrite up_alter by done. case_decide; [apply fmap_is_Some|done]. Qed.

(** The copies of the tablets after worker [id] has made the update [u]. *)
Lemma tablet_alter u id id' t w' cl :
  wf_cluster cl → id ∈ candidateIds (tab u) → 1 ≤ t ≤ 6 → id' ∈ candidateIds t →
  up (alter (upd u) (worker_addr id) cl) id' = Some w' →
  ∃ w, up cl id' = Some w ∧
    tablet_of t w' = if decide (id' = id ∧ t = tab u) then new_table u <$> tablet_of t w
                     else tablet_of t w.
Proof.
  intros Hcl Hin Ht Hin'. pose proof (hashToBucket_tablet (update_row u)) as Hu.
  pose proof (candidate_range _ _ Hu Hin) as Hid. pose proof (candidate_range _ _ Ht Hin') as Hid'.
  rewrite up_alter by done. destruct (decide (id' = id)) as [->|Hne]; cycle 1.
  { intros Hw. exists w'. by rewrite decide_False by naive_solver. }
  intros (w & Hw & ->)%fmap_Some. exists w. split; [done|].
  destruct (up_wf cl id w Hcl Hid Hw) as [Hwf Eid]. apply up_Some in Hw as [_ Hadm].
  assert (is_Some (tablet_of (tab u) w)) as [T HT].
  { apply tablet_of_wf; [done|]. apply candidate_holds; [done|by rewrite Eid..]. }
  destruct (update_local_tablet u w T Hwf Hadm HT) as (_ & E1 & E2).
  case_decide as Hd; [destruct Hd as [_ ->]; by rewrite E1, HT|apply E2; naive_solver].
Qed.

(** What the tablet [t] is after a list of updates. *)
Definition effects (t : Z) (T : option table) (l : list update) : option table :=
  foldl (λ T u, tablet_effect u t T) T l.
Lemma effects_snoc t T l u : effects t T (l ++ [u]) = tablet_effect u t (effects t T l).
Proof. unfold effects. by rewrite foldl_app. Qed.

(** ** The invariant *)

(** The update of a thread, once its handler has started. *)
Definition started (th : thread) : option update :=
  match th with Arrived _ _ => None | Replicating u _ _ | Answered u _ => Some u end.
(** The update of tablet [t] that a thread has brought to worker [id]. *)
Definition applied (t id : Z) (th : thread) : option update :=
  match th with
  | Arrived _ _ => None
  | Replicating u replicas (_, success) =>
      if bool_decide (tab u = t ∧ success = true ∧ worker_addr id ∉ replicas.*1) then Some u else None
  | Answered u (_, success) => if bool_decide (tab u = t ∧ success = true) then Some u else None
  end.

(** Where a thread runs and what it still has to call. *)
Definition thread_ok (cl0 : cluster) (th : thread) : Prop :=
  match th with
  | Arrived u addr => ∃ id, first_up cl0 (tab u) = Some id ∧ addr = worker_addr id
  | Replicating u replicas res =>
      ∃ id ids, first_up cl0 (tab u) = Some id ∧ ids `suffix_of` later (tab u) id ∧
        (res.2 = false → ids = []) ∧
        replicas = (λ id, (worker_addr id, Some (worker_addr id))) <$> ids
  | Answered _ _ => True
  end.

(** The answer of a thread is that of its update after those that started before. *)
Definition answer_ok (cl0 : cluster) (hist : list update) (th : thread) : Prop :=
  match th with
  | Arrived _ _ => True
  | Replicating u _ res | Answered u res =>
      ∃ before after T, hist = before ++ u :: after ∧
        effects (tab u) (table_at cl0 (tab u)) before = Some T ∧ res = update_answer u T
  end.

Record threads_inv (cl0 : cluster) (hist : list update) (s : threads) : Prop := {
  inv_wf : wf_cluster s.1;
  inv_up : same_up cl0 s.1;
  inv_threads : Forall (thread_ok cl0) s.2;
  inv_hist : hist ≡ₚ omap started s.2;
  inv_answers : Forall (answer_ok cl0 hist) s.2;
  inv_first t id w : 1 ≤ t ≤ 6 → first_up cl0 t = Some id → up s.1 id = Some w →
    tablet_of t w = effects t (table_at cl0 t) hist;
  inv_holders t id w : 1 ≤ t ≤ 6 → id ∈ candidateIds t → up s.1 id = Some w →
    ∃ l, tablet_of t w = effects t (table_at cl0 t) l ∧ l ≡ₚ omap (applied t id) s.2;
}.

(** ** The invariant holds *)

Lemma omap_insert_None {A B} (f : A → option B) (l : list A) i x y :
  l !! i = Some x → f y = f x → omap f (<[i := y]> l) = omap f l.
Proof.
  revert i. induction l as [|z l IH]; intros [|i] Hx Hf; simplify_eq/=; [done..|by rewrite Hf|].
  by rewrite (IH i Hx Hf).
Qed.
Lemma omap_insert_Some {A B} (f : A → option B) (l : list A) i x y b :
  l !! i = Some x → f x = None → f y = Some b → omap f (<[i := y]> l) ≡ₚ omap f l ++ [b].
Proof.
  revert i. induction l as [|z l IH]; intros [|i] Hx Hf Hy; simplify_eq/=.
  - rewrite Hf, Hy. apply Permutation_cons_append.
  - specialize (IH i Hx Hf Hy). destruct (f z); [by rewrite IH|done].
Qed.

Lemma answer_ok_app cl0 hist l th : answer_ok cl0 hist th → answer_ok cl0 (hist ++ l) th.
Proof.
  destruct th; simpl; [done|..]; intros (b & a & T & -> & ? & ?);
    exists b, (a ++ l), T; (split; [by rewrite <-app_assoc|done]).
Qed.

Lemma table_at_first cl t id w :
  first_up cl t = Some id → up cl id = Some w → table_at cl t = tablet_of t w.
Proof. intros Hf Hw. unfold table_at. rewrite Hf. simpl. by rewrite Hw. Qed.

Lemma threads_inv_init cl : wf_cluster cl → holders_agree cl → threads_inv cl [] (cl, []).
Proof.
  intros Hcl Hag. split; simpl; try done.
  - intros t id w Ht Hf Hw. symmetry. by eapply table_at_first.
  - intros t id w Ht Hin Hw. exists []. split; [|done]. simpl.
    destruct (first_up cl t) as [id0|] eqn:Hf.
    + destruct (first_up_spec cl t id0 Ht Hf) as (Hin0 & [w0 Hw0] & _).
      rewrite (table_at_first cl t id0 w0) by done. by apply (Hag t id id0).
    + exfalso. unfold first_up in Hf.
      assert (id ∈ filter (λ id, is_Some (up cl id)) (candidateIds t)) as Hx.
      { apply list_elem_of_filter. by rewrite Hw. }
      apply head_None in Hf. rewrite Hf in Hx. by apply elem_of_nil in Hx.
Qed.

(** A step that gives worker [id] the update of thread [i], which then is [th']. *)
Lemma threads_inv_apply cl0 hist l cl ths i th th' u id :
  threads_inv cl0 hist (cl, ths) → ths !! i = Some th →
  id ∈ candidateIds (tab u) → thread_ok cl0 th' → answer_ok cl0 (hist ++ l) th' →
  hist ++ l ≡ₚ omap started (<[i := th']> ths) →
  (∀ t id0, 1 ≤ t ≤ 6 → first_up cl0 t = Some id0 →
    (if decide (id0 = id ∧ t = tab u)
     then new_table u <$> effects t (table_at cl0 t) hist else effects t (table_at cl0 t) hist) =
      effects t (table_at cl0 t) (hist ++ l)) →
  (∀ t id', is_Some (up cl id') → 1 ≤ t ≤ 6 → id' ∈ candidateIds t →
    applied t id' th' = applied t id' th ∧
      (id' = id ∧ t = tab u → ∀ w, up cl id = Some w → new_table u <$> tablet_of t w = tablet_of t w) ∨
    applied t id' th = None ∧ applied t id' th' = Some u ∧ id' = id ∧ t = tab u) →
  threads_inv cl0 (hist ++ l) (alter (upd u) (worker_addr id) cl, <[i := th']> ths).
Proof.
  intros [Hwf Hup Hths Hhist Hans Hfirst Hhold] Hi Hin Hok' Hans' Hhist' Hf' Happ. simpl in *.
  pose proof (hashToBucket_tablet (update_row u)) as Hu.
  pose proof (candidate_range _ _ Hu Hin) as Hid.
  split; simpl.
  - by apply wf_alter_upd.
  - intros id' Hid'. rewrite <-(Hup id' Hid'). by apply same_up_alter.
  - by apply Forall_insert.
  - done.
  - apply Forall_insert; [|done]. eapply Forall_impl; [done|]. intros. by apply answer_ok_app.
  - intros t id0 w' Ht Hf0 Hw'. destruct (first_up_spec cl0 t id0 Ht Hf0) as (Hin0 & _).
    destruct (tablet_alter u id id0 t w' cl) as (w & Hw & ->); [done..|].
    rewrite <-(Hf' t id0 Ht Hf0). by rewrite (Hfirst t id0 w Ht Hf0 Hw).
  - intros t id' w' Ht Hin' Hw'.
    destruct (tablet_alter u id id' t w' cl) as (w & Hw & ->); [done..|].
    destruct (Hhold t id' w Ht Hin' Hw) as (k & Ek & Hk).
    destruct (Happ t id') as [[Ea Hno]|(E1 & E2 & -> & ->)]; [by rewrite Hw|done..| |].
    + exists k. rewrite (omap_insert_None _ _ _ _ _ Hi Ea). split; [|done].
      case_decide as Hd; [|done]. rewrite <-Ek. destruct Hd as [-> ->]. by apply Hno.
    + exists (k ++ [u]). rewrite decide_True by done. rewrite effects_snoc, <-Ek.
      unfold tablet_effect. rewrite decide_True by done. split; [done|].
      by rewrite (omap_insert_Some _ _ _ _ _ _ Hi E1 E2), Hk.
Qed.

(** The request arrives at the worker the coordinator names. *)
Lemma threads_inv_arrive m cl0 hist cl ths u m' addr :
  hosts_complete m → accurate m cl0 → threads_inv cl0 hist (cl, ths) →
  Lookup (update_row u) m = Some (m', (Status_OK, addr)) →
  threads_inv cl0 hist (cl, ths ++ [Arrived u addr]).
Proof.
  intros Hh Hacc [Hwf Hup Hths Hhist Hans Hfirst Hhold] Hl. simpl in *.
  pose proof (hashToBucket_tablet (update_row u)) as Hu.
  destruct (Lookup_result (update_row u) m Hh) as (m1 & _ & _ & _ & El).
  rewrite (current_holder_first_up m cl0 _ Hacc Hu) in El. rewrite Hl in El.
  destruct (first_up cl0 (tab u)) as [id|] eqn:Ef; [|by simplify_eq]. injection El as _ Ea.
  split; simpl; try done.
  - apply Forall_app. split; [done|]. constructor; [by exists id|done].
  - by rewrite omap_app, app_nil_r.
  - apply Forall_app. split; [done|]. by constructor.
  - intros t id' w Ht Hin Hw. destruct (Hhold t id' w Ht Hin Hw) as (l & ? & ?).
    exists l. by rewrite omap_app, app_nil_r.
Qed.

Lemma first_up_tablet cl0 cl hist ths t id :
  threads_inv cl0 hist (cl, ths) → 1 ≤ t ≤ 6 → first_up cl0 t = Some id →
  ∃ w T, up cl id = Some w ∧ tablet_of t w = Some T ∧ wf_worker w ∧ workerId w = id ∧
    effects t (table_at cl0 t) hist = Some T.
Proof.
  intros Hinv Ht Hf. destruct (first_up_spec cl0 t id Ht Hf) as (Hin & Hs & _).
  pose proof (candidate_range t id Ht Hin) as Hid.
  apply (inv_up _ _ _ Hinv id Hid) in Hs as [w Hw]. simpl in Hw.
  destruct (up_wf cl id w (inv_wf _ _ _ Hinv) Hid Hw) as [Hwf Eid].
  assert (is_Some (tablet_of t w)) as [T HT].
  { apply tablet_of_wf; [done|]. apply candidate_holds; [done|by rewrite Eid..]. }
  exists w, T. split_and!; try done.
  by rewrite <-(inv_first _ _ _ Hinv t id w Ht Hf Hw).
Qed.

(** The answer of an update that changes nothing. *)
Lemma update_answer_false u T : (update_answer u T).2 = false → new_table u T = T.
Proof. unfold update_answer, new_table. by destruct (update_table u T). Qed.

Lemma insert_upd_alter u a (w : worker) (cl : cluster) :
  cl !! a = Some w → <[a := upd u w]> cl = alter (upd u) a cl.
Proof.
  intros Ew. apply map_eq. intros b. destruct (decide (a = b)) as [<-|Hne].
  - by rewrite lookup_insert_eq, lookup_alter_eq, Ew.
  - by rewrite lookup_insert_ne, lookup_alter_ne.
Qed.

(** The step of a handler up to the replication loop, at the first holder that is up. *)
Lemma start_step cl0 hist cl ths u id :
  threads_inv cl0 hist (cl, ths) → first_up cl0 (tab u) = Some id →
  ∃ w T, up cl id = Some w ∧ tablet_of (tab u) w = Some T ∧
    effects (tab u) (table_at cl0 (tab u)) hist = Some T ∧
    thread_step (Arrived u (worker_addr id)) cl =
      Some (alter (upd u) (worker_addr id) cl,
        Replicating u ((λ id, (worker_addr id, Some (worker_addr id))) <$>
            (if (update_answer u T).2 then later (tab u) id else [])) (update_answer u T)).
Proof.
  intros Hinv Hf. pose proof (hashToBucket_tablet (update_row u)) as Hu.
  destruct (first_up_tablet cl0 cl hist ths (tab u) id Hinv Hu Hf) as (w & T & Hw & HT & Hwf & Eid & E).
  exists w, T. split_and!; [done..|].
  destruct (first_up_spec cl0 _ id Hu Hf) as (Hin & _ & _).
  apply up_Some in Hw as [Ew Hadm].
  destruct (update_local_tablet u w T Hwf Hadm HT) as (Eu & _ & _).
  destruct (upd_fields u w Hwf) as (_ & Eid' & _).
  unfold thread_step. rewrite Ew. cbn [mbind option_bind]. rewrite update_handler_local, Eu.
  cbn [mbind option_bind]. destruct (update_answer u T) as [st []]; simpl.
  - rewrite (insert_upd_alter u _ w) by done. do 3 f_equal.
    rewrite getReplicas_later by (rewrite ?Eid', ?Eid; eauto using candidate_range).
    by rewrite Eid', Eid.
  - by rewrite (insert_upd_alter u _ w) by done.
Qed.

Lemma threads_inv_start cl0 hist cl ths i u id cl' th' :
  threads_inv cl0 hist (cl, ths) → ths !! i = Some (Arrived u (worker_addr id)) →
  first_up cl0 (tab u) = Some id → thread_step (Arrived u (worker_addr id)) cl = Some (cl', th') →
  threads_inv cl0 (hist ++ [u]) (cl', <[i := th']> ths).
Proof.
  intros Hinv Hi Hf Hs. pose proof (hashToBucket_tablet (update_row u)) as Hu.
  destruct (start_step cl0 hist cl ths u id Hinv Hf) as (w & T & Hw & HT & HE & Es).
  rewrite Es in Hs. injection Hs as <- <-.
  destruct (first_up_spec cl0 _ id Hu Hf) as (Hin & _ & Hall).
  destruct (later_spec _ _ Hu Hin) as (Hnd & Hr & _).
  eapply threads_inv_apply; [exact Hinv|exact Hi|done|..].
  - exists id. eexists. split_and!; [done| | |done]; destruct (update_answer u T).2; try done.
    exists (later (tab u) id). by rewrite app_nil_r.
  - by exists hist, [], T.
  - rewrite (omap_insert_Some _ _ _ _ _ u Hi) by done. by rewrite (inv_hist _ _ _ Hinv).
  - intros t id0 Ht Hf0. rewrite effects_snoc. unfold tablet_effect.
    destruct (decide (t = tab u)) as [->|Hne]; [|by rewrite decide_False by naive_solver].
    by rewrite decide_True by (split; [congruence|done]).
  - intros t id' Hup' Ht Hin'.
    destruct (update_answer u T) as [st b] eqn:Eans. cbn [applied snd].
    destruct b; cycle 1.
    { left. split; [by rewrite bool_decide_false by naive_solver|]. intros [-> ->] w0 Hw0.
      rewrite Hw in Hw0. injection Hw0 as <-. rewrite HT. simpl. f_equal.
      apply update_answer_false. by rewrite Eans. }
    rewrite <-list_fmap_compose. cbn [compose fst]. change (list_fmap _ _ _ (later (tab u) id))
      with (worker_addr <$> later (tab u) id).
    destruct (decide (t = tab u)) as [->|Hne]; cycle 1.
    { left. split; [by rewrite bool_decide_false by naive_solver|naive_solver]. }
    pose proof (candidate_range _ _ Hu Hin') as Hid'.
    apply Forall_cons in Hr as [Hidr Hr]. apply NoDup_cons in Hnd as [Hn _].
    destruct (decide (id' = id)) as [->|Hne].
    + right. split_and!; [done| |done..]. rewrite bool_decide_true; [done|].
      split_and!; [done..|]. by rewrite addr_elem.
    + left. split; [|naive_solver]. rewrite bool_decide_false; [done|]. intros (_ & _ & Hno).
      apply Hno, addr_elem; [done..|].
      assert (is_Some (up cl0 id')) as Hup0 by (by apply (inv_up _ _ _ Hinv)).
      specialize (Hall id' Hin' Hup0). apply elem_of_cons in Hall as [?|?]; done.
Qed.

Lemma threads_inv_replicate cl0 hist cl ths i u a p replicas res cl' th' :
  threads_inv cl0 hist (cl, ths) → ths !! i = Some (Replicating u ((a, p) :: replicas) res) →
  thread_step (Replicating u ((a, p) :: replicas) res) cl = Some (cl', th') →
  threads_inv cl0 hist (cl', <[i := th']> ths).
Proof.
  intros Hinv Hi Hs. pose proof (hashToBucket_tablet (update_row u)) as Hu.
  pose proof (Forall_lookup_1 _ _ _ _ (inv_threads _ _ _ Hinv) Hi) as Hok.
  pose proof (Forall_lookup_1 _ _ _ _ (inv_answers _ _ _ Hinv) Hi) as Hans.
  destruct Hok as (id & ids & Hf & [pre Hsuf] & Hfail & Er).
  destruct ids as [|id1 ids]; [done|]. injection Er as -> -> ->. cbn [thread_step] in Hs.
  cbn [mbind option_bind] in Hs. rewrite call_update in Hs by apply Hinv. injection Hs as <- <-.
  destruct (first_up_spec cl0 _ id Hu Hf) as (Hin & _ & Hall).
  destruct (later_spec _ _ Hu Hin) as (Hnd & Hr & before & Ecand).
  rewrite Hsuf in Hnd, Hr. assert (id1 ∈ candidateIds (tab u)) as Hin1.
  { rewrite Ecand, Hsuf. set_solver. }
  rewrite <-(app_nil_r hist). eapply threads_inv_apply; [exact Hinv|exact Hi|done|..];
    rewrite ?(app_nil_r hist).
  - exists id, ids. split_and!; [done| | |done].
    + exists (pre ++ [id1]). by rewrite <-app_assoc.
    + intros Hb. by specialize (Hfail Hb).
  - done.
  - rewrite (omap_insert_None _ _ _ _ _ Hi) by done. apply Hinv.
  - intros t id0 Ht Hf0. rewrite decide_False; [done|]. intros [-> ->].
    apply NoDup_cons in Hnd as [Hn _]. assert (id1 = id) by congruence. subst. set_solver.
  - intros t id' Hup' Ht Hin'. destruct res as [st b]. cbn [applied]. rewrite fmap_cons.
    cbn [fst]. rewrite <-list_fmap_compose. cbn [compose fst].
    change (list_fmap _ _ _ ids) with (worker_addr <$> ids).
    destruct (decide (t = tab u)) as [->|Hne]; cycle 1.
    { left. split; [by rewrite !bool_decide_false by naive_solver|naive_solver]. }
    pose proof (candidate_range _ _ Hu Hin') as Hid'. pose proof (candidate_range _ _ Hu Hin1) as Hid1.
    apply Forall_cons in Hr as [_ Hr]. apply Forall_app in Hr as [_ Hr].
    apply Forall_cons in Hr as [_ Hr]. apply NoDup_cons in Hnd as [_ Hnd].
    apply NoDup_app in Hnd as (_ & _ & Hnd). apply NoDup_cons in Hnd as [Hn1 _].
    destruct b; [|by specialize (Hfail eq_refl)].
    destruct (decide (id' = id1)) as [->|Hne].
    + right. split_and!; [|..|done|done].
      * rewrite bool_decide_false; [done|]. intros (_ & _ & Hno). apply Hno. by left.
      * rewrite bool_decide_true; [done|]. split_and!; [done..|]. by rewrite addr_elem.
    + left. split; [|naive_solver]. erewrite bool_decide_ext; [done|].
      rewrite not_elem_of_cons. split; [|tauto]. intros (? & ? & ?). split_and!; [done..| |done].
      intros Ea. by apply worker_addr_inj in Ea.
Qed.

(** The loop of a thread is at its end. *)
Lemma threads_inv_return cl0 hist cl ths i u res :
  threads_inv cl0 hist (cl, ths) → ths !! i = Some (Replicating u [] res) →
  threads_inv cl0 hist (cl, <[i := Answered u res]> ths).
Proof.
  intros Hinv Hi. pose proof (Forall_lookup_1 _ _ _ _ (inv_answers _ _ _ Hinv) Hi) as Hans.
  destruct Hinv as [Hwf Hup Hths Hhist Hans' Hfirst Hhold]. simpl in *. split; simpl; try done.
  - by apply Forall_insert.
  - by rewrite (omap_insert_None _ _ _ _ _ Hi).
  - by apply Forall_insert.
  - intros t id w Ht Hin Hw. destruct (Hhold t id w Ht Hin Hw) as (l & ? & ?). exists l.
    rewrite (omap_insert_None _ _ _ _ _ Hi); [done|]. destruct res as [st b]. simpl.
    erewrite bool_decide_ext; [done|]. set_solver.
Qed.

Lemma threads_inv_step m cl0 hist s l s' :
  hosts_complete m → accurate m cl0 → threads_inv cl0 hist s → tstep m s l s' →
  threads_inv cl0 (hist ++ l) s'.
Proof.
  intros Hh Hacc Hinv Hstep. destruct Hstep as [cl ths u m' addr Hl|cl ths i th cl' th' Hi Hs].
  { rewrite app_nil_r. by eapply threads_inv_arrive. }
  destruct th as [u addr|u [|[a p] replicas] res|u res]; cbn [starts]; rewrite ?app_nil_r.
  - pose proof (Forall_lookup_1 _ _ _ _ (inv_threads _ _ _ Hinv) Hi) as (id & Hf & ->).
    by eapply threads_inv_start.
  - injection Hs as <- <-. by apply threads_inv_return.
  - by eapply threads_inv_replicate.
  - done.
Qed.

Lemma history_inv m cl hist s :
  hosts_complete m → accurate m cl → wf_cluster cl → holders_agree cl →
  history m cl hist s → threads_inv cl hist s.
Proof.
  intros Hh Hacc Hwf Hag. induction 1 as [|hist s l s' _ IH Hstep]; [by apply threads_inv_init|].
  by eapply threads_inv_step.
Qed.

(** A thread that has not answered can go on. *)
Lemma thread_progress cl0 hist cl ths i th :
  threads_inv cl0 hist (cl, ths) → ths !! i = Some th →
  is_Some (thread_step th cl) ∨ ∃ u res, th = Answered u res.
Proof.
  intros Hinv Hi. pose proof (Forall_lookup_1 _ _ _ _ (inv_threads _ _ _ Hinv) Hi) as Hok.
  destruct th as [u addr|u replicas res|u res]; [left| |by eauto].
  - destruct Hok as (id & Hf & ->).
    destruct (start_step cl0 hist cl ths u id Hinv Hf) as (w & T & _ & _ & _ & ->). by eexists.
  - left. destruct Hok as (id & [|id1 ids] & _ & _ & _ & ->); by eexists.
Qed.

(** ** The contents of the store *)

(** The contents after a list of updates, one after the other. *)
Definition outcome (V : string → string → option string) (l : list update) :
    string → string → option string :=
  foldl (λ V u, view_effect u V) V l.
Lemma outcome_snoc V l u : outcome V (l ++ [u]) = view_effect u (outcome V l).
Proof. unfold outcome. by rewrite foldl_app. Qed.

(** The effects on the tables and on the contents are the same. *)
Lemma effects_view cl T0 hist t :
  table_at cl t = Some T0 →
  ∃ T, effects t (table_at cl t) hist = Some T ∧
    ∀ r c, hashToBucket r NUM_TABLETS = t → flat T !! (r, c) = outcome (view cl) hist r c.
Proof.
  intros HT0. induction hist as [|u hist IH] using rev_ind.
  - exists T0. split; [done|]. intros r c <-. symmetry. by apply view_table.
  - destruct IH as (T & ET & HT). rewrite effects_snoc, ET. unfold tablet_effect.
    case_decide as Hd; simpl.
    + eexists. split; [done|]. intros r c Hr. rewrite new_table_flat, outcome_snoc.
      apply view_effect_row. intros c'. by apply HT.
    + eexists. split; [done|]. intros r c Hr. rewrite outcome_snoc.
      rewrite view_effect_other by congruence. by apply HT.
Qed.

Lemma effects_outcome m cl hist r :
  healthy {| sys_master := m; sys_cluster := cl |} →
  ∃ T, effects (hashToBucket r NUM_TABLETS) (table_at cl (hashToBucket r NUM_TABLETS)) hist = Some T ∧
    ∀ c, flat T !! (r, c) = outcome (view cl) hist r c.
Proof.
  intros (_ & _ & Hcl & _ & Hall). pose proof (hashToBucket_tablet r) as Ht. simpl in *.
  destruct (Hall _ Ht) as [id Hf]. destruct (first_up_spec cl _ id Ht Hf) as (Hin & [w Hw] & _).
  pose proof (candidate_range _ id Ht Hin) as Hid. destruct (up_wf cl id w Hcl Hid Hw) as [Hwf Eid].
  destruct (tablet_of_wf (hashToBucket r NUM_TABLETS) w Hwf) as [T0 HT0].
  { apply candidate_holds; [done|by rewrite Eid..]. }
  destruct (effects_view cl T0 hist (hashToBucket r NUM_TABLETS)) as (T & ? & ?).
  { by rewrite (table_at_first cl _ id w). }
  exists T. eauto.
Qed.

Lemma run_schedule_history m cl hist schedule s l s' :
  history m cl hist s → run_schedule schedule s = Some (l, s') → history m cl (hist ++ l) s'.
Proof.
  revert hist s l. induction schedule as [|i schedule IH]; intros hist s l Hh Hr; simpl in Hr.
  { simplify_eq. by rewrite app_nil_r. }
  destruct s as [cl1 ths]. simpl in Hr. destruct (ths !! i) as [th|] eqn:Hi; [|done]. simpl in Hr.
  destruct (thread_step th cl1) as [[cl2 th']|] eqn:Hs; [|done]. simpl in Hr.
  destruct (run_schedule schedule _) as [[l' s'']|] eqn:Hr'; [|done]. simplify_eq/=.
  rewrite app_assoc. eapply IH; [|done]. eapply history_step; [done|]. by apply step_thread.
Qed.

Lemma inv_view m cl hist cl' ths r c :
  healthy {| sys_master := m; sys_cluster := cl |} → threads_inv cl hist (cl', ths) →
  view cl' r c = outcome (view cl) hist r c.
Proof.
  intros Hh Hinv. pose proof (hashToBucket_tablet r) as Ht.
  destruct (effects_outcome m cl hist r Hh) as (T & ET & HT).
  destruct Hh as (_ & _ & _ & _ & Hall). destruct (Hall _ Ht) as [id Hf]. simpl in Hf.
  destruct (first_up_tablet cl cl' hist ths _ id Hinv Ht Hf) as (w & T' & Hw & HT' & _ & _ & E).
  rewrite <-HT. apply view_table. unfold table_at.
  rewrite (first_up_same cl cl') by (done || apply Hinv). rewrite Hf. simpl. rewrite Hw. simpl.
  congruence.
Qed.

(** ** Updates of different cells *)

Definition update_cell (u : update) : string * string :=
  match u with UPut r c _ | UCPut r c _ _ | UDelete r c => (r, c) end.

Lemma view_effect_cell u V V' r c :
  V r c = V' r c → view_effect u V r c = view_effect u V' r c.
Proof. intros E. destruct u; simpl; by rewrite ?E. Qed.
Lemma view_effect_other_cell u V r c : (r, c) ≠ update_cell u → view_effect u V r c = V r c.
Proof. intros Hr. destruct u; simpl in *; rewrite decide_False by naive_solver; done. Qed.

(** Updates of different cells commute. *)
Lemma view_effect_comm u v V r c :
  update_cell u ≠ update_cell v →
  view_effect u (view_effect v V) r c = view_effect v (view_effect u V) r c.
Proof.
  intros Hne. destruct (decide ((r, c) = update_cell u)) as [E|E].
  - rewrite (view_effect_other_cell v (view_effect u V)) by congruence.
    apply view_effect_cell. apply view_effect_other_cell. congruence.
  - rewrite (view_effect_other_cell u (view_effect v V)) by done.
    apply view_effect_cell. symmetry. by apply view_effect_other_cell.
Qed.

Lemma outcome_perm V l l' r c :
  l ≡ₚ l' → NoDup (update_cell <$> l) → outcome V l r c = outcome V l' r c.
Proof.
  intros Hl. revert V. unfold outcome.
  assert (∀ l V V', (∀ r c, V r c = V' r c) → ∀ r c,
    foldl (λ V u, view_effect u V) V l r c = foldl (λ V u, view_effect u V) V' l r c) as Hext.
  { clear. induction l as [|u l IH]; intros V V' HV r c; simpl; [done|]. apply IH.
    intros r' c'. by apply view_effect_cell. }
  induction Hl as [|u l l' _ IH|u v l|l1 l2 l3 H12 IH1 H23 IH2]; intros V Hnd; simpl in *.
  - done.
  - apply IH. by apply NoDup_cons in Hnd as [_ ?].
  - apply Hext. intros r' c'. apply view_effect_comm.
    apply NoDup_cons in Hnd as [Hn _]. set_solver.
  - rewrite IH1 by done. apply IH2. by rewrite <-H12.
Qed.

(** The tables after updates of different cells do not depend on their order. *)
Lemma effects_flat t T l r c :
  (∀ u, u ∈ l → tab u = t) → effects t (Some T) l ≠ None ∧
  ∀ T', effects t (Some T) l = Some T' →
    flat T' !! (r, c) = outcome (λ r c, flat T !! (r, c)) l r c ∧ (no_empty_rows T → no_empty_rows T').
Proof.
  induction l as [|u l IH] using rev_ind; intros Hl.
  { split; [done|]. by intros T' [= <-]. }
  destruct IH as [Hn IH]; [set_solver|].
  destruct (effects t (Some T) l) as [T1|] eqn:E1; [|done]. rewrite effects_snoc, E1.
  unfold tablet_effect. rewrite decide_True by (symmetry; apply Hl; set_solver). simpl.
  split; [done|]. intros T' [= <-]. destruct (IH T1 eq_refl) as [Hf Hr]. split.
  - rewrite new_table_flat, outcome_snoc. by apply view_effect_cell.
  - intros HT. unfold new_table. destruct (update_table u T1) as [|T2] eqn:Eu; [by apply Hr|].
    by apply (update_table_rows u T1); [apply Hr|].
Qed.

Lemma effects_perm t T l l' :
  (∀ u, u ∈ l → tab u = t) → no_empty_rows T → l ≡ₚ l' → NoDup (update_cell <$> l) →
  effects t (Some T) l = effects t (Some T) l'.
Proof.
  intros Hl HT Hp Hnd. assert (∀ u, u ∈ l' → tab u = t) as Hl' by (intros u; rewrite <-Hp; apply Hl).
  destruct (effects_flat t T l "" "" Hl) as [N1 R1]. destruct (effects_flat t T l' "" "" Hl') as [N2 R2].
  destruct (effects t (Some T) l) as [T1|] eqn:E1; [|done].
  destruct (effects t (Some T) l') as [T2|] eqn:E2; [|done]. f_equal.
  apply flat_inj.
  - by apply (R1 T1 eq_refl).
  - by apply (R2 T2 eq_refl).
  - apply map_eq. intros [r c].
    destruct (effects_flat t T l r c Hl) as [_ F1]. destruct (effects_flat t T l' r c Hl') as [_ F2].
    destruct (F1 T1 E1) as [-> _]. destruct (F2 T2 E2) as [-> _]. by apply outcome_perm.
Qed.

Lemma table_at_rows cl t T : wf_cluster cl → 1 ≤ t ≤ 6 → table_at cl t = Some T → no_empty_rows T.
Proof.
  intros Hcl Ht. unfold table_at. destruct (first_up cl t) as [id|] eqn:Hf; [|done]. simpl.
  destruct (first_up_spec cl t id Ht Hf) as (Hin & [w Hw] & _). rewrite Hw. simpl.
  destruct (up_wf cl id w Hcl (candidate_range t id Ht Hin) Hw) as [Hwf _].
  unfold tablet_of. destruct (getTabletById t w) as [i|]; [|done]. simpl. intros HT.
  eapply Forall_lookup_1; [apply Hwf|done].
Qed.

(** All threads have answered. *)
Definition all_answered (ths : list thread) : Prop :=
  Forall (λ th, match th with Answered _ _ => True | _ => False end) ths.
Global Instance all_answered_dec ths : Decision (all_answered ths).
Proof. unfold all_answered. apply Forall_dec. intros []; apply _. Defined.

(** A worker has then made the updates that succeeded, as all other holders. *)
Lemma applied_answered t id id' ths :
  all_answered ths → omap (applied t id) ths = omap (applied t id') ths ∧
    omap (applied t id) ths `sublist_of` omap started ths ∧
    ∀ u, u ∈ omap (applied t id) ths → tab u = t.
Proof.
  induction 1 as [|th ths Hth _ (E1 & E2 & E3)]; [by set_solver|].
  destruct th as [| |u [st b]]; [done..|]. simpl. case_bool_decide as Hb.
  - split_and!; [f_equal; exact E1|by constructor|]. intros v [->|Hv]%elem_of_cons; [tauto|by apply E3].
  - split_and!; [exact E1|by constructor|done].
Qed.

Lemma inv_agree cl hist cl' ths :
  wf_cluster cl → threads_inv cl hist (cl', ths) → all_answered ths →
  NoDup (update_cell <$> hist) → holders_agree cl'.
Proof.
  intros Hcl Hinv Hans Hnd t id id' w w' Ht Hin Hin' Hw Hw'.
  destruct (inv_holders _ _ _ Hinv t id w Ht Hin Hw) as (l & -> & Hl).
  destruct (inv_holders _ _ _ Hinv t id' w' Ht Hin' Hw') as (l' & -> & Hl').
  destruct (applied_answered t id id' ths Hans) as (E & Hsub & Htab). simpl in Hl, Hl'.
  destruct (table_at cl t) as [T|] eqn:HT; cycle 1.
  { assert (∀ k, effects t None k = None) as Hnone; [|by rewrite !Hnone].
    induction k as [|u k IH] using rev_ind; [done|]. rewrite effects_snoc, IH.
    unfold tablet_effect. by case_decide. }
  apply effects_perm.
  - intros u. rewrite Hl. apply Htab.
  - by eapply table_at_rows.
  - by rewrite Hl, Hl', E.
  - rewrite Hl. apply (sublist_NoDup _ (update_cell <$> omap started ths)); [|by apply fmap_sublist].
    by rewrite <-(inv_hist _ _ _ Hinv).
Qed.
End threads.

(** ** Properties *)



(** ** Examples *)

(** Two requests to worker 1 of a new system, whose keys all belong to tablet 1. *)
Definition two_requests (u v : update) : threads :=
  (booted, [Arrived u (worker_addr 1); Arrived v (worker_addr 1)]).
(** Both handlers start, the second thread replicates to worker 2 before the first does, and the
    first to worker 3 before the second does. *)
Definition crossing : list nat := [0; 1; 1; 0; 0; 1; 0; 1]%nat.

Definition put_a : update := UPut "alice" "password" "a".
Definition put_b : update := UPut "alice" "password" "b".
Definition put_c : update := UPut "alice" "profile" "c".

Definition run_crossing (u v : update) : option (list update * threads) :=
  @run_schedule (λ _, 0) canonical_order "" crossing (two_requests u v).

Lemma two_requests_history u v :
  @history (λ _, 0) canonical_order "" all_alive booted [] (two_requests u v).
Proof.
  change [] with (([] ++ []) ++ [] : list update).
  eapply history_step; [eapply history_step; [apply history_nil|]|].
  - eapply (@step_arrive (λ _, 0) canonical_order "" all_alive booted []). vm_compute. done.
  - eapply (@step_arrive (λ _, 0) canonical_order "" all_alive booted [_]). vm_compute. done.
Qed.

(** The state after the crossing. *)
Definition crossed (u v : update) : threads := from_option snd (two_requests u v) (run_crossing u v).
Lemma crossed_history u v l :
  fst <$> run_crossing u v = Some l →
  @history (λ _, 0) canonical_order "" all_alive booted l ((crossed u v).1, (crossed u v).2).
Proof.
  unfold crossed. destruct (run_crossing u v) as [[l' [cl ths]]|] eqn:E; simpl; [|done].
  intros [= <-]. change l' with ([] ++ l').
  eapply run_schedule_history; [apply (two_requests_history u v)|exact E].
Qed.



(** Two puts to the same cell that cross each other: both clients are told that their put
    succeeded, worker 1 ends with the second value and worker 2 with the first, so that the value
    that is read changes when worker 1 goes down. *)
Theorem crossing_puts_diverge :
  (crossed put_a put_b).2 = [Answered put_a (Status_OK, true); Answered put_b (Status_OK, true)] ∧
  ¬ holders_agree (crossed put_a put_b).1 ∧
  @view (λ _, 0) (crossed put_a put_b).1 "alice" "password" = Some "b" ∧
  @view (λ _, 0) (delete (worker_addr 1) (crossed put_a put_b).1) "alice" "password" = Some "a".
Proof.
  split_and!; [vm_compute; done| |vm_compute; done|vm_compute; done].
  intros Hag. set (cl := (crossed put_a put_b).1) in *.
  assert (is_Some (up cl 1) ∧ is_Some (up cl 2)) as [[w1 E1] [w2 E2]]
    by (vm_compute; by split; eexists).
  assert (tablet_of 1 w1 = tablet_of 1 w2) as Ht
    by (apply (Hag 1 1 2); [lia|by left|by right; left|done|done]).
  assert ((w ← up cl 1; T ← tablet_of 1 w; flat T !! ("alice", "password")) = Some "b" ∧
          (w ← up cl 2; T ← tablet_of 1 w; flat T !! ("alice", "password")) = Some "a") as [Eb Ea]
    by (split; vm_compute; reflexivity).
  rewrite E1 in Eb. rewrite E2 in Ea. simpl in Ea, Eb. rewrite Ht in Eb. congruence.
Qed.
