(* ===== verification/Heartbeats.v ===== *)
(** * Heartbeats: what the coordinator knows, in time

    The heartbeat threads of the workers (backend/worker.cc) and the monitor thread of the
    coordinator (backend/coordinator.cc), with the clock.  Every worker that is up sends a heartbeat,
    sleeps two seconds and sends the next; the monitor sleeps three seconds between its passes.  A
    delay of at most [delay] is allowed for everything that the sleeps do not account for: calls,
    and threads that wait for a processor.  Times are in nanoseconds. *)
From S2P Require Import Prelude CppString Table Codec Utils Rpc Coordinator Worker WorkerFacts.
From S2P Require Import Cluster ClusterFacts Replication Kv.

Definition seconds (n : Z) : Z := n * 10 ^ 9.

(** One round of [heartbeatSenderThread] at time [now]: the coordinator afterwards, and when the
    thread wakes up.  While the worker is shut down the loop spins, without a sleep. *)
Definition heartbeatSender (now : Z) (w : worker) (m : master) : master * option Z :=
  if admin_workerUp w then
    let '(m, _) := Heartbeat (workerId w) now m in (m, Some (now + seconds 2))
  else (m, None).

(** One round of [monitorThreadFunc] after its sleep, and when it wakes up again. *)
Definition monitorRound (now : Z) (m : master) : master * Z := (monitor now m, now + seconds 3).

(** The system in time.  [changed] remembers when each worker last came up or went down and
    [last_pass] when the monitor last ran; the program does not use them. *)
Record timed := {
  clock : Z;
  tm_master : master;
  tm_cluster : cluster;
  next_beat : Z → Z;
  next_pass : Z;
  changed : Z → Z;
  last_pass : Z;
}.

(** What a worker's thread and the monitor have to do by now, at the latest. *)
Definition in_time (delay now : Z) (s : timed) : Prop :=
  now ≤ next_pass s + delay ∧
  Forall (λ id, is_Some (up (tm_cluster s) id) → now ≤ next_beat s id + delay) [1; 2; 3; 4; 5; 6].
Global Instance in_time_dec delay now s : Decision (in_time delay now s).
Proof. unfold in_time. apply _. Defined.

Inductive tevent := Tick (d : Z) | Beat (id : Z) | Pass.

(** The clock advances, a worker wakes up and sends its heartbeat, the monitor wakes up. *)
Definition run_event (delay : Z) (e : tevent) (s : timed) : option timed :=
  match e with
  | Tick d =>
      if bool_decide (0 ≤ d ∧ in_time delay (clock s + d) s) then
        Some {| clock := clock s + d; tm_master := tm_master s; tm_cluster := tm_cluster s;
                next_beat := next_beat s; next_pass := next_pass s; changed := changed s;
                last_pass := last_pass s |}
      else None
  | Beat id =>
      w ← tm_cluster s !! worker_addr id;
      if bool_decide (1 ≤ id ≤ 6 ∧ next_beat s id ≤ clock s) then
        match heartbeatSender (clock s) w (tm_master s) with
        | (m, Some wake) =>
            Some {| clock := clock s; tm_master := m; tm_cluster := tm_cluster s;
                    next_beat := λ j, if decide (j = id) then wake else next_beat s j;
                    next_pass := next_pass s; changed := changed s; last_pass := last_pass s |}
        | (_, None) => None
        end
      else None
  | Pass =>
      if bool_decide (next_pass s ≤ clock s) then
        let '(m, wake) := monitorRound (clock s) (tm_master s) in
        Some {| clock := clock s; tm_master := m; tm_cluster := tm_cluster s;
                next_beat := next_beat s; next_pass := wake; changed := changed s;
                last_pass := clock s |}
      else None
  end.

Definition with_master (m : master) (s : timed) : timed :=
  {| clock := clock s; tm_master := m; tm_cluster := tm_cluster s; next_beat := next_beat s;
     next_pass := next_pass s; changed := changed s; last_pass := last_pass s |}.

(** The steps in time.  In [time_world] anything happens to the workers: requests, crashes,
    commands of the administrator, new processes.  A worker that comes up sends its first heartbeat
    within two seconds: a new process at once, a restarted one when the sleep of its thread ends. *)
Inductive time_step `{StdHash} (delay : Z) : timed → timed → Prop :=
  | time_event e s s' : run_event delay e s = Some s' → time_step delay s s'
  | time_Lookup key s m res :
      Lookup key (tm_master s) = Some (m, res) → time_step delay s (with_master m s)
  | time_WorkerLookup id s :
      time_step delay s (with_master (WorkerLookup id (tm_master s)).1 s)
  | time_world s cl beats changes :
      wf_cluster cl →
      (∀ id, 1 ≤ id ≤ 6 → is_Some (up cl id) ↔ is_Some (up (tm_cluster s) id) →
        beats id = next_beat s id ∧ changes id = changed s id) →
      (∀ id, 1 ≤ id ≤ 6 → ¬ (is_Some (up cl id) ↔ is_Some (up (tm_cluster s) id)) →
        clock s ≤ beats id ≤ clock s + seconds 2 ∧ changes id = clock s) →
      time_step delay s
        {| clock := clock s; tm_master := tm_master s; tm_cluster := cl; next_beat := beats;
           next_pass := next_pass s; changed := changes; last_pass := last_pass s |}.

Inductive time_reach `{StdHash} (delay : Z) (s0 : timed) : timed → Prop :=
  | time_reach_init : time_reach delay s0 s0
  | time_reach_step s s' : time_reach delay s0 s → time_step delay s s' → time_reach delay s0 s'.

(** The coordinator starts at time [now], among workers that may be up already. *)
Definition coordinator_starts (hosts : gmap Z string) (now : Z) (cl : cluster) : timed :=
  {| clock := now; tm_master := MasterNode hosts now; tm_cluster := cl;
     next_beat := λ _, now + seconds 2; next_pass := now + seconds 3;
     changed := λ _, now; last_pass := now |}.

(** ** The invariant *)

Section invariant.
Context `{StdHash} (delay : Z) (Hdelay : 0 ≤ delay < seconds 2).

Record timed_inv (s : timed) : Prop := {
  ti_hosts : hosts_complete (tm_master s);
  ti_wf : wf_cluster (tm_cluster s);
  ti_clock : clock_ok (clock s) (tm_master s);
  ti_pass : last_pass s ≤ clock s ≤ next_pass s + delay ∧ next_pass s = last_pass s + seconds 3;
  ti_changed id : 1 ≤ id ≤ 6 → changed s id ≤ clock s;
  ti_seen id : 1 ≤ id ≤ 6 → is_Some (lastHeartbeat (tm_master s) !! id);
  (** A worker that is up has sent its last heartbeat in time, or is about to send its first. *)
  ti_beats id : 1 ≤ id ≤ 6 → is_Some (up (tm_cluster s) id) →
    clock s ≤ next_beat s id + delay ∧
    (next_beat s id ≤ changed s id + seconds 2 ∨
     lastHeartbeat (tm_master s) !! id = Some (next_beat s id - seconds 2));
  (** One that is down has sent none since. *)
  ti_silent id seen : 1 ≤ id ≤ 6 → ¬ is_Some (up (tm_cluster s) id) →
    lastHeartbeat (tm_master s) !! id = Some seen → seen ≤ changed s id;
  (** What the monitor has found. *)
  ti_alive id : 1 ≤ id ≤ 6 → is_Some (up (tm_cluster s) id) →
    changed s id + seconds 2 + delay < last_pass s → alive (tm_master s) id = true;
  ti_dead id : 1 ≤ id ≤ 6 → ¬ is_Some (up (tm_cluster s) id) →
    changed s id + seconds 4 ≤ last_pass s → alive (tm_master s) id = false;
}.

Lemma new_heartbeats hosts now id seen :
  lastHeartbeat (MasterNode hosts now) !! id = Some seen → seen = now - seconds 3600.
Proof.
  intros Hl%elem_of_list_to_map_2. apply list_elem_of_fmap in Hl as (x & E & _). by injection E as _ ->.
Qed.

Lemma inv_starts hosts now cl :
  hosts_complete (MasterNode hosts now) → wf_cluster cl →
  timed_inv (coordinator_starts hosts now cl).
Proof.
  intros Hh Hcl. unfold seconds in Hdelay.
  split; simpl; try done; try (unfold seconds; lia).
  - intros id seen Hs%new_heartbeats. unfold seconds in *. lia.
  - intros id Hid. by worker_cases id.
  - intros id seen Hid _ Hs. apply (new_heartbeats hosts now id) in Hs. unfold seconds in *. lia.
Qed.

Lemma inv_lookup s m :
  timed_inv s → same_liveness (isAlive (tm_master s)) (isAlive m) → hostMap m = hostMap (tm_master s) →
  lastHeartbeat m = lastHeartbeat (tm_master s) → timed_inv (with_master m s).
Proof.
  intros [I1 I2 I3 I4 I5 I6 I7 I8 I9 I10] Hs Hh Hl. split; simpl; try done.
  - intros id Hid. by rewrite Hh, I1.
  - unfold clock_ok. by rewrite Hl.
  - intros id Hid. rewrite Hl. by apply I6.
  - intros id Hid. rewrite Hl. by apply I7.
  - intros id seen Hid. rewrite Hl. by apply I8.
  - intros id Hid Hup Hc. unfold alive. rewrite Hs. by apply I9.
  - intros id Hid Hup Hc. unfold alive. rewrite Hs. by apply I10.
Qed.

Lemma inv_tick s s' d : timed_inv s → run_event delay (Tick d) s = Some s' → timed_inv s'.
Proof.
  intros [I1 I2 I3 I4 I5 I6 I7 I8 I9 I10]. simpl. case_bool_decide as Hd; [|done].
  destruct Hd as (Hd & Hp & Hb). intros [= <-]. split; simpl; try done.
  - eapply map_Forall_impl; [exact I3|]. simpl. lia.
  - lia.
  - intros id Hid. specialize (I5 id Hid). lia.
  - intros id Hid Hup. split; [|by apply I7]. rewrite Forall_forall in Hb. apply Hb; [|done].
    worker_cases id; set_solver.
Qed.

Lemma inv_beat s s' id :
  timed_inv s → run_event delay (Beat id) s = Some s' → timed_inv s'.
Proof.
  intros [I1 I2 I3 I4 I5 I6 I7 I8 I9 I10]. simpl.
  destruct (tm_cluster s !! worker_addr id) as [w|] eqn:Ew; [|done]. simpl.
  case_bool_decide as Hb; [destruct Hb as [Hid Hb]|done]. unfold heartbeatSender, Heartbeat.
  destruct (admin_workerUp w) eqn:Hadm; [|done]. intros [= <-].
  assert (up (tm_cluster s) id = Some w) as Hup by (by apply up_Some).
  destruct (up_wf _ _ _ I2 Hid Hup) as [_ Eid]. rewrite Eid.
  split; simpl; try done.
  - apply map_Forall_insert_2; [lia|done].
  - intros j Hj. destruct (decide (id = j)) as [->|Hne]; [rewrite lookup_insert_eq; by eexists|].
    rewrite lookup_insert_ne by done. by apply I6.
  - intros j Hj Hupj. destruct (decide (j = id)) as [->|Hne].
    + rewrite lookup_insert_eq. unfold seconds in *. split; [lia|]. right. f_equal. lia.
    + rewrite lookup_insert_ne by done. by apply I7.
  - intros j seen Hj Hdown. rewrite lookup_insert_ne; [by apply I8|]. intros <-. destruct Hdown. by exists w.
Qed.

Lemma inv_pass s s' : timed_inv s → run_event delay Pass s = Some s' → timed_inv s'.
Proof.
  intros [I1 I2 I3 I4 I5 I6 I7 I8 I9 I10]. simpl. case_bool_decide as Hp; [|done].
  intros [= <-]. split; simpl; try done.
  - unfold seconds in *. lia.
  - intros id Hid Hup Hc. apply monitor_alive; [done|].
    destruct (I6 id Hid) as [seen Hs]. rewrite Hs. destruct (I7 id Hid Hup) as [Hb [Hn|Hl]].
    + unfold seconds in *. lia.
    + rewrite Hs in Hl. injection Hl as ->. unfold seconds in *. lia.
  - intros id Hid Hdown Hc. apply not_true_is_false. rewrite monitor_alive by done.
    destruct (I6 id Hid) as [seen Hs]. rewrite Hs. pose proof (I8 id seen Hid Hdown Hs).
    unfold seconds in *. lia.
Qed.

Lemma inv_world s cl beats changes :
  timed_inv s → wf_cluster cl →
  (∀ id, 1 ≤ id ≤ 6 → is_Some (up cl id) ↔ is_Some (up (tm_cluster s) id) →
    beats id = next_beat s id ∧ changes id = changed s id) →
  (∀ id, 1 ≤ id ≤ 6 → ¬ (is_Some (up cl id) ↔ is_Some (up (tm_cluster s) id)) →
    clock s ≤ beats id ≤ clock s + seconds 2 ∧ changes id = clock s) →
  timed_inv {| clock := clock s; tm_master := tm_master s; tm_cluster := cl; next_beat := beats;
               next_pass := next_pass s; changed := changes; last_pass := last_pass s |}.
Proof.
  intros [I1 I2 I3 I4 I5 I6 I7 I8 I9 I10] Hcl Hsame Hdiff.
  assert (∀ id, 1 ≤ id ≤ 6 →
    (is_Some (up cl id) ↔ is_Some (up (tm_cluster s) id)) ∧ beats id = next_beat s id ∧
      changes id = changed s id ∨
    clock s ≤ beats id ≤ clock s + seconds 2 ∧ changes id = clock s) as Hcase.
  { intros id Hid.
    destruct (decide (is_Some (up cl id))), (decide (is_Some (up (tm_cluster s) id)));
      [left|right|right|left]; first [apply Hdiff; [done|tauto]|split; [tauto|apply Hsame; [done|tauto]]]. }
  split; simpl; try done; unfold seconds in *.
  - intros id Hid. specialize (I5 id Hid). destruct (Hcase id Hid) as [(_ & _ & ->)|[_ ->]]; lia.
  - intros id Hid Hup. destruct (Hcase id Hid) as [(E & -> & ->)|[? ->]]; [|lia]. apply I7; tauto.
  - intros id seen Hid Hdown Hs. destruct (Hcase id Hid) as [(E & _ & ->)|[_ ->]].
    + apply (I8 id seen); tauto.
    + by apply (I3 id).
  - intros id Hid Hup Hc. destruct (Hcase id Hid) as [(E & _ & Ec)|[_ Ec]]; rewrite Ec in Hc; [|lia].
    apply I9; tauto.
  - intros id Hid Hup Hc. destruct (Hcase id Hid) as [(E & _ & Ec)|[_ Ec]]; rewrite Ec in Hc; [|lia].
    apply I10; tauto.
Qed.

Lemma inv_step s s' : timed_inv s → time_step delay s s' → timed_inv s'.
Proof.
  intros Hi Hs. destruct Hs as [e s s' He|key s m res Hl|id s|s cl beats changes Hcl Hsame Hdiff].
  - destruct e as [d|id|]; [by eapply inv_tick|by eapply inv_beat|by eapply inv_pass].
  - apply Lookup_same in Hl as (? & ? & ?). by apply inv_lookup.
  - destruct (WorkerLookup_same id (tm_master s)) as (? & ? & ?). by apply inv_lookup.
  - by apply inv_world.
Qed.
End invariant.

(** ** Time passes *)

Section progress.
Context `{StdHash} (delay : Z) (Hdelay : 0 ≤ delay < seconds 2).

Lemma time_reach_trans s0 s1 s2 :
  time_reach delay s0 s1 → time_reach delay s1 s2 → time_reach delay s0 s2.
Proof. intros H1 H2. induction H2; [done|]. by eapply time_reach_step. Qed.

Lemma time_reach_inv s s' :
  timed_inv delay s → time_reach delay s s' → timed_inv delay s'.
Proof. intros Hi. induction 1; [done|]. by eapply inv_step. Qed.

(** Nothing but the threads moves from [s] to [s'], and the clock stands still. *)
Record same_world (s s' : timed) : Prop := {
  sw_clock : clock s' = clock s;
  sw_cluster : tm_cluster s' = tm_cluster s;
  sw_changed : changed s' = changed s;
}.

(** A worker whose thread is due sends its heartbeat. *)
Lemma serve_beat s id :
  1 ≤ id ≤ 6 →
  ∃ s', time_reach delay s s' ∧ same_world s s' ∧ next_pass s' = next_pass s ∧
    (is_Some (up (tm_cluster s) id) → clock s < next_beat s' id) ∧
    ∀ j, next_beat s j ≤ next_beat s' j.
Proof.
  intros Hid. destruct (decide (next_beat s id ≤ clock s)) as [Hdue|Hnot]; cycle 1.
  { exists s. split; [constructor|]. split; [done|]. split_and!; [done|lia|done]. }
  destruct (up (tm_cluster s) id) as [w|] eqn:Hup; cycle 1.
  { exists s. split; [constructor|]. split; [done|]. split_and!; [done|by intros []|done]. }
  apply up_Some in Hup as [Ew Hadm]. eexists. split.
  { eapply time_reach_step; [constructor|]. apply (time_event _ (Beat id)). simpl. rewrite Ew. simpl.
    rewrite bool_decide_true by done. unfold heartbeatSender. rewrite Hadm. simpl. reflexivity. }
  split; [done|]. split; [done|]. simpl. unfold seconds in *. split.
  - intros _. rewrite decide_True by done. lia.
  - intros j. case_decide; [subst; lia|lia].
Qed.

Lemma serve_beats s ids :
  Forall (λ id, 1 ≤ id ≤ 6) ids →
  ∃ s', time_reach delay s s' ∧ same_world s s' ∧ next_pass s' = next_pass s ∧
    (∀ id, id ∈ ids → is_Some (up (tm_cluster s) id) → clock s < next_beat s' id) ∧
    ∀ j, next_beat s j ≤ next_beat s' j.
Proof.
  intros Hids. revert s. induction Hids as [|id ids Hid _ IH]; intros s.
  { exists s. split; [constructor|]. split; [done|]. split_and!; [done|set_solver|done]. }
  destruct (serve_beat s id Hid) as (s1 & R1 & [C1 K1 G1] & P1 & B1 & M1).
  destruct (IH s1) as (s2 & R2 & [C2 K2 G2] & P2 & B2 & M2). exists s2.
  split; [by eapply time_reach_trans|]. split; [split; congruence|]. split; [congruence|]. split.
  - intros j [->|Hj]%elem_of_cons Hup.
    + specialize (B1 Hup). specialize (M2 id). lia.
    + rewrite <-C1. apply B2; [done|]. by rewrite K1.
  - intros j. etrans; eauto.
Qed.

(** Everybody who is due runs, and then a nanosecond passes. *)
Lemma next_moment s :
  timed_inv delay s →
  ∃ s', time_reach delay s s' ∧ clock s' = clock s + 1 ∧ tm_cluster s' = tm_cluster s ∧
    changed s' = changed s.
Proof.
  intros Hi. destruct (serve_beats s [1; 2; 3; 4; 5; 6]) as (s1 & R1 & [C1 K1 G1] & P1 & B1 & M1).
  { repeat constructor; lia. }
  assert (∃ s2, time_reach delay s1 s2 ∧ same_world s1 s2 ∧ clock s1 < next_pass s2 ∧
    next_beat s2 = next_beat s1) as (s2 & R2 & [C2 K2 G2] & P2 & B2).
  { destruct (decide (next_pass s1 ≤ clock s1)) as [Hdue|Hnot]; cycle 1.
    { exists s1. split; [constructor|]. split; [done|]. split; [lia|done]. }
    eexists. split.
    { eapply time_reach_step; [constructor|]. apply (time_event _ Pass). simpl.
      rewrite bool_decide_true by done. reflexivity. }
    split; [done|]. simpl. unfold seconds. split; [lia|done]. }
  eexists. split.
  { eapply time_reach_step; [by eapply time_reach_trans|]. apply (time_event _ (Tick 1)). simpl.
    rewrite bool_decide_true; [reflexivity|]. split; [lia|]. split; [lia|].
    rewrite Forall_forall. intros id Hid. rewrite K2, K1, B2, C2, C1. intros Hup.
    specialize (B1 id Hid Hup). lia. }
  simpl. rewrite C2, C1, K2, K1, G2, G1. done.
Qed.

Lemma time_advances n s :
  timed_inv delay s →
  ∃ s', time_reach delay s s' ∧ clock s' = clock s + Z.of_nat n ∧ tm_cluster s' = tm_cluster s ∧
    changed s' = changed s.
Proof.
  intros Hi. induction n as [|n IH].
  { exists s. split; [constructor|]. split; [lia|done]. }
  destruct IH as (s1 & R1 & C1 & K1 & G1).
  destruct (next_moment s1) as (s2 & R2 & C2 & K2 & G2); [by eapply time_reach_inv|].
  exists s2. split; [by eapply time_reach_trans|]. split; [lia|]. split; congruence.
Qed.

Lemma inv_accurate s :
  timed_inv delay s →
  (∀ id, 1 ≤ id ≤ 6 → is_Some (up (tm_cluster s) id) →
    changed s id + seconds 5 + 2 * delay < clock s → alive (tm_master s) id = true) ∧
  (∀ id, 1 ≤ id ≤ 6 → ¬ is_Some (up (tm_cluster s) id) →
    changed s id + seconds 7 + delay ≤ clock s → alive (tm_master s) id = false).
Proof.
  intros Hi. destruct (ti_pass _ _ Hi) as [Hp En]. unfold seconds in *.
  split; intros id Hid Hup Hc; [apply (ti_alive _ _ Hi)|apply (ti_dead _ _ Hi)];
    try done; unfold seconds; lia.
Qed.
End progress.

(** ** Properties *)

(** C4: the coordinator finds out.  Heartbeats every two seconds, passes every three and delays of
    less than two seconds: a worker that has been up for five seconds and two delays is considered
    alive, and stays so while it is up; one that has been down for seven seconds and a delay is not.
    So when no worker has come or gone for that time, the coordinator knows exactly who is up; and
    from every state such a time can come: the threads always can keep their times. *)
Theorem coordinator_settles `{StdHash} delay hosts t0 cl0 s :
  0 ≤ delay < seconds 2 → hosts_complete (MasterNode hosts t0) → wf_cluster cl0 →
  time_reach delay (coordinator_starts hosts t0 cl0) s →
  hosts_complete (tm_master s) ∧
  (∀ id, 1 ≤ id ≤ 6 → is_Some (up (tm_cluster s) id) →
    changed s id + seconds 5 + 2 * delay < clock s → alive (tm_master s) id = true) ∧
  (∀ id, 1 ≤ id ≤ 6 → ¬ is_Some (up (tm_cluster s) id) →
    changed s id + seconds 7 + delay ≤ clock s → alive (tm_master s) id = false) ∧
  ((∀ id, 1 ≤ id ≤ 6 → changed s id + seconds 7 + delay < clock s) →
    accurate (tm_master s) (tm_cluster s)) ∧
  (∀ d, 0 ≤ d → ∃ s', time_reach delay s s' ∧ clock s' = clock s + d ∧
    tm_cluster s' = tm_cluster s ∧ changed s' = changed s).
Proof.
  intros Hd Hh Hcl Hr. pose proof (inv_starts delay Hd hosts t0 cl0 Hh Hcl) as Hi.
  apply (time_reach_inv delay Hd) in Hr; [|done]. clear Hi. destruct (inv_accurate delay s Hr) as [H1 H2].
  split; [apply Hr|]. split; [done|]. split; [done|]. split.
  - intros Hc id Hid. specialize (Hc id Hid). unfold seconds in *. case_bool_decide as Hup.
    + apply H1; [done..|lia].
    + apply H2; [done..|lia].
  - intros d Hdp. destruct (time_advances delay Hd (Z.to_nat d) s Hr) as (s' & ? & Ec & ? & ?).
    exists s'. split_and!; try done. lia.
Qed.

(** Worker 1 alone, in time: the rounds of its thread and of the monitor in the first nine
    seconds. *)
Definition one_up : cluster := {[ worker_addr 1 := boot 1 ∅ ]}.
Definition nine_seconds : list tevent :=
  [Tick (seconds 2); Beat 1; Tick (seconds 1); Pass; Tick (seconds 1); Beat 1; Tick (seconds 2);
   Beat 1; Pass; Tick (seconds 2); Beat 1; Tick (seconds 1); Pass].
Definition run_events (delay : Z) (es : list tevent) (s : timed) : option timed :=
  foldl (λ s e, s ← s; run_event delay e s) (Some s) es.

Lemma run_events_reach `{StdHash} delay es s s' :
  run_events delay es s = Some s' → time_reach delay s s'.
Proof.
  unfold run_events. revert s'. induction es as [|e es IH] using rev_ind; simpl.
  { intros s' [= <-]. constructor. }
  intros s'. rewrite foldl_app. simpl. intros (s1 & E1 & E2)%bind_Some.
  eapply time_reach_step; [by apply IH|]. by eapply time_event.
Qed.

Lemma coordinator_settles_witness :
  ∃ s, run_events 0 nine_seconds (coordinator_starts (loadHostMap hosts_txt) 0 one_up) = Some s ∧
    clock s = seconds 9 ∧ accurate (tm_master s) (tm_cluster s).
Proof.
  destruct (run_events 0 nine_seconds (coordinator_starts (loadHostMap hosts_txt) 0 one_up))
    as [s|] eqn:E; [|vm_compute in E; discriminate].
  exists s. split; [reflexivity|].
  assert (clock s = seconds 9 ∧ changed s = λ _, 0) as [Ec Eg].
  { assert (clock <$> Some s = Some (seconds 9) ∧ changed <$> Some s = Some (λ _, 0)) as [Ec Eg].
    { rewrite <-E. split; vm_compute; reflexivity. }
    injection Ec as Ec. injection Eg as Eg. exact (conj Ec Eg). }
  split; [exact Ec|].
  eapply (@coordinator_settles (λ _, 0) 0 (loadHostMap hosts_txt) 0 one_up s).
  - unfold seconds. lia.
  - apply hosts_txt_complete.
  - unfold one_up. intros a w [<- <-]%lookup_singleton_Some. split; [|done]. apply wf_boot. lia.
  - apply (run_events_reach _ _ _ _ E).
  - intros id _. rewrite Eg, Ec. unfold seconds. lia.
Defined.
