(* ===== verification/SharedStore.v ===== *)
(** * The store that several programs use at the same time

    The services run on many threads, of many servers, and every call to the store is one step
    ([Threads] shows that the store acts on its contents one update after the other).  Here the
    store is one table with the operations of the workers, and before each call of a program other
    programs may have made any number of updates.  What a program can rely on is then a property of
    the updates the others make. *)
From S2P Require Import Prelude CppString Table Codec Utils Rpc Coordinator Worker WorkerFacts.
From S2P Require Import Cluster ClusterFacts Replication Kv.

(** The table, and what the others do before each of the calls to come. *)
Record shared := { sh_table : table; sh_others : list (list update) }.

(** The others' turn. *)
Definition apply_all (us : list update) (T : table) : table := foldl (λ T u, new_table u T) T us.
Definition others_run (s : shared) : shared :=
  match sh_others s with
  | [] => s
  | us :: rest => {| sh_table := apply_all us (sh_table s); sh_others := rest |}
  end.

(** [WorkerNodeKVS::Get] on the table, as the client sees it. *)
Definition answer_Get (r c : string) (T : table) : string :=
  match table_get r c T with
  | RowMissing => client_Get (st_no_row, "")
  | ColMissing => client_Get (st_no_col, "")
  | Found v => client_Get (Status_OK, v)
  end.
Definition shared_Get (r c : string) : M shared string := λ s,
  let s := others_run s in (s, Some (answer_Get r c (sh_table s))).
Definition shared_update (u : update) (show : Status * bool → string) : M shared string := λ s,
  let s := others_run s in
  ({| sh_table := new_table u (sh_table s); sh_others := sh_others s |},
   Some (show (update_answer u (sh_table s)))).

(** The address of the worker that serves a row does not matter to the services. *)
Definition shared_ops (address : string → string) : KvOps shared := {|
  kv_Lookup r := λ s, (others_run s, Some (address r));
  kv_Get _ r c := shared_Get r c;
  kv_Put _ r c v := shared_update (UPut r c v) client_Put;
  kv_CPut _ r c cur new := shared_update (UCPut r c cur new) client_CPut;
  kv_Delete _ r c := shared_update (UDelete r c) client_Delete;
|}.

(** ** Updates and rows *)

Lemma table_put_row r r' c v T :
  r' ≠ r → table_put r c v T !! r' = T !! r'.
Proof. intros Hr. rewrite table_put_assign. unfold table_assign. by rewrite lookup_insert_ne. Qed.
Lemma table_delete_row r r' c T : r' ≠ r → table_delete r c T !! r' = T !! r'.
Proof.
  intros Hr. unfold table_delete. destruct (T !! r) as [m|]; [|done]. destruct (m !! c); [|done].
  case_bool_decide; [by rewrite lookup_delete_ne|by rewrite lookup_insert_ne].
Qed.
(** The answer of an update and the row it makes, from the row it finds. *)
Lemma update_other_row u r T : update_row u ≠ r → new_table u T !! r = T !! r.
Proof.
  destruct u as [r' c v|r' c cur new|r' c]; unfold new_table; simpl; intros Hr.
  - by apply table_put_row.
  - destruct (table_cput r' c cur new T) eqn:E; try done. apply table_cput_done in E as [_ ->].
    by apply table_put_row.
  - by apply table_delete_row.
Qed.
Lemma table_get_row r c T T' : T !! r = T' !! r → table_get r c T = table_get r c T'.
Proof. unfold table_get. by intros ->. Qed.
Lemma update_same_row u r T T' :
  T !! r = T' !! r → update_row u = r →
  new_table u T !! r = new_table u T' !! r ∧ update_answer u T = update_answer u T'.
Proof.
  intros E <-. destruct u as [r c v|r c cur new|r c]; unfold new_table, update_answer; simpl in *.
  - rewrite !table_put_assign. unfold table_assign. by rewrite !lookup_insert_eq, E.
  - unfold table_cput. rewrite (table_get_row r c T T' E).
    destruct (table_get r c T') as [| |v]; simpl; [done..|]. case_bool_decide; simpl; [|done].
    unfold table_set. by rewrite !lookup_alter_eq, E.
  - unfold table_delete. rewrite E. destruct (T' !! r) as [m|] eqn:E'; [|by rewrite E, E'].
    destruct (m !! c); [|by rewrite E, E'].
    case_bool_decide; [by rewrite !lookup_delete_eq|by rewrite !lookup_insert_eq].
Qed.
Lemma apply_all_row us r T : Forall (λ u, update_row u ≠ r) us → apply_all us T !! r = T !! r.
Proof.
  revert T. induction us as [|u us IH]; intros T Hus; [done|]. apply Forall_cons in Hus as [Hu Hus].
  unfold apply_all. simpl. fold (apply_all us (new_table u T)). rewrite IH by done.
  by apply update_other_row.
Qed.
Lemma apply_all_ext us r T T' : T !! r = T' !! r → apply_all us T !! r = apply_all us T' !! r.
Proof.
  revert T T'. induction us as [|u us IH]; intros T T' E; [done|]. apply IH.
  destruct (decide (update_row u = r)) as [Hu|Hu]; [by apply update_same_row|].
  by rewrite !update_other_row.
Qed.

(** ** Programs that nobody disturbs

    [undisturbed r m]: a program that works on row [r] only.  While the others leave the row alone,
    it answers what it answers when it is alone, and leaves the row as when it is alone; and the
    other rows are as if the others were alone. *)
Definition leave_alone (r : string) (others : list (list update)) : Prop :=
  Forall (Forall (λ u, update_row u ≠ r)) others.
Global Instance leave_alone_dec r others : Decision (leave_alone r others).
Proof. unfold leave_alone. apply _. Defined.
Definition alone (T : table) : shared := {| sh_table := T; sh_others := [] |}.

Definition undisturbed {A} (r : string) (m : M shared A) : Prop :=
  ∀ T T0 others, T !! r = T0 !! r → leave_alone r others →
    ∃ T' T0' used rest o,
      m {| sh_table := T; sh_others := others |} = ({| sh_table := T'; sh_others := rest |}, o) ∧
      m (alone T0) = (alone T0', o) ∧ T' !! r = T0' !! r ∧ others = used ++ rest ∧
      ∀ r', r' ≠ r → T' !! r' = apply_all (concat used) T !! r'.

Lemma undisturbed_ret {A} r (x : A) : undisturbed r (mret x).
Proof. intros T T0 others E Ho. by exists T, T0, [], others, (Some x). Qed.
Lemma undisturbed_throw {A} r : undisturbed r (throw : M shared A).
Proof. intros T T0 others E Ho. by exists T, T0, [], others, None. Qed.

Lemma apply_all_app us us' T : apply_all (us ++ us') T = apply_all us' (apply_all us T).
Proof. unfold apply_all. apply foldl_app. Qed.

Lemma undisturbed_bind {A B} r (m : M shared A) (f : A → M shared B) :
  undisturbed r m → (∀ x, undisturbed r (f x)) → undisturbed r (m ≫= f).
Proof.
  intros Hm Hf T T0 others E Ho.
  destruct (Hm T T0 others E Ho) as (T1 & T01 & used & rest & o & E1 & E2 & Er & -> & Hr).
  unfold mbind, M_bind. rewrite E1, E2. destruct o as [x|]; [|by exists T1, T01, used, rest, None].
  apply Forall_app in Ho as [_ Ho].
  destruct (Hf x T1 T01 rest Er Ho) as (T2 & T02 & used2 & rest2 & o2 & F1 & F2 & Fr & -> & Gr).
  exists T2, T02, (used ++ used2), rest2, o2. split_and!; [done..|by rewrite app_assoc|].
  intros r' Hr'. rewrite concat_app, apply_all_app, (Gr r' Hr').
  apply apply_all_ext. by apply Hr.
Qed.

(** The others' turn, before a call. *)
Lemma others_turn r (T T0 : table) others :
  T !! r = T0 !! r → leave_alone r others →
  ∃ T1 used rest, others_run {| sh_table := T; sh_others := others |} =
      {| sh_table := T1; sh_others := rest |} ∧ T1 !! r = T0 !! r ∧ others = used ++ rest ∧
    T1 = apply_all (concat used) T.
Proof.
  intros E Ho. destruct others as [|us rest]; [by exists T, [], []|].
  apply Forall_cons in Ho as [Hus Ho]. exists (apply_all us T), [us], rest.
  split_and!; [done| |done|by simpl; rewrite app_nil_r]. by rewrite apply_all_row.
Qed.

Section calls.
Variable address : string → string.
#[local] Existing Instance shared_ops.
Abbreviation ops := (shared_ops address).

Lemma undisturbed_Lookup r r' : undisturbed r (@kv_Lookup _ ops r').
Proof.
  intros T T0 others E Ho.
  destruct (others_turn r T T0 others E Ho) as (T1 & used & rest & E1 & Er & -> & ->).
  eexists _, T0, used, rest, _. simpl. rewrite E1. by split_and!.
Qed.
Lemma undisturbed_Get r a c : undisturbed r (@kv_Get _ ops a r c).
Proof.
  intros T T0 others E Ho.
  destruct (others_turn r T T0 others E Ho) as (T1 & used & rest & E1 & Er & -> & ET).
  exists T1, T0, used, rest, (Some (answer_Get r c T1)). simpl. unfold shared_Get. rewrite E1. simpl.
  split_and!; try done; [|by rewrite ET]. unfold answer_Get. by rewrite (table_get_row r c T1 T0).
Qed.
Lemma undisturbed_update r u show : update_row u = r → undisturbed r (shared_update u show).
Proof.
  intros Hu T T0 others E Ho.
  destruct (others_turn r T T0 others E Ho) as (T1 & used & rest & E1 & Er & -> & ET).
  destruct (update_same_row u r T1 T0 Er Hu) as [F1 F2].
  exists (new_table u T1), (new_table u T0), used, rest, (Some (show (update_answer u T1))).
  unfold shared_update. rewrite E1. simpl. split_and!; [done| |done|done|].
  - by rewrite F2.
  - intros r' Hr'. rewrite update_other_row by congruence. by rewrite ET.
Qed.
Lemma undisturbed_Put r a c v : undisturbed r (@kv_Put _ ops a r c v).
Proof. by apply undisturbed_update. Qed.
Lemma undisturbed_CPut r a c cur new : undisturbed r (@kv_CPut _ ops a r c cur new).
Proof. by apply undisturbed_update. Qed.
Lemma undisturbed_Delete r a c : undisturbed r (@kv_Delete _ ops a r c).
Proof. by apply undisturbed_update. Qed.
End calls.

Lemma undisturbed_for_each {A} r (body : A → M shared unit) l :
  (∀ x, undisturbed r (body x)) → undisturbed r (for_each body l).
Proof.
  intros Hb. induction l as [|x l IH]; [apply undisturbed_ret|]. cbn [for_each].
  by apply undisturbed_bind.
Qed.

Create HintDb undisturbed.
#[export] Hint Resolve undisturbed_ret undisturbed_throw undisturbed_Lookup undisturbed_Get
  undisturbed_Put undisturbed_CPut undisturbed_Delete : undisturbed.

(** ** A store that nobody else uses keeps the promise of a store *)

Lemma alone_Get r c T :
  match flat T !! (r, c) with Some x => answer_Get r c T = x | None => missing (answer_Get r c T) end.
Proof.
  unfold answer_Get. destruct (table_get r c T) as [| |v] eqn:G.
  - rewrite (proj1 (table_get_flat_None r c T)) by auto. by left.
  - rewrite (proj1 (table_get_flat_None r c T)) by auto. by right.
  - apply table_get_flat in G. by rewrite G.
Qed.

Lemma show_update u T (show : Status * bool → string) good :
  show = (λ res, if status_ok res.1 then good else err_string res.1) → is_ERR good = false →
  is_ERR (show (update_answer u T)) = false ↔ update_succeeds u (λ r c, flat T !! (r, c)).
Proof.
  intros -> Hg. rewrite <-update_answer_ok. destruct (status_ok _); [done|].
  rewrite err_string_is_ERR. done.
Qed.

Program Definition shared_laws (address : string → string) (Ha : ∀ r, is_ERR (address r) = false) :
    @KvLaws shared (shared_ops address) := {|
  kv_ok s := sh_others s = [];
  kv_view s r c := flat (sh_table s) !! (r, c);
  kv_home _ _ _ := True;
|}.
Next Obligation.
  intros address Ha [T o] r Ho. simpl in *. subst o. by exists (alone T), (address r).
Qed.
Next Obligation.
  intros address Ha [T o] a r c Ho _. simpl in *. subst o. exists (answer_Get r c T).
  split; [done|]. apply alone_Get.
Qed.
Next Obligation.
  intros address Ha [T o] a u Ho _. simpl in *. subst o.
  destruct u as [r c v|r c cur new|r c]; simpl; unfold shared_update; simpl;
    (eexists (alone _), _; split; [reflexivity|]; split; [done|]; split;
      [intros r' c'; apply new_table_flat|]; split; [done|]);
    [eapply (show_update (UPut r c v))|eapply (show_update (UCPut r c cur new))
    |eapply (show_update (UDelete r c))]; reflexivity.
Qed.
