(* ===== verification/UserAccount.v ===== *)
(** * User accounts: frontend/user_account/user_account_service.cc

    Passwords are kept in the column "password" of the row "<username>-userinfo". *)
From S2P Require Import Prelude CppString Table Codec Utils Rpc Coordinator Worker WorkerFacts.
From S2P Require Import Cluster ClusterFacts Replication Kv.

Section service.
Context `{KvOps St}.

Definition authenticate (username password : string) : M St bool :=
  worker ← kv_Lookup (username +:+ "-userinfo");
  if is_ERR worker then mret false
  else
    stored ← kv_Get worker (username +:+ "-userinfo") "password";
    if is_ERR stored || bool_decide (stored = "") then mret false
    else mret (bool_decide (stored = password)).

Definition signup (username password : string) : M St bool :=
  worker ← kv_Lookup (username +:+ "-userinfo");
  if is_ERR worker then mret false
  else
    existing ← kv_Get worker (username +:+ "-userinfo") "password";
    if negb (is_ERR existing) then mret false
    else
      _ ← kv_Put worker (username +:+ "-userinfo") "password" password;
      mret true.

Definition changePassword (username oldPassword newPassword : string) : M St Z :=
  worker ← kv_Lookup (username +:+ "-userinfo");
  if is_ERR worker then mret 3
  else
    stored ← kv_Get worker (username +:+ "-userinfo") "password";
    if is_ERR stored then mret 1
    else if bool_decide (stored ≠ oldPassword) then mret 2
    else
      _ ← kv_CPut worker (username +:+ "-userinfo") "password" oldPassword newPassword;
      mret 0.

End service.

(** ** Properties *)

(** The contents of the store after the password of [username] was set. *)
Definition with_password (username password : string) (V : string → string → option string) :=
  view_effect (UPut (username +:+ "-userinfo") "password" password) V.

Section properties.
Context `{KvLaws St}.

(** The password a user has, as [Get] shows it. *)
Definition password_of (s : St) (username : string) : option string :=
  kv_view s (username +:+ "-userinfo") "password".

Lemma authenticate_spec username password s :
  kv_ok s →
  runs (authenticate username password) (λ b s',
    (∀ r c, kv_view s' r c = kv_view s r c) ∧ kv_ok s' ∧
    (b = true ↔ password_of s username = Some password ∧ password ≠ "" ∧ is_ERR password = false)) s.
Proof.
  intros Hok. apply runs_bind. apply (runs_Lookup _ (kv_view s) _ s Hok (λ _ _, eq_refl)).
  intros a s1 Ha Hs1. rewrite Ha. apply runs_bind. apply (runs_Get _ _ _ _ _ _ Hs1). intros v Hv.
  unfold got in Hv. unfold password_of.
  assert (∀ b, (b = true ↔ kv_view s (username +:+ "-userinfo") "password" = Some password ∧
    password ≠ "" ∧ is_ERR password = false) → runs (mret b) (λ b s',
    (∀ r c, kv_view s' r c = kv_view s r c) ∧ kv_ok s' ∧
    (b = true ↔ kv_view s (username +:+ "-userinfo") "password" = Some password ∧
      password ≠ "" ∧ is_ERR password = false)) s1) as Hret.
  { intros b Hb. apply runs_ret. split_and!; [apply Hs1|apply Hs1|done..]. }
  destruct (kv_view s _ _) as [x|].
  - subst v. destruct (is_ERR x) eqn:Ex; simpl; [|case_bool_decide as Ee; simpl].
    + apply Hret. split; [done|]. intros ([= ->] & _ & ?). congruence.
    + apply Hret. split; [done|]. intros ([= ->] & ? & ?). congruence.
    + apply Hret. rewrite bool_decide_eq_true. split; [by intros ->|by intros [[= ->] _]].
  - rewrite (missing_is_ERR v Hv). simpl. apply Hret. split; [done|by intros [? _]].
Qed.

(** C33: over a healthy store [authenticate] changes nothing, and accepts exactly the stored
    password, unless that password is empty or starts with "ERR", which is never accepted. *)
Theorem authenticate_correct username password s :
  kv_ok s →
  runs (authenticate username password) (λ b s',
    (∀ r c, kv_view s' r c = kv_view s r c) ∧ kv_ok s' ∧
    (b = true ↔ password_of s username = Some password ∧ password ≠ "" ∧ is_ERR password = false)) s.
Proof. apply authenticate_spec. Qed.

(** C34: over a healthy store [signup] creates the user with the given password and answers true when
    the user has no password or one that starts with "ERR"; in every other case it answers false and
    changes nothing. *)
Theorem signup_correct username password s :
  kv_ok s →
  runs (signup username password) (λ b s', kv_ok s' ∧
    let taken := match password_of s username with Some p => is_ERR p = false | None => False end in
    (b = false ↔ taken) ∧
    (b = false → ∀ r c, kv_view s' r c = kv_view s r c) ∧
    (b = true → ∀ r c, kv_view s' r c = with_password username password (kv_view s) r c)) s.
Proof.
  intros Hok. apply runs_bind. apply (runs_Lookup _ (kv_view s) _ s Hok (λ _ _, eq_refl)).
  intros a s1 Ha Hs1. rewrite Ha. apply runs_bind. apply (runs_Get _ _ _ _ _ _ Hs1). intros v Hv.
  unfold got in Hv. unfold password_of. destruct (is_ERR v) eqn:Ev; simpl.
  - apply runs_bind. apply (runs_Put _ _ _ _ _ _ _ Hs1). intros res s2 _ Hs2.
    apply runs_ret. split; [apply Hs2|]. cbv zeta. split_and!; [|done|intros _; apply Hs2].
    destruct (kv_view s _ _) as [x|]; [|done]. subst v. rewrite Ev. done.
  - apply runs_ret. split; [apply Hs1|]. cbv zeta. split_and!; [|intros _; apply Hs1|done].
    destruct (kv_view s _ _) as [x|]; [|apply missing_is_ERR in Hv; congruence]. by subst v.
Qed.

(** Over a healthy store [changePassword] answers 0 and replaces the password exactly when the
    stored password is the old one given; otherwise it changes nothing and answers 2, or 1 when
    there is no password (or one that starts with "ERR"). *)
Theorem changePassword_correct username oldPassword newPassword s :
  kv_ok s →
  runs (changePassword username oldPassword newPassword) (λ code s', kv_ok s' ∧
    match password_of s username with
    | Some p =>
        if is_ERR p then code = 1 ∧ ∀ r c, kv_view s' r c = kv_view s r c
        else if bool_decide (p = oldPassword)
        then code = 0 ∧ ∀ r c, kv_view s' r c = with_password username newPassword (kv_view s) r c
        else code = 2 ∧ ∀ r c, kv_view s' r c = kv_view s r c
    | None => code = 1 ∧ ∀ r c, kv_view s' r c = kv_view s r c
    end) s.
Proof.
  intros Hok. apply runs_bind. apply (runs_Lookup _ (kv_view s) _ s Hok (λ _ _, eq_refl)).
  intros a s1 Ha Hs1. rewrite Ha. apply runs_bind. apply (runs_Get _ _ _ _ _ _ Hs1). intros v Hv.
  unfold got in Hv. unfold password_of. destruct (kv_view s _ _) as [x|] eqn:Ex.
  - subst v. destruct (is_ERR x); [apply runs_ret; split_and!; [apply Hs1|done|apply Hs1]|].
    destruct (decide (x = oldPassword)) as [->|Hne].
    + rewrite bool_decide_false by (by intros []). rewrite bool_decide_true by done.
      apply runs_bind. apply (runs_CPut _ _ _ _ _ _ _ _ Hs1). intros res s2 _ Hs2. apply runs_ret.
      split_and!; [apply Hs2|done|]. intros r c. rewrite (session_view _ _ _ _ Hs2).
      unfold with_password. simpl. repeat case_decide; naive_solver.
    + rewrite bool_decide_true by done. rewrite bool_decide_false by done.
      apply runs_ret. split_and!; [apply Hs1|done|apply Hs1].
  - rewrite (missing_is_ERR v Hv). apply runs_ret. split_and!; [apply Hs1|done|apply Hs1].
Qed.

End properties.

(** ** Examples *)

#[local] Existing Instance example_ops.
#[local] Existing Instance example_laws.

Lemma authenticate_correct_witness :
  ∃ s', authenticate "alice" "secret" new_system = (s', Some false) ∧ kv_ok s'.
Proof.
  destruct (authenticate_correct "alice" "secret" new_system new_system_ok)
    as (b & s' & E & _ & Hok & Hb).
  exists s'. split; [|exact Hok]. rewrite E. do 2 f_equal. destruct b; [|reflexivity].
  destruct (proj1 Hb eq_refl) as [Hp _]. vm_compute in Hp. discriminate Hp.
Defined.

Lemma signup_correct_witness :
  ∃ s', signup "alice" "secret" new_system = (s', Some true) ∧
    kv_view s' "alice-userinfo" "password" = Some "secret".
Proof.
  destruct (signup_correct "alice" "secret" new_system new_system_ok)
    as (b & s' & E & _ & Hf & _ & Ht).
  assert (b = true) as ->.
  { destruct b; [reflexivity|]. pose proof (proj1 Hf eq_refl) as Hp. vm_compute in Hp. destruct Hp. }
  exists s'. split; [exact E|]. rewrite (Ht eq_refl). reflexivity.
Defined.

Lemma changePassword_correct_witness :
  ∃ s', changePassword "alice" "secret" "new" new_system = (s', Some 1).
Proof.
  destruct (changePassword_correct "alice" "secret" "new" new_system new_system_ok)
    as (b & s' & E & _ & Hc).
  exists s'. rewrite E. do 2 f_equal. destruct Hc as [Hc _]. exact Hc.
Defined.
