(* ===== verification/StorageText.v ===== *)
(** * Text processing of the storage service: frontend/storage/storage_service.cc

    HTTP responses, multipart bodies, MIME types, names, query parameters, chunked transfer
    encoding. *)
From S2P Require Import Prelude CppString Utils.

(** ** Searching helpers *)

(** [s.substr(b, e - b)] where [e] is the result of a search: up to the end for [npos]. *)
Definition substr_upto (b : nat) (e : option nat) (s : string) : string :=
  match e with Some e => substr b (e - b) s | None => substr_from b s end.

(** [s.rfind(p)]: the last occurrence. *)
Fixpoint rfind (p s : string) : option nat :=
  match s with
  | "" => if String.prefix p s then Some 0%nat else None
  | String _ s' =>
      match rfind p s' with
      | Some i => Some (S i)
      | None => if String.prefix p s then Some 0%nat else None
      end
  end.

(** [s.find_last_of("/\\")]. *)
Definition is_slash (c : ascii) : bool := bool_decide (c = "/"%char ∨ c = "\"%char).
Fixpoint find_last_slash (s : string) : option nat :=
  match s with
  | "" => None
  | String a s' =>
      match find_last_slash s' with
      | Some i => Some (S i)
      | None => if is_slash a then Some 0%nat else None
      end
  end.

(** ** Responses *)

Definition buildHttpHeaderStorage (status contentType : string) (contentLength : nat)
    (extraHeaders : string) : string :=
  "HTTP/1.1 " +:+ status +:+ crlf +:+
  "Content-Type: " +:+ contentType +:+ crlf +:+
  "Content-Length: " +:+ to_string (Z.of_nat contentLength) +:+ crlf +:+
  extraHeaders +:+
  "Connection: keep-alive" +:+ crlf +:+ crlf.
Definition httpResponseStorage (status body : string) : string :=
  buildHttpHeaderStorage status "text/html" (slen body) "" +:+ body.

(** ** Multipart bodies *)

Definition parseMultipartFieldStorage (body fieldName : string) : string :=
  let pattern := "name=" +:+ dq +:+ fieldName +:+ dq in
  match find pattern 0 body with
  | None => ""
  | Some pos =>
      match find (crlf +:+ crlf) pos body with
      | None => ""
      | Some valueStart =>
          let valueStart := (valueStart + 4)%nat in
          match find crlf valueStart body with
          | None => ""
          | Some valueEnd => substr valueStart (valueEnd - valueStart) body
          end
      end
  end.

(** [findHeaderEnd]: past the first blank line, or the size of the body. *)
Definition findHeaderEnd (body : string) : nat :=
  match find (crlf +:+ crlf) 0 body with Some i => i + 4 | None => slen body end%nat.

Definition parseMultipartFilenameStorage (body : string) : string :=
  let marker := "filename=" +:+ dq in
  let header := str_take (findHeaderEnd body) body in
  match find marker 0 header with
  | None => "uploaded_file"
  | Some pos =>
      let pos := (pos + slen marker)%nat in
      match find_char dquote pos header with
      | None => "uploaded_file"
      | Some endPos => substr pos (endPos - pos) header
      end
  end.

(** [extractBoundary]: "--" and the boundary, or empty. *)
Definition extractBoundary (request : string) : string :=
  match find "Content-Type: multipart/form-data;" 0 request with
  | None => ""
  | Some ct =>
      match find "boundary=" ct request with
      | None => ""
      | Some b =>
          let b := (b + 9)%nat in
          "--" +:+ substr_upto b (find crlf b request) request
      end
  end.

Definition parseMultipartFilenameStorageHeader (headerPart : string) : string :=
  let marker := "filename=" +:+ dq in
  match find marker 0 headerPart with
  | None => ""
  | Some pos =>
      let pos := (pos + slen marker)%nat in
      let endPos := default (slen headerPart) (find_char dquote pos headerPart) in
      let filename := substr pos (endPos - pos) headerPart in
      match find_last_slash filename with
      | Some slash =>
          if bool_decide (slash + 1 < slen filename)%nat then substr_from (slash + 1) filename
          else filename
      | None => filename
      end
  end.

(** ** MIME types *)

Definition mime_types : gmap string string := list_to_map [
  (".txt", "text/plain"); (".html", "text/html"); (".htm", "text/html"); (".css", "text/css");
  (".js", "application/javascript"); (".json", "application/json"); (".xml", "application/xml");
  (".pdf", "application/pdf");
  (".png", "image/png"); (".jpg", "image/jpeg"); (".jpeg", "image/jpeg"); (".gif", "image/gif");
  (".bmp", "image/bmp"); (".webp", "image/webp"); (".svg", "image/svg+xml"); (".ico", "image/x-icon");
  (".mp3", "audio/mpeg"); (".wav", "audio/wav"); (".ogg", "audio/ogg"); (".flac", "audio/flac");
  (".mp4", "video/mp4"); (".mov", "video/quicktime"); (".avi", "video/x-msvideo");
  (".mpeg", "video/mpeg"); (".webm", "video/webm"); (".mkv", "video/x-matroska")].

Definition get_content_type_storage (filename : string) : string :=
  let slash := find_last_slash filename in
  let fallback := "application/octet-stream" in
  match find_last_of "."%char filename with
  | None => fallback
  | Some pos =>
      if match slash with None => true | Some sl => bool_decide (sl < pos)%nat end then
        default fallback (mime_types !! substr_from pos filename)
      else fallback
  end.

(** ** Names *)

(** The class [[A-Za-z0-9()_ ]]. *)
Definition name_char (c : ascii) : bool :=
  let n := nat_of_ascii c in
  (((65 <=? n) && (n <=? 90)) || ((97 <=? n) && (n <=? 122)) || ((48 <=? n) && (n <=? 57)) ||
   (n =? 40) || (n =? 41) || (n =? 95) || (n =? 32))%nat.
Fixpoint all_name_chars (s : string) : bool :=
  match s with "" => true | String c s => name_char c && all_name_chars s end.
Definition segment (s : string) : bool := negb (bool_decide (s = "")) && all_name_chars s.

(** [isValidName]: the regular expression matches one segment, or two with a dot between. *)
Definition isValidName (s : string) : bool :=
  match split_on "."%char s with
  | [a] => segment a
  | [a; b] => segment a && segment b
  | _ => false
  end.

Definition ensureSameExtension (oldName newName : string) : string :=
  let extOld :=
    match find_last_of "."%char oldName with
    | Some posOld => if bool_decide (posOld + 1 < slen oldName)%nat then substr_from posOld oldName else ""
    | None => ""
    end in
  if bool_decide (extOld = "") then
    match find_last_of "."%char newName with
    | Some posNew => str_take posNew newName
    | None => newName
    end
  else
    match find_last_of "."%char newName with
    | Some posNew =>
        if bool_decide (posNew + 1 < slen newName)%nat then str_take posNew newName +:+ extOld
        else newName +:+ extOld
    | None => newName +:+ extOld
    end.

(** ** Query parameters *)

(** [std::stoi(hex, nullptr, 16)] on two characters: [None] is [std::invalid_argument]. *)
Definition stoi16 (s : string) : option Z := signed_hex (skip_space s).

(** [urlDecode2]: [None] when [stoi] throws. *)
Fixpoint urlDecode2 (s : string) : option string :=
  match s with
  | "" => Some ""
  | String c rest =>
      if decide (c = "%"%char) then
        match rest with
        | String h1 (String h2 rest') =>
            decoded ← stoi16 (String h1 (String h2 ""));
            out ← urlDecode2 rest';
            Some (String (char_of_int decoded) out)
        | _ => out ← urlDecode2 rest; Some (String c out)
        end
      else if decide (c = "+"%char) then out ← urlDecode2 rest; Some (String " "%char out)
      else out ← urlDecode2 rest; Some (String c out)
  end.

(** The pairs of a decoded query: [pair] without '=' are skipped. *)
Definition parsePairs (query : string) : gmap string string :=
  foldl (λ params pair,
    match find_char0 "="%char pair with
    | Some eqPos => <[str_take eqPos pair := str_drop (S eqPos) pair]> params
    | None => params
    end) ∅ (getlines "&"%char query).
Definition parseQueryParamsStorage (query : string) : option (gmap string string) :=
  parsePairs <$> urlDecode2 query.

(** The parameters of the request line, as every handler extracts them: [Some None] when it has no
    '?', [None] when the decoding throws. *)
Definition requestParams (request : string) : option (option (gmap string string)) :=
  let requestLine := substr_to (find crlf 0 request) request in
  match find_char "?"%char 0 requestLine with
  | None => Some None
  | Some qmPos =>
      let spaceAfterQuery := find_char " "%char qmPos requestLine in
      Some <$> parseQueryParamsStorage (substr_upto (qmPos + 1) spaceAfterQuery requestLine)
  end.

(** [splitStringStorage]. *)
Fixpoint splitLoop (fuel : nat) (str : string) (delimiter : ascii) (start : nat) : list string :=
  match fuel with
  | O => []
  | S fuel =>
      match find_char delimiter start str with
      | Some pos => substr start (pos - start) str :: splitLoop fuel str delimiter (pos + 1)
      | None => [substr_from start str]
      end
  end.
Definition splitStringStorage (str : string) (delimiter : ascii) : list string :=
  splitLoop (S (slen str)) str delimiter 0.
