(* ===== verification/HttpText.v ===== *)
(** * Text processing of the HTTP server: frontend/http_server.cc

    Responses, cookies, headers, form parameters and the request line. *)
From S2P Require Import Prelude CppString Utils CppStream StorageText.

(** ** Responses *)

Definition buildHttpHeader (status contentType : string) (contentLength : nat) (extraHeaders : string) :
    string :=
  "HTTP/1.1 " +:+ status +:+ crlf +:+
  "Content-Type: " +:+ contentType +:+ crlf +:+
  "Content-Length: " +:+ to_string (Z.of_nat contentLength) +:+ crlf +:+
  extraHeaders +:+
  "Connection: keep-alive" +:+ crlf +:+ crlf.
Definition httpResponse (status body : string) : string :=
  buildHttpHeader status "text/html" (slen body) "" +:+ body.

Definition mime_types : gmap string string := list_to_map [
  (".html", "text/html"); (".css", "text/css"); (".js", "application/javascript");
  (".png", "image/png"); (".jpg", "image/jpeg"); (".jpeg", "image/jpeg"); (".gif", "image/gif");
  (".txt", "text/plain"); (".json", "application/json"); (".ico", "image/x-icon")].
Definition get_content_type (path : string) : string :=
  match find_last_of "."%char path with
  | Some dot => default "application/octet-stream" (mime_types !! substr_from dot path)
  | None => "application/octet-stream"
  end.

(** ** Requests *)

Definition extractSessionId (request : string) : string :=
  match find "Cookie:" 0 request with
  | None => ""
  | Some cookiePos =>
      match find "session_id=" cookiePos request with
      | None => ""
      | Some sessionStart =>
          let cookie := substr_upto (sessionStart + 11) (find ";" sessionStart request) request in
          substr_to (find_char0 CR cookie) cookie
      end
  end.

(** [request.find_first_not_of(" ", pos)]: the number of blanks, and whether something follows. *)
Fixpoint find_first_not_blank (s : string) : option nat :=
  match s with
  | "" => None
  | String c s => if decide (c = " "%char) then S <$> find_first_not_blank s else Some 0%nat
  end.
Definition extractConnectionHeader (request : string) : string :=
  match find "Connection:" 0 request with
  | None => "close"
  | Some connPos =>
      match find_first_not_blank (str_drop (connPos + 11) request) with
      | None => "close"
      | Some blanks =>
          let start := (connPos + 11 + blanks)%nat in
          match find crlf start request with
          | None => "close"
          | Some end_ => substr start (end_ - start) request
          end
      end
  end.

(** "%2F" becomes "/". *)
Fixpoint decode_2F (q : string) : string :=
  match q with
  | "" => ""
  | String c rest =>
      match q with
      | String "%"%char (String "2"%char (String "F"%char rest')) => String "/"%char (decode_2F rest')
      | _ => String c (decode_2F rest)
      end
  end.
Definition parseQueryParams (q : string) : gmap string string := parsePairs (decode_2F q).

(** The body of a request: what follows the headers, then what [read] returns until
    [Content-Length] bytes are there.  [None] when [stoi] or [substr] throws. *)
Definition MAX_FILE_SIZE : Z := 2 * 1024 * 1024.
Fixpoint readLoop (reads : list string) (contentLen : Z) (body : string) : string :=
  if bool_decide (Z.of_nat (slen body) < contentLen) then
    match reads with
    | [] => body
    | buf :: reads => readLoop reads contentLen (body +:+ buf)
    end
  else body.
Definition readRequestBody (reads : list string) (req : string) (headerEnd : option nat) :
    option string :=
  contentLen ←
    match find "Content-Length:" 0 req with
    | None => Some 0
    | Some cl =>
        let value := skip_to_digit (str_drop cl req) in stoi (substr_to (find0 crlf value) value)
    end;
  body ← substr_from_exc (npos_add headerEnd 4) req;
  Some (readLoop reads (Z.min contentLen MAX_FILE_SIZE) body).

(** The URL of the request line, between its first two blanks, and its query. *)
Definition requestUrl (request : string) : string :=
  let req_line := substr_to (find crlf 0 request) request in
  match find_char " "%char 0 req_line with
  | None => req_line
  | Some first_space =>
      substr_upto (first_space + 1) (find_char " "%char (first_space + 1) req_line) req_line
  end.
Definition urlQuery (url : string) : string :=
  match find_char "?"%char 0 url with
  | Some qpos => substr_from (qpos + 1) url
  | None => ""
  end.
