(* ===== verification/LoadBalancer.v ===== *)
(** * The load balancer: frontend/load_balancer.cc

    The state is the index [next_frontend].  The answers of the frontends are those of a [network];
    it may change from one probe to the next. *)
From S2P Require Import Prelude CppString Utils CppStream StorageText HttpText.

(** What a frontend at a host and port answers to a request within a second: [None] when the
    connection, the [send] or the [recv] fails. *)
Abbreviation network := (string → Z → string → option string).

Definition FRONTENDS : list string :=
  ["http://127.0.0.1:8081"; "http://127.0.0.1:8082"; "http://127.0.0.1:8083"].

Definition without_scheme (url : string) : string :=
  if starts_with "http://" url then str_drop 7 url else url.

Definition health_request (host : string) : string :=
  "HEAD /health HTTP/1.1" +:+ crlf +:+ "Host: " +:+ host +:+ crlf +:+
  "Connection: keep-alive" +:+ crlf +:+ crlf.

(** [is_alive]: [None] when [stoi] throws.  [recv] takes at most 127 bytes. *)
Definition is_alive (net : network) (frontend : string) : option bool :=
  let url := without_scheme frontend in
  match rfind ":" url with
  | None => Some false
  | Some colon =>
      let host := str_take colon url in
      port ← stoi (str_drop (colon + 1) url);
      Some match net host port (health_request host) with
           | None => false
           | Some reply => contains "200" (c_string (str_take 127 reply))
           end
  end.

(** The loop of [select_frontend] from its [i]-th round, [n] rounds before the end: the new
    [next_frontend] and the frontend, "" for none. *)
Fixpoint select_loop (net : network) (start i n next_frontend : nat) : option (nat * string) :=
  match n with
  | O => Some (next_frontend, "")
  | S n =>
      let idx := ((start + i) mod length FRONTENDS)%nat in
      frontend ← FRONTENDS !! idx;
      alive ← is_alive net frontend;
      if alive : bool then Some (((idx + 1) mod length FRONTENDS)%nat, frontend)
      else select_loop net start (i + 1) n next_frontend
  end.
Definition select_frontend (net : network) (next_frontend : nat) : option (nat * string) :=
  select_loop net next_frontend 0 (length FRONTENDS) next_frontend.

(** [read_request_line] on what [recv] returned. *)
Definition read_request_line (received : option string) : option (string * string) :=
  req ← received;
  pos ← find crlf 0 req;
  match words (str_take pos req) with
  | method :: path :: _ => Some (method, path)
  | _ => None
  end.

(** One element of the JSON array of GET /health. *)
Definition health_entry (net : network) (i : nat) (frontend : string) : option string :=
  up ← is_alive net frontend;
  let url := without_scheme frontend in
  let port := str_drop (npos_add (rfind ":" url) 1) url in
  Some ("{" +:+ dq +:+ "id" +:+ dq +:+ ":" +:+ to_string (Z.of_nat i + 1) +:+
        "," +:+ dq +:+ "port" +:+ dq +:+ ":" +:+ dq +:+ port +:+ dq +:+
        "," +:+ dq +:+ "alive" +:+ dq +:+ ":" +:+ (if up : bool then "true" else "false") +:+ "}").
Fixpoint health_entries (net : network) (i : nat) (frontends : list string) : option (list string) :=
  match frontends with
  | [] => Some []
  | f :: fs => e ← health_entry net i f; es ← health_entries net (S i) fs; Some (e :: es)
  end.
Definition health_json (net : network) : option string :=
  es ← health_entries net 0 FRONTENDS; Some ("[" +:+ join "," es +:+ "]").

(** [handle_client]: the new [next_frontend] and what is sent; [None] when it throws. *)
Definition handle_client (net : network) (received : option string) (next_frontend : nat) :
    option (nat * string) :=
  match read_request_line received with
  | None => Some (next_frontend, "")
  | Some (method, path) =>
      if bool_decide (method = "GET") && bool_decide (path = "/health") then
        b ← health_json net;
        Some (next_frontend,
              "HTTP/1.1 200 OK" +:+ crlf +:+ "Content-Type: application/json" +:+ crlf +:+
              "Content-Length: " +:+ to_string (Z.of_nat (slen b)) +:+ crlf +:+
              "Connection: close" +:+ crlf +:+ crlf +:+ b)
      else
        '(next_frontend, target) ← select_frontend net next_frontend;
        if bool_decide (target = "") then
          Some (next_frontend,
                "HTTP/1.1 503 Service Unavailable" +:+ crlf +:+ "Content-Length: 0" +:+ crlf +:+
                "Connection: close" +:+ crlf +:+ crlf)
        else
          Some (next_frontend,
                "HTTP/1.1 307 Temporary Redirect" +:+ crlf +:+ "Location: " +:+ target +:+ path +:+ crlf +:+
                "Content-Length: 0" +:+ crlf +:+ "Connection: close" +:+ crlf +:+ crlf)
  end.

(** ** Which frontends answer *)

Definition up (net : network) (idx : nat) : bool :=
  match FRONTENDS !! idx with Some f => default false (is_alive net f) | None => false end.

(** The addresses of the list can be parsed. *)
Lemma is_alive_FRONTENDS net idx f :
  FRONTENDS !! idx = Some f → is_alive net f = Some (up net idx).
Proof.
  intros Hf. unfold up. rewrite Hf.
  assert (is_Some (is_alive net f)) as [b ->]; [|done].
  destruct idx as [|[|[|idx]]]; cbn in Hf; simplify_eq; [by eexists..|done].
Qed.

Lemma FRONTENDS_lookup idx : (idx < 3)%nat → ∃ f, FRONTENDS !! idx = Some f ∧ f ≠ "".
Proof. intros ?. destruct idx as [|[|[|idx]]]; [by eexists..|lia]. Qed.

(** The first frontend that answers, [d] places after [start]. *)
Definition first_live (net : network) (start d : nat) : Prop :=
  up net ((start + d) mod 3) = true ∧ ∀ d', (d' < d)%nat → up net ((start + d') mod 3) = false.

Lemma select_loop_spec net start i n next :
  ∃ next' target, select_loop net start i n next = Some (next', target) ∧
    ((∃ d, (d < n)%nat ∧ up net ((start + (i + d)) mod 3) = true ∧
        (∀ d', (d' < d)%nat → up net ((start + (i + d')) mod 3) = false) ∧
        FRONTENDS !! ((start + (i + d)) mod 3)%nat = Some target ∧
        next' = (((start + (i + d)) mod 3 + 1) mod 3)%nat) ∨
     (target = "" ∧ next' = next ∧ ∀ d, (d < n)%nat → up net ((start + (i + d)) mod 3) = false)).
Proof.
  revert i. induction n as [|n IH]; intros i.
  { exists next, "". split; [done|]. right. split_and!; [done..|lia]. }
  cbn [select_loop]. change (length FRONTENDS) with 3%nat.
  destruct (FRONTENDS_lookup ((start + i) mod 3)) as (f & Hf & _); [by apply Nat.mod_upper_bound|].
  rewrite Hf. cbn [mbind option_bind]. rewrite (is_alive_FRONTENDS net _ _ Hf). cbn [mbind option_bind].
  destruct (up net ((start + i) mod 3)) eqn:Eup.
  - eexists _, _. split; [done|]. left. exists 0%nat. rewrite Nat.add_0_r.
    split_and!; [lia|done|lia|done|done].
  - destruct (IH (i + 1)%nat) as (next' & target & E & Hcase). exists next', target. split; [done|].
    assert (∀ d, (i + S d = i + 1 + d)%nat) as Hd by lia.
    destruct Hcase as [(d & Hn & Hup & Hmin & Ht & Hnext)|(Ht & Hnext & Hall)].
    + left. exists (S d). rewrite Hd. split_and!; [lia|done| |done|done].
      intros [|d'] Hlt; [by rewrite Nat.add_0_r|]. rewrite Hd. apply Hmin. lia.
    + right. split_and!; [done..|]. intros [|d] Hlt; [by rewrite Nat.add_0_r|].
      rewrite Hd. apply Hall. lia.
Qed.

Lemma select_frontend_spec net next :
  ∃ next' target, select_frontend net next = Some (next', target) ∧
    ((∃ d, (d < 3)%nat ∧ first_live net next d ∧
        FRONTENDS !! ((next + d) mod 3)%nat = Some target ∧
        next' = (((next + d) mod 3 + 1) mod 3)%nat) ∨
     (target = "" ∧ next' = next ∧ ∀ idx, (idx < 3)%nat → up net idx = false)).
Proof.
  destruct (select_loop_spec net next 0 3 next) as (next' & target & E & Hcase).
  exists next', target. split; [done|].
  destruct Hcase as [(d & Hn & Hup & Hmin & Ht & Hnext)|(Ht & Hnext & Hall)].
  - left. by exists d.
  - right. split_and!; [done..|]. intros idx Hidx.
    assert (∃ d, (d < 3)%nat ∧ ((next + (0 + d)) mod 3 = idx)%nat) as (d & Hd & <-); [|by apply Hall].
    exists ((idx + 3 - next mod 3) mod 3)%nat. split; [by apply Nat.mod_upper_bound|].
    cbn [Nat.add]. rewrite Nat.Div0.add_mod_idemp_r.
    pose proof (Nat.mod_upper_bound next 3). rewrite (Nat.div_mod_eq next 3) at 1.
    replace (3 * (next / 3) + next mod 3 + (idx + 3 - next mod 3))%nat
      with (idx + (next / 3 + 1) * 3)%nat by lia.
    rewrite Nat.Div0.mod_add. by apply Nat.mod_small.
Qed.

(** ** Successive requests *)

(** The frontends chosen for a sequence of requests; the network may differ from one to the next. *)
Fixpoint serve (nets : list network) (next_frontend : nat) : option (list string) :=
  match nets with
  | [] => Some []
  | net :: nets =>
      '(next_frontend, target) ← select_frontend net next_frontend;
      targets ← serve nets next_frontend;
      Some (target :: targets)
  end.

(** The number of frontends before [k], from [next] on. *)
Definition distance (next k : nat) : nat := ((k + 3 - next) mod 3)%nat.

Lemma select_closer net next k next' target :
  (next < 3)%nat → (k < 3)%nat → up net k = true →
  select_frontend net next = Some (next', target) →
  (next' < 3)%nat ∧ (FRONTENDS !! k = Some target ∨ (distance next' k < distance next k)%nat).
Proof.
  intros Hn Hk Hup E. destruct (select_frontend_spec net next) as (n' & t & E' & Hcase).
  rewrite E' in E. injection E as -> ->.
  destruct Hcase as [(d & Hd & [Hlive Hmin] & Ht & ->)|(_ & _ & Hall)];
    [|rewrite Hall in Hup; [done|lia]].
  split; [by apply Nat.mod_upper_bound|].
  assert (d ≤ distance next k)%nat as Hle.
  { apply Nat.nlt_ge. intros Hlt. pose proof (Hmin _ Hlt) as Hdead.
    replace ((next + distance next k) mod 3)%nat with k in Hdead; [congruence|].
    unfold distance. destruct next as [|[|[|next]]]; [..|lia]; destruct k as [|[|[|k]]]; try lia; done. }
  clear Hmin Hlive Hup E'. unfold distance in *.
  destruct next as [|[|[|next]]]; [..|lia]; destruct k as [|[|[|k]]]; try lia;
    destruct d as [|[|[|d]]]; try lia; cbn in *; try lia; auto.
Qed.

Lemma serve_total nets next : (next < 3)%nat → is_Some (serve nets next).
Proof.
  revert next. induction nets as [|net nets IH]; intros next Hn; [by eexists|].
  cbn [serve]. destruct (select_frontend_spec net next) as (n' & t & -> & Hcase). cbn [mbind option_bind].
  destruct (IH n') as [ts ->]; [|by eexists].
  destruct Hcase as [(d & _ & _ & _ & ->)|(_ & -> & _)]; [by apply Nat.mod_upper_bound|done].
Qed.

Lemma serve_reaches nets next k f :
  FRONTENDS !! k = Some f → (next < 3)%nat → (distance next k < length nets)%nat →
  Forall (λ net, up net k = true) nets → ∃ targets, serve nets next = Some targets ∧ f ∈ targets.
Proof.
  intros Hf. assert (k < 3)%nat as Hk by (by apply lookup_lt_Some in Hf).
  revert next. induction nets as [|net nets IH]; intros next Hn Hlen Hup; [cbn [length] in Hlen; lia|].
  apply Forall_cons in Hup as [Hu Hup]. cbn [serve].
  destruct (select_frontend_spec net next) as (n' & t & E & _). rewrite E. cbn [mbind option_bind].
  destruct (select_closer net next k n' t Hn Hk Hu E) as [Hn' [Ht|Hlt]].
  - simplify_eq. destruct (serve_total nets n' Hn') as [ts ->]. eexists. split; [done|]. by left.
  - destruct (IH n') as (ts & -> & Hin); [done|cbn [length] in Hlen; lia|done|].
    eexists. split; [done|]. by right.
Qed.


(** C26: a request for another path than GET /health is redirected, with its path, to the first
    frontend that answers, counted from the one after the last choice; the answer is 503 exactly
    when no frontend answers.  No request makes the balancer throw. *)
Theorem redirect_correct net request method path rest pos next :
  find crlf 0 request = Some pos → words (str_take pos request) = method :: path :: rest →
  (method, path) ≠ ("GET", "/health") →
  ∃ next' response, handle_client net (Some request) next = Some (next', response) ∧
    ((∃ d target, (d < 3)%nat ∧ first_live net next d ∧
        FRONTENDS !! ((next + d) mod 3)%nat = Some target ∧ next' = (((next + d) mod 3 + 1) mod 3)%nat ∧
        response = "HTTP/1.1 307 Temporary Redirect" +:+ crlf +:+ "Location: " +:+ target +:+ path +:+
          crlf +:+ "Content-Length: 0" +:+ crlf +:+ "Connection: close" +:+ crlf +:+ crlf) ∨
     ((∀ idx, (idx < 3)%nat → up net idx = false) ∧ next' = next ∧
        response = "HTTP/1.1 503 Service Unavailable" +:+ crlf +:+ "Content-Length: 0" +:+ crlf +:+
          "Connection: close" +:+ crlf +:+ crlf)).
Proof.
  intros Hpos Hw Hne. unfold handle_client, read_request_line. cbn [mbind option_bind].
  rewrite Hpos. cbn [mbind option_bind]. rewrite Hw.
  assert (bool_decide (method = "GET") && bool_decide (path = "/health") = false) as ->.
  { apply andb_false_iff. destruct (decide (method = "GET")) as [->|]; [right|left];
      apply bool_decide_eq_false; congruence. }
  destruct (select_frontend_spec net next) as (n' & t & -> & Hcase). cbn [mbind option_bind].
  destruct Hcase as [(d & Hd & Hl & Ht & Hn)|(-> & Hn & Hall)].
  - rewrite bool_decide_false.
    2:{ intros ->. destruct (FRONTENDS_lookup ((next + d) mod 3)) as (f & Hf & ?);
        [by apply Nat.mod_upper_bound|congruence]. }
    eexists _, _. split; [done|]. left. by exists d, t.
  - rewrite bool_decide_true by done. eexists _, _. split; [done|]. right. by split_and!.
Qed.

(** ** Interleaved requests

    Every request has a thread of its own: it reads [next_frontend], probes, and writes
    [next_frontend]; other threads run in between. *)

Inductive select_state :=
  | Probing (start i : nat)
  | Selected (target : string).
Record balancer := { lb_next : nat; lb_threads : gmap nat select_state }.
Definition balancer_init : balancer := {| lb_next := 0; lb_threads := ∅ |}.

Inductive lb_step (net : network) : balancer → balancer → Prop :=
  | lb_begin b t :
      lb_threads b !! t = None →
      lb_step net b {| lb_next := lb_next b; lb_threads := <[t := Probing (lb_next b) 0]> (lb_threads b) |}
  | lb_dead b t start i f :
      lb_threads b !! t = Some (Probing start i) → (i < length FRONTENDS)%nat →
      FRONTENDS !! ((start + i) mod length FRONTENDS)%nat = Some f → is_alive net f = Some false →
      lb_step net b {| lb_next := lb_next b; lb_threads := <[t := Probing start (i + 1)]> (lb_threads b) |}
  | lb_live b t start i f :
      lb_threads b !! t = Some (Probing start i) → (i < length FRONTENDS)%nat →
      FRONTENDS !! ((start + i) mod length FRONTENDS)%nat = Some f → is_alive net f = Some true →
      lb_step net b {| lb_next := (((start + i) mod length FRONTENDS + 1) mod length FRONTENDS)%nat;
                   lb_threads := <[t := Selected f]> (lb_threads b) |}
  | lb_none b t start :
      lb_threads b !! t = Some (Probing start (length FRONTENDS)) →
      lb_step net b {| lb_next := lb_next b; lb_threads := <[t := Selected ""]> (lb_threads b) |}.

(** A step on whatever network there is at that moment. *)
Definition lb_any_step (b b' : balancer) : Prop := ∃ net, lb_step net b b'.

(** Run without interruption, the steps of a thread are [select_frontend]. *)
Lemma select_loop_steps net b t start i n next' target :
  (i + n = 3)%nat → lb_threads b !! t = Some (Probing start i) →
  select_loop net start i n (lb_next b) = Some (next', target) →
  rtc lb_any_step b {| lb_next := next'; lb_threads := <[t := Selected target]> (lb_threads b) |}.
Proof.
  revert i b. induction n as [|n IH]; intros i b Hi Ht E.
  { injection E as <- <-. apply rtc_once. exists net. apply (lb_none net b t start). rewrite Ht. do 2 f_equal.
    change (length FRONTENDS) with 3%nat. lia. }
  cbn [select_loop] in E. destruct (FRONTENDS !! _) as [f|] eqn:Ef; [|done]. cbn [mbind option_bind] in E.
  destruct (is_alive net f) as [alive|] eqn:Ea; [|done]. cbn [mbind option_bind] in E. destruct alive.
  - injection E as <- <-.
    apply rtc_once. exists net. apply (lb_live net b t start i f); [done|change (length FRONTENDS) with 3%nat; lia|done..].
  - eapply rtc_l;
      [exists net; apply (lb_dead net b t start i f); [done|change (length FRONTENDS) with 3%nat; lia|done..]|].
    set (b' := {| lb_next := _ |}).
    assert (<[t := Selected target]> (lb_threads b) = <[t := Selected target]> (lb_threads b')) as ->
      by (cbn; by rewrite insert_insert_eq).
    apply (IH (i + 1)%nat); [lia|cbn; by rewrite lookup_insert_eq|done].
Qed.

Definition thread_ok (st : select_state) : Prop :=
  match st with
  | Probing start i => (start < length FRONTENDS)%nat ∧ (i ≤ length FRONTENDS)%nat
  | Selected target => target = "" ∨ target ∈ FRONTENDS
  end.
Definition balancer_ok (b : balancer) : Prop :=
  (lb_next b < length FRONTENDS)%nat ∧ map_Forall (λ _, thread_ok) (lb_threads b).

Lemma lb_step_ok b b' : lb_any_step b b' → balancer_ok b → balancer_ok b'.
Proof.
  intros [net Hstep] [Hn Ht].
  destruct Hstep as [b t Hnew|b t start i f Hs Hi Hf Ha|b t start i f Hs Hi Hf Ha|b t start Hs];
    (split; [first [done|by apply Nat.mod_upper_bound]|apply map_Forall_insert_2; [|done]]).
  - split; [done|cbn; lia].
  - destruct (Ht t _ Hs) as [? _]. split; [done|lia].
  - right. by apply list_elem_of_lookup_2 in Hf.
  - by left.
Qed.

(** C28: in every interleaving of requests [next_frontend] stays below the number of frontends, a
    request is sent to a frontend of the list or refused, and no thread is ever stuck: whatever the
    network answers, a thread that is still choosing can make its next probe, which brings it closer
    to the end of its loop. *)
Theorem balancer_invariant b :
  rtc lb_any_step balancer_init b →
  balancer_ok b ∧
  ∀ net t start i, lb_threads b !! t = Some (Probing start i) → ∃ b' st, lb_step net b b' ∧
    lb_threads b' !! t = Some st ∧ (st = Probing start (i + 1) ∨ ∃ target, st = Selected target).
Proof.
  intros Hr. assert (balancer_ok b) as Hok.
  { assert (∀ b0, rtc lb_any_step b0 b → balancer_ok b0 → balancer_ok b) as Hind.
    { induction 1; eauto using lb_step_ok. }
    apply (Hind _ Hr). split; [cbn; lia|apply map_Forall_empty]. }
  split; [done|]. intros net t start i Ht. destruct (proj2 Hok t _ Ht) as [_ Hi].
  destruct (decide (i = length FRONTENDS)) as [->|Hne].
  { eexists _, _. split; [by apply (lb_none net b t start)|]. cbn. rewrite lookup_insert_eq. split; [done|]. eauto. }
  destruct (FRONTENDS_lookup ((start + i) mod length FRONTENDS)) as (f & Hf & _);
    [by apply Nat.mod_upper_bound|].
  pose proof (is_alive_FRONTENDS net _ _ Hf) as Ha. destruct (up net _).
  - eexists _, _. split; [apply (lb_live net b t start i f); [done|lia|done..]|].
    cbn. rewrite lookup_insert_eq. eauto.
  - eexists _, _. split; [apply (lb_dead net b t start i f); [done|lia|done..]|].
    cbn. rewrite lookup_insert_eq. eauto.
Qed.

(** ** Examples *)

(** A network in which the frontends at the given ports answer. *)
Definition answering (ports : list Z) : network := λ _ port _,
  if bool_decide (port ∈ ports) then Some ("HTTP/1.1 200 OK" +:+ crlf) else None.


Lemma redirect_correct_witness :
  ∃ next' response,
    handle_client (answering [8082]) (Some ("GET /storage HTTP/1.1" +:+ crlf)) 0 = Some (next', response) ∧
    ((∃ d target, (d < 3)%nat ∧ first_live (answering [8082]) 0 d ∧
        FRONTENDS !! ((0 + d) mod 3)%nat = Some target ∧ next' = (((0 + d) mod 3 + 1) mod 3)%nat ∧
        response = "HTTP/1.1 307 Temporary Redirect" +:+ crlf +:+ "Location: " +:+ target +:+ "/storage" +:+
          crlf +:+ "Content-Length: 0" +:+ crlf +:+ "Connection: close" +:+ crlf +:+ crlf) ∨
     ((∀ idx, (idx < 3)%nat → up (answering [8082]) idx = false) ∧ next' = 0%nat ∧
        response = "HTTP/1.1 503 Service Unavailable" +:+ crlf +:+ "Content-Length: 0" +:+ crlf +:+
          "Connection: close" +:+ crlf +:+ crlf)).
Proof.
  apply (redirect_correct (answering [8082]) _ "GET" "/storage" ["HTTP/1.1"] 21 0);
    [reflexivity|reflexivity|discriminate].
Defined.

Lemma balancer_invariant_witness :
  balancer_ok {| lb_next := 0; lb_threads := <[7%nat := Probing 0 0]> ∅ |}.
Proof.
  apply (balancer_invariant {| lb_next := 0; lb_threads := <[7%nat := Probing 0 0]> ∅ |}).
  apply rtc_once. exists (answering []). by apply (lb_begin _ balancer_init 7).
Defined.
