(* ===== verification/Chunked.v ===== *)
(** * Chunked transfer encoding: frontend/storage/storage_service.cc

    The storage service sends downloads and reads uploads in HTTP's chunked transfer encoding.  A
    connection is the string of the bytes that are still to come. *)
From S2P Require Import Prelude CppString Utils.

(** ** Reading *)

(** [recvLine]: up to and including the next CRLF, or everything when the peer closes first. *)
Definition recvLine (sock : string) : string * string :=
  match find0 crlf sock with
  | Some i => (str_take (i + 2) sock, str_drop (i + 2) sock)
  | None => (sock, "")
  end.

(** [std::stoul(s, nullptr, 16)]: white space, a sign and the prefix "0x" are optional; [None] when
    there is no digit or the value does not fit. *)
Definition strip_0x (s : string) : string :=
  match s with
  | String z (String x (String d rest)) =>
      if bool_decide (z = "0"%char ∧ (x = "x"%char ∨ x = "X"%char) ∧ is_Some (hex_digit d))
      then String d rest else s
  | _ => s
  end.
Definition stoul16 (s : string) : option Z :=
  let magnitude s := v ← hex_digits None (strip_0x s); if bool_decide (v < 2 ^ 64) then Some v else None in
  match skip_space s with
  | String "-"%char s' => v ← magnitude s'; Some (to_u64 (- v))
  | String "+"%char s' => magnitude s'
  | s' => magnitude s'
  end.

(** [readChunkedBodyRaw]: the body and the bytes after it; [None] is an exception.  Every iteration
    consumes at least the two characters of a line, so fuel above the number of bytes is enough
    ([readChunked_fuel]). *)
Fixpoint readChunked (fuel : nat) (sock body : string) : option (string * string) :=
  match fuel with
  | O => None
  | S fuel =>
      let '(sizeLine, sock) := recvLine sock in
      if bool_decide (slen sizeLine < 2)%nat then None
      else
        chunkSize ← stoul16 (str_take (slen sizeLine - 2) sizeLine);
        if bool_decide (chunkSize = 0) then Some (body, (recvLine sock).2)
        else if bool_decide (Z.of_nat (slen sock) < chunkSize) then None
        else
          let n := Z.to_nat chunkSize in
          readChunked fuel (recvLine (str_drop n sock)).2 (body +:+ str_take n sock)
  end.
Definition readChunkedBodyRaw (sock : string) : option (string * string) :=
  readChunked (S (slen sock)) sock "".

(** ** Writing *)

(** [sprintf(lenBuf, "%zx\r\n", sz)] for a 64-bit [size_t]: at most 16 digits. *)
Definition hex_digit_char (d : Z) : ascii :=
  char_of_int (if bool_decide (d < 10) then d + 48 else d + 87).
Fixpoint to_hex (fuel : nat) (n : Z) (acc : string) : string :=
  match fuel with
  | O => acc
  | S fuel =>
      let acc := String (hex_digit_char (n mod 16)) acc in
      if bool_decide (n / 16 = 0) then acc else to_hex fuel (n / 16) acc
  end.

(** The chunks of [sendChunkedResponse]: what it sends after the headers. *)
Fixpoint sendChunkLoop (fuel chunkSize : nat) (data : string) : string :=
  match fuel with
  | O => ""
  | S fuel =>
      match data with
      | "" => ""
      | _ =>
          let sz := Nat.min chunkSize (slen data) in
          to_hex 16 (Z.of_nat sz) "" +:+ crlf +:+ str_take sz data +:+ crlf +:+
          sendChunkLoop fuel chunkSize (str_drop sz data)
      end
  end.
Definition sendChunkedResponse (statusLine contentType data extraheaders : string)
    (chunkSize : nat) : string :=
  statusLine +:+ crlf +:+
  "Content-Type: " +:+ contentType +:+ crlf +:+
  extraheaders +:+ crlf +:+
  "Transfer-Encoding: chunked" +:+ crlf +:+
  "Connection: keep-alive" +:+ crlf +:+
  crlf +:+
  sendChunkLoop (slen data) chunkSize data +:+ "0" +:+ crlf +:+ crlf.

(** ** Lemmas *)

Lemma hex_digit_plain c :
  is_Some (hex_digit c) →
  isspace c = false ∧ c ≠ "-"%char ∧ c ≠ "+"%char ∧ c ≠ CR ∧ c ≠ "x"%char ∧ c ≠ "X"%char.
Proof.
  intros Hc. split_and!; [|intros ->; vm_compute in Hc; by destruct Hc..].
  revert Hc. destruct c as [[] [] [] [] [] [] [] []]; vm_compute; try done; intros [??]; done.
Qed.

Lemma hex_digit_of d : 0 ≤ d < 16 → hex_digit (hex_digit_char d) = Some d.
Proof.
  intros Hd.
  assert (d = 0 ∨ d = 1 ∨ d = 2 ∨ d = 3 ∨ d = 4 ∨ d = 5 ∨ d = 6 ∨ d = 7 ∨ d = 8 ∨ d = 9 ∨ d = 10 ∨
    d = 11 ∨ d = 12 ∨ d = 13 ∨ d = 14 ∨ d = 15) as Hc by lia.
  repeat destruct Hc as [->|Hc]; try subst d; vm_compute; done.
Qed.

(** The digits read back: the value read so far is the most significant part. *)
Lemma hex_digits_to_hex fuel n acc :
  0 ≤ n < 16 ^ Z.of_nat fuel → (0 < fuel)%nat →
  hex_digits None (to_hex fuel n acc) = hex_digits (Some n) acc.
Proof.
  revert n acc. induction fuel as [|fuel IH]; intros n acc Hn Hf; [lia|]. cbn [to_hex].
  pose proof (Z.mod_pos_bound n 16 ltac:(lia)) as Hm. pose proof (Z.div_mod n 16 ltac:(lia)) as Hdm.
  case_bool_decide as Hz.
  - cbn [hex_digits]. rewrite (hex_digit_of _ Hm). simpl. do 2 f_equal. lia.
  - rewrite Nat2Z.inj_succ, Z.pow_succ_r in Hn by lia.
    assert (0 ≤ n / 16 < 16 ^ Z.of_nat fuel).
    { split; [apply Z.div_pos; lia|]. apply Z.div_lt_upper_bound; lia. }
    rewrite IH; [|done|]; cycle 1.
    { destruct fuel; [|lia]. change (16 ^ Z.of_nat 0) with 1 in *. lia. }
    cbn [hex_digits]. rewrite (hex_digit_of _ Hm). simpl. do 2 f_equal. lia.
Qed.

(** Every character of the number is a digit. *)
Fixpoint all_hex (s : string) : bool :=
  match s with "" => true | String c s => bool_decide (is_Some (hex_digit c)) && all_hex s end.

Lemma all_hex_to_hex fuel n acc : all_hex acc = true → all_hex (to_hex fuel n acc) = true.
Proof.
  revert n acc. induction fuel as [|fuel IH]; intros n acc Ha; [done|]. cbn [to_hex].
  assert (all_hex (String (hex_digit_char (n mod 16)) acc) = true) as Hc.
  { cbn [all_hex]. rewrite hex_digit_of by (apply Z.mod_pos_bound; lia). done. }
  case_bool_decide; [done|by apply IH].
Qed.

Lemma to_hex_ne fuel n acc : (0 < fuel)%nat ∨ acc ≠ "" → to_hex fuel n acc ≠ "".
Proof.
  revert n acc. induction fuel as [|fuel IH]; intros n acc Hf; simpl; [by destruct Hf; [lia|]|].
  case_bool_decide; [done|]. apply IH. by right.
Qed.

Lemma all_hex_no_CR s : all_hex s = true → no_char CR s.
Proof.
  induction s as [|c s IH]; [done|]. cbn [all_hex]. intros [Hc%bool_decide_eq_true Hs]%andb_prop.
  apply no_char_cons. split; [by apply hex_digit_plain|auto].
Qed.

Lemma stoul16_hex s :
  all_hex s = true → s ≠ "" →
  stoul16 s = (v ← hex_digits None s; if bool_decide (v < 2 ^ 64) then Some v else None).
Proof.
  intros Hs Hne. destruct s as [|c s]; [done|]. cbn [all_hex] in Hs.
  apply andb_prop in Hs as [Hc%bool_decide_eq_true Hs].
  destruct (hex_digit_plain c Hc) as (Hsp & Hm & Hp & _).
  assert (strip_0x (String c s) = String c s) as Hx.
  { destruct s as [|x [|d s]]; [done..|]. cbn [all_hex] in Hs.
    apply andb_prop in Hs as [Hxd%bool_decide_eq_true _].
    unfold strip_0x. rewrite bool_decide_false; [done|].
    intros (_ & [-> | ->] & _); vm_compute in Hxd; by destruct Hxd. }
  unfold stoul16. cbn [skip_space]. rewrite Hsp. clear Hsp.
  destruct c as [[] [] [] [] [] [] [] []]; first [by rewrite Hx|done].
Qed.

Lemma find0_crlf s t : no_char CR s → find0 crlf (s +:+ crlf +:+ t) = Some (slen s).
Proof.
  induction s as [|c s IH]; intros Hs; [by destruct t|].
  apply no_char_cons in Hs as [Hc Hs]. rewrite sapp_cons. cbn [find0 String.prefix crlf].
  destruct (ascii_dec CR c) as [<-|]; [done|]. fold crlf. by rewrite IH.
Qed.

Lemma recvLine_line s t : no_char CR s → recvLine (s +:+ crlf +:+ t) = (s +:+ crlf, t).
Proof.
  intros Hs. unfold recvLine. rewrite find0_crlf by done. rewrite <-(sapp_assoc s crlf t).
  replace (slen s + 2)%nat with (slen (s +:+ crlf)) by (by rewrite slen_app).
  by rewrite str_take_app, str_drop_app.
Qed.

Lemma recvLine_blank t : recvLine (crlf +:+ t) = (crlf, t).
Proof. exact (recvLine_line "" t eq_refl). Qed.

(** One size line and what it announces. *)
Lemma readChunked_size fuel n rest body :
  0 ≤ n < 2 ^ 64 →
  readChunked (S fuel) (to_hex 16 n "" +:+ crlf +:+ rest) body =
    if bool_decide (n = 0) then Some (body, (recvLine rest).2)
    else if bool_decide (Z.of_nat (slen rest) < n) then None
    else readChunked fuel (recvLine (str_drop (Z.to_nat n) rest)).2
           (body +:+ str_take (Z.to_nat n) rest).
Proof.
  intros Hn. pose proof (all_hex_to_hex 16 n "" eq_refl) as Hh. cbn [readChunked].
  rewrite recvLine_line by (by apply all_hex_no_CR).
  rewrite slen_app. change (slen crlf) with 2%nat.
  rewrite bool_decide_false by lia.
  replace (slen (to_hex 16 n "") + 2 - 2)%nat with (slen (to_hex 16 n "")) by lia.
  rewrite str_take_app, stoul16_hex by (done || (apply to_hex_ne; left; lia)).
  rewrite hex_digits_to_hex by lia. cbn [hex_digits mbind option_bind].
  rewrite (bool_decide_true (n < 2 ^ 64)) by lia. done.
Qed.

Lemma recvLine_split sock : (recvLine sock).1 +:+ (recvLine sock).2 = sock.
Proof. unfold recvLine. destruct (find0 crlf sock); simpl; [apply str_take_drop|apply sapp_nil_r]. Qed.

Lemma recvLine_rest sock : (slen (recvLine sock).2 ≤ slen sock)%nat.
Proof. rewrite <-(recvLine_split sock) at 2. rewrite slen_app. lia. Qed.

(** Fuel above the number of bytes changes nothing. *)
Lemma readChunked_enough f1 f2 sock body :
  (slen sock < f1)%nat → (slen sock < f2)%nat → readChunked f1 sock body = readChunked f2 sock body.
Proof.
  revert f2 sock body. induction f1 as [|f1 IH]; intros [|f2] sock body H1 H2; try lia.
  cbn [readChunked]. pose proof (recvLine_split sock) as Hsp.
  destruct (recvLine sock) as [line rest]. simpl in Hsp. subst sock. rewrite slen_app in *.
  case_bool_decide as Hl; [done|].
  destruct (stoul16 _) as [n|]; [|done]. cbn [mbind option_bind].
  case_bool_decide; [done|]. case_bool_decide; [done|].
  pose proof (recvLine_rest (str_drop (Z.to_nat n) rest)). rewrite slen_drop in *.
  apply IH; lia.
Qed.

Lemma sendChunkLoop_read f size data rest body fuel :
  (0 < size)%nat → Z.of_nat size < 2 ^ 64 → (slen data ≤ f)%nat → (slen data < fuel)%nat →
  readChunked fuel (sendChunkLoop f size data +:+ "0" +:+ crlf +:+ crlf +:+ rest) body =
    Some (body +:+ data, rest).
Proof.
  intros Hs Hs64. revert data body fuel.
  assert (∀ fuel body, readChunked (S fuel) ("0" +:+ crlf +:+ crlf +:+ rest) body =
    Some (body, rest)) as Hend.
  { intros fuel body. change "0" with (to_hex 16 0 ""). rewrite readChunked_size by lia.
    rewrite bool_decide_true by done. by rewrite recvLine_blank. }
  induction f as [|f IH]; intros data body fuel Hf Hfuel; (destruct fuel as [|fuel]; [lia|]).
  { destruct data; [|simpl in Hf; lia]. rewrite sapp_nil_r. apply Hend. }
  destruct data as [|c data]; [rewrite sapp_nil_r; apply Hend|].
  set (d := String c data) in *. change (sendChunkLoop (S f) size d) with
    (to_hex 16 (Z.of_nat (Nat.min size (slen d))) "" +:+ crlf +:+ str_take (Nat.min size (slen d)) d
      +:+ crlf +:+ sendChunkLoop f size (str_drop (Nat.min size (slen d)) d)).
  set (sz := Nat.min size (slen d)). assert (0 < sz ≤ slen d)%nat as Hsz by (subst sz d; simpl; lia).
  rewrite !sapp_assoc, readChunked_size by lia.
  rewrite bool_decide_false by lia. rewrite Nat2Z.id.
  set (tail := crlf +:+ sendChunkLoop f size (str_drop sz d) +:+ "0" +:+ crlf +:+ crlf +:+ rest).
  assert (slen (str_take sz d) = sz) as Ht by (rewrite slen_take; lia).
  rewrite bool_decide_false by (rewrite slen_app, Ht; lia).
  pose proof (str_take_app (str_take sz d) tail) as E1. rewrite Ht in E1. rewrite E1.
  pose proof (str_drop_app (str_take sz d) tail) as E2. rewrite Ht in E2. rewrite E2. subst tail.
  rewrite recvLine_blank. cbn [snd].
  rewrite IH by (rewrite slen_drop; lia). by rewrite sapp_assoc, str_take_drop.
Qed.

Lemma slen_sendChunkLoop f size data :
  (0 < size)%nat → (slen data ≤ f)%nat → (slen data ≤ slen (sendChunkLoop f size data))%nat.
Proof.
  intros Hs. revert data. induction f as [|f IH]; intros data Hf; [lia|].
  destruct data as [|c data]; [simpl; lia|]. cbn [sendChunkLoop].
  set (d := String c data) in *. set (sz := Nat.min size (slen d)).
  assert (0 < sz ≤ slen d)%nat as Hsz by (subst sz d; simpl; lia).
  rewrite !slen_app, slen_take. specialize (IH (str_drop sz d)). rewrite slen_drop in IH. lia.
Qed.

(** ** Properties *)

(** C38: the chunks [sendChunkedResponse] writes, for every chunk size, are read back by
    [readChunkedBodyRaw] as the data that was sent, and nothing after them is consumed. *)
Theorem chunked_roundtrip size data rest :
  (0 < size)%nat → Z.of_nat size < 2 ^ 64 →
  readChunkedBodyRaw (sendChunkLoop (slen data) size data +:+ "0" +:+ crlf +:+ crlf +:+ rest) =
    Some (data, rest).
Proof.
  intros Hs Hs64. unfold readChunkedBodyRaw. rewrite sendChunkLoop_read; [done|done|done|done|].
  rewrite slen_app. pose proof (slen_sendChunkLoop (slen data) size data Hs ltac:(lia)). lia.
Qed.

Lemma chunked_roundtrip_witness :
  readChunkedBodyRaw (sendChunkLoop 11 4 "hello world" +:+ "0" +:+ crlf +:+ crlf +:+ "GET /") =
    Some ("hello world", "GET /").
Proof. apply (chunked_roundtrip 4 "hello world" "GET /"); lia. Defined.

(** Reading a chunked body terminates whatever the peer sends: fuel above the number of bytes
    never runs out. *)
Theorem readChunked_fuel fuel sock body :
  (slen sock < fuel)%nat → readChunked fuel sock body = readChunked (S (slen sock)) sock body.
Proof. intros Hf. apply readChunked_enough; lia. Qed.

Lemma readChunked_fuel_witness :
  readChunked 100 ("zz" +:+ crlf) "" = readChunked 5 ("zz" +:+ crlf) "".
Proof. apply (readChunked_fuel 100 ("zz" +:+ crlf) ""). simpl. lia. Defined.
