(* ===== verification/Storage.v ===== *)
(** * The storage service: frontend/storage/storage_service.cc

    A user's files live in the single row "<username>-storage".  A file at absolute path [p] has the
    marker "KV-File" in column [p], the comma-separated names of its chunks in column [p-metadata]
    and each chunk in the column "<chunk name>-content"; a folder has the marker "KV-Folder" and the
    comma-separated absolute paths of its children in column [p-metadata] (the root: "metadata"). *)
From S2P Require Import Prelude CppString Table Codec Utils CppStream Rpc Coordinator Worker WorkerFacts.
From S2P Require Import Cluster ClusterFacts Replication Kv StorageText Chunked.

(** A step that may throw. *)
Definition lift {St A} (o : option A) : M St A :=
  match o with Some x => mret x | None => throw end.

(** [local]: what follows the last '/', and what precedes it. *)
Definition localName (p : string) : string :=
  match find_last_of "/"%char p with Some pos => substr_from (pos + 1) p | None => p end.
Definition parentPath (p : string) : string :=
  match find_last_of "/"%char p with Some pos => str_take pos p | None => "" end.
(** [folder.empty() ? name : folder + "/" + name] *)
Definition inFolder (folder name : string) : string :=
  if bool_decide (folder = "") then name else folder +:+ "/" +:+ name.
(** [folder.empty() ? "metadata" : folder + "-metadata"] *)
Definition metaColumn (folder : string) : string :=
  if bool_decide (folder = "") then "metadata" else folder +:+ "-metadata".
Definition hasChunks (fileMeta : string) : bool :=
  negb (bool_decide (fileMeta = "")) && negb (is_ERR fileMeta).

Section service.
Context `{KvOps St}.

(** In all operations below [a] is the address of the worker that serves the row [baseKey]. *)

(** ** Deleting *)

(** [deleteRec]; a folder is marked as deleted before its children are visited.  [fuel] is the depth
    of the recursion; running out of it is a throw. *)
Fixpoint deleteRec (fuel : nat) (a baseKey absPath : string) : M St unit :=
  match fuel with
  | O => throw
  | S fuel =>
      marker ← kv_Get a baseKey absPath;
      if bool_decide (marker ≠ "KV-Folder") then
        let fileMetaCol := absPath +:+ "-metadata" in
        fileMeta ← kv_Get a baseKey fileMetaCol;
        _ ← (if hasChunks fileMeta then
               _ ← for_each (λ chunk, _ ← kv_Delete a baseKey (chunk +:+ "-content"); mret tt)
                     (splitStringStorage fileMeta ","%char);
               _ ← kv_Delete a baseKey fileMetaCol; mret tt
             else mret tt);
        _ ← kv_Delete a baseKey (absPath +:+ "-content");
        _ ← kv_Delete a baseKey absPath; mret tt
      else
        let metaCol := absPath +:+ "-metadata" in
        _ ← kv_Put a baseKey absPath "DEL KV-Folder";
        children ← kv_Get a baseKey metaCol;
        _ ← kv_Delete a baseKey metaCol;
        if hasChunks children then
          for_each (λ childAbs, deleteRec fuel a baseKey childAbs)
            (splitStringStorage children ","%char)
        else mret tt
  end.

(** ** Renaming and moving *)

(** The loop over the chunks of a file: the names of the new chunks. *)
Fixpoint moveChunks (a baseKey old new : string) (chunks : list string) : M St (list string) :=
  match chunks with
  | [] => mret []
  | chunk :: chunks =>
      suffix ← lift (substr_from_exc (slen old) chunk);
      let newChunk := new +:+ suffix in
      content ← kv_Get a baseKey (chunk +:+ "-content");
      _ ← kv_Put a baseKey (newChunk +:+ "-content") content;
      _ ← kv_Delete a baseKey (chunk +:+ "-content");
      newChunks ← moveChunks a baseKey old new chunks;
      mret (newChunk :: newChunks)
  end.
(** The contents of a file: its chunks, or its single column, and its marker. *)
Definition renameFileColumns (a baseKey old new : string) : M St unit :=
  let fileMetaCol := old +:+ "-metadata" in
  fileMeta ← kv_Get a baseKey fileMetaCol;
  _ ← (if hasChunks fileMeta then
         newChunks ← moveChunks a baseKey old new (splitStringStorage fileMeta ","%char);
         _ ← kv_Put a baseKey (new +:+ "-metadata") (join "," newChunks);
         _ ← kv_Delete a baseKey fileMetaCol; mret tt
       else
         content ← kv_Get a baseKey (old +:+ "-content");
         _ ← kv_Put a baseKey (new +:+ "-content") content;
         _ ← kv_Delete a baseKey (old +:+ "-content"); mret tt);
  _ ← kv_Put a baseKey new "KV-File";
  _ ← kv_Delete a baseKey old; mret tt.

Fixpoint renameFolderRec (fuel : nat) (a baseKey oldAbs newAbs : string) : M St unit :=
  match fuel with
  | O => throw
  | S fuel =>
      let oldMetaCol := oldAbs +:+ "-metadata" in
      folderMeta ← kv_Get a baseKey oldMetaCol;
      _ ← kv_Put a baseKey newAbs "KV-Folder";
      _ ← kv_Put a baseKey (newAbs +:+ "-metadata") folderMeta;
      _ ← kv_Put a baseKey oldAbs "DEL KV-Folder";
      _ ← kv_Delete a baseKey oldMetaCol;
      for_each (λ childAbs,
        let newChildAbs := newAbs +:+ "/" +:+ localName childAbs in
        val ← kv_Get a baseKey childAbs;
        if bool_decide (val = "KV-Folder") then renameFolderRec fuel a baseKey childAbs newChildAbs
        else renameFileColumns a baseKey childAbs newChildAbs)
        (splitStringStorage folderMeta ","%char)
  end.

(** [newAbs] for an empty local name. *)
Definition movedChild (newAbs childOld : string) : string :=
  let local := localName childOld in
  if bool_decide (local = "") then newAbs else newAbs +:+ "/" +:+ local.

Fixpoint renameFolderMoveRec (fuel : nat) (a baseKey oldAbs newAbs : string) : M St unit :=
  match fuel with
  | O => throw
  | S fuel =>
      let oldMetaCol := oldAbs +:+ "-metadata" in
      folderMeta ← kv_Get a baseKey oldMetaCol;
      let folderMeta := if is_ERR folderMeta then "" else folderMeta in
      let oldChildren :=
        filter (λ s, s ≠ "" ∧ s ≠ oldAbs) (splitStringStorage folderMeta ","%char) in
      let newMeta := join "," (movedChild newAbs <$> oldChildren) in
      _ ← kv_Put a baseKey newAbs "KV-Folder";
      _ ← kv_Put a baseKey (newAbs +:+ "-metadata") newMeta;
      _ ← kv_Put a baseKey oldAbs "DEL KV-Folder";
      _ ← kv_Delete a baseKey oldMetaCol;
      for_each (λ childOld,
        let childNew := movedChild newAbs childOld in
        marker ← kv_Get a baseKey childOld;
        if bool_decide (marker = "KV-Folder") then
          renameFolderMoveRec fuel a baseKey childOld childNew
        else if bool_decide (marker = "KV-File") then renameFileColumns a baseKey childOld childNew
        else mret tt) oldChildren
  end.

(** The loop that looks for a free name: [name], then [base(1)ext], [base(2)ext], ... *)
Fixpoint freeName (fuel : nat) (a baseKey folder leafBase leafExt newAbsFilePath : string)
    (suffix : Z) : M St string :=
  match fuel with
  | O => throw
  | S fuel =>
      existing ← kv_Get a baseKey newAbsFilePath;
      if bool_decide (existing = "KV-File" ∨ existing = "KV-Folder") then
        let newLeaf := leafBase +:+ "(" +:+ to_string suffix +:+ ")" +:+ leafExt in
        freeName fuel a baseKey folder leafBase leafExt (inFolder folder newLeaf) (suffix + 1)
      else mret newAbsFilePath
  end.

Definition moveFile (fuel : nat) (a baseKey oldAbsFilePath newFolderAbsPath : string) : M St unit :=
  let fileName := localName oldAbsFilePath in
  let srcFolderPath := parentPath oldAbsFilePath in
  let dotPos := find_last_of "."%char fileName in
  let leafBase := substr_to dotPos fileName in
  let leafExt := match dotPos with Some p => substr_from p fileName | None => "" end in
  newAbsFilePath ← freeName fuel a baseKey newFolderAbsPath leafBase leafExt
                     (inFolder newFolderAbsPath fileName) 1;
  _ ← renameFileColumns a baseKey oldAbsFilePath newAbsFilePath;
  let destMetaCol := metaColumn newFolderAbsPath in
  destMeta ← kv_Get a baseKey destMetaCol;
  let destItems := splitStringStorage destMeta ","%char ++ [newAbsFilePath] in
  _ ← kv_Put a baseKey destMetaCol (join "," destItems);
  let srcMetaCol := metaColumn srcFolderPath in
  srcMeta ← kv_Get a baseKey srcMetaCol;
  let kept := filter (λ item, item ≠ oldAbsFilePath) (splitStringStorage srcMeta ","%char) in
  if bool_decide (kept = []) then _ ← kv_Delete a baseKey srcMetaCol; mret tt
  else _ ← kv_Put a baseKey srcMetaCol (join "," kept); mret tt.

Definition moveFolder (fuel : nat) (a baseKey oldAbs newParentFolder : string) : M St unit :=
  let newAbs := inFolder newParentFolder (localName oldAbs) in
  _ ← renameFolderMoveRec fuel a baseKey oldAbs newAbs;
  let destMetaCol := metaColumn newParentFolder in
  destMeta ← kv_Get a baseKey destMetaCol;
  let destMeta := if is_ERR destMeta || bool_decide (destMeta = "") then newAbs
                  else destMeta +:+ "," +:+ newAbs in
  _ ← kv_Put a baseKey destMetaCol destMeta;
  let srcMetaCol := metaColumn (parentPath oldAbs) in
  srcMeta ← kv_Get a baseKey srcMetaCol;
  let items := filter (λ item, item ≠ oldAbs) (splitStringStorage srcMeta ","%char) in
  if bool_decide (items = []) then _ ← kv_Delete a baseKey srcMetaCol; mret tt
  else _ ← kv_Put a baseKey srcMetaCol (join "," items); mret tt.

(** ** Storing and loading the chunks of a file *)

(** [int chunkSize = 1000000] *)
Definition UPLOAD_CHUNK : Z := 1000000.

(** The loop [while (offset < fileSize)] of [webStorageUpload]; the sizes are [int]. *)
Fixpoint storeChunks (fuel : nat) (a baseKey absolutePath fileData : string) (fileSize i offset : Z) :
    M St unit :=
  if bool_decide (offset < fileSize) then
    match fuel with
    | O => throw
    | S fuel =>
        let len := Z.min UPLOAD_CHUNK (fileSize - offset) in
        let fileChunkName := absolutePath +:+ "-" +:+ to_string i in
        let fileChunk := substr (Z.to_nat offset) (Z.to_nat len) fileData in
        fileMetadata ← kv_Get a baseKey (absolutePath +:+ "-metadata");
        let fileMetadata :=
          if contains "not found" fileMetadata then fileChunkName
          else fileMetadata +:+ "," +:+ fileChunkName in
        _ ← kv_Put a baseKey (absolutePath +:+ "-metadata") fileMetadata;
        _ ← kv_Put a baseKey (fileChunkName +:+ "-content") fileChunk;
        storeChunks fuel a baseKey absolutePath fileData fileSize (i + 1) (offset + len)
    end
  else mret tt.

(** The loop of [webStorageDownload]. *)
Fixpoint loadChunks (a baseKey : string) (files : list string) (fileContent : string) : M St string :=
  match files with
  | [] => mret fileContent
  | fileChunk :: files =>
      content ← kv_Get a baseKey (fileChunk +:+ "-content");
      loadChunks a baseKey files (fileContent +:+ content)
  end.

Definition loadFile (a baseKey absolutePath : string) : M St string :=
  fileMetadata ← kv_Get a baseKey (absolutePath +:+ "-metadata");
  loadChunks a baseKey (splitStringStorage fileMetadata ","%char) "".

(** ** Requests *)

Definition servers_down : string :=
  httpResponseStorage "503 Service Unavailable"
    "<html><body>Servers down, sorry for the inconvenience!</body></html>".
Definition badRequest (text : string) : string :=
  httpResponseStorage "400 Bad Request" ("<html><body>" +:+ text +:+ "</body></html>").

(** The lookup every handler starts with. *)
Definition withWorker (row : string) (handler : string → M St string) : M St string :=
  worker ← kv_Lookup row;
  if is_ERR worker then mret servers_down else handler worker.

Definition MAX_FILE_SIZE : Z := 10 * 1024 * 1024.

(** [stoi] of the Content-Length header: 0 when it throws. *)
Definition contentLengthOf (request : string) : Z :=
  match find "Content-Length:" 0 request with
  | None => 0
  | Some clPos =>
      let value := skip_to_digit (str_drop clPos request) in
      match (digits None (substr_to (find0 crlf value) value)).1 with
      | Some n => if bool_decide (n < 2 ^ 31) then n else 0
      | None => 0
      end
  end.

(** The loop of [readRequestBodyStorage]; [reads] are the results of the calls of [read], which end
    with an error or the end of the stream. *)
Fixpoint readBody (reads : list string) (contentLength : Z) (body : string) : string :=
  if bool_decide (Z.of_nat (slen body) < contentLength ∧ Z.of_nat (slen body) < MAX_FILE_SIZE) then
    match reads with
    | [] => body
    | buf :: reads => readBody reads contentLength (body +:+ buf)
    end
  else body.
Definition readRequestBodyStorage (reads : list string) (request : string) (headerEnd : option nat) :
    option string :=
  let n := contentLengthOf request in
  let contentLength := if bool_decide (n = 0 ∨ MAX_FILE_SIZE < n) then MAX_FILE_SIZE else n in
  body ← substr_from_exc (npos_add headerEnd 4) request;
  Some (readBody reads contentLength body).

(** [readMultipartBody]: the bytes after the headers, then what is received until the final marker
    has come. *)
Fixpoint recvUntil (finalMarker : string) (reads : list string) (buf : string) : string :=
  match reads with
  | [] => buf
  | n :: reads =>
      let buf := buf +:+ n in
      if contains finalMarker buf then buf else recvUntil finalMarker reads buf
  end.
Definition readMultipartBody (reads : list string) (request : string) (headerEnd : nat) :
    option string :=
  let boundary := extractBoundary request in
  if bool_decide (boundary = "") then None
  else Some (recvUntil (crlf +:+ boundary +:+ "--") reads (substr_from (headerEnd + 4) request)).

(** ** The handlers *)

(** The file's bytes within the body of an upload: [None] when the constructor of [fileData] throws. *)
Definition uploadData (rawStr boundary : string) (hasFolder : bool) (hdrEnd : nat) : option string :=
  let dataStart :=
    if hasFolder then
      (hdrEnd + 4 + npos_add (find crlf2 0 (substr_from (hdrEnd + 4) rawStr)) 4)%nat
    else (hdrEnd + 4)%nat in
  let boundaryPos :=
    match rfind (crlf +:+ boundary) rawStr with
    | Some p => if bool_decide (p < dataStart)%nat then slen rawStr else p
    | None => slen rawStr
    end in
  if bool_decide (slen rawStr < dataStart)%nat then None
  else Some (substr dataStart (boundaryPos - dataStart) rawStr).

(** The first free name among [p], [base(1).ext], [base(2).ext], ...; a path without '.' makes
    [substr] throw.  The result also has the suffix of the name that is shown. *)
Fixpoint uploadName (fuel : nat) (a baseKey absolutePath : string) (i : Z) : M St (string * string) :=
  match fuel with
  | O => throw
  | S fuel =>
      let dot := find_char "."%char 0 absolutePath in
      ext ← lift (d ← dot; substr_from_exc d absolutePath);
      let mark := "(" +:+ to_string i +:+ ")" in
      let newAbsolutePath := substr_to dot absolutePath +:+ mark +:+ ext in
      resp ← kv_Get a baseKey newAbsolutePath;
      if bool_decide (resp ≠ "KV-File") then mret (newAbsolutePath, mark)
      else uploadName fuel a baseKey absolutePath (i + 1)
  end.

(** The part of [webStorageUpload] that changes the store. *)
Definition storeFile (fuel : nat) (a baseKey folderPath filename fileData : string) : M St string :=
  let absolutePath := inFolder folderPath filename in
  resp ← kv_Get a baseKey absolutePath;
  '(absolutePath, mark) ←
    (if bool_decide (resp = "KV-File") then uploadName fuel a baseKey absolutePath 1
     else mret (absolutePath, ""));
  let filename := filename +:+ mark in
  _ ← kv_Put a baseKey absolutePath "KV-File";
  _ ← storeChunks (S (slen fileData)) a baseKey absolutePath fileData
        (to_i32 (Z.of_nat (slen fileData))) 1 0;
  let metaCol := metaColumn folderPath in
  oldParentMeta ← kv_Get a baseKey metaCol;
  let parentMeta :=
    if bool_decide (oldParentMeta = "") then absolutePath
    else if bool_decide (filename ∈ splitStringStorage oldParentMeta ","%char) then oldParentMeta
    else oldParentMeta +:+ "," +:+ absolutePath in
  _ ← kv_CPut a baseKey metaCol oldParentMeta parentMeta;
  mret (httpResponseStorage "200 OK"
    ("<html><body>Upload Result: UPLOADED" +:+
     "<br/>File stored as <strong>" +:+ filename +:+ "</strong> in folder <strong>" +:+
     (if bool_decide (folderPath = "") then "root" else folderPath) +:+ "</strong>." +:+
     "<br/><a href='/list?folder=" +:+ folderPath +:+ "'>Back to folder</a>" +:+
     "</body></html>")).

Definition webStorageUpload (fuel : nat) (username request : string) (reads : list string) :
    M St string :=
  withWorker (username +:+ "-storage") (λ a,
    let baseKey := username +:+ "-storage" in
    params ← lift (requestParams request);
    let folderPath := default "" (params ≫= λ p, p !! "folder") in
    let boundary := extractBoundary request in
    if bool_decide (boundary = "") then mret (badRequest "No multipart boundary.")
    else
      let fromBody := parseMultipartFieldStorage request "folder" in
      let hasFolder := bool_decide (folderPath = "") && negb (bool_decide (fromBody = "")) in
      let folderPath := if bool_decide (folderPath = "") then fromBody else folderPath in
      match find crlf2 0 request with
      | None => mret (badRequest "Missing header terminator.")
      | Some headerEnd =>
          headerPart ← lift (
            if hasFolder then substr_from_exc (npos_add (find boundary 0 request) (slen boundary)) request
            else Some (substr_from (headerEnd + 4) request));
          let filename := parseMultipartFilenameStorageHeader headerPart in
          let filename :=
            match find_char "/"%char 0 filename with
            | Some slashPos => substr_from (slashPos + 1) filename
            | None => filename
            end in
          if bool_decide (filename = "") || negb (isValidName filename) then
            mret (badRequest "Missing file name or incorrect format of filename.")
          else
            rawStr ← lift (
              if contains "Transfer-Encoding: chunked" request
              then fst <$> readChunkedBodyRaw (foldr String.append "" reads)
              else readMultipartBody reads request headerEnd);
            match find crlf2 0 rawStr with
            | None => mret (badRequest "Malformed multipart body.")
            | Some hdrEnd =>
                fileData ← lift (uploadData rawStr boundary hasFolder hdrEnd);
                storeFile fuel a baseKey folderPath filename fileData
            end
      end).

(** [webStorageDownload]: the bytes it sends on the socket, or the response it returns. *)
Definition webStorageDownload (username request : string) : M St string :=
  withWorker (username +:+ "-storage") (λ a,
    let baseKey := username +:+ "-storage" in
    params ← lift (requestParams request);
    let filename := default "myfile" (params ≫= λ p, p !! "filename") in
    let folderPath := default "" (params ≫= λ p, p !! "folder") in
    fileContent ← loadFile a baseKey (inFolder folderPath filename);
    if bool_decide (fileContent = "") then
      mret (httpResponseStorage "404 Not Found"
        "<html><body><h1>404 Not Found</h1><p>File not found.</p></body></html>")
    else
      mret (sendChunkedResponse "HTTP/1.1 200 OK" (get_content_type_storage filename) fileContent
        ("Content-Disposition: attachment; filename=" +:+ dq +:+ filename +:+ dq) (Z.to_nat 65536))).

(** The part of [webStorageCreateFolder] after its parameters are known. *)
Definition createFolder (a baseKey parentFolder newFolder : string) : M St string :=
  let parentMetaCol := metaColumn parentFolder in
  let newFolderAbs := inFolder parentFolder newFolder in
  newFolderCol ← kv_Get a baseKey newFolderAbs;
  if negb (bool_decide (newFolderCol = "")) && negb (is_ERR newFolderCol) &&
     negb (bool_decide (newFolderCol = "DEL KV-Folder")) then
    mret (badRequest "Folder already exists.")
  else
    parentMeta ← kv_Get a baseKey parentMetaCol;
    _ ← (if bool_decide (newFolder ∈ splitStringStorage parentMeta ","%char) then mret ""
         else
           let parentMeta := if bool_decide (parentMeta = "") then newFolderAbs
                             else parentMeta +:+ "," +:+ newFolderAbs in
           kv_Put a baseKey parentMetaCol parentMeta);
    _ ← kv_Put a baseKey newFolderAbs "KV-Folder";
    _ ← kv_Put a baseKey (newFolderAbs +:+ "-metadata") "";
    mret (httpResponseStorage "200 OK"
      ("<html><body>" +:+ "<h1>Folder Created</h1>" +:+
       "<p>Folder '" +:+ newFolder +:+ "' has been created in '" +:+
       (if bool_decide (parentFolder = "") then "root" else parentFolder) +:+ "'.</p>" +:+
       "<p><a href='/list?folder=" +:+ newFolderAbs +:+ "'>View Folder</a></p>" +:+
       "<p><a href='/storage'>Back to Storage</a></p>" +:+ "</body></html>")).

Definition webStorageCreateFolder (username request : string) (reads : list string) : M St string :=
  withWorker (username +:+ "-storage") (λ a,
    params ← lift (requestParams request);
    let parentFolder := default "" (params ≫= λ p, p !! "folder") in
    match find crlf2 0 request with
    | None => mret (badRequest "Missing header terminator.")
    | Some headerEnd =>
        body ← lift (readRequestBodyStorage reads request (Some headerEnd));
        formFields ← lift (parseQueryParamsStorage body);
        let fromForm := default "" (formFields !! "parentFolder") in
        let parentFolder := if bool_decide (fromForm = "") then parentFolder else fromForm in
        let newFolder := default "" (formFields !! "newfolder") in
        if bool_decide (newFolder = "") || negb (isValidName newFolder) then
          mret (badRequest "Missing new folder name or incorrect folder name.")
        else createFolder a (username +:+ "-storage") parentFolder newFolder
    end).

(** The part of [webStorageDelete] after its parameter is known. *)
Definition deletePath (fuel : nat) (a baseKey absPath : string) : M St string :=
  let parent := parentPath absPath in
  let local := localName absPath in
  let parentMetaCol := metaColumn parent in
  pmeta ← kv_Get a baseKey parentMetaCol;
  let kept := filter (λ it, contains local it = false) (splitStringStorage pmeta ","%char) in
  _ ← kv_Put a baseKey parentMetaCol (join "," kept);
  _ ← deleteRec fuel a baseKey absPath;
  marker ← kv_Get a baseKey absPath;
  mret (httpResponseStorage "200 OK"
    ("<html><body>" +:+
     (if bool_decide (marker = "KV-Folder") then "<p>Folder <strong>" else "<p>File <strong>") +:+
     local +:+ "</strong> deleted.</p>" +:+
     "<p><a href='/list?folder=" +:+ parent +:+ "'>Back to " +:+
     (if bool_decide (parent = "") then "root" else parent) +:+ "</a></p>" +:+ "</body></html>")).

Definition webStorageDelete (fuel : nat) (username request : string) : M St string :=
  withWorker (username +:+ "-storage") (λ a,
    params ← lift (requestParams request);
    match params ≫= λ p, p !! "path" with
    | None => mret (badRequest "Missing path parameter.")
    | Some absPath => deletePath fuel a (username +:+ "-storage") absPath
    end).

(** The part of a POST to [webStorageRenameFile] after its parameters are known. *)
Definition renameFile (a baseKey currentFolder oldName newName : string) : M St string :=
  if bool_decide (newName = "") || negb (isValidName newName) then
    mret (badRequest "Invalid new filename.")
  else
    let newName := ensureSameExtension oldName newName in
    let oldAbs := inFolder currentFolder oldName in
    let newAbs := inFolder currentFolder newName in
    existing ← kv_Get a baseKey newAbs;
    if bool_decide (existing = "KV-File") then mret (badRequest "File name already exists.")
    else
      _ ← renameFileColumns a baseKey oldAbs newAbs;
      let metaCol := metaColumn currentFolder in
      meta ← kv_Get a baseKey metaCol;
      let entries := (λ e, if bool_decide (e = oldAbs) then newAbs else e) <$>
                       splitStringStorage meta ","%char in
      _ ← kv_Put a baseKey metaCol (join "," entries);
      mret (httpResponseStorage "200 OK"
        ("<html><body>" +:+
         "<p>Renamed <strong>" +:+ oldName +:+ "</strong> to <strong>" +:+ newName +:+
         "</strong>.</p>" +:+
         "<p><a href='/list?folder=" +:+ currentFolder +:+ "'>Back</a></p>" +:+ "</body></html>")).

Definition webStorageRenameFile (username request : string) (reads : list string) : M St string :=
  withWorker (username +:+ "-storage") (λ a,
    if negb (starts_with "POST /rename" request) then
      params ← lift (requestParams request);
      let currentFolder := default "" (params ≫= λ p, p !! "folder") in
      let oldName := default "" (params ≫= λ p, p !! "filename") in
      mret (httpResponseStorage "200 OK"
        ("<html><body>" +:+ "<h1>Rename File</h1>" +:+ "<form method='POST' action='/rename'>" +:+
         "  <input type='hidden' name='folder' value='" +:+ currentFolder +:+ "'>" +:+
         "  <input type='hidden' name='oldfilename' value='" +:+ oldName +:+ "'>" +:+
         "  <p>Current: <strong>" +:+ oldName +:+ "</strong></p>" +:+
         "  <p><label>New name: <input type='text' name='newfilename'></label></p>" +:+
         "  <p><input type='submit' value='Rename'></p>" +:+ "</form>" +:+
         "<p><a href='/list?folder=" +:+ currentFolder +:+ "'>Back</a></p>" +:+ "</body></html>"))
    else
      body ← lift (readRequestBodyStorage reads request (find crlf2 0 request));
      fields ← lift (parseQueryParamsStorage body);
      renameFile a (username +:+ "-storage") (default "" (fields !! "folder"))
        (default "" (fields !! "oldfilename")) (default "" (fields !! "newfilename"))).

End service.
