(* ===== verification/StoragePages.v ===== *)
(** * The pages of the storage service: frontend/storage/storage_service.cc

    Listing a folder, renaming and moving folders and moving files: the requests whose recursive
    part is in [Storage]. *)
From S2P Require Import Prelude CppString Table Codec Utils CppStream Rpc Coordinator Worker WorkerFacts.
From S2P Require Import Cluster ClusterFacts Replication Kv StorageText Chunked Storage.

(** A line of a page. *)
Definition line (s : string) : string := s +:+ lf.
Definition nonempty (s : string) : bool := negb (bool_decide (s = "")).
(** The field of a form or a query, empty when it is missing. *)
Definition field (fields : gmap string string) (k : string) : string := default "" (fields !! k).

(** [sendBinaryResponse]: what is sent. *)
Definition sendBinaryResponse (statusLine contentType filename payload : string) : string :=
  statusLine +:+ crlf +:+ "Content-Type: " +:+ contentType +:+ crlf +:+
  "Content-Length: " +:+ to_string (Z.of_nat (slen payload)) +:+ crlf +:+
  "Content-Disposition: attachment; filename=" +:+ dq +:+ filename +:+ dq +:+ crlf +:+
  "Connection: keep-alive" +:+ crlf +:+ crlf +:+ payload.

Section pages.
Context `{KvOps St}.

(** ** Listing a folder *)

Definition folderItem (absolutePath item : string) : string :=
  line ("    <li> " +:+ "<a href='/list?folder=" +:+ absolutePath +:+ "'>" +:+ item +:+ "</a>" +:+
    " | <a href='/renameFolder?folder=" +:+ absolutePath +:+ "'>Rename</a>" +:+
    " | <a href='/moveFolder?folder=" +:+ absolutePath +:+ "'>Move</a>" +:+
    " | <a href='/deleteStorage?path=" +:+ absolutePath +:+ "'>Delete</a>" +:+ "</li>").
Definition fileItem (currentFolder absolutePath item : string) : string :=
  let folder := if nonempty currentFolder then "&folder=" +:+ currentFolder else "" in
  line ("    <li> " +:+ item +:+
    " | <a href='/download?filename=" +:+ item +:+ folder +:+ "'>Download</a>" +:+
    " | <a href='rename?filename=" +:+ item +:+ folder +:+ "'>Rename</a>" +:+
    " | <a href='deleteStorage?path=" +:+ absolutePath +:+ "'>Delete</a>" +:+
    " | <a href='moveFile?filename=" +:+ item +:+ folder +:+ "'>Move</a>" +:+ "</li>").

(** The loop over the entries. *)
Fixpoint listItems (a baseKey currentFolder : string) (entries : list string) : M St string :=
  match entries with
  | [] => mret ""
  | entry :: entries =>
      if bool_decide (entry = "") then listItems a baseKey currentFolder entries
      else
        let item := localName entry in
        let absolutePath := inFolder currentFolder item in
        colValue ← kv_Get a baseKey absolutePath;
        rest ← listItems a baseKey currentFolder entries;
        mret ((if bool_decide (colValue = "KV-Folder") then folderItem absolutePath item
               else if bool_decide (colValue = "KV-File") then fileItem currentFolder absolutePath item
               else "") +:+ rest)
  end.

Definition listHead (username currentFolder : string) : string :=
  line "<!DOCTYPE html>" +:+ line "<html>" +:+ line "<head>" +:+ line "  <meta charset='utf-8'>" +:+
  line "  <title>Web Storage</title>" +:+ line "  <style>" +:+
  line "    ul { list-style: none; padding-left: 0; }" +:+ line "    li { padding: 4px 0; }" +:+
  line "    img { vertical-align: middle; margin-right: 5px; }" +:+ line "  </style>" +:+
  line "</head>" +:+ line "<body>" +:+
  (if bool_decide (currentFolder = "") then line ("  <h1>" +:+ username +:+ "'s Files in Storage Home</h1>")
   else line ("  <h1>" +:+ username +:+ "'s Files in Folder " +:+ currentFolder +:+ "</h1>")).
Definition listForms (currentFolder url : string) : string :=
  line "<h2>Upload File</h2>" +:+
  line "  <form method='POST' action='/upload' enctype='multipart/form-data'>" +:+
  (if nonempty currentFolder then
     line ("    <input type='hidden' name='folder' value='" +:+ currentFolder +:+ "'>") else "") +:+
  line "    <p><label for='file'>Choose file to upload in this folder:</label>" +:+
  line "    <input type='file' id='file' name='file'></p>" +:+
  line "  <p>Valid characters in File Name: A-Z a-z 0-9 ( ) _ and space (and the . extension)</p>" +:+
  line "    <p><input type='submit' value='Upload'></p>" +:+ line "  </form>" +:+
  line "<h2>Create a Sub-folder</h2>" +:+ line "  <form method='POST' action='/createSubFolder'>" +:+
  line ("    <input type='hidden' name='parentFolder' value='" +:+ currentFolder +:+ "'>") +:+
  line "  <p>Valid characters in File Name: A-Z a-z 0-9 ( ) _ and space</p>" +:+
  line "    <p><label for='newFolder'>New Folder Name:</label>" +:+
  line "    <input type='text' id='newFolder' name='newfolder'></p>" +:+
  line "    <p><input type='submit' value='Create Folder'></p>" +:+ line "  </form>" +:+
  (if contains "/" currentFolder then
     "<p><a href='/list?folder=" +:+ parentPath currentFolder +:+ "'>Back to Parent folder</a></p>"
   else if contains "folder" url then "<p><a href='/storage'>Back to Storage Home</a></p>" else "") +:+
  "<p><a href='/logout'>Logout</a></p>" +:+ line "  <br/>" +:+ line "</body>" +:+ line "</html>".

(** A missing listing is created, empty. *)
Definition listFolder (a baseKey username url currentFolder : string) : M St string :=
  let metaCol := metaColumn currentFolder in
  metadata ← kv_Get a baseKey metaCol;
  _ ← (if is_ERR metadata then kv_Put a baseKey metaCol "" else mret "");
  checkFolder ← (if nonempty currentFolder then kv_Get a baseKey currentFolder else mret "");
  if bool_decide (checkFolder = "DEL KV-Folder") then
    mret (badRequest "This folder was deleted. <p><a href='/storage'>Back to Storage Home</a></p>")
  else
    items ← (if hasChunks metadata then
               items ← listItems a baseKey currentFolder (splitStringStorage metadata ","%char);
               mret (line "  <ul>" +:+ items +:+ line "  </ul>")
             else mret (line "  <p>No files or folders uploaded yet.</p>"));
    mret (httpResponseStorage "200 OK"
      (listHead username currentFolder +:+ items +:+ listForms currentFolder url)).

Definition webStorageList (username request : string) : M St string :=
  withWorker (username +:+ "-storage") (λ a,
    params ← lift (requestParams request);
    listFolder a (username +:+ "-storage") username (substr_to (find crlf 0 request) request)
      (field (default ∅ params) "folder")).

(** ** Renaming a folder *)

Definition renameFolderForm (folderPath : string) : string :=
  httpResponseStorage "200 OK"
    ("<html><body>" +:+ "<h1>Rename Folder</h1>" +:+
     line "<form method='POST' action='/renameFolder'>" +:+
     line ("  <input type='hidden' name='folder' value='" +:+ folderPath +:+ "'>") +:+
     line ("  <p>Current name: <strong>" +:+ localName folderPath +:+ "</strong></p>") +:+
     line "  <p>Valid characters in File Name: A-Z a-z 0-9 ( ) _ and space</p>" +:+
     line "  <p><label>New name: <input type='text' name='newname'></label></p>" +:+
     line "  <p><input type='submit' value='Rename'></p>" +:+ "</form>" +:+
     "<p><a href='/list?folder=" +:+ folderPath +:+ "'>Back</a></p>" +:+ "</body></html>").

(** The part of a POST after its parameters are known. *)
Definition renameFolder (fuel : nat) (a baseKey folderPath newName : string) : M St string :=
  if bool_decide (newName = "") || negb (isValidName newName) then
    mret (badRequest "Missing new folder name or incorrect format of folder name.")
  else
    let parent := parentPath folderPath in
    let parentMetaCol := metaColumn parent in
    let newAbs := inFolder parent newName in
    existFolder ← kv_Get a baseKey newAbs;
    if bool_decide (existFolder = "KV-Folder") then
      mret (badRequest "Folder with same name already exists.")
    else
      pmeta ← kv_Get a baseKey parentMetaCol;
      let parts := (λ p, if bool_decide (p = folderPath) then newAbs else p) <$>
                     splitStringStorage pmeta ","%char in
      _ ← kv_Put a baseKey parentMetaCol (join "," parts);
      _ ← renameFolderRec fuel a baseKey folderPath newAbs;
      mret (httpResponseStorage "200 OK"
        ("<html><body>" +:+
         "<p>Folder <strong>" +:+ localName folderPath +:+ "</strong> renamed to <strong>" +:+ newName +:+
         "</strong>.</p>" +:+
         "<p><a href='/list?folder=" +:+ newAbs +:+ "'>View " +:+ dq +:+ newName +:+ dq +:+ "</a></p>" +:+
         "</body></html>")).

Definition webStorageRenameFolder (fuel : nat) (username request : string) (reads : list string) :
    M St string :=
  withWorker (username +:+ "-storage") (λ a,
    if negb (starts_with "POST /renameFolder" request) then
      params ← lift (requestParams request);
      mret (renameFolderForm (field (default ∅ params) "folder"))
    else
      body ← lift (readRequestBodyStorage reads request (find crlf2 0 request));
      fields ← lift (parseQueryParamsStorage body);
      renameFolder fuel a (username +:+ "-storage") (field fields "folder") (field fields "newname")).

(** ** The folder tree as JSON *)

Definition jsonFolder (name fullPath children : string) : string :=
  "{" +:+ dq +:+ "name" +:+ dq +:+ ":" +:+ dq +:+ name +:+ dq +:+ "," +:+
  dq +:+ "path" +:+ dq +:+ ":" +:+ dq +:+ fullPath +:+ dq +:+ "," +:+
  dq +:+ "children" +:+ dq +:+ ":" +:+ children +:+ "}".

(** The loop over the entries of a folder, with [tree] for the subfolders. *)
Fixpoint jsonEntries (tree : string → M St string) (a baseKey : string) (entries : list string) :
    M St (list string) :=
  match entries with
  | [] => mret []
  | fullPath :: entries =>
      marker ← kv_Get a baseKey fullPath;
      if bool_decide (marker ≠ "KV-Folder") then jsonEntries tree a baseKey entries
      else
        children ← tree fullPath;
        rest ← jsonEntries tree a baseKey entries;
        mret (jsonFolder (localName fullPath) fullPath children :: rest)
  end.
Fixpoint buildFolderTreeJSON (fuel : nat) (a baseKey folderPath : string) : M St string :=
  match fuel with
  | O => throw
  | S fuel =>
      metadata ← kv_Get a baseKey (metaColumn folderPath);
      if hasChunks metadata then
        entries ← jsonEntries (buildFolderTreeJSON fuel a baseKey) a baseKey
                    (splitStringStorage metadata ","%char);
        mret ("[" +:+ join "," entries +:+ "]")
      else mret "[]"
  end.

(** ** Choosing the target of a move *)

(** The loops of the two pages over the entries of the current folder, of which the subfolders are
    shown. *)
Fixpoint subfolderItems (item : string → string) (a baseKey : string) (entries : list string) :
    M St string :=
  match entries with
  | [] => mret ""
  | fullPath :: entries =>
      marker ← kv_Get a baseKey fullPath;
      rest ← subfolderItems item a baseKey entries;
      mret ((if bool_decide (marker = "KV-Folder") then item fullPath else "") +:+ rest)
  end.
Definition currentSubfolders (item : string → string) (a baseKey currentFolder : string) : M St string :=
  metadata ← kv_Get a baseKey (metaColumn currentFolder);
  if hasChunks metadata then subfolderItems item a baseKey (splitStringStorage metadata ","%char)
  else mret "".

Definition moveHead (title : string) : string :=
  line "<!DOCTYPE html>" +:+ line "<html>" +:+ line "<head>" +:+ line "  <meta charset='utf-8'>" +:+
  line ("  <title>" +:+ title +:+ "</title>") +:+ line "  <style>" +:+
  line "    ul { list-style:none; padding-left:0; }" +:+ line "    li { margin:4px 0; }" +:+
  line "    form { display:inline; }" +:+ line "  </style>" +:+ line "</head>" +:+ line "<body>".
Definition currentTarget (currentFolder : string) : string :=
  line ("  <p>Current target: <strong>" +:+
        (if bool_decide (currentFolder = "") then "Root" else currentFolder) +:+ "</strong></p>").

Definition moveFileForm (sourceFolder filename targetFolder button : string) : string :=
  line "      <form method='POST' action='/moveFile'>" +:+
  line ("        <input type='hidden' name='sourceFolder' value='" +:+ sourceFolder +:+ "'>") +:+
  line ("        <input type='hidden' name='filename'     value='" +:+ filename +:+ "'>") +:+
  line ("        <input type='hidden' name='targetFolder' value='" +:+ targetFolder +:+ "'>") +:+
  line ("        <button type='submit'>" +:+ button +:+ "</button>") +:+ line "      </form>".
Definition moveFileItem (sourceFolder filename fullPath : string) : string :=
  line "    <li>" +:+
  line ("      <a href='/moveFile?folder=" +:+ sourceFolder +:+ "&filename=" +:+ filename +:+
        "&currentFolder=" +:+ fullPath +:+ "'>" +:+ localName fullPath +:+ "/</a>") +:+
  moveFileForm sourceFolder filename fullPath "Move Here" +:+ line "    </li>".
Definition moveFileUp (sourceFolder filename currentFolder : string) : string :=
  if nonempty currentFolder then
    let parent := parentPath currentFolder in
    line ("  <p><a href='/moveFile?folder=" +:+ sourceFolder +:+ "&filename=" +:+ filename +:+
          (if nonempty parent then "&currentFolder=" +:+ parent else "") +:+ "'>Up</a></p>")
  else line ("  <p><a href='/list?folder=" +:+ sourceFolder +:+ "'>Cancel</a></p>").

Definition moveFilePage (a baseKey sourceFolder filename currentFolder : string) : M St string :=
  items ← currentSubfolders (moveFileItem sourceFolder filename) a baseKey currentFolder;
  mret (httpResponseStorage "200 OK"
    (moveHead "Move File" +:+
     line ("  <h1>Move file <strong>" +:+ filename +:+ "</strong> into:</h1>") +:+
     currentTarget currentFolder +:+ line "  <ul>" +:+
     line "    <li>" +:+ moveFileForm sourceFolder filename "" "Home" +:+ line "    </li>" +:+
     items +:+ line "  </ul>" +:+ moveFileUp sourceFolder filename currentFolder +:+
     line "</body>" +:+ line "</html>")).

Definition webStorageMoveFile (fuel : nat) (username request : string) (reads : list string) :
    M St string :=
  withWorker (username +:+ "-storage") (λ a,
    let baseKey := username +:+ "-storage" in
    if negb (starts_with "POST /moveFile" request) then
      params ← lift (requestParams request);
      let param := field (default ∅ params) in
      moveFilePage a baseKey (param "folder") (param "filename") (param "currentFolder")
    else
      body ← lift (readRequestBodyStorage reads request (find crlf2 0 request));
      fields ← lift (parseQueryParamsStorage body);
      let filename := field fields "filename" in
      let targetFolder := field fields "targetFolder" in
      if bool_decide (filename = "") then mret (badRequest "Missing filename or target folder.")
      else
        _ ← moveFile fuel a baseKey (inFolder (field fields "sourceFolder") filename) targetFolder;
        mret (httpResponseStorage "200 OK"
          (line "<!DOCTYPE html>" +:+ line "<html>" +:+ line "<body>" +:+
           line ("<p>Moved file <strong>" +:+ filename +:+ "</strong> to <strong>" +:+
                 (if bool_decide (targetFolder = "") then "Root" else targetFolder) +:+ "</strong>.</p>") +:+
           line ("<p><a href='/list?folder=" +:+ targetFolder +:+ "'>View Folder</a></p>") +:+
           line "</body>" +:+ line "</html>"))).

Definition moveFolderForm (sourceFolder targetFolder button : string) : string :=
  line "      <form method='POST' action='/moveFolder'>" +:+
  line ("        <input type='hidden' name='folder' value='" +:+ sourceFolder +:+ "'>") +:+
  line ("        <input type='hidden' name='targetFolder' value='" +:+ targetFolder +:+ "'>") +:+
  line ("        <button type='submit'>" +:+ button +:+ "</button>") +:+ line "      </form>".
Definition moveFolderItem (sourceFolder fullPath : string) : string :=
  line "    <li>" +:+
  line ("      <a href='/moveFolder?folder=" +:+ sourceFolder +:+ "&currentFolder=" +:+ fullPath +:+
        "'>" +:+ localName fullPath +:+ "/</a>") +:+
  moveFolderForm sourceFolder fullPath "Move Here" +:+ line "    </li>".
Definition moveFolderUp (sourceFolder currentFolder : string) : string :=
  if nonempty currentFolder then
    let parent := parentPath currentFolder in
    line ("  <p><a href='/moveFolder?folder=" +:+ sourceFolder +:+
          (if nonempty parent then "&currentFolder=" +:+ parent else "") +:+ "'>Up</a></p>")
  else line ("  <p><a href='/list?folder=" +:+ parentPath sourceFolder +:+ "'>Cancel</a></p>").

Definition moveFolderPage (a baseKey sourceFolder currentFolder : string) : M St string :=
  items ← currentSubfolders (moveFolderItem sourceFolder) a baseKey currentFolder;
  mret (httpResponseStorage "200 OK"
    (moveHead "Move Folder" +:+
     line ("  <h1>Move folder <strong>" +:+ sourceFolder +:+ "</strong> into:</h1>") +:+
     currentTarget currentFolder +:+ line "  <ul>" +:+
     line "    <li>" +:+ moveFolderForm sourceFolder "" "Home" +:+ line "    </li>" +:+
     items +:+ line "  </ul>" +:+ moveFolderUp sourceFolder currentFolder +:+
     line "</body>" +:+ line "</html>")).

(** The part of a POST after its parameters are known: a folder is not moved into itself, nor into a
    folder that has an entry of its name. *)
Definition moveFolderTo (fuel : nat) (a baseKey sourceFolder targetFolder : string) : M St string :=
  if bool_decide (targetFolder = sourceFolder) || starts_with (sourceFolder +:+ "/") targetFolder then
    mret (badRequest "Cannot move a folder into itself.")
  else
    let childName := localName sourceFolder in
    targetMeta ← kv_Get a baseKey (metaColumn targetFolder);
    let targetMeta := if is_ERR targetMeta then "" else targetMeta in
    if bool_decide (childName ∈ localName <$> splitStringStorage targetMeta ","%char) then
      mret (badRequest ("Cannot move: a folder or file named <strong>" +:+ childName +:+
        "</strong> already exists in the destination."))
    else if bool_decide (sourceFolder = "") then mret (badRequest "Missing source or target folder.")
    else
      _ ← moveFolder fuel a baseKey sourceFolder targetFolder;
      mret (httpResponseStorage "200 OK"
        (line "<!DOCTYPE html>" +:+ line "<html>" +:+ line "<body>" +:+
         line ("<p>Moved folder <strong>" +:+ sourceFolder +:+ "</strong> into <strong>" +:+
               (if bool_decide (targetFolder = "") then "Root" else targetFolder) +:+ "</strong>.</p>") +:+
         line ("<p><a href='/list?folder=" +:+ targetFolder +:+ "'>View Destination</a></p>") +:+
         line "</body>" +:+ line "</html>")).

Definition webStorageMoveFolder (fuel : nat) (username request : string) (reads : list string) :
    M St string :=
  withWorker (username +:+ "-storage") (λ a,
    let baseKey := username +:+ "-storage" in
    if negb (starts_with "POST /moveFolder" request) then
      params ← lift (requestParams request);
      let param := field (default ∅ params) in
      moveFolderPage a baseKey (param "folder") (param "currentFolder")
    else
      body ← lift (readRequestBodyStorage reads request (find crlf2 0 request));
      fields ← lift (parseQueryParamsStorage body);
      moveFolderTo fuel a baseKey (field fields "folder") (field fields "targetFolder")).

End pages.
