(* ===== verification/StorageFacts.v ===== *)
(** * Correctness of the storage service

    What is uploaded is downloaded; deletion terminates; the names the service accepts. *)
From S2P Require Import Prelude CppString Table Codec Utils CppStream Rpc Coordinator Worker WorkerFacts.
From S2P Require Import Cluster ClusterFacts Replication Kv StorageText Chunked Storage.

(** ** Strings *)

Lemma sapp_inj_r s s' t : s +:+ t = s' +:+ t → s = s'.
Proof.
  intros E. assert (slen s = slen s') as El.
  { apply (f_equal slen) in E. rewrite !slen_app in E. lia. }
  rewrite <-(str_take_app s t), <-(str_take_app s' t). by rewrite El, E.
Qed.

Lemma sapp_eq_length s s' t t' : s +:+ t = s' +:+ t' → slen s = slen s' → s = s' ∧ t = t'.
Proof.
  revert s'. induction s as [|c s IH]; intros [|c' s'] E El; try done.
  rewrite !sapp_cons in E. simplify_eq/=. by destruct (IH s') as [-> ->]; [|lia|].
Qed.

Lemma contains_spec q s : contains q s = true ↔ ∃ u v, s = u +:+ q +:+ v.
Proof.
  unfold contains. rewrite bool_decide_eq_true. induction s as [|c s IH].
  - cbn [find0]. destruct (String.prefix q "") eqn:E.
    + apply starts_with_spec in E as [t ->]. split; [|by eexists]. intros _. by exists "", t.
    + split; [by intros [??]|]. intros (u & v & Huv).
      symmetry in Huv. apply sapp_nil_inv in Huv as [-> Huv]. apply sapp_nil_inv in Huv as [-> ->]. done.
  - cbn [find0]. destruct (String.prefix q (String c s)) eqn:E.
    + apply starts_with_spec in E as [t ->]. split; [|by eexists]. intros _. by exists "", t.
    + rewrite fmap_is_Some, IH. split.
      * intros (u & v & ->). by exists (String c u), v.
      * intros ([|d u] & v & Huv).
        { rewrite sapp_nil_l in Huv. rewrite Huv in E.
          pose proof (starts_with_app q v) as E'. unfold starts_with in E'. congruence. }
        rewrite sapp_cons in Huv. simplify_eq. by exists u, v.
Qed.

Lemma sapp_split_le s t s' t' :
  s +:+ t = s' +:+ t' → (slen s ≤ slen s')%nat → ∃ m, s' = s +:+ m ∧ t = m +:+ t'.
Proof.
  intros E Hl. exists (str_drop (slen s) s').
  assert (str_take (slen s) s' = s) as Es.
  { destruct (sapp_eq_length s (str_take (slen s) s') t (str_drop (slen s) s' +:+ t')) as [Es _].
    - by rewrite <-sapp_assoc, str_take_drop.
    - rewrite slen_take. lia.
    - done. }
  pose proof (str_take_drop (slen s) s') as Etd. rewrite Es in Etd. split; [done|].
  rewrite <-Etd, sapp_assoc in E. by apply sapp_eq_length in E as [_ E].
Qed.

(** A pattern without [c] occurs on one side of [c]. *)
Lemma contains_around q c s t :
  no_char c q → contains q s = false → contains q t = false → contains q (s +:+ String c t) = false.
Proof.
  intros Hq Hs Ht. destruct (contains q (s +:+ String c t)) eqn:E; [|done]. exfalso.
  apply contains_spec in E as (u & v & E).
  destruct (decide (slen s < slen u)%nat) as [Hu|Hu].
  - destruct (sapp_split_le s (String c t) u (q +:+ v) E ltac:(lia)) as (m & -> & Em).
    rewrite slen_app in Hu. destruct m as [|d m]; [simpl in Hu; lia|].
    rewrite sapp_cons in Em. simplify_eq.
    assert (contains q (m +:+ q +:+ v) = true) by (apply contains_spec; eauto). congruence.
  - symmetry in E. destruct (sapp_split_le u (q +:+ v) s (String c t) E ltac:(lia)) as (m & -> & Em).
    destruct (decide (slen q ≤ slen m)%nat) as [Hm|Hm].
    + destruct (sapp_split_le q v m (String c t) Em Hm) as (m' & -> & _).
      assert (contains q (u +:+ q +:+ m') = true) by (apply contains_spec; eauto). congruence.
    + symmetry in Em. destruct (sapp_split_le m (String c t) q v Em ltac:(lia)) as (m' & -> & Em').
      rewrite slen_app in Hm. destruct m' as [|d m']; [simpl in Hm; lia|].
      rewrite sapp_cons in Em'. simplify_eq. apply no_char_app in Hq as [_ Hq].
      apply no_char_cons in Hq as [Hd _]. done.
Qed.

Lemma foldr_append_app cs t : foldr String.append "" cs +:+ t = foldr String.append t cs.
Proof. induction cs as [|c cs IH]; [done|]. cbn [foldr]. by rewrite sapp_assoc, IH. Qed.

Lemma str_take_add n m s : str_take n s +:+ str_take m (str_drop n s) = str_take (n + m) s.
Proof.
  revert s. induction n as [|n IH]; intros s; [done|]. destruct s; [by destruct m|].
  simpl. by rewrite sapp_cons, IH.
Qed.

(** Decimal numbers. *)
Lemma no_char_digits c (n : N) s :
  (48 ≤ nat_of_ascii c ≤ 57 → False)%nat → no_char c s → no_char c (pretty_N_go n s).
Proof.
  intros Hc. revert s. induction (N.lt_wf_0 n) as [n _ IH]. intros s Hs.
  destruct (decide (n = 0)%N) as [->|Hn]; [by rewrite pretty_N_go_0|].
  rewrite pretty_N_go_step by lia. apply IH; [apply N.div_lt; lia|].
  apply no_char_cons. split; [|done]. intros <-. apply Hc.
  unfold pretty_N_char. repeat case_match; vm_compute; lia.
Qed.
Lemma no_char_to_string c (n : nat) :
  (48 ≤ nat_of_ascii c ≤ 57 → False)%nat → no_char c (to_string (Z.of_nat n)).
Proof.
  intros Hc. unfold to_string. destruct n as [|n].
  - unfold no_char. simpl. rewrite decide_False; [done|]. intros <-. apply Hc. vm_compute. lia.
  - change (pretty (Z.of_nat (S n))) with (pretty (N.pos (Pos.of_succ_nat n))). unfold pretty, pretty_N.
    rewrite decide_False by done. by apply no_char_digits.
Qed.

(** [splitStringStorage] is splitting at every delimiter. *)
Lemma splitLoop_split fuel str d start :
  (slen str < fuel + start)%nat → (start ≤ slen str)%nat →
  splitLoop fuel str d start = split_on d (str_drop start str).
Proof.
  revert start. induction fuel as [|fuel IH]; intros start Hf Hs; [lia|]. cbn [splitLoop].
  unfold find_char. destruct (find_char0 d (str_drop start str)) as [i|] eqn:Ei; cbn [fmap option_fmap option_map].
  - assert (start + i < slen str)%nat.
    { apply find_char0_split in Ei as [_ Ei]. apply (f_equal slen) in Ei.
      rewrite slen_app, slen_drop, slen_take, slen_drop in Ei. simpl in Ei. lia. }
    rewrite IH by lia. rewrite (split_on_find _ _ _ Ei). unfold substr.
    rewrite str_drop_drop. do 3 f_equal; lia.
  - symmetry. by apply split_on_no_char.
Qed.
Lemma splitStringStorage_split str d : splitStringStorage str d = split_on d str.
Proof. apply splitLoop_split; lia. Qed.

(** ** The columns of a file *)

Definition chunkName (p : string) (j : nat) : string := p +:+ "-" +:+ to_string (Z.of_nat j).
Definition chunkNames (p : string) (n : nat) : list string := chunkName p <$> seq 1 n.

Lemma to_string_inj (j k : nat) : to_string (Z.of_nat j) = to_string (Z.of_nat k) → j = k.
Proof. unfold to_string. intros E%(inj pretty). lia. Qed.

Lemma chunk_column_inj p j k : chunkName p j +:+ "-content" = chunkName p k +:+ "-content" → j = k.
Proof.
  unfold chunkName. intros E%sapp_inj_r. apply (inj _) in E. simplify_eq/=. by apply to_string_inj.
Qed.
Lemma last_char_app (s t : string) (b c : ascii) : s +:+ String b "" ≠ t +:+ String c "" ∨ b = c.
Proof.
  destruct (decide (b = c)) as [|Hne]; [by right|left]. intros E.
  apply (f_equal str_rev) in E. rewrite !str_rev_app in E. cbn in E. simplify_eq/=.
Qed.
Lemma meta_not_content s t : s +:+ "-metadata" ≠ t +:+ "-content".
Proof.
  intros E. destruct (last_char_app (s +:+ "-metadat") (t +:+ "-conten") "a" "t") as [H|H]; [|done].
  apply H. by rewrite !sapp_assoc.
Qed.

(** File [p] of row [r] is stored as the chunks [cs]. *)
Definition stored (V : string → string → option string) (r p : string) (cs : list string) : Prop :=
  V r (p +:+ "-metadata") =
    (if bool_decide (cs = []) then None else Some (join "," (chunkNames p (length cs)))) ∧
  ∀ j c, cs !! j = Some c → V r (chunkName p (S j) +:+ "-content") = Some c.

(** The effect of one iteration of the upload loop. *)
Definition put_chunk (r p meta name c : string) V :=
  view_effect (UPut r (name +:+ "-content") c) (view_effect (UPut r (p +:+ "-metadata") meta) V).

Lemma chunkNames_snoc p n : chunkNames p (S n) = chunkNames p n ++ [chunkName p (S n)].
Proof. unfold chunkNames. rewrite seq_S, fmap_app. simpl. do 3 f_equal. Qed.

Lemma stored_snoc V r p cs c meta :
  stored V r p cs →
  meta = join "," (chunkNames p (S (length cs))) →
  stored (put_chunk r p meta (chunkName p (S (length cs))) c V) r p (cs ++ [c]).
Proof.
  intros [Hm Hc] ->. split.
  - unfold put_chunk. cbn [view_effect]. rewrite decide_False; cycle 1.
    { intros [= E]. by apply meta_not_content in E. }
    rewrite decide_True by done. rewrite bool_decide_false by (by destruct cs).
    rewrite length_app, Nat.add_1_r. done.
  - intros j c' Hj. unfold put_chunk. cbn [view_effect].
    rewrite lookup_app in Hj. destruct (cs !! j) as [c0|] eqn:Ej.
    + apply lookup_lt_Some in Ej as Hlt. rewrite decide_False; cycle 1.
      { intros [= E]. apply chunk_column_inj in E. lia. }
      rewrite decide_False; [simplify_eq; by apply Hc|].
      intros [= E]. symmetry in E. by apply meta_not_content in E.
    + apply lookup_ge_None in Ej. apply list_lookup_singleton_Some in Hj as [Hj ->].
      rewrite decide_True; [done|]. do 4 f_equal. lia.
Qed.

(** The names of chunks survive the listing format. *)
Lemma chunkName_no_comma p j : no_char ","%char p → no_char ","%char (chunkName p j).
Proof.
  intros Hp. unfold chunkName. apply no_char_app. split; [done|]. apply no_char_cons.
  split; [done|]. apply no_char_to_string. vm_compute. lia.
Qed.
Lemma split_chunkNames p n :
  no_char ","%char p → (0 < n)%nat →
  splitStringStorage (join "," (chunkNames p n)) ","%char = chunkNames p n.
Proof.
  intros Hp Hn. rewrite splitStringStorage_split. apply split_on_join; [by destruct n; [lia|]|].
  apply Forall_fmap, Forall_true. intros j. by apply chunkName_no_comma.
Qed.
Lemma number_found (j : nat) : contains "not found" (to_string (Z.of_nat j)) = false.
Proof.
  apply not_true_iff_false. intros (u & v & E)%contains_spec.
  assert (no_char "n" (to_string (Z.of_nat j))) as Hn by (apply no_char_to_string; vm_compute; lia).
  rewrite E in Hn. apply no_char_app in Hn as [_ Hn]. by apply no_char_cons in Hn as [Hn _].
Qed.
Lemma contains_names p n :
  contains "not found" p = false → contains "not found" (join "," (chunkNames p n)) = false.
Proof.
  intros Hp.
  assert (∀ j, contains "not found" (chunkName p j) = false) as Hname.
  { intros j. apply (contains_around "not found" "-"); [done|done|]. apply number_found. }
  induction n as [|n IH]; [done|]. destruct n as [|n]; [apply Hname|].
  rewrite chunkNames_snoc, join_snoc by done. by apply (contains_around "not found" ",").
Qed.

(** ** Upload, then download *)

Section upload.
Context `{KvLaws St}.

(** The metadata the loop writes next. *)
Lemma next_metadata V r p cs v :
  contains "not found" p = false → stored V r p cs → got V r (p +:+ "-metadata") v →
  (if contains "not found" v then chunkName p (S (length cs))
   else v +:+ "," +:+ chunkName p (S (length cs))) = join "," (chunkNames p (S (length cs))).
Proof.
  intros Hp [Hm _] Hg. unfold got in Hg. rewrite Hm in Hg. case_bool_decide as Ecs.
  - subst cs. by rewrite (proj1 (missing_not_found v Hg)).
  - subst v. rewrite contains_names by done. rewrite chunkNames_snoc, join_snoc; [done|].
    by destruct cs.
Qed.

Lemma storeChunks_spec a r p data fuel cs offset V s :
  contains "not found" p = false → Z.of_nat (slen data) < 2 ^ 31 →
  0 ≤ offset ≤ Z.of_nat (slen data) → (slen data < fuel + Z.to_nat offset)%nat →
  session a r V s → stored V r p cs → foldr String.append "" cs = str_take (Z.to_nat offset) data →
  runs (storeChunks fuel a r p data (Z.of_nat (slen data)) (Z.of_nat (S (length cs))) offset)
    (λ _ s', ∃ V' cs', session a r V' s' ∧ stored V' r p cs' ∧ foldr String.append "" cs' = data ∧
       ∀ c, (∀ k, c ≠ chunkName p k +:+ "-content") → c ≠ p +:+ "-metadata" → V' r c = V r c) s.
Proof.
  intros Hp Hlen. revert cs offset V s. induction fuel as [|fuel IH];
    intros cs offset V s Ho Hf Hs Hst Hcat; cbn [storeChunks]; case_bool_decide as Hlt; [lia| | |].
  1,3: apply runs_ret; exists V, cs; split_and!; [done..| |done];
    rewrite Hcat; apply str_take_all; lia.
  apply runs_bind. apply (runs_Get _ _ _ _ _ _ Hs). intros v Hv.
  apply runs_bind. apply (runs_Put _ _ _ _ _ _ _ Hs). intros _ s1 _ Hs1.
  apply runs_bind. apply (runs_Put _ _ _ _ _ _ _ Hs1). intros _ s2 _ Hs2.
  fold (chunkName p (S (length cs))) in *. set (len := Z.min UPLOAD_CHUNK _) in *.
  pose proof (next_metadata V r p cs v Hp Hst Hv) as Em.
  set (c := substr (Z.to_nat offset) (Z.to_nat len) data) in *.
  assert (0 < len ≤ Z.of_nat (slen data) - offset) as Hl by (unfold UPLOAD_CHUNK in len; lia).
  replace (Z.of_nat (S (length cs)) + 1) with (Z.of_nat (S (length (cs ++ [c]))))
    by (rewrite length_app; simpl; lia).
  eapply runs_mono; [apply (IH (cs ++ [c])); [lia|lia|exact Hs2|by apply stored_snoc|]|].
  - rewrite foldr_app. cbn [foldr]. rewrite sapp_nil_r.
    rewrite Z2Nat.inj_add by lia. subst c. unfold substr. rewrite <-foldr_append_app, Hcat.
    apply str_take_add.
  - cbv beta. intros _ s' (V' & cs' & Hs' & Hst' & Hcat' & Hfr). exists V', cs'.
    split_and!; [done..|]. intros col Hcol Hcol'. rewrite Hfr by done. cbn [view_effect].
    rewrite decide_False by (intros [= E]; by apply (Hcol (S (length cs)))).
    rewrite decide_False by congruence. done.
Qed.

Lemma loadChunks_spec a r p cs n acc V s :
  session a r V s → (∀ j c, cs !! j = Some c → V r (chunkName p (S (n + j)) +:+ "-content") = Some c) →
  runs (loadChunks a r (chunkName p <$> seq (S n) (length cs)) acc)
    (λ content s', session a r V s' ∧ content = acc +:+ foldr String.append "" cs) s.
Proof.
  revert n acc. induction cs as [|c cs IH]; intros n acc Hs Hc.
  { apply runs_ret. by rewrite sapp_nil_r. }
  cbn [length seq fmap list_fmap loadChunks]. apply runs_bind. apply (runs_Get _ _ _ _ _ _ Hs).
  intros v Hv. unfold got in Hv. pose proof (Hc 0%nat c eq_refl) as Hc0. rewrite Nat.add_0_r in Hc0.
  rewrite Hc0 in Hv. subst v. eapply runs_mono; [apply (IH (S n)); [done|]|].
  - intros j c' Hj. rewrite <-(Hc (S j) c' Hj). do 4 f_equal. lia.
  - cbv beta. intros content s' [? ->]. split; [done|]. cbn [foldr]. by rewrite sapp_assoc.
Qed.

Lemma loadFile_spec a r p cs V s :
  no_char ","%char p → cs ≠ [] → session a r V s → stored V r p cs →
  runs (loadFile a r p) (λ content s', session a r V s' ∧ content = foldr String.append "" cs) s.
Proof.
  intros Hp Hne Hs [Hm Hc]. unfold loadFile. apply runs_bind. apply (runs_Get _ _ _ _ _ _ Hs).
  intros v Hv. unfold got in Hv. rewrite Hm, bool_decide_false in Hv by done. subst v.
  rewrite split_chunkNames by (done || (destruct cs; [done|simpl; lia])).
  by apply (loadChunks_spec a r p cs 0 "").
Qed.

Lemma stored_update V V' r p cs u :
  (∀ r c, V' r c = view_effect u V r c) →
  (match u with UPut _ c _ | UCPut _ c _ _ | UDelete _ c =>
     c ≠ p +:+ "-metadata" ∧ ∀ k, c ≠ chunkName p k +:+ "-content" end) →
  stored V r p cs → stored V' r p cs.
Proof.
  intros HV Hc [Hm Hcs].
  assert (∀ c, c = p +:+ "-metadata" ∨ (∃ k, c = chunkName p k +:+ "-content") → V' r c = V r c) as Hsame.
  { intros c Hcol. rewrite HV.
    destruct u as [r' c' v|r' c' cur new|r' c']; destruct Hc as [Hx1 Hx2]; simpl;
      (rewrite decide_False; [done|]); [intros [= -> ->]|intros [[= -> ->] _]|intros [= -> ->]];
      destruct Hcol as [->|[k ->]]; [done|by apply (Hx2 k)|done|by apply (Hx2 k)|done|by apply (Hx2 k)]. }
  split; [rewrite Hsame by auto; done|]. intros j c Hj. rewrite Hsame by eauto. auto.
Qed.

Lemma metaColumn_not_own folder filename :
  metaColumn folder ≠ inFolder folder filename +:+ "-metadata".
Proof.
  unfold metaColumn, inFolder. case_bool_decide; intros E%(f_equal slen); rewrite ?slen_app in E; simpl in E; lia.
Qed.
Lemma metaColumn_not_content folder t : metaColumn folder ≠ t +:+ "-content".
Proof.
  unfold metaColumn. case_bool_decide; [|apply meta_not_content]. intros E.
  destruct (last_char_app "metadat" (t +:+ "-conten") "a" "t") as [Hx1|Hx1]; [|done].
  apply Hx1. by rewrite sapp_assoc.
Qed.
Lemma longer (s t : string) c : s ≠ s +:+ String c t.
Proof. intros E%(f_equal slen). rewrite slen_app in E. simpl in E. lia. Qed.

Lemma storeFile_spec fuel a r folder filename data V s :
  let p := inFolder folder filename in
  session a r V s → V r p ≠ Some "KV-File" → V r (p +:+ "-metadata") = None →
  contains "not found" p = false → Z.of_nat (slen data) < 2 ^ 31 →
  runs (storeFile fuel a r folder filename data) (λ _ s', ∃ V' cs,
    session a r V' s' ∧ stored V' r p cs ∧ foldr String.append "" cs = data) s.
Proof.
  intros p Hs Hfree Hnew Hp Hlen. unfold storeFile. fold p.
  apply runs_bind. apply (runs_Get _ _ _ _ _ _ Hs). intros v Hv.
  rewrite (bool_decide_false (v = "KV-File")); cycle 1.
  { intros E. subst v. unfold got in Hv. revert Hv Hfree.
    destruct (V r p); [by intros <-|by intros [?|?]]. }
  apply runs_bind, runs_ret. apply runs_bind. apply (runs_Put _ _ _ _ _ _ _ Hs). intros _ s1 _ Hs1.
  assert (stored (view_effect (UPut r p "KV-File") V) r p []) as Hst.
  { eapply (stored_update V); [done| |by split]. split; [apply longer|]. intros k.
    unfold chunkName. rewrite !sapp_assoc. apply longer. }
  apply runs_bind. rewrite to_i32_small by lia.
  eapply runs_mono; [apply (storeChunks_spec a r p data _ [] 0); [done..| |lia|exact Hs1|done|done]; lia|].
  cbv beta. intros _ s2 (V2 & cs & Hs2 & Hst2 & Hcat & _).
  apply runs_bind. apply (runs_Get _ _ _ _ _ _ Hs2). intros m _.
  apply runs_bind. apply (runs_CPut _ _ _ _ _ _ _ _ Hs2). intros _ s3 _ Hs3.
  apply runs_ret. eexists _, cs. split; [exact Hs3|]. split; [|done].
  eapply (stored_update V2); [done| |done]. split; [apply metaColumn_not_own|].
  intros k. apply metaColumn_not_content.
Qed.

(** C20: what is uploaded under a new name is what is downloaded from it, byte for byte and whatever
    its size below 2 GiB: the upload splits it into chunks of a million bytes, lists their names, and
    the download follows the list.  The path may not contain a comma or the words "not found". *)
Theorem upload_download fuel a r folder filename data V s :
  let p := inFolder folder filename in
  session a r V s → V r p ≠ Some "KV-File" → V r (p +:+ "-metadata") = None →
  no_char ","%char p → contains "not found" p = false →
  data ≠ "" → Z.of_nat (slen data) < 2 ^ 31 →
  runs (_ ← storeFile fuel a r folder filename data; loadFile a r p) (λ content _, content = data) s.
Proof.
  intros p Hs Hfree Hnew Hcomma Hp Hne Hlen. apply runs_bind.
  eapply runs_mono; [by apply (storeFile_spec fuel a r folder filename data V)|]. cbv beta. intros _ s' (V' & cs & Hs' & Hst & Hcat).
  eapply runs_mono; [apply (loadFile_spec a r p cs V'); [done| |done..]|].
  - intros ->. by simpl in Hcat.
  - cbv beta. intros content s'' [_ ->]. done.
Qed.

End upload.

(** ** Deletion *)

(** The columns of row [r] that hold a folder. *)
Definition folders_in (V : string → string → option string) (r : string) (l : list string) : Prop :=
  ∀ c, V r c = Some "KV-Folder" → c ∈ l.
(** A path that is no longer a file or a folder. *)
Definition gone (V : string → string → option string) (r p : string) : Prop :=
  V r p = None ∨ V r p = Some "DEL KV-Folder".
(** What deletions preserve: a folder was one before, and what is gone stays gone. *)
Definition only_deletes (r : string) (V V' : string → string → option string) : Prop :=
  (∀ c, V' r c = Some "KV-Folder" → V r c = Some "KV-Folder") ∧ ∀ c, gone V r c → gone V' r c.

Global Instance only_deletes_preorder r : PreOrder (only_deletes r).
Proof. split; [by intros V|]. intros V1 V2 V3 [A1 B1] [A2 B2]. split; auto. Qed.

Lemma only_deletes_delete r c V : only_deletes r V (view_effect (UDelete r c) V).
Proof. unfold only_deletes, gone. split; intros c'; cbn [view_effect]; case_decide; auto. done. Qed.
Lemma only_deletes_mark r c V : only_deletes r V (view_effect (UPut r c "DEL KV-Folder") V).
Proof. unfold only_deletes, gone. split; intros c'; cbn [view_effect]; case_decide; auto. done. Qed.
Lemma folders_in_less r V V' l : only_deletes r V V' → folders_in V r l → folders_in V' r l.
Proof. intros [Hf _] Hl c Hc. by apply Hl, Hf. Qed.

Section deletion.
Context `{KvLaws St}.

(** A program on row [r] that only deletes. *)
Definition deletes (a r : string) (m : M St unit) : Prop :=
  ∀ V s, session a r V s → runs m (λ _ s', ∃ V', session a r V' s' ∧ only_deletes r V V') s.

Lemma deletes_seq a r (m m' : M St unit) :
  deletes a r m → deletes a r m' → deletes a r (_ ← m; m').
Proof.
  intros Hm Hm' V s Hs. apply runs_bind. eapply runs_mono; [by apply Hm|].
  intros _ s1 (V1 & Hs1 & Ho1). eapply runs_mono; [by apply Hm'|].
  intros _ s2 (V2 & Hs2 & Ho2). exists V2. split; [done|by etrans].
Qed.
Lemma deletes_ret a r : deletes a r (mret tt).
Proof. intros V s Hs. apply runs_ret. by exists V. Qed.
Lemma deletes_Delete a r c : deletes a r (_ ← kv_Delete a r c; mret tt).
Proof.
  intros V s Hs. apply runs_bind. apply (runs_Delete _ _ _ _ _ _ Hs). intros res s' _ Hs'.
  apply runs_ret. eexists. split; [exact Hs'|apply only_deletes_delete].
Qed.
Lemma deletes_for_each {A} a r (body : A → M St unit) l :
  (∀ x, x ∈ l → deletes a r (body x)) → deletes a r (for_each body l).
Proof.
  induction l as [|x l IH]; intros Hb; [apply deletes_ret|].
  apply deletes_seq; [apply Hb; by left|]. apply IH. intros y Hy. apply Hb. by right.
Qed.

(** The children of a folder, one after the other: the set of folders only shrinks. *)
Lemma delete_children a r l (body : string → M St unit) items V s :
  (∀ p V s, session a r V s → folders_in V r l →
    runs (body p) (λ _ s', ∃ V', session a r V' s' ∧ only_deletes r V V' ∧ gone V' r p) s) →
  session a r V s → folders_in V r l →
  runs (for_each body items) (λ _ s', ∃ V', session a r V' s' ∧ only_deletes r V V' ∧
    ∀ p, p ∈ items → gone V' r p) s.
Proof.
  intros Hb. revert V s. induction items as [|p items IH]; intros V s Hs Hl.
  { apply runs_ret. exists V. split_and!; [done..|]. by intros p Hp%elem_of_nil. }
  cbn [for_each]. apply runs_bind. eapply runs_mono; [by apply Hb|].
  intros _ s1 (V1 & Hs1 & Ho1 & Hg1). eapply runs_mono; [apply (IH V1); [done|by eapply folders_in_less]|].
  intros _ s2 (V2 & Hs2 & Ho2 & Hg2). exists V2. split_and!; [done|by etrans|].
  intros p' [->|Hp']%elem_of_cons; [by apply Ho2|auto].
Qed.

Lemma deleteRec_spec fuel a r p l V s :
  session a r V s → folders_in V r l → (length l < fuel)%nat →
  runs (deleteRec fuel a r p) (λ _ s', ∃ V', session a r V' s' ∧ only_deletes r V V' ∧ gone V' r p) s.
Proof.
  revert p l V s. induction fuel as [|fuel IH]; intros p l V s Hs Hl Hf; [lia|]. cbn [deleteRec].
  apply runs_bind. apply (runs_Get _ _ _ _ _ _ Hs). intros marker Hmarker. case_bool_decide as Hm.
  - apply runs_bind. apply (runs_Get _ _ _ _ _ _ Hs). intros fileMeta _.
    apply runs_bind. eapply runs_mono.
    { refine ((_ : deletes a r _) V s Hs). destruct (hasChunks fileMeta); [|apply deletes_ret].
      apply deletes_seq; [|apply deletes_Delete]. apply deletes_for_each. intros. apply deletes_Delete. }
    intros _ s1 (V1 & Hs1 & Ho1). apply runs_bind. apply (runs_Delete _ _ _ _ _ _ Hs1).
    intros _ s2 _ Hs2. apply runs_bind. apply (runs_Delete _ _ _ _ _ _ Hs2). intros _ s3 _ Hs3.
    apply runs_ret. eexists. split; [exact Hs3|]. split.
    + etrans; [exact Ho1|]. etrans; apply only_deletes_delete.
    + left. cbn [view_effect]. by rewrite decide_True.
  - assert (marker = "KV-Folder") as Em by (by destruct (decide (marker = "KV-Folder"))).
    subst marker.
    assert (V r p = Some "KV-Folder") as HVp.
    { unfold got in Hmarker. revert Hmarker. destruct (V r p); [by intros <-|by intros [?|?]]. }
    apply runs_bind. apply (runs_Put _ _ _ _ _ _ _ Hs). intros _ s1 _ Hs1.
    apply runs_bind. apply (runs_Get _ _ _ _ _ _ Hs1). intros children _.
    apply runs_bind. apply (runs_Delete _ _ _ _ _ _ Hs1). intros _ s2 _ Hs2.
    match type of Hs2 with session _ _ ?V2 _ =>
      assert (only_deletes r V V2) as Ho2 by
        (etrans; [apply only_deletes_mark|apply only_deletes_delete]);
      assert (gone V2 r p) as Hg2 by
        (unfold gone; cbn [view_effect]; rewrite (decide_True (P := (r, p) = (r, p))) by done;
         case_decide; auto);
      set (V2' := V2) in *
    end.
    destruct (hasChunks children); [|apply runs_ret; by eexists].
    assert (folders_in V2' r (filter (λ c, c ≠ p) l)) as Hl2.
    { intros c Hc. apply list_elem_of_filter. split; [|by apply Hl, Ho2].
      intros ->. destruct Hg2; congruence. }
    eapply runs_mono; [eapply delete_children; [|exact Hs2|exact Hl2]|].
    + intros p' V' s' Hs' Hl'. apply (IH p' (filter (λ c, c ≠ p) l)); [done..|].
      pose proof (Hl p HVp) as Hin. apply list_elem_of_split in Hin as (l1 & l2 & ->).
      rewrite filter_app, filter_cons, decide_False by (by intros []).
      rewrite length_app. rewrite length_app in Hf. simpl in Hf.
      pose proof (length_filter (λ c, c ≠ p) l1). pose proof (length_filter (λ c, c ≠ p) l2). lia.
    + cbv beta. intros _ s' (V' & Hs' & Ho' & _). exists V'. split_and!; [done|by etrans|by apply Ho'].
Qed.

(** C37: [deleteRec] returns whatever the folder listings say, cycles included, with a depth of
    recursion of at most one more than the number of folders of the user; afterwards the path is
    neither a file nor a folder, and no folder has appeared. *)
Theorem deleteRec_terminates fuel a r p l V s :
  session a r V s → (∀ c, V r c = Some "KV-Folder" → c ∈ l) → (length l < fuel)%nat →
  runs (deleteRec fuel a r p) (λ _ s', ∃ V', session a r V' s' ∧
    (V' r p = None ∨ V' r p = Some "DEL KV-Folder") ∧
    ∀ c, V' r c = Some "KV-Folder" → V r c = Some "KV-Folder") s.
Proof.
  intros Hs Hl Hf. eapply runs_mono; [by apply (deleteRec_spec fuel a r p l V)|].
  cbv beta. intros _ s' (V' & Hs' & [Ho _] & Hg). by exists V'.
Qed.

End deletion.

#[local] Existing Instance example_ops.
#[local] Existing Instance example_laws.

(** A session on a new system. *)
Lemma new_session r :
  session "127.0.0.1:10001" r (kv_view new_system) new_system.
Proof. split; [apply new_system_ok|by exists 1|done]. Qed.

Lemma upload_download_witness :
  runs (_ ← storeFile 1 "127.0.0.1:10001" "alice-storage" "docs" "a.txt" "hello";
        loadFile "127.0.0.1:10001" "alice-storage" "docs/a.txt") (λ content _, content = "hello")
    new_system.
Proof.
  apply (upload_download 1 "127.0.0.1:10001" "alice-storage" "docs" "a.txt" "hello"
    (kv_view new_system)).
  - apply new_session.
  - vm_compute. discriminate.
  - vm_compute. reflexivity.
  - reflexivity.
  - reflexivity.
  - discriminate.
  - reflexivity.
Defined.

Lemma deleteRec_terminates_witness :
  runs (deleteRec 1 "127.0.0.1:10001" "alice-storage" "docs") (λ _ s', ∃ V',
    session "127.0.0.1:10001" "alice-storage" V' s' ∧
    (V' "alice-storage" "docs" = None ∨ V' "alice-storage" "docs" = Some "DEL KV-Folder") ∧
    ∀ c, V' "alice-storage" c = Some "KV-Folder" → kv_view new_system "alice-storage" c = Some "KV-Folder")
    new_system.
Proof.
  apply (deleteRec_terminates 1 "127.0.0.1:10001" "alice-storage" "docs" []).
  - apply new_session.
  - intros c Hc. exfalso. vm_compute in Hc. discriminate Hc.
  - simpl. lia.
Defined.

(** ** Names *)

Lemma name_chars_no_char c s : name_char c = false → all_name_chars s = true → no_char c s.
Proof.
  intros Hc. induction s as [|a s IH]; [done|]. cbn [all_name_chars]. intros [Ha Hs]%andb_prop.
  apply no_char_cons. split; [congruence|auto].
Qed.
Lemma segment_no_char c s : name_char c = false → segment s = true → no_char c s ∧ s ≠ "".
Proof.
  intros Hc [Hne Hs]%andb_prop. split; [by apply name_chars_no_char|]. intros ->. done.
Qed.

(** The names [isValidName] accepts are not empty, have at most one dot, not at either end, and
    none of the characters the service gives a meaning to: the '/' of paths, the ',' of folder
    listings, the '-' of the "-metadata" and "-content" columns, and the delimiters of queries. *)
Theorem isValidName_safe s c :
  isValidName s = true →
  s ≠ "" ∧ (c = "/"%char ∨ c = ","%char ∨ c = "-"%char ∨ c = "&"%char ∨ c = "="%char ∨ c = "%"%char →
    no_char c s) ∧
  (length (split_on "."%char s) ≤ 2)%nat ∧ Forall (λ t, t ≠ "") (split_on "."%char s).
Proof.
  intros Hv. unfold isValidName in Hv. pose proof (join_split_on "."%char s) as Hj.
  destruct (split_on "." s) as [|x [|y [|z l]]]; try done.
  - destruct (segment_no_char "/" x eq_refl Hv) as [_ Hx]. cbn [join] in Hj. subst s.
    split_and!; [done| |simpl; lia|by repeat constructor].
    intros Hc. apply segment_no_char; [|done]. destruct Hc as [->|[->|[->|[->|[->| ->]]]]]; done.
  - apply andb_prop in Hv as [Hvx Hvy]. cbn [join] in Hj. subst s.
    destruct (segment_no_char "/" x eq_refl Hvx) as [_ Hx].
    destruct (segment_no_char "/" y eq_refl Hvy) as [_ Hy].
    split_and!; [by destruct x| |simpl; lia|by repeat constructor].
    intros Hc. assert (name_char c = false ∧ c ≠ "."%char) as [Hn Hd]
      by (destruct Hc as [->|[->|[->|[->|[->| ->]]]]]; done).
    apply no_char_app. split; [by apply segment_no_char|].
    apply (no_char_cons c "." y). split; [done|by apply segment_no_char].
Qed.

Lemma isValidName_safe_witness :
  "my file (1).txt" ≠ "" ∧
  (","%char = "/"%char ∨ ","%char = ","%char ∨ ","%char = "-"%char ∨ ","%char = "&"%char ∨
   ","%char = "="%char ∨ ","%char = "%"%char → no_char ","%char "my file (1).txt") ∧
  (length (split_on "."%char "my file (1).txt") ≤ 2)%nat ∧
  Forall (λ t, t ≠ "") (split_on "."%char "my file (1).txt").
Proof. apply isValidName_safe. vm_compute. reflexivity. Defined.

(** ** Defects *)

(** A user with the files "a" and "data.txt" deletes the file "a". *)
Definition delete_sibling : M system string :=
  let a := "127.0.0.1:10001" in
  let row := "alice-storage" in
  _ ← kv_Put a row "metadata" "";
  _ ← storeFile 1 a row "" "a" "x";
  _ ← storeFile 1 a row "" "data.txt" "y";
  _ ← deletePath 1 a row "a";
  kv_Get a row "metadata".

(** Deleting a file removes from the listing of its folder every entry that contains the name
    of the file: "data.txt" is still stored and no longer listed after "a" is deleted. *)
Theorem delete_hides_siblings :
  let '(s', listing) := delete_sibling new_system in
  listing = Some "" ∧ kv_view s' "alice-storage" "data.txt" = Some "KV-File" ∧
  kv_view s' "alice-storage" "data.txt-1-content" = Some "y".
Proof. vm_compute. done. Qed.

(** Contrary to its comment, [ensureSameExtension] does not return the new name unchanged when
    the old one has no extension: it removes the extension of the new name. *)
Theorem ensureSameExtension_strips old base ext :
  no_char "."%char old → no_char "."%char ext →
  ensureSameExtension old (base +:+ "." +:+ ext) = base.
Proof.
  intros Ho He.
  assert (∀ s, no_char "."%char s → find_last_of "."%char s = None) as Hnone.
  { induction s as [|c s IH]; [done|]. intros [Hc Hs]%no_char_cons. simpl. rewrite IH by done.
    by rewrite decide_False. }
  assert (∀ s, find_last_of "."%char (s +:+ "." +:+ ext) = Some (slen s)) as Hlast.
  { induction s as [|c s IH].
    - change ("" +:+ "." +:+ ext) with (String "." ext). cbn [find_last_of]. rewrite Hnone by done.
      by rewrite decide_True.
    - rewrite sapp_cons. cbn [find_last_of]. by rewrite IH. }
  unfold ensureSameExtension. rewrite (Hnone old Ho), bool_decide_true, Hlast by done.
  apply str_take_app.
Qed.

Lemma ensureSameExtension_strips_witness : ensureSameExtension "notes" ("report" +:+ "." +:+ "txt") = "report".
Proof. apply (ensureSameExtension_strips "notes" "report" "txt"); reflexivity. Defined.
