(* ===== verification/StorageTree.v ===== *)
(** * Files and folders as a tree

    An abstract view of the columns of a user, and what moving and renaming do to it. *)
From S2P Require Import Prelude CppString Table Codec Utils CppStream Rpc Coordinator Worker WorkerFacts.
From S2P Require Import Cluster ClusterFacts Replication Kv StorageText Chunked Storage StoragePages StorageFacts.

Abbreviation contents := (string → string → option string).

(** ** Columns below a path *)

(** The columns that belong to what is stored at [p]: [p] itself, [p-...] and [p/...]. *)
Definition under (p c : string) : bool :=
  starts_with p c &&
  match str_drop (slen p) c with
  | "" => true
  | String d _ => bool_decide (d = "-"%char ∨ d = "/"%char)
  end.

Lemma under_spec p c :
  under p c = true ↔ c = p ∨ (∃ t, c = p +:+ String "-" t) ∨ ∃ t, c = p +:+ String "/" t.
Proof.
  unfold under. rewrite andb_true_iff, starts_with_spec. split.
  - intros [[t ->] Hd]. rewrite str_drop_app in Hd. destruct t as [|d t]; [left; apply sapp_nil_r|].
    apply bool_decide_eq_true in Hd as [-> | ->]; eauto.
  - intros [->|[[t ->]|[t ->]]].
    + rewrite str_drop_all by done. split; [exists ""; by rewrite sapp_nil_r|done].
    + rewrite str_drop_app. eauto.
    + rewrite str_drop_app. eauto.
Qed.
Lemma under_refl p : under p p = true.
Proof. apply under_spec. auto. Qed.
Lemma under_dash p t : under p (p +:+ String "-" t) = true.
Proof. apply under_spec. eauto. Qed.
Lemma under_slash p q c : under (p +:+ String "/" q) c = true → under p c = true.
Proof.
  rewrite !under_spec. intros [->|[[t ->]|[t ->]]]; right; right; [by exists q|..].
  - exists (q +:+ String "-" t). by rewrite sapp_assoc.
  - exists (q +:+ String "/" t). by rewrite sapp_assoc.
Qed.

(** Two paths with no column in common. *)
Definition apart (p q : string) : Prop := ∀ c, under p c = true → under q c = true → False.
Lemma apart_sym p q : apart p q → apart q p.
Proof. unfold apart. eauto. Qed.

Lemma under_longer p c u : under p c = true → c = p +:+ u → u = "" ∨ ∃ d t, u = String d t ∧ (d = "-"%char ∨ d = "/"%char).
Proof.
  intros H ->. unfold under in H. rewrite str_drop_app in H. apply andb_true_iff in H as [_ H].
  destruct u as [|d t]; [by left|]. right. exists d, t. by apply bool_decide_eq_true in H.
Qed.
(** Paths of which none is below the other have no column in common. *)
Lemma under_prefix p q w c : q = p +:+ w → under p c = true → under q c = true → under p q = true.
Proof.
  intros -> Hp Hq. apply under_spec. destruct w as [|d w]; [left; apply sapp_nil_r|right].
  assert (∃ v, c = (p +:+ String d w) +:+ v) as [v ->].
  { apply andb_true_iff in Hq as [Hq _]. by apply starts_with_spec. }
  destruct (under_longer p _ (String d w +:+ v) Hp) as [|(d' & t & E & Hd)]; [by rewrite sapp_assoc|done|].
  rewrite sapp_cons in E. injection E as -> _. destruct Hd as [-> | ->]; eauto.
Qed.
Lemma apart_paths p q : under p q = false → under q p = false → apart p q.
Proof.
  intros Hpq Hqp c Hp Hq.
  assert (∃ u, c = p +:+ u) as [u Hu] by (apply andb_true_iff in Hp as [H _]; by apply starts_with_spec).
  assert (∃ v, c = q +:+ v) as [v Hv] by (apply andb_true_iff in Hq as [H _]; by apply starts_with_spec).
  rewrite Hu in Hv. destruct (Nat.le_ge_cases (slen p) (slen q)) as [Hl|Hl].
  - destruct (sapp_split_le p u q v) as (w & Ew & _); [done..|].
    by rewrite (under_prefix p q w c) in Hpq.
  - destruct (sapp_split_le q v p u) as (w & Ew & _); [done..|].
    by rewrite (under_prefix q p w c) in Hqp.
Qed.

(** ** Names and paths *)

(** A name [isValidName] accepts. *)
Definition simple (n : string) : Prop :=
  n ≠ "" ∧ no_char "/"%char n ∧ no_char "-"%char n ∧ no_char ","%char n.
Global Instance simple_dec n : Decision (simple n).
Proof. unfold simple. apply _. Defined.
(** Paths whose columns the service tells apart and does not take for an error. *)
Definition good_path (p : string) : Prop := no_char ","%char p ∧ is_ERR p = false.

Lemma is_ERR_app p d t : is_ERR p = false → d ≠ "E"%char → d ≠ "R"%char → is_ERR (p +:+ String d t) = false.
Proof.
  intros Hp HE HR. apply not_true_iff_false. intros [u E]%starts_with_spec.
  destruct p as [|x [|y [|z p]]]; cbn [String.append] in E; simplify_eq.
  assert (is_ERR (String "E" (String "R" (String "R" p))) = true) as Ht; [|congruence].
  by apply starts_with_spec; exists p.
Qed.

Definition child (p n : string) : string := p +:+ String "/" n.

Lemma child_good p n : good_path p → simple n → good_path (child p n).
Proof.
  intros [Hc He] (_ & _ & _ & Hn). split; [|by apply is_ERR_app].
  apply no_char_app. split; [done|]. by apply no_char_cons.
Qed.
Lemma child_apart p n m : simple n → simple m → n ≠ m → apart (child p n) (child p m).
Proof.
  assert (∀ n m, simple n → simple m → n ≠ m → under (child p n) (child p m) = false) as Hone.
  { intros n' m' (_ & Hns & Hnd & _) (_ & Hms & Hmd & _) Hne. apply not_true_iff_false.
    rewrite under_spec. unfold child. intros [E|[[t E]|[t E]]].
    - apply (inj _) in E. congruence.
    - rewrite sapp_assoc, sapp_cons in E. apply (inj _) in E. injection E as ->.
      apply no_char_app in Hmd as [_ Hmd]. by apply no_char_cons in Hmd as [? _].
    - rewrite sapp_assoc, sapp_cons in E. apply (inj _) in E. injection E as ->.
      apply no_char_app in Hms as [_ Hms]. by apply no_char_cons in Hms as [? _]. }
  intros Hn Hm Hne. apply apart_paths; auto.
Qed.
Lemma child_apart_other p q n m : apart p q → apart (child p n) (child q m).
Proof. intros H c Hp Hq. eapply H; by eapply under_slash. Qed.

Lemma find_last_of_cons c a s :
  find_last_of c (String a s) =
    match find_last_of c s with Some i => Some (S i) | None => if decide (a = c) then Some 0%nat else None end.
Proof. done. Qed.
Lemma find_last_of_app c s n : no_char c n → find_last_of c (s +:+ String c n) = Some (slen s).
Proof.
  intros Hn. assert (find_last_of c n = None) as E.
  { induction n as [|a n IH]; [done|]. apply no_char_cons in Hn as [Ha Hn].
    rewrite find_last_of_cons, IH by done. by rewrite decide_False. }
  induction s as [|a s IH]; [rewrite sapp_nil_l, find_last_of_cons, E; by rewrite decide_True|].
  by rewrite sapp_cons, find_last_of_cons, IH.
Qed.
Lemma localName_child p n : simple n → localName (child p n) = n.
Proof.
  intros (_ & Hn & _). unfold localName, child. rewrite find_last_of_app by done.
  unfold substr_from. by rewrite <-str_drop_drop, str_drop_app.
Qed.
Lemma parentPath_child p n : simple n → parentPath (child p n) = p.
Proof.
  intros (_ & Hn & _). unfold parentPath, child. rewrite find_last_of_app by done. apply str_take_app.
Qed.

(** ** Trees *)

(** A file is the list of its chunks, a folder a list of named nodes. *)
Inductive node :=
  | File (chunks : list string)
  | Folder (children : list (string * node)).

(** Induction with the children of a folder. *)
Lemma node_ind' (P : node → Prop) :
  (∀ cs, P (File cs)) → (∀ ch, Forall (λ nt, P nt.2) ch → P (Folder ch)) → ∀ t, P t.
Proof.
  intros Hfile Hfolder. fix IH 1. intros [cs|ch]; [apply Hfile|apply Hfolder].
  induction ch as [|[n t] ch IHch]; constructor; [apply IH|exact IHch].
Qed.

Fixpoint depth (t : node) : nat :=
  match t with
  | File _ => 1
  | Folder ch => S ((fix go l := match l with [] => 0 | (_, t) :: l => Nat.max (depth t) (go l) end) ch)
  end%nat.

(** The entries of a folder's listing. *)
Definition entries (V : contents) (r folder : string) : list string :=
  match V r (metaColumn folder) with
  | Some m => if is_ERR m then [] else filter (λ s, s ≠ "") (splitStringStorage m ","%char)
  | None => []
  end.

(** The columns of row [r] hold the tree [t] at path [p]. *)
Fixpoint repr (V : contents) (r p : string) (t : node) : Prop :=
  match t with
  | File cs => V r p = Some "KV-File" ∧ cs ≠ [] ∧ stored V r p cs
  | Folder ch =>
      V r p = Some "KV-Folder" ∧ p ≠ "" ∧ entries V r p = child p <$> ch.*1 ∧
      NoDup ch.*1 ∧ Forall simple ch.*1 ∧
      (fix go l := match l with [] => True | (n, t) :: l => repr V r (child p n) t ∧ go l end) ch
  end.
(** Nothing of the tree [t] is left at [p]: folders stay marked as deleted. *)
Fixpoint removed (V : contents) (r p : string) (t : node) : Prop :=
  match t with
  | File cs =>
      V r p = None ∧ V r (p +:+ "-metadata") = None ∧
      ∀ j, (j < length cs)%nat → V r (chunkName p (S j) +:+ "-content") = None
  | Folder ch =>
      V r p = Some "DEL KV-Folder" ∧ V r (p +:+ "-metadata") = None ∧
      (fix go l := match l with [] => True | (n, t) :: l => removed V r (child p n) t ∧ go l end) ch
  end.

Lemma repr_Folder V r p ch :
  repr V r p (Folder ch) ↔
    V r p = Some "KV-Folder" ∧ p ≠ "" ∧ entries V r p = child p <$> ch.*1 ∧
    NoDup ch.*1 ∧ Forall simple ch.*1 ∧ Forall (λ nt, repr V r (child p nt.1) nt.2) ch.
Proof.
  cbn [repr]. do 5 f_equiv. induction ch as [|[n t] ch IH]; [done|]. rewrite Forall_cons. by rewrite IH.
Qed.
Lemma removed_Folder V r p ch :
  removed V r p (Folder ch) ↔
    V r p = Some "DEL KV-Folder" ∧ V r (p +:+ "-metadata") = None ∧
    Forall (λ nt, removed V r (child p nt.1) nt.2) ch.
Proof.
  cbn [removed]. do 2 f_equiv. induction ch as [|[n t] ch IH]; [done|]. rewrite Forall_cons. by rewrite IH.
Qed.
Lemma depth_child n t ch : (n, t) ∈ ch → (depth t < depth (Folder ch))%nat.
Proof.
  cbn [depth]. induction ch as [|[n' t'] ch IH]; [by intros ?%elem_of_nil|].
  intros [E|Hin]%elem_of_cons; [simplify_eq; lia|]. specialize (IH Hin). lia.
Qed.

Lemma metaColumn_path p : p ≠ "" → metaColumn p = p +:+ "-metadata".
Proof. intros Hp. unfold metaColumn. by rewrite bool_decide_false. Qed.

(** The columns of the chunks and of the listing. *)
Lemma under_chunk p j : under p (chunkName p j +:+ "-content") = true.
Proof. unfold chunkName. rewrite sapp_assoc. apply under_dash. Qed.
Lemma under_metadata p : under p (p +:+ "-metadata") = true.
Proof. apply under_dash. Qed.

(** Trees depend on nothing but the columns below their path. *)
Definition same_under (V V' : contents) (r p : string) : Prop :=
  ∀ c, under p c = true → V' r c = V r c.
Lemma same_under_child V V' r p n : same_under V V' r p → same_under V V' r (child p n).
Proof. intros H c Hc. apply H. by eapply under_slash. Qed.
Lemma stored_ext V V' r p cs : same_under V V' r p → stored V r p cs → stored V' r p cs.
Proof.
  intros H [Hm Hc]. split; [by rewrite H by apply under_metadata|].
  intros j c Hj. rewrite H by apply under_chunk. by apply Hc.
Qed.
Lemma repr_ext V V' r p t : same_under V V' r p → repr V r p t → repr V' r p t.
Proof.
  revert p. induction t as [cs|ch IH] using node_ind'; intros p H.
  - intros (Hp & Hne & Hst). split_and!; [by rewrite H by apply under_refl|done|by eapply stored_ext].
  - rewrite !repr_Folder. intros (Hp & Hpe & Hen & Hnd & Hs & Hch).
    split_and!; try done; [by rewrite H by apply under_refl| |].
    + unfold entries in *. rewrite metaColumn_path in * by done. by rewrite H by apply under_metadata.
    + rewrite Forall_forall in IH, Hch |- *. intros nt Hnt. apply (IH nt Hnt); [by apply same_under_child|auto].
Qed.
Lemma removed_ext V V' r p t : same_under V V' r p → removed V r p t → removed V' r p t.
Proof.
  revert p. induction t as [cs|ch IH] using node_ind'; intros p H.
  - intros (Hp & Hm & Hc). split_and!; [by rewrite H by apply under_refl|by rewrite H by apply under_metadata|].
    intros j Hj. rewrite H by apply under_chunk. auto.
  - rewrite !removed_Folder. intros (Hp & Hm & Hch).
    split_and!; [by rewrite H by apply under_refl|by rewrite H by apply under_metadata|].
    rewrite Forall_forall in IH, Hch |- *. intros nt Hnt. apply (IH nt Hnt); [by apply same_under_child|auto].
Qed.

(** Nothing has changed but columns below one of two paths. *)
Definition only_under (r p q : string) (V V' : contents) : Prop :=
  ∀ r' c, (r' = r → under p c = false ∧ under q c = false) → V' r' c = V r' c.
Global Instance only_under_preorder r p q : PreOrder (only_under r p q).
Proof. split; [by intros V r' c _|]. intros V1 V2 V3 H12 H23 r' c Hc. rewrite H23, H12; auto. Qed.
Lemma only_under_child r p q n m V V' :
  only_under r (child p n) (child q m) V V' → only_under r p q V V'.
Proof.
  intros H r' c Hc. apply H. intros Hr. destruct (Hc Hr) as [Hp Hq].
  split; apply not_true_iff_false; intros Hu%under_slash; congruence.
Qed.
Lemma only_under_same r p q k V V' : only_under r p q V V' → apart p k → apart q k → same_under V V' r k.
Proof.
  intros H Hp Hq c Hc. apply H. intros _.
  split; apply not_true_iff_false; intros Hu; [by eapply Hp|by eapply Hq].
Qed.
Lemma only_under_put r p q c v V :
  under p c = true ∨ under q c = true → only_under r p q V (view_effect (UPut r c v) V).
Proof.
  intros Hc r' c' Hc'. cbn [view_effect]. rewrite decide_False; [done|]. intros [= -> ->].
  destruct (Hc' eq_refl), Hc; congruence.
Qed.
Lemma only_under_delete r p q c V :
  under p c = true ∨ under q c = true → only_under r p q V (view_effect (UDelete r c) V).
Proof.
  intros Hc r' c' Hc'. cbn [view_effect]. rewrite decide_False; [done|]. intros [= -> ->].
  destruct (Hc' eq_refl), Hc; congruence.
Qed.

Lemma put_eq r c v V : view_effect (UPut r c v) V r c = Some v.
Proof. cbn. by rewrite decide_True. Qed.
Lemma put_ne r c v V r' c' : (r' = r → c' ≠ c) → view_effect (UPut r c v) V r' c' = V r' c'.
Proof. intros H. cbn. rewrite decide_False; [done|]. intros [= -> ->]. by apply H. Qed.
Lemma delete_eq r c V : view_effect (UDelete r c) V r c = None.
Proof. cbn. by rewrite decide_True. Qed.
Lemma delete_ne r c V r' c' : (r' = r → c' ≠ c) → view_effect (UDelete r c) V r' c' = V r' c'.
Proof. intros H. cbn. rewrite decide_False; [done|]. intros [= -> ->]. by apply H. Qed.

Lemma apart_ne p q c c' : apart p q → under p c = true → under q c' = true → c ≠ c'.
Proof. intros H Hp Hq ->. by eapply H. Qed.

(** Columns of one path are different. *)
Lemma content_not_path p k : chunkName p k +:+ "-content" ≠ p.
Proof. apply not_eq_sym. unfold chunkName. rewrite sapp_assoc. apply longer. Qed.
Lemma metadata_not_path p : p +:+ "-metadata" ≠ p.
Proof. apply not_eq_sym, longer. Qed.
Lemma content_not_metadata s t : s +:+ "-content" ≠ t +:+ "-metadata".
Proof. apply not_eq_sym, meta_not_content. Qed.
#[export] Hint Resolve content_not_path metadata_not_path content_not_metadata meta_not_content : columns.
#[export] Hint Resolve under_refl under_metadata under_chunk : columns.

(** The value of a cell after updates of other cells and of this one. *)
Ltac differ :=
  try intros _; solve [ auto with columns nocore | apply not_eq_sym; auto with columns nocore
        | eapply apart_ne; [eassumption|auto with columns..]
        | apply not_eq_sym; eapply apart_ne; [eassumption|auto with columns..] ].
Ltac cells := repeat first [rewrite put_eq | rewrite delete_eq | rewrite put_ne by differ | rewrite delete_ne by differ].

Section moving.
Context `{KvLaws St}.

Lemma got_Some (V : contents) r c v x : V r c = Some x → got V r c v → v = x.
Proof. intros E. unfold got. by rewrite E. Qed.

Lemma chunk_content_inj p j k : (j ≠ k)%nat → chunkName p j +:+ "-content" ≠ chunkName p k +:+ "-content".
Proof. intros Hne E%chunk_column_inj. done. Qed.

(** The loop over the chunks: from the [n]-th on they are moved, and nothing else is touched. *)
Lemma moveChunks_spec a r old new n cs V s :
  apart old new → session a r V s →
  (∀ j c, cs !! j = Some c → V r (chunkName old (S (n + j)) +:+ "-content") = Some c) →
  runs (moveChunks a r old new (chunkName old <$> seq (S n) (length cs))) (λ names s', ∃ V',
    session a r V' s' ∧ names = chunkName new <$> seq (S n) (length cs) ∧
    (∀ j c, cs !! j = Some c → V' r (chunkName new (S (n + j)) +:+ "-content") = Some c ∧
       V' r (chunkName old (S (n + j)) +:+ "-content") = None) ∧
    (∀ r' c, (r' = r → ∀ k, (n < k)%nat → c ≠ chunkName old k +:+ "-content" ∧ c ≠ chunkName new k +:+ "-content") →
       V' r' c = V r' c)) s.
Proof.
  intros Hap. revert n V s. induction cs as [|c cs IH]; intros n V s Hs Hc.
  { apply runs_ret. exists V. by split_and!. }
  cbn [length seq fmap list_fmap moveChunks]. apply runs_bind.
  assert (substr_from_exc (slen old) (chunkName old (S n)) = Some ("-" +:+ to_string (Z.of_nat (S n)))) as ->.
  { unfold substr_from_exc, chunkName. rewrite bool_decide_false by (rewrite slen_app; lia).
    by rewrite str_drop_app. }
  apply runs_ret. fold (chunkName new (S n)).
  assert (V r (chunkName old (S n) +:+ "-content") = Some c) as Hold
    by (specialize (Hc 0%nat c eq_refl); by rewrite Nat.add_0_r in Hc).
  apply runs_bind. apply (runs_Get _ _ _ _ _ _ Hs). intros v ->%(got_Some _ _ _ _ _ Hold).
  apply runs_bind. apply (runs_Put _ _ _ _ _ _ _ Hs). intros _ s1 _ Hs1.
  apply runs_bind. apply (runs_Delete _ _ _ _ _ _ Hs1). intros _ s2 _ Hs2.
  set (V2 := view_effect _ (view_effect _ V)) in Hs2.
  assert (∀ j k, chunkName new j +:+ "-content" ≠ chunkName old k +:+ "-content") as Hno.
  { intros j k. apply (apart_ne new old); [by apply apart_sym|apply under_chunk|apply under_chunk]. }
  apply runs_bind. eapply runs_mono; [apply (IH (S n) V2 s2 Hs2)|].
  { intros j c' Hj. subst V2. rewrite delete_ne by (intros _; apply chunk_content_inj; lia).
    rewrite put_ne by done. specialize (Hc (S j) c' Hj). by rewrite Nat.add_succ_r in Hc. }
  cbv beta. intros names s3 (V3 & Hs3 & -> & Hnew & Hframe). apply runs_ret. exists V3.
  split_and!; [done|done| |].
  - intros [|j] c' Hj.
    + injection Hj as ->. rewrite Nat.add_0_r. rewrite !Hframe.
      * subst V2. by cells.
      * intros _ k Hk. split; [apply chunk_content_inj; lia|done].
      * intros _ k Hk. split; [apply Hno|apply chunk_content_inj; lia].
    + rewrite Nat.add_succ_r. by apply Hnew.
  - intros r' c' Hk. rewrite Hframe by (intros ? k ?; apply Hk; [done|lia]). subst V2.
    rewrite delete_ne, put_ne; [done|..]; intros Hr; apply (Hk Hr (S n)); lia.
Qed.

Lemma join_cons_prefix sep x l : ∃ u, join sep (x :: l) = x +:+ u.
Proof. destruct l as [|y l]; [exists ""; by rewrite sapp_nil_r|]. by eexists. Qed.
(** The list of the chunks of a file is not taken for an error. *)
Lemma hasChunks_names p n : is_ERR p = false → hasChunks (join "," (chunkNames p (S n))) = true.
Proof.
  intros Hp. unfold chunkNames. cbn [seq fmap list_fmap].
  destruct (join_cons_prefix "," (chunkName p 1) (chunkName p <$> seq 2 n)) as [u ->].
  unfold chunkName. rewrite !sapp_assoc, sapp_cons. unfold hasChunks. rewrite is_ERR_app by done. rewrite bool_decide_false; [done|].
  intros [_ E]%sapp_nil_inv. done.
Qed.

(** The program moves the tree [t] from [old] to [new]: it finds it as [Pre] says and leaves it as
    [Post] says, with nothing of it left at [old]. *)
Definition moves_from_to (Pre : contents → string → node → Prop)
    (Post : contents → string → string → node → Prop) (a r old new : string) (t : node) (m : M St unit) : Prop :=
  ∀ V s, session a r V s → Pre V old t →
    runs m (λ _ s', ∃ V', session a r V' s' ∧
      Post V' old new t ∧ removed V' r old t ∧ only_under r old new V V') s.
Definition moves (a r : string) : string → string → node → M St unit → Prop :=
  moves_from_to (λ V p t, repr V r p t) (λ V _ p t, repr V r p t) a r.

Lemma renameFileColumns_moves a r old new cs :
  apart old new → good_path old → moves a r old new (File cs) (renameFileColumns a r old new).
Proof.
  intros Hap [Hcomma Herr] V s Hs (Hmark & Hne & Hmeta & Hc). unfold renameFileColumns.
  rewrite bool_decide_false in Hmeta by done. destruct cs as [|c0 cs]; [done|]. clear Hne.
  apply runs_bind. apply (runs_Get _ _ _ _ _ _ Hs). intros v ->%(got_Some _ _ _ _ _ Hmeta).
  cbn [length]. rewrite hasChunks_names, split_chunkNames by (done || lia).
  apply runs_bind, runs_bind.
  eapply runs_mono; [apply (moveChunks_spec a r old new 0 (c0 :: cs) V s Hap Hs); exact Hc|].
  cbv beta. intros names s1 (V1 & Hs1 & -> & Hmoved & Hframe).
  apply runs_bind. apply (runs_Put _ _ _ _ _ _ _ Hs1). intros _ s2 _ Hs2.
  apply runs_bind. apply (runs_Delete _ _ _ _ _ _ Hs2). intros _ s3 _ Hs3. apply runs_ret.
  apply runs_bind. apply (runs_Put _ _ _ _ _ _ _ Hs3). intros _ s4 _ Hs4.
  apply runs_bind. apply (runs_Delete _ _ _ _ _ _ Hs4). intros _ s5 _ Hs5. apply runs_ret.
  eexists. split; [exact Hs5|].
  split_and!; [split_and!; [|done|split]|split_and!|]; cells; try done.
  - intros j c Hj. cells. apply (Hmoved j c Hj).
  - intros j Hj. cells. apply lookup_lt_is_Some in Hj as [c Hj]. apply (Hmoved j c Hj).
  - intros r' c Hout.
    assert (∀ c', under old c' = true ∨ under new c' = true → r' = r → c ≠ c') as Hno
      by (intros c' Hc' Hr ->; destruct (Hout Hr), Hc'; congruence).
    rewrite delete_ne, put_ne, delete_ne, put_ne by (apply Hno; auto with columns).
    apply Hframe. intros Hr k _. split; apply Hno; auto with columns.
Qed.

(** The children, one after the other. *)
Lemma children_move (Pre : contents → string → node → Prop) (Post : contents → string → string → node → Prop)
    a r old new (body : string → M St unit) ch V s :
  (∀ V V' p t, same_under V V' r p → Pre V p t → Pre V' p t) →
  (∀ V V' q p t, same_under V V' r p → Post V q p t → Post V' q p t) →
  apart old new → NoDup ch.*1 → Forall simple ch.*1 →
  (∀ n t, (n, t) ∈ ch → moves_from_to Pre Post a r (child old n) (child new n) t (body (child old n))) →
  session a r V s → Forall (λ nt, Pre V (child old nt.1) nt.2) ch →
  runs (for_each body (child old <$> ch.*1)) (λ _ s', ∃ V', session a r V' s' ∧
    Forall (λ nt, Post V' (child old nt.1) (child new nt.1) nt.2) ch ∧
    Forall (λ nt, removed V' r (child old nt.1) nt.2) ch ∧
    ∀ r' c, (r' = r → ∀ n, n ∈ ch.*1 → under (child old n) c = false ∧ under (child new n) c = false) →
      V' r' c = V r' c) s.
Proof.
  intros Hpre Hpost Hap Hnd Hsi. revert V s. induction ch as [|[n t] ch IH]; intros V s Hb Hs Hch.
  { apply runs_ret. exists V. by split_and!. }
  cbn [fmap list_fmap fst] in *. apply NoDup_cons in Hnd as [Hn Hnd].
  apply Forall_cons in Hsi as [Hsn Hsi]. apply Forall_cons in Hch as [Ht Hch]. cbn [fst snd] in Ht.
  cbn [for_each]. apply runs_bind. eapply runs_mono; [by apply (Hb n t (list_elem_of_here _ _))|].
  intros [] s1 (V1 & Hs1 & Hnew & Hold & Hfr).
  assert (∀ m, m ∈ ch.*1 → simple m ∧ n ≠ m) as Hother.
  { intros m Hm. split; [by eapply Forall_forall in Hsi|]. by intros ->. }
  eapply runs_mono; [apply (IH Hnd Hsi V1 s1); [|done|]|].
  - intros m u Hm. apply Hb. by right.
  - rewrite Forall_forall in Hch |- *. intros [m u] Hm. cbn. destruct (Hother m) as [? ?]; [by apply (list_elem_of_fmap_2 fst) in Hm|].
    eapply Hpre; [|by apply (Hch (m, u))]. eapply only_under_same; [exact Hfr|by apply child_apart|].
    by apply child_apart_other, apart_sym.
  - intros [] s2 (V2 & Hs2 & Hnews & Holds & Hfr2). exists V2. split_and!; [done|..].
    + apply Forall_cons. split; [|done]. eapply Hpost; [|exact Hnew]. intros c Hc. apply Hfr2.
      intros _ m [? ?]%Hother. split; apply not_true_iff_false; intros Hu.
      * by apply (child_apart_other old new m n Hap c).
      * by apply (child_apart new n m) with c.
    + apply Forall_cons. split; [|done]. eapply removed_ext; [|exact Hold]. intros c Hc. apply Hfr2.
      intros _ m [? ?]%Hother. split; apply not_true_iff_false; intros Hu.
      * by apply (child_apart old n m) with c.
      * by apply (child_apart_other old new n m Hap c).
    + intros r' c Hc. rewrite Hfr2, Hfr; [done|..]; intros Hr.
      * by apply (Hc Hr n), list_elem_of_here.
      * intros m Hm. apply (Hc Hr m). by right.
Qed.

(** The columns of a folder are not those of its children. *)
Lemma child_under_path p n : under (child p n) p = false.
Proof.
  apply not_true_iff_false. unfold child. rewrite under_spec.
  intros [E|[[t E]|[t E]]]; rewrite ?sapp_assoc, ?sapp_cons in E; by apply longer in E.
Qed.
Lemma child_under_metadata p n : under (child p n) (p +:+ "-metadata") = false.
Proof.
  apply not_true_iff_false. unfold child. rewrite under_spec.
  intros [E|[[t E]|[t E]]]; rewrite ?sapp_assoc, ?sapp_cons in E; by apply (inj _) in E.
Qed.

(** What the metadata of a folder lists. *)
Lemma listed V r p m :
  p ≠ "" → got V r (p +:+ "-metadata") m →
  filter (λ s, s ≠ "" ∧ s ≠ p) (splitStringStorage (if is_ERR m then "" else m) ","%char) =
  filter (λ s, s ≠ p) (entries V r p).
Proof.
  intros Hp Hm. unfold entries, got in *. rewrite metaColumn_path by done.
  assert (∀ l : list string, filter (λ s, s ≠ "" ∧ s ≠ p) l = filter (λ s, s ≠ p) (filter (λ s, s ≠ "") l)) as E.
  { intros l. rewrite list_filter_filter. apply list_filter_iff. tauto. }
  rewrite E. destruct (V r (p +:+ "-metadata")) as [x|]; [subst m; by destruct (is_ERR x)|].
  by rewrite (missing_is_ERR m Hm).
Qed.
Lemma filter_keeps `{∀ x : string, Decision (P x)} l : Forall P l → filter P l = l.
Proof. induction 1 as [|x l Hx _ IH]; [done|]. by rewrite filter_cons_True, IH. Qed.
Definition entry_ok (x : string) : Prop := x ≠ "" ∧ no_char ","%char x ∧ is_ERR x = false.
Lemma is_ERR_join x l : is_ERR x = false → is_ERR (join "," (x :: l)) = false.
Proof. intros Hx. destruct l as [|y l]; [done|]. by apply is_ERR_app. Qed.
Lemma entries_join V r p l : V r (metaColumn p) = Some (join "," l) → Forall entry_ok l → entries V r p = l.
Proof.
  intros Hm Hl. unfold entries. rewrite Hm. destruct l as [|x l]; [done|].
  rewrite is_ERR_join by (apply Forall_cons in Hl as [Hx _]; apply Hx).
  rewrite splitStringStorage_split, split_on_join; [|done|].
  - apply filter_keeps, (Forall_impl _ _ _ Hl). by intros y [].
  - apply (Forall_impl _ _ _ Hl). by intros y (_ & ? & _).
Qed.
Lemma child_entry_ok p n : good_path p → simple n → entry_ok (child p n).
Proof. intros Hp Hn. destruct (child_good p n Hp Hn). split_and!; [|done..]. unfold child. by intros [_ ?]%sapp_nil_inv. Qed.
Lemma movedChild_child new old n : simple n → movedChild new (child old n) = child new n.
Proof. intros Hn. unfold movedChild. rewrite localName_child by done. rewrite bool_decide_false; [done|apply Hn]. Qed.
Lemma child_ne p n : child p n ≠ p.
Proof. apply not_eq_sym, longer. Qed.

(** The columns of a folder itself are those of no child, here or at a path apart. *)
Definition own_column (p c : string) : Prop := c = p ∨ c = p +:+ "-metadata".
Lemma own_column_under p c : own_column p c → under p c = true.
Proof. intros [->| ->]; auto with columns. Qed.
Lemma own_column_child p q n c :
  apart p q → own_column p c ∨ own_column q c → under (child p n) c = false ∧ under (child q n) c = false.
Proof.
  assert (∀ p q c n, apart p q → under q c = true → under (child p n) c = false) as Hoth.
  { intros p' q' c' n' Hpq Hc. apply not_true_iff_false. intros Hu%under_slash. by apply (Hpq c'). }
  assert (∀ p n c, own_column p c → under (child p n) c = false) as Hown.
  { intros p' n' c' [->| ->]; [apply child_under_path|apply child_under_metadata]. }
  intros Hap [Hc|Hc]; split; auto; (eapply Hoth; [|by apply own_column_under]); [by apply apart_sym|done].
Qed.

(** The four updates with which a folder moves, before its children do. *)
Definition mark_moved (r old new meta : string) (V : contents) : contents :=
  view_effect (UDelete r (old +:+ "-metadata")) (view_effect (UPut r old "DEL KV-Folder")
    (view_effect (UPut r (new +:+ "-metadata") meta) (view_effect (UPut r new "KV-Folder") V))).

Lemma mark_moved_frame r old new meta V :
  only_under r old new V (mark_moved r old new meta V).
Proof.
  unfold mark_moved. etrans; [|apply only_under_delete; auto with columns].
  etrans; [|apply only_under_put; auto with columns]. etrans; apply only_under_put; auto with columns.
Qed.
Lemma mark_moved_child r old new meta V n :
  apart old new → same_under V (mark_moved r old new meta V) r (child old n).
Proof.
  intros Hap c Hc. assert (under old c = true) as Hu by (by eapply under_slash).
  assert (c ≠ old ∧ c ≠ old +:+ "-metadata") as [? ?].
  { split; intros ->; [by rewrite child_under_path in Hc|by rewrite child_under_metadata in Hc]. }
  unfold mark_moved. by rewrite delete_ne, put_ne, put_ne, put_ne by (done || differ).
Qed.
Lemma mark_moved_cells r old new meta V (V4 := mark_moved r old new meta V) :
  apart old new →
  V4 r new = Some "KV-Folder" ∧ V4 r (new +:+ "-metadata") = Some meta ∧
  V4 r old = Some "DEL KV-Folder" ∧ V4 r (old +:+ "-metadata") = None.
Proof. intros Hap. subst V4. unfold mark_moved. split_and!; by cells. Qed.

(** One iteration of the loop over the children. *)
Lemma moveNode_moves a r old new t (rec : M St unit) :
  (∀ ch, t = Folder ch → moves a r old new t rec) → apart old new → good_path old →
  moves a r old new t (
    marker ← kv_Get a r old;
    if bool_decide (marker = "KV-Folder") then rec
    else if bool_decide (marker = "KV-File") then renameFileColumns a r old new else mret tt).
Proof.
  intros Hrec Hap Hg V s Hs Ht. apply runs_bind. apply (runs_Get _ _ _ _ _ _ Hs). intros v Hv.
  destruct t as [cs|ch].
  - destruct Ht as [E Ht]. apply (got_Some _ _ _ _ _ E) in Hv as ->.
    by apply renameFileColumns_moves.
  - pose proof Ht as [E _]. apply (got_Some _ _ _ _ _ E) in Hv as ->. by eapply Hrec.
Qed.

(** Moving a folder with what is below it. *)
Lemma renameFolderMoveRec_moves fuel a r old new ch :
  (depth (Folder ch) ≤ fuel)%nat → apart old new → good_path old → good_path new → new ≠ "" →
  moves a r old new (Folder ch) (renameFolderMoveRec fuel a r old new).
Proof.
  revert old new ch. induction fuel as [|fuel IH]; [simpl; lia|].
  intros old new ch Hd Hap Hgo Hgn Hnew V s Hs HT.
  apply repr_Folder in HT as (Hmark & Hne & Hen & Hnd & Hsi & Hch).
  cbn [renameFolderMoveRec]. apply runs_bind. apply (runs_Get _ _ _ _ _ _ Hs). intros m Hm. cbv zeta.
  rewrite (listed V r old m Hne Hm), Hen.
  rewrite filter_keeps by (apply Forall_fmap, Forall_true; intros n; apply child_ne).
  assert (movedChild new <$> (child old <$> ch.*1) = child new <$> ch.*1) as ->.
  { rewrite <-list_fmap_compose. apply list_fmap_ext. intros i n Hi.
    apply movedChild_child. by eapply Forall_lookup in Hsi. }
  do 3 (apply runs_bind; apply (runs_Put _ _ _ _ _ _ _ Hs); clear s Hs; intros _ s _ Hs).
  apply runs_bind. apply (runs_Delete _ _ _ _ _ _ Hs). intros _ s4 _ Hs4.
  fold (mark_moved r old new (join "," (child new <$> ch.*1)) V) in Hs4. set (V4 := mark_moved _ _ _ _ V) in Hs4.
  eapply runs_mono; [apply (children_move (λ V p t, repr V r p t) (λ V _ p t, repr V r p t) a r old new _ ch V4 s4);
    [intros V5 V6 ? ?; apply repr_ext|intros V5 V6 ? ? ?; apply repr_ext|done..| |done|]|].
  - intros n t Hnt. pose proof Hnt as Hn%(list_elem_of_fmap_2 fst). cbn in Hn.
    eapply Forall_forall in Hsi as Hn'; [|exact Hn]. rewrite (movedChild_child new old n Hn').
    apply moveNode_moves; [|by apply child_apart_other|by apply child_good].
    intros ch' ->. apply depth_child in Hnt. apply IH; [lia|by apply child_apart_other|by apply child_good..|].
    by apply child_entry_ok.
  - rewrite Forall_forall in Hch |- *. intros nt Hnt. eapply repr_ext; [|by apply Hch].
    by apply mark_moved_child.
  - intros [] s5 (V5 & Hs5 & Hnews & Holds & Hfr). exists V5. split; [done|].
    destruct (mark_moved_cells r old new (join "," (child new <$> ch.*1)) V Hap) as (E1 & E2 & E3 & E4).
    fold V4 in E1, E2, E3, E4.
    assert (∀ c, own_column old c ∨ own_column new c → V5 r c = V4 r c) as Hkeep.
    { intros c Hc. apply Hfr. intros _ n _. by apply own_column_child. }
    unfold own_column in Hkeep.
    split_and!.
    + apply repr_Folder. rewrite Hkeep by auto. split_and!; [done..| |done|done|done].
      apply entries_join; [rewrite metaColumn_path by done; rewrite Hkeep by auto; done|].
      apply Forall_fmap, (Forall_impl _ _ _ Hsi). intros n Hn. by apply child_entry_ok.
    + apply removed_Folder. rewrite !Hkeep by auto. done.
    + etrans; [apply (mark_moved_frame r old new)|]. intros r' c Hc. apply Hfr. intros Hr n _.
      destruct (Hc Hr). split; apply not_true_iff_false; intros Hu%under_slash; congruence.
Qed.

(** ** The listings of the two folders *)

Lemma metaColumn_inj p q : metaColumn p = metaColumn q → p = q.
Proof.
  unfold metaColumn. repeat case_bool_decide; subst; intros E; try done.
  - apply (f_equal slen) in E. rewrite slen_app in E. simpl in E. lia.
  - apply (f_equal slen) in E. rewrite slen_app in E. simpl in E. lia.
  - by apply sapp_inj_r in E.
Qed.
Lemma entries_ext V V' r p : V' r (metaColumn p) = V r (metaColumn p) → entries V' r p = entries V r p.
Proof. intros E. unfold entries. by rewrite E. Qed.
Lemma entries_items V r p m :
  V r (metaColumn p) = Some m → is_ERR m = false →
  entries V r p = filter (λ s, s ≠ "") (splitStringStorage m ","%char).
Proof. intros E He. unfold entries. by rewrite E, He. Qed.
Lemma split_on_snoc d s t : no_char d t → split_on d (s +:+ String d t) = split_on d s ++ [t].
Proof.
  intros Ht. rewrite <-(split_on_join d (split_on d s ++ [t])).
  - rewrite join_snoc by apply split_on_ne. by rewrite join_split_on.
  - by destruct (split_on d s).
  - apply Forall_app. split; [apply split_on_pieces|by constructor].
Qed.

(** The listing after an entry is appended to it. *)
Lemma entries_append V V' r p m x :
  got V r (metaColumn p) m → entry_ok x →
  V' r (metaColumn p) = Some (if is_ERR m || bool_decide (m = "") then x else m +:+ "," +:+ x) →
  entries V' r p = entries V r p ++ [x].
Proof.
  intros Hm Hx HV'. destruct (is_ERR m) eqn:Em; cbn [orb] in HV'.
  { rewrite (entries_join V' r p [x]) by (try constructor; done). unfold entries, got in *.
    destruct (V r (metaColumn p)); [subst m; by rewrite Em|done]. }
  unfold got in Hm. destruct (V r (metaColumn p)) as [m'|] eqn:EV; [subst m'|by rewrite missing_is_ERR in Em].
  rewrite (entries_items V r p m EV Em). destruct Hx as (Hne & Hc & He). case_bool_decide as E.
  { subst m. by rewrite (entries_join V' r p [x]) by (repeat constructor; done). }
  rewrite (entries_items V' r p _ HV') by (by apply is_ERR_app).
  rewrite !splitStringStorage_split. change ("," +:+ x) with (String "," x).
  rewrite split_on_snoc, filter_app by done. by rewrite (filter_cons_True _ x []).
Qed.

Lemma entries_snoc V V' r p m x :
  V r (metaColumn p) = Some m → is_ERR m = false → x ≠ "" → good_path x →
  V' r (metaColumn p) = Some (join "," (splitStringStorage m ","%char ++ [x])) →
  entries V' r p = entries V r p ++ [x].
Proof.
  intros EV Em Hx [Hc _]. rewrite splitStringStorage_split, join_snoc by apply split_on_ne.
  change "," with (String "," "") at 1. rewrite join_split_on. intros HV'.
  rewrite (entries_items V' r p _ HV'), (entries_items V r p m EV Em) by (by apply is_ERR_app).
  rewrite !splitStringStorage_split. change ("," +:+ x) with (String "," x).
  rewrite split_on_snoc, filter_app by done. by rewrite (filter_cons_True _ x []).
Qed.

(** The listing after an entry is removed from it. *)
Lemma entries_remove V V' r p m x :
  V r (metaColumn p) = Some m → is_ERR m = false → Forall (λ y, is_ERR y = false) (entries V r p) →
  let items := filter (λ item, item ≠ x) (splitStringStorage m ","%char) in
  V' r (metaColumn p) = (if bool_decide (items = []) then None else Some (join "," items)) →
  entries V' r p = filter (λ item, item ≠ x) (entries V r p).
Proof.
  intros EV Em Herr items HV'. rewrite (entries_items V r p m EV Em) in Herr |- *.
  assert (filter (λ item, item ≠ x) (filter (λ s, s ≠ "") (splitStringStorage m ",")) =
    filter (λ s, s ≠ "") items) as ->.
  { subst items. rewrite !list_filter_filter. apply list_filter_iff. tauto. }
  case_bool_decide as E; [unfold entries; by rewrite HV', E|].
  rewrite (entries_items V' r p _ HV').
  - rewrite !splitStringStorage_split, split_on_join; [done|done|].
    subst items. rewrite splitStringStorage_split. apply Forall_forall. intros y [_ Hy]%list_elem_of_filter.
    pose proof (split_on_pieces "," m) as Hall. rewrite Forall_forall in Hall. auto.
  - destruct items as [|y items'] eqn:Ei; [done|]. apply is_ERR_join.
    destruct (decide (y = "")) as [->|Hy]; [done|]. rewrite Forall_forall in Herr. apply Herr.
    apply list_elem_of_filter. split; [done|]. assert (y ∈ items) as Hin by (rewrite Ei; by left).
    by apply list_elem_of_filter in Hin as [_ ?].
Qed.

(** The part of [moveFolder] and [moveFile] that takes an entry out of a listing. *)
Lemma unlist_spec a r p x m V s (tail := filter (λ item, item ≠ x) (splitStringStorage m ","%char)) :
  session a r V s → V r (metaColumn p) = Some m → is_ERR m = false →
  Forall (λ y, is_ERR y = false) (entries V r p) →
  runs (if bool_decide (tail = []) then _ ← kv_Delete a r (metaColumn p); mret tt
        else _ ← kv_Put a r (metaColumn p) (join "," tail); mret tt)
    (λ _ s', ∃ V', session a r V' s' ∧ entries V' r p = filter (λ item, item ≠ x) (entries V r p) ∧
      ∀ r' c, (r' = r → c ≠ metaColumn p) → V' r' c = V r' c) s.
Proof.
  intros Hs EV Em Herr. case_bool_decide as E; apply runs_bind;
    [apply (runs_Delete _ _ _ _ _ _ Hs)|apply (runs_Put _ _ _ _ _ _ _ Hs)];
    intros _ s' _ Hs'; apply runs_ret; eexists; (split; [exact Hs'|]); split.
  - apply (entries_remove V _ r p m x EV Em Herr). rewrite bool_decide_true by done. apply delete_eq.
  - intros r' c Hc. by apply delete_ne.
  - apply (entries_remove V _ r p m x EV Em Herr). rewrite bool_decide_false by done. apply put_eq.
  - intros r' c Hc. by apply put_ne.
Qed.

(** The listing of [folder] is no column of [p]. *)
Definition lists_outside (p folder : string) : Prop := under p (metaColumn folder) = false.

(** The end of [moveFolder] and [moveFile]: the entry goes from the listing of [source] to that of
    [target], whose new text is [X]. *)
Lemma relist_spec a r old new target source X V V1 s :
  only_under r old new V V1 → old ∈ entries V r source → Forall (λ e, is_ERR e = false) (entries V r source) →
  target ≠ source → Forall (λ p, lists_outside p target ∧ lists_outside p source) [old; new] →
  (∀ V2 : contents, V2 r (metaColumn target) = Some X → entries V2 r target = entries V1 r target ++ [new]) →
  session a r V1 s →
  runs (_ ← kv_Put a r (metaColumn target) X; srcMeta ← kv_Get a r (metaColumn source);
        let items := filter (λ item, item ≠ old) (splitStringStorage srcMeta ","%char) in
        if bool_decide (items = []) then _ ← kv_Delete a r (metaColumn source); mret tt
        else _ ← kv_Put a r (metaColumn source) (join "," items); mret tt) (λ _ s', ∃ V',
    session a r V' s' ∧ same_under V1 V' r old ∧ same_under V1 V' r new ∧
    entries V' r target = entries V r target ++ [new] ∧
    entries V' r source = filter (λ e, e ≠ old) (entries V r source) ∧
    ∀ r' c, (r' = r → c ≠ metaColumn target ∧ c ≠ metaColumn source) → V' r' c = V1 r' c) s.
Proof.
  intros Hfr Hin Herr Hts Hout HX Hs1. apply Forall_cons in Hout as [[Hot Hos] [[Hnt Hns] _]%Forall_cons].
  assert (metaColumn target ≠ metaColumn source) as Hmm by (by intros ?%metaColumn_inj).
  apply runs_bind. apply (runs_Put _ _ _ _ _ _ _ Hs1). intros _ s2 _ Hs2. set (V2 := view_effect _ V1) in Hs2.
  assert (V2 r (metaColumn source) = V r (metaColumn source)) as Esrc.
  { subst V2. rewrite put_ne by (intros _; by apply not_eq_sym). by apply Hfr. }
  unfold entries in Hin. destruct (V r (metaColumn source)) as [sm|] eqn:EV; [|by apply elem_of_nil in Hin].
  destruct (is_ERR sm) eqn:Esm; [by apply elem_of_nil in Hin|]. clear Hin.
  apply runs_bind. apply (runs_Get _ _ _ _ _ _ Hs2). intros v ->%(got_Some _ _ _ _ _ Esrc).
  assert (entries V2 r source = entries V r source) as Een by (apply entries_ext; congruence).
  eapply runs_mono; [apply (unlist_spec a r source old sm V2 s2 Hs2 Esrc Esm); by rewrite Een|].
  intros [] s3 (V3 & Hs3 & Hrem & Hfr3). exists V3.
  assert (∀ r' c, (r' = r → c ≠ metaColumn target ∧ c ≠ metaColumn source) → V3 r' c = V1 r' c) as Hkeep.
  { intros r' c Hc. rewrite Hfr3 by (intros; by apply Hc). apply put_ne. intros; by apply Hc. }
  unfold lists_outside in *.
  split_and!; [done|..|by rewrite Hrem, Een|done]; try (intros c Hc; apply Hkeep; intros _; split; congruence).
  rewrite (entries_ext V2 V3) by (by apply Hfr3). rewrite HX by (subst V2; apply put_eq).
  f_equal. apply entries_ext. by apply Hfr.
Qed.

(** ** Moving a folder *)

(** C12: moving a folder moves all that is below it: the whole tree is found at the new path and
    nothing of it is left at the old one, the target's listing has the folder as its last entry, the
    listing of the folder it was in has lost it and nothing else, and no other column of the store
    has changed.  The target may not be inside the folder. *)
Theorem moveFolder_correct fuel a r old target ch V s :
  let new := inFolder target (localName old) in
  let source := parentPath old in
  session a r V s → repr V r old (Folder ch) → (depth (Folder ch) ≤ fuel)%nat →
  old ∈ entries V r source → Forall (λ e, is_ERR e = false) (entries V r source) →
  apart old new → good_path old → good_path new → new ≠ "" → target ≠ source →
  Forall (λ p, lists_outside p target ∧ lists_outside p source) [old; new] →
  runs (moveFolder fuel a r old target) (λ _ s', ∃ V', session a r V' s' ∧
    repr V' r new (Folder ch) ∧ removed V' r old (Folder ch) ∧
    entries V' r target = entries V r target ++ [new] ∧
    entries V' r source = filter (λ e, e ≠ old) (entries V r source) ∧
    ∀ r' c, (r' = r → under old c = false ∧ under new c = false ∧
      c ≠ metaColumn target ∧ c ≠ metaColumn source) → V' r' c = V r' c) s.
Proof.
  intros new source Hs HT Hd Hin Herr Hap Hgo Hgn Hne Hts Hout.
  unfold moveFolder. cbv zeta. fold new source. apply runs_bind.
  eapply runs_mono; [by apply (renameFolderMoveRec_moves fuel a r old new ch Hd Hap Hgo Hgn Hne V)|].
  intros [] s1 (V1 & Hs1 & Hnew & Hold & Hfr). apply runs_bind. apply (runs_Get _ _ _ _ _ _ Hs1). intros dm Hdm.
  eapply runs_mono; [apply (relist_spec a r old new target source _ V V1 s1 Hfr Hin Herr Hts Hout); [|done]|].
  { intros V2 HV2. apply (entries_append V1 V2 r target dm new Hdm); [by destruct Hgn|done]. }
  intros [] s3 (V3 & Hs3 & Ho3 & Hn3 & Htgt & Hsrc & Hfr3). exists V3.
  split_and!; [done|by eapply repr_ext|by eapply removed_ext|done|done|].
  intros r' c Hc. rewrite Hfr3 by (intros; by apply Hc). apply Hfr. intros Hr. by destruct (Hc Hr) as (? & ? & _).
Qed.

(** ** Renaming and moving a file *)

Lemma filter_fmap_keep (f : string → string) (l : list string) :
  (∀ e, f e = "" ↔ e = "") → filter (λ s, s ≠ "") (f <$> l) = f <$> filter (λ s, s ≠ "") l.
Proof.
  intros Hf. induction l as [|e l IH]; [done|]. rewrite fmap_cons, !filter_cons, IH.
  specialize (Hf e). repeat case_decide; try done; exfalso; tauto.
Qed.
(** The listing after one entry is replaced. *)
Lemma entries_replace V V' r p m x y :
  V r (metaColumn p) = Some m → is_ERR m = false → Forall (λ e, is_ERR e = false) (entries V r p) →
  x ≠ "" → entry_ok y →
  let f e := if bool_decide (e = x) then y else e in
  V' r (metaColumn p) = Some (join "," (f <$> splitStringStorage m ","%char)) →
  entries V' r p = f <$> entries V r p.
Proof.
  intros EV Em Herr Hx (Hy & Hyc & Hye) f HV'. rewrite (entries_items V r p m EV Em) in Herr |- *.
  assert (∀ e, f e = "" ↔ e = "") as Hf by (intros e; subst f; cbv beta; case_bool_decide; subst; done).
  rewrite <-filter_fmap_keep by done. rewrite splitStringStorage_split in *.
  pose proof (split_on_ne "," m) as Hne. pose proof (split_on_pieces "," m) as Hpc.
  rewrite (entries_items V' r p _ HV').
  - rewrite splitStringStorage_split, split_on_join; [done|by destruct (split_on "," m)|].
    apply Forall_fmap, (Forall_impl _ _ _ Hpc). intros e He. cbn. subst f. cbv beta. by case_bool_decide.
  - destruct (split_on "," m) as [|e l]; [done|]. rewrite fmap_cons. apply is_ERR_join.
    subst f. cbv beta. case_bool_decide; [done|]. destruct (decide (e = "")) as [->|He]; [done|].
    rewrite filter_cons_True in Herr by done. by apply Forall_cons in Herr as [? _].
Qed.

(** C32: a file that is renamed downloads from its new name with the content it had, has no column
    left under its old name, and its entry in the folder's listing is replaced in its place; no other
    column changes.  The new name gets the extension of the old one. *)
Theorem renameFile_correct a r folder oldName newName cs V s :
  let old := inFolder folder oldName in
  let new := inFolder folder (ensureSameExtension oldName newName) in
  session a r V s → repr V r old (File cs) → isValidName newName = true → V r new ≠ Some "KV-File" →
  old ∈ entries V r folder → Forall (λ e, is_ERR e = false) (entries V r folder) →
  apart old new → good_path old → good_path new → old ≠ "" → new ≠ "" →
  lists_outside old folder → lists_outside new folder →
  runs (_ ← renameFile a r folder oldName newName; loadFile a r new) (λ content s', ∃ V',
    session a r V' s' ∧ content = foldr String.append "" cs ∧ removed V' r old (File cs) ∧
    entries V' r folder = (λ e, if bool_decide (e = old) then new else e) <$> entries V r folder ∧
    ∀ r' c, (r' = r → under old c = false ∧ under new c = false ∧ c ≠ metaColumn folder) →
      V' r' c = V r' c) s.
Proof.
  intros old new Hs HT Hv Hfree Hin Herr Hap Hgo Hgn Hone Hnne Hlo Hln. unfold renameFile. cbv zeta.
  fold old new. assert (newName ≠ "") as Hn0 by (by intros ->).
  rewrite (bool_decide_false (newName = "")), Hv by done. cbn [orb negb].
  apply runs_bind, runs_bind. apply (runs_Get _ _ _ _ _ _ Hs). intros v Hg.
  rewrite (bool_decide_false (v = "KV-File")); cycle 1.
  { intros ->. unfold got in Hg. destruct (V r new); [by subst|by destruct Hg]. }
  apply runs_bind. eapply runs_mono; [by apply (renameFileColumns_moves a r old new cs Hap Hgo V)|].
  intros [] s1 (V1 & Hs1 & Hnew & Hold & Hfr).
  unfold entries in Hin. destruct (V r (metaColumn folder)) as [m|] eqn:EV; [|by apply elem_of_nil in Hin].
  destruct (is_ERR m) eqn:Em; [by apply elem_of_nil in Hin|]. clear Hin.
  assert (V1 r (metaColumn folder) = Some m) as EV1 by (rewrite <-EV; by apply Hfr).
  apply runs_bind. apply (runs_Get _ _ _ _ _ _ Hs1). intros v' ->%(got_Some _ _ _ _ _ EV1).
  apply runs_bind. apply (runs_Put _ _ _ _ _ _ _ Hs1). intros _ s2 _ Hs2. apply runs_ret.
  set (V2 := view_effect _ V1) in Hs2.
  assert (∀ p, lists_outside p folder → same_under V1 V2 r p) as Hsame.
  { intros p Hp c Hc. apply put_ne. intros _ ->. unfold lists_outside in Hp. congruence. }
  assert (repr V2 r new (File cs)) as (_ & Hcs & Hst) by (by eapply repr_ext; [apply Hsame|]).
  eapply runs_mono; [apply (loadFile_spec a r new cs V2); [apply Hgn|done..]|].
  intros content s3 [Hs3 ->]. exists V2.
  split_and!; [done|done|by eapply removed_ext; [apply Hsame|]|..].
  - apply (entries_replace V V2 r folder m old new EV Em Herr); [done|by destruct Hgn|apply put_eq].
  - intros r' c Hc. subst V2. rewrite put_ne by (intros; by apply Hc). apply Hfr.
    intros Hr. by destruct (Hc Hr) as (? & ? & _).
Qed.

(** The names [moveFile] tries: the file's own, then with "(1)", "(2)", ... before its extension. *)
Definition candidate_name (target fileName : string) (j : nat) : string :=
  match j with
  | O => inFolder target fileName
  | S _ =>
      let dotPos := find_last_of "."%char fileName in
      inFolder target (substr_to dotPos fileName +:+ "(" +:+ to_string (Z.of_nat j) +:+ ")" +:+
        match dotPos with Some p => substr_from p fileName | None => "" end)
  end.
Definition taken (V : contents) (r p : string) : Prop := V r p = Some "KV-File" ∨ V r p = Some "KV-Folder".

Lemma freeName_spec fuel a r target fileName k j V s :
  session a r V s → (∀ i, (k ≤ i < j)%nat → taken V r (candidate_name target fileName i)) →
  ¬ taken V r (candidate_name target fileName j) → (k ≤ j)%nat → (j - k < fuel)%nat →
  runs (freeName fuel a r target (substr_to (find_last_of "."%char fileName) fileName)
          (match find_last_of "."%char fileName with Some p => substr_from p fileName | None => "" end)
          (candidate_name target fileName k) (Z.of_nat (S k)))
    (λ p s', session a r V s' ∧ p = candidate_name target fileName j) s.
Proof.
  intros Hs. revert k. induction fuel as [|fuel IH]; intros k Htk Hfree Hk Hf; [lia|].
  cbn [freeName]. apply runs_bind. apply (runs_Get _ _ _ _ _ _ Hs). intros v Hv. unfold got in Hv.
  destruct (decide (k = j)) as [->|Hne].
  - rewrite bool_decide_false; [by apply runs_ret|]. unfold taken in Hfree.
    destruct (V r _); [subst; intros [->| ->]; tauto|]. by destruct Hv as [-> | ->]; intros [|].
  - rewrite bool_decide_true.
    + replace (Z.of_nat (S k) + 1) with (Z.of_nat (S (S k))) by lia.
      apply (IH (S k)); [|done|lia|lia]. intros i Hi. apply Htk. lia.
    + destruct (Htk k) as [E|E]; [lia|..]; rewrite E in Hv; auto.
Qed.

(** C30: moving a file to another folder gives it the first name not taken there, and it downloads
    from there with the content it had; nothing is left at the old path, the target's listing has
    the file as its last entry and the source's has lost it. *)
Theorem moveFile_correct fuel a r old target j cs V s :
  let new := candidate_name target (localName old) j in
  let source := parentPath old in
  session a r V s → repr V r old (File cs) →
  (∀ i, (i < j)%nat → taken V r (candidate_name target (localName old) i)) → ¬ taken V r new → (j < fuel)%nat →
  (∃ m, V r (metaColumn target) = Some m ∧ is_ERR m = false) →
  old ∈ entries V r source → Forall (λ e, is_ERR e = false) (entries V r source) →
  apart old new → good_path old → good_path new → new ≠ "" → target ≠ source →
  Forall (λ p, lists_outside p target ∧ lists_outside p source) [old; new] →
  runs (_ ← moveFile fuel a r old target; loadFile a r new) (λ content s', ∃ V', session a r V' s' ∧
    content = foldr String.append "" cs ∧ removed V' r old (File cs) ∧
    entries V' r target = entries V r target ++ [new] ∧
    entries V' r source = filter (λ e, e ≠ old) (entries V r source)) s.
Proof.
  intros new source Hs HT Htk Hfree Hf (dm & Hdm & Hde) Hin Herr Hap Hgo Hgn Hne Hts Hout.
  assert (lists_outside old target ∧ lists_outside new target) as [Hot Hnt].
  { apply Forall_cons in Hout as [[? _] [[? _] _]%Forall_cons]. done. }
  unfold moveFile. cbv zeta. fold source. apply runs_bind, runs_bind.
  eapply runs_mono; [apply (freeName_spec fuel a r target (localName old) 0 j V s Hs); [|done|lia|lia]|].
  { intros i Hi. apply Htk. lia. }
  cbv beta. intros p s0 [Hs0 ->]. fold new.
  apply runs_bind. eapply runs_mono; [by apply (renameFileColumns_moves a r old new cs Hap Hgo V)|].
  intros [] s1 (V1 & Hs1 & Hnew & Hold & Hfr).
  assert (V1 r (metaColumn target) = Some dm) as Hdm1 by (rewrite <-Hdm; by apply Hfr).
  apply runs_bind. apply (runs_Get _ _ _ _ _ _ Hs1). intros v ->%(got_Some _ _ _ _ _ Hdm1).
  eapply runs_mono; [apply (relist_spec a r old new target source _ V V1 s1 Hfr Hin Herr Hts Hout); [|done]|].
  { intros V2 HV2. by apply (entries_snoc V1 V2 r target dm new). }
  intros [] s3 (V3 & Hs3 & Ho3 & Hn3 & Htgt & Hsrc & _).
  assert (repr V3 r new (File cs)) as (_ & Hcs & Hst) by (by eapply repr_ext).
  eapply runs_mono; [apply (loadFile_spec a r new cs V3); [apply Hgn|done..]|].
  intros content s4 [Hs4 ->]. exists V3. split_and!; [done|done|by eapply removed_ext|done|done].
Qed.

End moving.

(** ** Examples *)

#[local] Existing Instance table_ops.
#[local] Existing Instance table_laws.

(** The columns of alice's row, from a list. *)
Definition columns (l : list (string * string)) : contents := λ r c,
  if bool_decide (r = "alice-storage") then snd <$> list_find (λ kv, kv.1 = c) l ≫= λ ikv, Some ikv.2 else None.
Lemma table_session r V : session "127.0.0.1:10001" r V V.
Proof. by split. Qed.

(** alice has the folder "docs" with a file and a folder with a file, and the folder "old". *)
Definition home_dir : contents := columns [
  ("metadata", "docs,old"); ("old", "KV-Folder"); ("old-metadata", "");
  ("docs", "KV-Folder"); ("docs-metadata", "docs/a.txt,docs/sub");
  ("docs/a.txt", "KV-File"); ("docs/a.txt-metadata", "docs/a.txt-1,docs/a.txt-2");
  ("docs/a.txt-1-content", "hel"); ("docs/a.txt-2-content", "lo");
  ("docs/sub", "KV-Folder"); ("docs/sub-metadata", "docs/sub/b");
  ("docs/sub/b", "KV-File"); ("docs/sub/b-metadata", "docs/sub/b-1"); ("docs/sub/b-1-content", "x")].
Definition a_txt : node := File ["hel"; "lo"].
Definition docs : list (string * node) :=
  [("a.txt", a_txt); ("sub", Folder [("b", File ["x"])])].

Lemma a_txt_stored : repr home_dir "alice-storage" "docs/a.txt" a_txt.
Proof.
  split_and!; [done..|]. split; [by vm_compute|].
  intros [|[|j]] c Hj; simplify_eq/=; by vm_compute.
Qed.
Lemma docs_stored : repr home_dir "alice-storage" "docs" (Folder docs).
Proof.
  assert (∀ l, bool_decide (NoDup l ∧ Forall simple l) = true → NoDup l ∧ Forall simple l) as Hnames
    by (intros l; apply bool_decide_eq_true).
  apply repr_Folder. split_and!; [done|done|by vm_compute|by apply Hnames..|].
  constructor; [apply a_txt_stored|constructor; [|constructor]]. cbn [fst snd].
  apply repr_Folder. split_and!; [done|done|by vm_compute|by apply Hnames..|].
  constructor; [|constructor]. split_and!; [done..|]. split; [by vm_compute|].
  intros [|j] c Hj; simplify_eq/=; by vm_compute.
Qed.

Lemma moveFolder_correct_witness :
  runs (moveFolder 3 "127.0.0.1:10001" "alice-storage" "docs" "old") (λ _ s', ∃ V',
    session "127.0.0.1:10001" "alice-storage" V' s' ∧
    repr V' "alice-storage" "old/docs" (Folder docs) ∧ removed V' "alice-storage" "docs" (Folder docs) ∧
    entries V' "alice-storage" "old" = entries home_dir "alice-storage" "old" ++ ["old/docs"] ∧
    entries V' "alice-storage" "" = filter (λ e, e ≠ "docs") (entries home_dir "alice-storage" "") ∧
    ∀ r' c, (r' = "alice-storage" → under "docs" c = false ∧ under "old/docs" c = false ∧
      c ≠ "old-metadata" ∧ c ≠ "metadata") → V' r' c = home_dir r' c) home_dir.
Proof.
  apply (moveFolder_correct 3 "127.0.0.1:10001" "alice-storage" "docs" "old" docs home_dir home_dir).
  - apply table_session.
  - apply docs_stored.
  - simpl. lia.
  - apply (bool_decide_unpack _). vm_compute. exact I.
  - apply (bool_decide_unpack _). vm_compute. exact I.
  - apply apart_paths; reflexivity.
  - split; reflexivity.
  - split; reflexivity.
  - discriminate.
  - discriminate.
  - repeat constructor.
Defined.

Lemma renameFile_correct_witness :
  runs (_ ← renameFile "127.0.0.1:10001" "alice-storage" "docs" "a.txt" "b";
        loadFile "127.0.0.1:10001" "alice-storage" "docs/b.txt") (λ content s', ∃ V',
    session "127.0.0.1:10001" "alice-storage" V' s' ∧ content = "hello" ∧
    removed V' "alice-storage" "docs/a.txt" a_txt ∧
    entries V' "alice-storage" "docs" = (λ e, if bool_decide (e = "docs/a.txt") then "docs/b.txt" else e) <$>
      entries home_dir "alice-storage" "docs" ∧
    ∀ r' c, (r' = "alice-storage" → under "docs/a.txt" c = false ∧ under "docs/b.txt" c = false ∧
      c ≠ "docs-metadata") → V' r' c = home_dir r' c) home_dir.
Proof.
  apply (renameFile_correct "127.0.0.1:10001" "alice-storage" "docs" "a.txt" "b" ["hel"; "lo"] home_dir home_dir).
  - apply table_session.
  - apply a_txt_stored.
  - reflexivity.
  - vm_compute. discriminate.
  - apply (bool_decide_unpack _). vm_compute. exact I.
  - apply (bool_decide_unpack _). vm_compute. exact I.
  - apply apart_paths; reflexivity.
  - split; reflexivity.
  - split; reflexivity.
  - discriminate.
  - discriminate.
  - reflexivity.
  - reflexivity.
Defined.

Lemma moveFile_correct_witness :
  runs (_ ← moveFile 1 "127.0.0.1:10001" "alice-storage" "docs/a.txt" "old";
        loadFile "127.0.0.1:10001" "alice-storage" "old/a.txt") (λ content s', ∃ V',
    session "127.0.0.1:10001" "alice-storage" V' s' ∧ content = "hello" ∧
    removed V' "alice-storage" "docs/a.txt" a_txt ∧
    entries V' "alice-storage" "old" = entries home_dir "alice-storage" "old" ++ ["old/a.txt"] ∧
    entries V' "alice-storage" "docs" =
      filter (λ e, e ≠ "docs/a.txt") (entries home_dir "alice-storage" "docs")) home_dir.
Proof.
  apply (moveFile_correct 1 "127.0.0.1:10001" "alice-storage" "docs/a.txt" "old" 0 ["hel"; "lo"]
    home_dir home_dir).
  - apply table_session.
  - apply a_txt_stored.
  - lia.
  - unfold taken. vm_compute. intros [H|H]; discriminate H.
  - lia.
  - exists "". split; reflexivity.
  - apply (bool_decide_unpack _). vm_compute. exact I.
  - apply (bool_decide_unpack _). vm_compute. exact I.
  - apply apart_paths; reflexivity.
  - split; reflexivity.
  - split; reflexivity.
  - discriminate.
  - discriminate.
  - repeat constructor.
Defined.

(** ** Defects *)

(** The listing of a renamed folder still has the old paths of its children, which have moved: the
    file is stored at the new path, and the path the page shows leads to nothing. *)
Theorem renamed_folder_loses_files :
  let '(V', _) := renameFolder 3 "127.0.0.1:10001" "alice-storage" "docs" "papers" home_dir in
  entries V' "alice-storage" "papers" = ["docs/a.txt"; "docs/sub"] ∧
  V' "alice-storage" "docs/a.txt" = None ∧ V' "alice-storage" "papers/a.txt" = Some "KV-File".
Proof. by vm_compute. Qed.

(** Moving the last entry out of a folder deletes its listing; what is moved into the folder
    afterwards is listed behind the error message of the absent listing, which hides it. *)
Theorem emptied_folder_hides_files :
  let '(V', _) := (_ ← moveFile 1 "127.0.0.1:10001" "alice-storage" "docs/sub/b" "old";
    moveFile 1 "127.0.0.1:10001" "alice-storage" "docs/a.txt" "docs/sub") home_dir in
  V' "alice-storage" "docs/sub/a.txt" = Some "KV-File" ∧ entries V' "alice-storage" "docs/sub" = [] ∧
  entries V' "alice-storage" "docs" = ["docs/sub"].
Proof. by vm_compute. Qed.
