(* ===== verification/StorageDeletion.v ===== *)
(** * Deleting a tree

    What [deleteRec] and [webStorageDelete] of frontend/storage/storage_service.cc leave of a file or
    of a folder with all that is below it, in the abstract view of [StorageTree]. *)
From S2P Require Import Prelude CppString Table Codec Utils CppStream Rpc Coordinator Worker WorkerFacts.
From S2P Require Import Cluster ClusterFacts Replication Kv StorageText Chunked Storage StoragePages StorageFacts.
From S2P Require Import StorageTree.

(** ** Paths with a name *)

(** The loop over the children of a folder visits the path "" for an empty entry of the listing,
    which an append to an empty listing leaves.  The columns of that path are those of no other. *)
Definition named (p : string) : Prop := match p with String c _ => c ≠ "-"%char | "" => False end.
Global Instance named_dec p : Decision (named p).
Proof. destruct p; cbn [named]; apply _. Defined.
Definition unnamed : list string := [""; "-metadata"; "-content"].
Definition no_unnamed (V : contents) (r : string) : Prop := Forall (λ c, V r c = None) unnamed.

Lemma named_child p n : named p → named (child p n).
Proof. by destruct p. Qed.
Lemma named_under p c : named p → c ∈ unnamed → under p c = false.
Proof.
  intros Hp Hc. apply not_true_iff_false. rewrite under_spec. destruct p as [|d p]; [done|].
  cbn [named] in Hp. intros Hu.
  assert (∃ t, c = String d t) as [t ->] by (destruct Hu as [->|[[t ->]|[t ->]]]; rewrite ?sapp_cons; eauto).
  unfold unnamed in Hc. rewrite !elem_of_cons, elem_of_nil in Hc. naive_solver.
Qed.
Lemma named_metaColumn folder : folder = "" ∨ named folder → metaColumn folder ∉ unnamed.
Proof.
  unfold metaColumn, unnamed. rewrite !elem_of_cons, elem_of_nil. intros [->|Hn].
  - rewrite bool_decide_true by done. naive_solver.
  - destruct folder as [|d folder]; [done|]. rewrite bool_decide_false, sapp_cons by done.
    cbn [named] in Hn. naive_solver.
Qed.
Lemma no_unnamed_under V V' r p : named p → only_under r p p V V' → no_unnamed V r → no_unnamed V' r.
Proof.
  unfold no_unnamed. rewrite !Forall_forall. intros Hp Hfr H c Hc. rewrite <-(H c Hc). apply Hfr.
  intros _. by rewrite named_under.
Qed.

Lemma only_under_id r p V V' : (∀ r' c, V' r' c = V r' c) → only_under r p p V V'.
Proof. by intros H r' c _. Qed.

Section deleting.
Context `{KvLaws St}.

(** The program deletes the tree [t] at [p]. *)
Definition erases (a r p : string) (t : node) (m : M St unit) : Prop :=
  ∀ V s, session a r V s → repr V r p t → no_unnamed V r →
    runs m (λ _ s', ∃ V', session a r V' s' ∧ removed V' r p t ∧ only_under r p p V V') s.

(** The contents of a list of chunks. *)
Lemma deleteChunks_spec a r chunks V s :
  session a r V s →
  runs (for_each (λ chunk, _ ← kv_Delete a r (chunk +:+ "-content"); mret tt) chunks) (λ _ s', ∃ V',
    session a r V' s' ∧ (∀ chunk, chunk ∈ chunks → V' r (chunk +:+ "-content") = None) ∧
    ∀ r' c, (r' = r → ∀ chunk, chunk ∈ chunks → c ≠ chunk +:+ "-content") → V' r' c = V r' c) s.
Proof.
  revert V s. induction chunks as [|chunk chunks IH]; intros V s Hs.
  { apply runs_ret. exists V. split_and!; [done| |done]. by intros chunk Hc%elem_of_nil. }
  cbn [for_each]. apply runs_bind, runs_bind. apply (runs_Delete _ _ _ _ _ _ Hs). intros _ s1 _ Hs1.
  apply runs_ret. eapply runs_mono; [by apply IH|]. intros [] s2 (V2 & Hs2 & Hd & Hfr). exists V2.
  split_and!; [done|..].
  - intros x [->|Hx]%elem_of_cons; [|auto].
    destruct (decide (chunk ∈ chunks)); [auto|]. rewrite Hfr; [apply delete_eq|].
    intros _ y Hy [= E]%sapp_inj_r. by subst.
  - intros r' c Hc. rewrite Hfr by (intros Hr y Hy; apply (Hc Hr); by right).
    apply delete_ne. intros Hr. apply (Hc Hr). by left.
Qed.

Lemma content_under p : under p (p +:+ "-content") = true.
Proof. apply under_dash. Qed.

(** A file. *)
Lemma deleteRec_file fuel a r p cs :
  good_path p → erases a r p (File cs) (deleteRec (S fuel) a r p).
Proof.
  intros [Hcomma Herr] V s Hs (Hmark & Hne & Hmeta & Hc) _. cbn [deleteRec].
  apply runs_bind. apply (runs_Get _ _ _ _ _ _ Hs). intros v ->%(got_Some _ _ _ _ _ Hmark).
  rewrite bool_decide_true by done. cbv zeta. rewrite bool_decide_false in Hmeta by done.
  apply runs_bind. apply (runs_Get _ _ _ _ _ _ Hs). intros v ->%(got_Some _ _ _ _ _ Hmeta).
  destruct cs as [|c0 cs]; [done|]. cbn [length].
  rewrite hasChunks_names, split_chunkNames by (done || lia).
  apply runs_bind, runs_bind. eapply runs_mono; [by apply (deleteChunks_spec a r _ V)|].
  intros [] s1 (V1 & Hs1 & Hd & Hfr). apply runs_bind. apply (runs_Delete _ _ _ _ _ _ Hs1). intros _ s2 _ Hs2.
  apply runs_ret. apply runs_bind. apply (runs_Delete _ _ _ _ _ _ Hs2). intros _ s3 _ Hs3.
  apply runs_bind. apply (runs_Delete _ _ _ _ _ _ Hs3). intros _ s4 _ Hs4. apply runs_ret.
  eexists. split; [exact Hs4|]. split; [split_and!|].
  - apply delete_eq.
  - cbn. repeat case_decide; done.
  - intros j Hj. cbn. do 3 (case_decide; [done|]). apply Hd. unfold chunkNames.
    apply list_elem_of_fmap_2, elem_of_seq. simpl in Hj. lia.
  - etrans; [|apply only_under_delete; auto with columns].
    etrans; [|apply only_under_delete; left; apply content_under].
    etrans; [|apply only_under_delete; auto with columns]. intros r' c Hout. apply Hfr.
    intros Hr chunk (j & -> & _)%list_elem_of_fmap ->. destruct (Hout Hr) as [Hu _].
    by rewrite under_chunk in Hu.
Qed.

(** An empty entry of a listing. *)
Lemma deleteRec_unnamed fuel a r V s :
  session a r V s → no_unnamed V r →
  runs (deleteRec (S fuel) a r "") (λ _ s', ∃ V', session a r V' s' ∧ ∀ r' c, V' r' c = V r' c) s.
Proof.
  intros Hs Hu. unfold no_unnamed, unnamed in Hu. rewrite !Forall_cons in Hu.
  destruct Hu as (E0 & E1 & E2 & _). cbn [deleteRec].
  apply runs_bind. apply (runs_Get _ _ _ _ _ _ Hs). unfold got. rewrite E0. intros v Hv.
  rewrite bool_decide_true by (by intros ->; destruct Hv). cbv zeta.
  apply runs_bind. apply (runs_Get _ _ _ _ _ _ Hs). unfold got.
  change ("" +:+ "-metadata") with "-metadata". change ("" +:+ "-content") with "-content".
  rewrite E1. intros w Hw.
  assert (hasChunks w = false) as -> by (unfold hasChunks; rewrite missing_is_ERR by done; apply andb_false_r).
  apply runs_bind, runs_ret. apply runs_bind. apply (runs_Delete _ _ _ _ _ _ Hs). intros _ s1 _ Hs1.
  apply runs_bind. apply (runs_Delete _ _ _ _ _ _ Hs1). intros _ s2 _ Hs2. apply runs_ret.
  eexists. split; [exact Hs2|]. intros r' c. cbn. repeat case_decide; simplify_eq; done.
Qed.

Lemma only_under_outside r p k V V' : only_under r p p V V' → apart p k → same_under V V' r k.
Proof. intros Hfr Hap. by eapply only_under_same. Qed.

(** The children of a folder, and the empty entries of its listing. *)
Lemma children_erased fuel a r p items ch V s :
  named p → NoDup ch.*1 → Forall simple ch.*1 → filter (λ x, x ≠ "") items = child p <$> ch.*1 →
  (∀ n t, (n, t) ∈ ch → erases a r (child p n) t (deleteRec (S fuel) a r (child p n))) →
  session a r V s → no_unnamed V r → Forall (λ nt, repr V r (child p nt.1) nt.2) ch →
  runs (for_each (λ childAbs, deleteRec (S fuel) a r childAbs) items) (λ _ s', ∃ V', session a r V' s' ∧
    Forall (λ nt, removed V' r (child p nt.1) nt.2) ch ∧
    ∀ r' c, (r' = r → ∀ n, n ∈ ch.*1 → under (child p n) c = false) → V' r' c = V r' c) s.
Proof.
  intros Hp. revert ch V s. induction items as [|x items IH]; intros ch V s Hnd Hsi Hit Hb Hs Hu Hch.
  { destruct ch as [|nt ch]; [|done]. apply runs_ret. exists V. by split_and!. }
  cbn [for_each]. apply runs_bind. destruct (decide (x = "")) as [->|Hx].
  - rewrite filter_cons_False in Hit by (by intros []).
    eapply runs_mono; [by apply (deleteRec_unnamed fuel a r V)|]. intros [] s1 (V1 & Hs1 & E1).
    assert (∀ q, same_under V V1 r q) as Hsame by (intros q c _; apply E1).
    eapply runs_mono; [apply (IH ch V1 s1 Hnd Hsi Hit Hb Hs1)|].
    + apply (no_unnamed_under V V1 r p Hp); [by apply only_under_id|done].
    + apply (Forall_impl _ _ _ Hch). intros nt. by apply repr_ext.
    + intros [] s2 (V2 & Hs2 & Hrem & Hfr). exists V2. split_and!; [done..|].
      intros r' c Hc. by rewrite Hfr, E1.
  - rewrite filter_cons_True in Hit by done. destruct ch as [|[n t] ch]; [done|].
    cbn [fmap list_fmap fst] in *. injection Hit as -> Hit.
    apply NoDup_cons in Hnd as [Hn Hnd]. apply Forall_cons in Hsi as [Hsn Hsi].
    apply Forall_cons in Hch as [Ht Hch]. cbn [fst snd] in Ht.
    eapply runs_mono; [by apply (Hb n t (list_elem_of_here _ _) V)|]. intros [] s1 (V1 & Hs1 & Hrem1 & Hfr1).
    assert (∀ m, m ∈ ch.*1 → apart (child p n) (child p m)) as Hother.
    { intros m Hm. apply child_apart; [done|by eapply Forall_forall in Hsi|]. by intros ->. }
    eapply runs_mono; [apply (IH ch V1 s1 Hnd Hsi Hit)|].
    + intros m u Hm. apply Hb. by right.
    + done.
    + by apply (no_unnamed_under V V1 r (child p n)); [apply named_child|..].
    + rewrite Forall_forall in Hch |- *. intros [m u] Hm. eapply repr_ext; [|by apply (Hch (m, u))].
      apply (only_under_outside _ _ _ _ _ Hfr1), Hother. by apply (list_elem_of_fmap_2 fst) in Hm.
    + intros [] s2 (V2 & Hs2 & Hrem & Hfr). exists V2. split_and!; [done|..].
      * apply Forall_cons. split; [|done]. eapply removed_ext; [|exact Hrem1]. intros c Hc. apply Hfr.
        intros _ m Hm. apply not_true_iff_false. intros Hm'. by apply (Hother m Hm c).
      * intros r' c Hc. rewrite Hfr, Hfr1; [done|..]; intros Hr.
        -- split; apply (Hc Hr n); by left.
        -- intros m Hm. apply (Hc Hr m). by right.
Qed.

(** What [deleteRec] finds in the listing of a folder. *)
Lemma listed_children V r p m :
  p ≠ "" → got V r (p +:+ "-metadata") m →
  entries V r p = if hasChunks m then filter (λ x, x ≠ "") (splitStringStorage m ","%char) else [].
Proof.
  intros Hp Hm. unfold entries, got, hasChunks in *. rewrite metaColumn_path by done.
  destruct (V r (p +:+ "-metadata")) as [x|].
  - subst m. destruct (is_ERR x); [by rewrite andb_false_r|]. rewrite andb_true_r.
    case_bool_decide; [subst; done|done].
  - by rewrite missing_is_ERR, andb_false_r.
Qed.

(** The two updates with which [deleteRec] starts on a folder. *)
Lemma folder_marked r p V (V2 := view_effect (UDelete r (p +:+ "-metadata")) (view_effect (UPut r p "DEL KV-Folder") V)) :
  V2 r p = Some "DEL KV-Folder" ∧ V2 r (p +:+ "-metadata") = None ∧ only_under r p p V V2 ∧
  ∀ n, same_under V V2 r (child p n).
Proof.
  subst V2. split_and!; [by cells..| |].
  - etrans; [apply only_under_put|apply only_under_delete]; auto with columns.
  - intros n c Hc. assert (c ≠ p ∧ c ≠ p +:+ "-metadata") as [? ?].
    { split; intros ->; [by rewrite child_under_path in Hc|by rewrite child_under_metadata in Hc]. }
    by rewrite delete_ne, put_ne.
Qed.

Lemma deleteRec_erases fuel a r p t :
  (depth t < fuel)%nat → good_path p → named p → erases a r p t (deleteRec fuel a r p).
Proof.
  revert p t. induction fuel as [|fuel IH]; intros p t Hd Hg Hn; [lia|].
  destruct t as [cs|ch]; [by apply deleteRec_file|].
  intros V s Hs HT Hu. apply repr_Folder in HT as (Hmark & Hne & Hen & Hnd & Hsi & Hch).
  cbn [deleteRec]. apply runs_bind. apply (runs_Get _ _ _ _ _ _ Hs). intros v ->%(got_Some _ _ _ _ _ Hmark).
  rewrite bool_decide_false by (intros E; by apply E). cbv zeta.
  apply runs_bind. apply (runs_Put _ _ _ _ _ _ _ Hs). intros _ s1 _ Hs1.
  apply runs_bind. apply (runs_Get _ _ _ _ _ _ Hs1). intros m Hm.
  assert (got V r (p +:+ "-metadata") m) as Hm'.
  { unfold got in *. by rewrite put_ne in Hm by (intros _; apply metadata_not_path). }
  apply runs_bind. apply (runs_Delete _ _ _ _ _ _ Hs1). intros _ s2 _ Hs2.
  destruct (folder_marked r p V) as (E1 & E2 & Hfr2 & Hsame2). set (V2 := view_effect _ (view_effect _ V)) in *.
  rewrite (listed_children V r p m Hne Hm') in Hen. destruct (hasChunks m).
  - destruct fuel as [|fuel]; [cbn [depth] in Hd; lia|].
    eapply runs_mono; [apply (children_erased fuel a r p _ ch V2 s2 Hn Hnd Hsi Hen); [|done|..]|].
    + intros n u Hin. pose proof Hin as Hin'%depth_child.
      assert (simple n) as Hs' by (apply (list_elem_of_fmap_2 fst) in Hin; by eapply Forall_forall in Hsi).
      apply IH; [lia|by apply child_good|by apply named_child].
    + by apply (no_unnamed_under V V2 r p).
    + apply (Forall_impl _ _ _ Hch). intros nt. by apply repr_ext.
    + intros [] s3 (V3 & Hs3 & Hrem & Hfr3). exists V3. split; [done|]. split.
      * apply removed_Folder. split_and!; [..|done]; (rewrite Hfr3; [done|]); intros _ n _;
          [apply child_under_path|apply child_under_metadata].
      * etrans; [exact Hfr2|]. intros r' c Hc. apply Hfr3. intros Hr n _. destruct (Hc Hr) as [Hc' _].
        apply not_true_iff_false. intros Hu'%under_slash. congruence.
  - apply runs_ret. exists V2. split; [done|]. split; [|done]. apply removed_Folder.
    split_and!; [done|done|]. destruct ch; [constructor|done].
Qed.
End deleting.

(** ** The listing of the folder that held it *)

Lemma entries_filter (P : string → Prop) `{!∀ x, Decision (P x)} (V V' : contents) r p m :
  V r (metaColumn p) = Some m → is_ERR m = false → Forall (λ y, is_ERR y = false) (entries V r p) →
  V' r (metaColumn p) = Some (join "," (filter P (splitStringStorage m ","%char))) →
  entries V' r p = filter P (entries V r p).
Proof.
  intros EV Em Herr HV'. rewrite (entries_items V r p m EV Em) in Herr |- *.
  rewrite splitStringStorage_split in *. remember (filter P (split_on ","%char m)) as items eqn:Ei in HV'. symmetry in Ei.
  assert (filter P (filter (λ s, s ≠ "") (split_on ","%char m)) = filter (λ s, s ≠ "") items) as ->.
  { rewrite <-Ei, !list_filter_filter. apply list_filter_iff. tauto. }
  assert (Forall (no_char ","%char) items) as Hpc.
  { apply Forall_forall. intros y Hy. rewrite <-Ei in Hy.
    apply list_elem_of_filter in Hy as [_ Hy]. pose proof (split_on_pieces "," m) as Hall.
    rewrite Forall_forall in Hall. auto. }
  destruct items as [|y items']; [unfold entries; by rewrite HV'|].
  rewrite (entries_items V' r p _ HV').
  - by rewrite splitStringStorage_split, split_on_join.
  - apply is_ERR_join. destruct (decide (y = "")) as [->|Hy]; [done|].
    rewrite Forall_forall in Herr. apply Herr. apply list_elem_of_filter. split; [done|].
    assert (y ∈ filter P (split_on ","%char m)) as Hin by (rewrite Ei; by left).
    by apply list_elem_of_filter in Hin as [_ ?].
Qed.

Lemma contains_localName p : contains (localName p) p = true.
Proof.
  apply contains_spec. unfold localName. destruct (find_last_of "/"%char p) as [pos|].
  - exists (str_take (pos + 1) p), "". unfold substr_from. rewrite sapp_nil_r. by rewrite str_take_drop.
  - exists "", "". by rewrite sapp_nil_r.
Qed.
Lemma named_parentPath p : named p → parentPath p = "" ∨ named (parentPath p).
Proof.
  unfold parentPath. destruct (find_last_of "/"%char p) as [[|pos]|]; [by left| |by left].
  destruct p as [|c p]; [done|]. by right.
Qed.

Section page.
Context `{KvLaws St}.

(** C13: deleting a file or a folder leaves nothing of it: every chunk of every file below it is gone,
    every folder below it is marked as deleted and has no listing, and no column of the store has
    changed but those below its path and the listing of the folder that held it.  That listing loses
    every entry that contains the deleted name, the deleted one among them, and the page calls what it
    deleted a file in every case. *)
Theorem deletePath_correct fuel a r p t V s :
  let parent := parentPath p in
  session a r V s → repr V r p t → (depth t < fuel)%nat → good_path p → named p → no_unnamed V r →
  p ∈ entries V r parent → Forall (λ e, is_ERR e = false) (entries V r parent) →
  lists_outside p parent →
  runs (deletePath fuel a r p) (λ page s', ∃ V', session a r V' s' ∧ removed V' r p t ∧
    entries V' r parent = filter (λ e, contains (localName p) e = false) (entries V r parent) ∧
    p ∉ entries V' r parent ∧ contains ("File <strong>" +:+ localName p +:+ "</strong> deleted.") page = true ∧
    ∀ r' c, (r' = r → under p c = false ∧ c ≠ metaColumn parent) → V' r' c = V r' c) s.
Proof.
  intros parent Hs HT Hd Hg Hn Hu Hin Herr Hout. unfold deletePath. cbv zeta. fold parent.
  pose proof Hin as Hin'. unfold entries in Hin'.
  destruct (V r (metaColumn parent)) as [m|] eqn:EV; [|by apply elem_of_nil in Hin'].
  destruct (is_ERR m) eqn:Em; [by apply elem_of_nil in Hin'|]. clear Hin'.
  apply runs_bind. apply (runs_Get _ _ _ _ _ _ Hs). intros v ->%(got_Some _ _ _ _ _ EV).
  apply runs_bind. apply (runs_Put _ _ _ _ _ _ _ Hs). intros _ s1 _ Hs1. set (V1 := view_effect _ V) in Hs1.
  assert (entries V1 r parent = filter (λ e, contains (localName p) e = false) (entries V r parent)) as E1.
  { apply (entries_filter _ V V1 r parent m EV Em Herr). apply put_eq. }
  assert (same_under V V1 r p) as Hsame.
  { intros c Hc. apply put_ne. intros _ ->. unfold lists_outside in Hout. congruence. }
  assert (no_unnamed V1 r) as Hu1.
  { unfold no_unnamed in *. rewrite Forall_forall in Hu |- *. intros c Hc. rewrite <-(Hu c Hc).
    apply put_ne. intros _ ->. by apply (named_metaColumn parent (named_parentPath p Hn)). }
  apply runs_bind. eapply runs_mono; [apply (deleteRec_erases fuel a r p t Hd Hg Hn V1 s1 Hs1)|];
    [by eapply repr_ext|done|].
  intros [] s2 (V2 & Hs2 & Hrem & Hfr). apply runs_bind. apply (runs_Get _ _ _ _ _ _ Hs2). intros v Hv.
  rewrite (bool_decide_false (v = "KV-Folder")); cycle 1.
  { intros ->. unfold got in Hv. destruct t as [cs|ch]; [destruct Hrem as [E _]|apply removed_Folder in Hrem as [E _]];
      rewrite E in Hv; [by destruct Hv|done]. }
  apply runs_ret. exists V2.
  assert (entries V2 r parent = entries V1 r parent) as E2 by (apply entries_ext, Hfr; by intros _).
  rewrite E2, E1. split_and!; [done|done|done|..].
  - intros [Hc _]%list_elem_of_filter. by rewrite contains_localName in Hc.
  - unfold httpResponseStorage. apply contains_spec.
    match goal with |- ∃ u v, ?hd +:+ _ = _ => exists (hd +:+ "<html><body><p>") end.
    eexists. by rewrite !sapp_assoc.
  - intros r' c Hc. rewrite Hfr by (intros Hr; by destruct (Hc Hr)). apply put_ne. intros Hr. by destruct (Hc Hr).
Qed.
End page.

(** ** Examples *)

#[local] Existing Instance table_ops.
#[local] Existing Instance table_laws.

Lemma deletePath_correct_witness :
  runs (deletePath 4 "127.0.0.1:10001" "alice-storage" "docs") (λ page s', ∃ V',
    session "127.0.0.1:10001" "alice-storage" V' s' ∧ removed V' "alice-storage" "docs" (Folder docs) ∧
    entries V' "alice-storage" "" =
      filter (λ e, contains "docs" e = false) (entries home_dir "alice-storage" "") ∧
    "docs" ∉ entries V' "alice-storage" "" ∧ contains "File <strong>docs</strong> deleted." page = true ∧
    ∀ r' c, (r' = "alice-storage" → under "docs" c = false ∧ c ≠ "metadata") → V' r' c = home_dir r' c) home_dir.
Proof.
  apply (deletePath_correct 4 "127.0.0.1:10001" "alice-storage" "docs" (Folder docs) home_dir home_dir).
  - apply table_session.
  - apply docs_stored.
  - simpl. lia.
  - split; reflexivity.
  - discriminate.
  - repeat constructor.
  - apply (bool_decide_unpack _). vm_compute. exact I.
  - apply (bool_decide_unpack _). vm_compute. exact I.
  - reflexivity.
Defined.
