(* ===== verification/StorageRenaming.v ===== *)
(** * Renaming a folder

    What [renameFolderRec] and [webStorageRenameFolder] of frontend/storage/storage_service.cc make of
    a folder and of what is below it.  The columns move to the new path; the listings are copied as
    they are, and go on naming the old paths. *)
From S2P Require Import Prelude CppString Table Codec Utils CppStream Rpc Coordinator Worker WorkerFacts.
From S2P Require Import Cluster ClusterFacts Replication Kv StorageText Chunked Storage StoragePages StorageFacts.
From S2P Require Import StorageTree.

(** The listing of a folder with these entries. *)
Definition lists (V : contents) (r p : string) (l : list string) : Prop :=
  V r (p +:+ "-metadata") = Some (join "," l).

(** A tree without empty folders whose listings hold the paths of the children and nothing else. *)
Fixpoint full (V : contents) (r p : string) (t : node) : Prop :=
  match t with
  | File cs => repr V r p (File cs)
  | Folder ch =>
      V r p = Some "KV-Folder" ∧ p ≠ "" ∧ ch ≠ [] ∧ lists V r p (child p <$> ch.*1) ∧
      NoDup ch.*1 ∧ Forall simple ch.*1 ∧
      (fix go l := match l with [] => True | (n, t) :: l => full V r (child p n) t ∧ go l end) ch
  end.
(** The tree at [p] after it was renamed from [old]: files as they were, listings with the old paths. *)
Fixpoint renamed (V : contents) (r old p : string) (t : node) : Prop :=
  match t with
  | File cs => repr V r p (File cs)
  | Folder ch =>
      V r p = Some "KV-Folder" ∧ lists V r p (child old <$> ch.*1) ∧
      (fix go l := match l with [] => True | (n, t) :: l => renamed V r (child old n) (child p n) t ∧ go l end) ch
  end.

Lemma full_Folder V r p ch :
  full V r p (Folder ch) ↔
    V r p = Some "KV-Folder" ∧ p ≠ "" ∧ ch ≠ [] ∧ lists V r p (child p <$> ch.*1) ∧
    NoDup ch.*1 ∧ Forall simple ch.*1 ∧ Forall (λ nt, full V r (child p nt.1) nt.2) ch.
Proof.
  cbn [full]. do 6 f_equiv. induction ch as [|[n t] ch IH]; [done|]. rewrite Forall_cons. by rewrite IH.
Qed.
Lemma renamed_Folder V r old p ch :
  renamed V r old p (Folder ch) ↔
    V r p = Some "KV-Folder" ∧ lists V r p (child old <$> ch.*1) ∧
    Forall (λ nt, renamed V r (child old nt.1) (child p nt.1) nt.2) ch.
Proof.
  cbn [renamed]. do 2 f_equiv. induction ch as [|[n t] ch IH]; [done|]. rewrite Forall_cons. by rewrite IH.
Qed.

Lemma full_ext V V' r p t : same_under V V' r p → full V r p t → full V' r p t.
Proof.
  revert p. induction t as [cs|ch IH] using node_ind'; intros p Hs; [by apply repr_ext|].
  rewrite !full_Folder. unfold lists. intros (Hp & Hpe & Hne & Hl & Hnd & Hsi & Hch).
  rewrite (Hs p), (Hs (p +:+ "-metadata")) by auto with columns. split_and!; try done.
  rewrite Forall_forall in IH, Hch |- *. intros nt Hnt. apply (IH nt Hnt); [by apply same_under_child|auto].
Qed.
Lemma renamed_ext V V' r old p t : same_under V V' r p → renamed V r old p t → renamed V' r old p t.
Proof.
  revert old p. induction t as [cs|ch IH] using node_ind'; intros old p Hs; [by apply repr_ext|].
  rewrite !renamed_Folder. unfold lists. intros (Hp & Hl & Hch).
  rewrite (Hs p), (Hs (p +:+ "-metadata")) by auto with columns. split_and!; try done.
  rewrite Forall_forall in IH, Hch |- *. intros nt Hnt. apply (IH nt Hnt); [by apply same_under_child|auto].
Qed.

(** Such a tree is one in the sense of [StorageTree]. *)
Lemma full_repr V r p t : good_path p → full V r p t → repr V r p t.
Proof.
  revert p. induction t as [cs|ch IH] using node_ind'; intros p Hg; [done|].
  rewrite full_Folder, repr_Folder. intros (Hp & Hpe & Hne & Hl & Hnd & Hsi & Hch). split_and!; try done.
  - apply entries_join; [by rewrite metaColumn_path|].
    apply Forall_fmap, (Forall_impl _ _ _ Hsi). intros n. by apply child_entry_ok.
  - rewrite Forall_forall in Hsi. rewrite Forall_forall in IH, Hch |- *. intros [n t] Hnt. apply (IH (n, t) Hnt); [|by apply (Hch (n, t))].
    apply child_good; [done|]. apply Hsi. by apply (list_elem_of_fmap_2 fst) in Hnt.
Qed.

Section renaming.
Context `{KvLaws St}.

Definition renames (a r : string) : string → string → node → M St unit → Prop :=
  moves_from_to (λ V p t, full V r p t) (λ V old p t, renamed V r old p t) a r.

Lemma split_children p ns :
  good_path p → Forall simple ns → ns ≠ [] → splitStringStorage (join "," (child p <$> ns)) ","%char = child p <$> ns.
Proof.
  intros Hg Hs Hne. rewrite splitStringStorage_split, split_on_join; [done|by destruct ns|].
  apply Forall_fmap, (Forall_impl _ _ _ Hs). intros n Hn. by apply (child_good p n Hg Hn).
Qed.

(** The four updates with which the renaming of a folder starts are those of moving it; see
    [mark_moved]. *)
Lemma renameFolderRec_renames fuel a r old new ch :
  (depth (Folder ch) ≤ fuel)%nat → apart old new → good_path old →
  renames a r old new (Folder ch) (renameFolderRec fuel a r old new).
Proof.
  revert old new ch. induction fuel as [|fuel IH]; [simpl; lia|].
  intros old new ch Hd Hap Hgo V s Hs HT. apply full_Folder in HT as (Hmark & Hne & Hch0 & Hl & Hnd & Hsi & Hch).
  cbn [renameFolderRec]. cbv zeta. apply runs_bind. apply (runs_Get _ _ _ _ _ _ Hs).
  intros m ->%(got_Some _ _ _ _ _ Hl). rewrite split_children by (try done; by destruct ch).
  do 3 (apply runs_bind; apply (runs_Put _ _ _ _ _ _ _ Hs); clear s Hs; intros _ s _ Hs).
  apply runs_bind. apply (runs_Delete _ _ _ _ _ _ Hs). intros _ s4 _ Hs4.
  fold (mark_moved r old new (join "," (child old <$> ch.*1)) V) in Hs4. set (V4 := mark_moved _ _ _ _ V) in Hs4.
  eapply runs_mono; [apply (children_move (λ V p t, full V r p t) (λ V q p t, renamed V r q p t) a r old new _ ch V4 s4);
    [intros V5 V6 ? ?; apply full_ext|intros V5 V6 ? ? ?; apply renamed_ext|done..| |done|]|].
  - intros n t Hnt. pose proof Hnt as Hn%(list_elem_of_fmap_2 fst). cbn in Hn.
    eapply Forall_forall in Hsi as Hn'; [|exact Hn]. rewrite localName_child by done.
    fold (child new n). intros V5 s5 Hs5 Ht. apply runs_bind. apply (runs_Get _ _ _ _ _ _ Hs5). intros v Hv.
    destruct t as [cs|ch'].
    + pose proof Ht as [E _]. apply (got_Some _ _ _ _ _ E) in Hv as ->.
      apply (renameFileColumns_moves a r _ _ cs); [by apply child_apart_other|by apply child_good|done..].
    + pose proof Ht as [E _]. apply (got_Some _ _ _ _ _ E) in Hv as ->. apply depth_child in Hnt.
      apply (IH _ _ ch'); [lia|by apply child_apart_other|by apply child_good|done..].
  - rewrite Forall_forall in Hch |- *. intros nt Hnt. eapply full_ext; [|by apply Hch].
    by apply mark_moved_child.
  - intros [] s5 (V5 & Hs5 & Hnews & Holds & Hfr). exists V5. split; [done|].
    destruct (mark_moved_cells r old new (join "," (child old <$> ch.*1)) V Hap) as (E1 & E2 & E3 & E4).
    fold V4 in E1, E2, E3, E4.
    assert (∀ c, own_column old c ∨ own_column new c → V5 r c = V4 r c) as Hkeep.
    { intros c Hc. apply Hfr. intros _ n _. by apply own_column_child. }
    unfold own_column in Hkeep. split_and!.
    + apply renamed_Folder. unfold lists. rewrite !Hkeep by auto. done.
    + apply removed_Folder. rewrite !Hkeep by auto. done.
    + etrans; [apply (mark_moved_frame r old new)|]. intros r' c Hc. apply Hfr. intros Hr n _.
      destruct (Hc Hr). split; apply not_true_iff_false; intros Hu%under_slash; congruence.
Qed.
End renaming.

Section page.
Context `{KvLaws St}.

(** C31: renaming a folder moves everything below it: every file is found under the new path with its
    content, nothing is left under the old one, the entry in the listing of the folder around it is
    replaced in its place, and no other column changes.  The listings of the folder and of those below
    it are not touched: they name the old paths, where nothing is. *)
Theorem renameFolder_correct fuel a r old newName ch V s :
  let parent := parentPath old in
  let new := inFolder parent newName in
  session a r V s → full V r old (Folder ch) → (depth (Folder ch) ≤ fuel)%nat →
  isValidName newName = true → V r new ≠ Some "KV-Folder" →
  old ∈ entries V r parent → Forall (λ e, is_ERR e = false) (entries V r parent) →
  apart old new → good_path old → good_path new → new ≠ "" →
  lists_outside old parent → lists_outside new parent →
  runs (renameFolder fuel a r old newName) (λ _ s', ∃ V', session a r V' s' ∧
    renamed V' r old new (Folder ch) ∧ removed V' r old (Folder ch) ∧
    entries V' r parent = (λ e, if bool_decide (e = old) then new else e) <$> entries V r parent ∧
    ∀ r' c, (r' = r → under old c = false ∧ under new c = false ∧ c ≠ metaColumn parent) →
      V' r' c = V r' c) s.
Proof.
  intros parent new Hs HT Hd Hv Hfree Hin Herr Hap Hgo Hgn Hnne Hlo Hln. unfold renameFolder. cbv zeta.
  fold parent new. assert (newName ≠ "") as Hn0 by (by intros ->).
  rewrite (bool_decide_false (newName = "")), Hv by done. cbn [orb negb].
  apply runs_bind. apply (runs_Get _ _ _ _ _ _ Hs). intros v Hg.
  rewrite (bool_decide_false (v = "KV-Folder")); cycle 1.
  { intros ->. unfold got in Hg. destruct (V r new); [by subst|by destruct Hg]. }
  assert (old ≠ "") as Hone by (by apply full_Folder in HT as (_ & ? & _)).
  unfold entries in Hin. destruct (V r (metaColumn parent)) as [m|] eqn:EV; [|by apply elem_of_nil in Hin].
  destruct (is_ERR m) eqn:Em; [by apply elem_of_nil in Hin|]. clear Hin.
  apply runs_bind. apply (runs_Get _ _ _ _ _ _ Hs). intros v' ->%(got_Some _ _ _ _ _ EV).
  apply runs_bind. apply (runs_Put _ _ _ _ _ _ _ Hs). intros _ s1 _ Hs1. set (V1 := view_effect _ V) in Hs1.
  assert (∀ p, lists_outside p parent → same_under V V1 r p) as Hsame.
  { intros p Hp c Hc. apply put_ne. intros _ ->. unfold lists_outside in Hp. congruence. }
  apply runs_bind. eapply runs_mono; [apply (renameFolderRec_renames fuel a r old new ch Hd Hap Hgo V1 s1 Hs1)|].
  { by eapply full_ext; [apply Hsame|]. }
  intros [] s2 (V2 & Hs2 & Hnew & Hold & Hfr). apply runs_ret. exists V2.
  assert (entries V2 r parent = entries V1 r parent) as E2 by (apply entries_ext, Hfr; by intros _).
  split_and!; [done|done|done| |].
  - rewrite E2. apply (entries_replace V V1 r parent m old new EV Em Herr); [done|by destruct Hgn|apply put_eq].
  - intros r' c Hc. rewrite Hfr by (intros Hr; by destruct (Hc Hr) as (? & ? & _)).
    apply put_ne. intros Hr. by destruct (Hc Hr) as (_ & _ & ?).
Qed.
End page.

(** ** Examples *)

#[local] Existing Instance table_ops.
#[local] Existing Instance table_laws.

Lemma docs_full : full home_dir "alice-storage" "docs" (Folder docs).
Proof.
  assert (∀ l, bool_decide (NoDup l ∧ Forall simple l) = true → NoDup l ∧ Forall simple l) as Hnames
    by (intros l; apply bool_decide_eq_true).
  pose proof docs_stored as (_ & _ & _ & _ & _ & Ha & Hsub & _).
  apply full_Folder. split_and!; [done|done|done|by vm_compute|by apply Hnames..|].
  constructor; [exact Ha|constructor; [|constructor]]. cbn [fst snd].
  apply full_Folder. destruct Hsub as (_ & _ & _ & _ & _ & Hb & _).
  split_and!; [done|done|done|by vm_compute|by apply Hnames..|]. constructor; [exact Hb|constructor].
Qed.

Lemma renameFolder_correct_witness :
  runs (renameFolder 3 "127.0.0.1:10001" "alice-storage" "docs" "papers") (λ _ s', ∃ V',
    session "127.0.0.1:10001" "alice-storage" V' s' ∧
    renamed V' "alice-storage" "docs" "papers" (Folder docs) ∧ removed V' "alice-storage" "docs" (Folder docs) ∧
    entries V' "alice-storage" "" = (λ e, if bool_decide (e = "docs") then "papers" else e) <$>
      entries home_dir "alice-storage" "" ∧
    ∀ r' c, (r' = "alice-storage" → under "docs" c = false ∧ under "papers" c = false ∧ c ≠ "metadata") →
      V' r' c = home_dir r' c) home_dir.
Proof.
  apply (renameFolder_correct 3 "127.0.0.1:10001" "alice-storage" "docs" "papers" docs home_dir home_dir).
  - apply table_session.
  - apply docs_full.
  - simpl. lia.
  - reflexivity.
  - vm_compute. discriminate.
  - apply (bool_decide_unpack _). vm_compute. exact I.
  - apply (bool_decide_unpack _). vm_compute. exact I.
  - apply apart_paths; reflexivity.
  - split; reflexivity.
  - split; reflexivity.
  - discriminate.
  - reflexivity.
  - reflexivity.
Defined.

(** ** Defects *)

(** The empty listing of an empty folder is taken for one empty entry: renaming the folder leaves a
    file without a name in it, whose content is the text of an error. *)
Theorem renamed_empty_folder :
  let '(V', _) := renameFolder 2 "127.0.0.1:10001" "alice-storage" "old" "new" home_dir in
  V' "alice-storage" "new" = Some "KV-Folder" ∧ V' "alice-storage" "new/" = Some "KV-File" ∧
  (is_ERR <$> V' "alice-storage" "new/-content") = Some true.
Proof. by vm_compute. Qed.
