(* ===== verification/StorageRow.v ===== *)
(** * The storage service as programs over one row

    Every operation of the storage service is made of calls to one worker about one row, tests and
    loops.  A property of programs that such calls have and that sequencing keeps is therefore a
    property of all operations: [RowClosed] says what has to be shown, once, and the lemmas below
    follow the code of each operation. *)
From S2P Require Import Prelude CppString Table Codec Utils CppStream Rpc Coordinator Worker WorkerFacts.
From S2P Require Import Cluster ClusterFacts Replication Kv StorageText Chunked Storage StoragePages.

Create HintDb row.

(** [P] holds of the calls about row [r] at the worker [a], and is kept by sequencing. *)
Class RowClosed `{KvOps St} (a r : string) (P : ∀ A, M St A → Prop) : Prop := {
  rc_ret {A} (x : A) : P A (mret x);
  rc_throw {A} : P A throw;
  rc_bind {A B} (m : M St A) (f : A → M St B) : P A m → (∀ x, P B (f x)) → P B (m ≫= f);
  rc_Get c : P _ (kv_Get a r c);
  rc_Put c v : P _ (kv_Put a r c v);
  rc_CPut c cur new : P _ (kv_CPut a r c cur new);
  rc_Delete c : P _ (kv_Delete a r c);
}.

(** ** The requests *)

Section requests.
Context `{KvOps St}.

Inductive storage_request := ReqList | ReqDelete | ReqRenameFolder | ReqRename | ReqMoveFile | ReqMoveFolder
  | ReqCreateFolder | ReqUpload | ReqDownload.
Definition storage_program (q : storage_request) (fuel : nat) (user request : string) (reads : list string) :
    M St string :=
  match q with
  | ReqList => webStorageList user request
  | ReqDelete => webStorageDelete fuel user request
  | ReqRenameFolder => webStorageRenameFolder fuel user request reads
  | ReqRename => webStorageRenameFile user request reads
  | ReqMoveFile => webStorageMoveFile fuel user request reads
  | ReqMoveFolder => webStorageMoveFolder fuel user request reads
  | ReqCreateFolder => webStorageCreateFolder user request reads
  | ReqUpload => webStorageUpload fuel user request reads
  | ReqDownload => webStorageDownload user request
  end.
End requests.

Section row.
Context `{KvOps St} (r : string) (P : string → ∀ A, M St A → Prop) (HP : ∀ a, RowClosed a r (P a)).
#[local] Existing Instance HP.

Lemma row_lift {A} a (o : option A) : P a _ (lift o : M St A).
Proof. destruct o; [apply rc_ret|apply rc_throw]. Qed.
Lemma row_for_each {A} a (body : A → M St unit) l : (∀ x, P a _ (body x)) → P a _ (for_each body l).
Proof. intros Hb. induction l as [|x l IH]; [apply rc_ret|]. cbn [for_each]. by apply rc_bind. Qed.
Lemma row_ret {A} a (x : A) : P a _ (mret x).
Proof. apply rc_ret. Qed.
Lemma row_calls a c v v' :
  P a _ (kv_Get a r c) ∧ P a _ (kv_Put a r c v) ∧ P a _ (kv_CPut a r c v v') ∧ P a _ (kv_Delete a r c).
Proof. split_and!; [apply rc_Get|apply rc_Put|apply rc_CPut|apply rc_Delete]. Qed.
Lemma row_throw {A} a : P a _ (throw : M St A).
Proof. apply rc_throw. Qed.
Lemma row_bind {A B} a (m : M St A) (f : A → M St B) :
  P a _ m → (∀ x, P a _ (f x)) → P a _ (m ≫= f).
Proof. apply rc_bind. Qed.
#[local] Hint Resolve row_ret row_throw row_lift : row.
#[local] Hint Extern 0 (P _ _ (kv_Get _ _ _)) => apply (row_calls _ _ "" "") : row.
#[local] Hint Extern 0 (P _ _ (kv_Put _ _ _ _)) => apply (row_calls _ _ _ "") : row.
#[local] Hint Extern 0 (P _ _ (kv_CPut _ _ _ _ _)) => apply row_calls : row.
#[local] Hint Extern 0 (P _ _ (kv_Delete _ _ _)) => apply (row_calls _ _ "" "") : row.

(** Follows a program: its calls, tests and loops, and what is known of its parts. *)
Ltac stay :=
  cbv zeta;
  repeat (intros;
    first [ solve [eauto with row nocore] | apply row_bind | apply row_for_each
          | progress cbv zeta
          | match goal with |- P _ _ (match ?x with _ => _ end) => destruct x end ]).

(** ** The operations *)

Lemma deleteRec_row a fuel p : P a _ (deleteRec fuel a r p).
Proof. revert p. induction fuel as [|fuel IH]; intros p; cbn [deleteRec]; stay. Qed.
Lemma moveChunks_row a old new chunks : P a _ (moveChunks a r old new chunks).
Proof. induction chunks as [|c chunks IH]; cbn [moveChunks]; stay. Qed.
#[local] Hint Resolve deleteRec_row moveChunks_row : row.
Lemma renameFileColumns_row a old new : P a _ (renameFileColumns a r old new).
Proof. unfold renameFileColumns. stay. Qed.
#[local] Hint Resolve renameFileColumns_row : row.
Lemma renameFolderRec_row a fuel old new : P a _ (renameFolderRec fuel a r old new).
Proof. revert old new. induction fuel as [|fuel IH]; intros old new; cbn [renameFolderRec]; stay. Qed.
Lemma renameFolderMoveRec_row a fuel old new : P a _ (renameFolderMoveRec fuel a r old new).
Proof. revert old new. induction fuel as [|fuel IH]; intros old new; cbn [renameFolderMoveRec]; stay. Qed.
Lemma freeName_row a fuel folder base ext p i : P a _ (freeName fuel a r folder base ext p i).
Proof. revert p i. induction fuel as [|fuel IH]; intros p i; cbn [freeName]; stay. Qed.
#[local] Hint Resolve renameFolderRec_row renameFolderMoveRec_row freeName_row : row.
Lemma moveFile_row a fuel old new : P a _ (moveFile fuel a r old new).
Proof. unfold moveFile. stay. Qed.
Lemma moveFolder_row a fuel old new : P a _ (moveFolder fuel a r old new).
Proof. unfold moveFolder. stay. Qed.
Lemma storeChunks_row a fuel p data size i o : P a _ (storeChunks fuel a r p data size i o).
Proof. revert i o. induction fuel as [|fuel IH]; intros i o; cbn [storeChunks]; stay. Qed.
Lemma uploadName_row a fuel p i : P a _ (uploadName fuel a r p i).
Proof. revert i. induction fuel as [|fuel IH]; intros i; cbn [uploadName]; stay. Qed.
#[local] Hint Resolve moveFile_row moveFolder_row storeChunks_row uploadName_row : row.
Lemma storeFile_row a fuel folder name data : P a _ (storeFile fuel a r folder name data).
Proof. unfold storeFile. stay. Qed.
Lemma loadChunks_row a files acc : P a _ (loadChunks a r files acc).
Proof. revert acc. induction files as [|f files IH]; intros acc; cbn [loadChunks]; stay. Qed.
#[local] Hint Resolve storeFile_row loadChunks_row : row.
Lemma loadFile_row a p : P a _ (loadFile a r p).
Proof. unfold loadFile. stay. Qed.
Lemma createFolder_row a parent name : P a _ (createFolder a r parent name).
Proof. unfold createFolder. stay. Qed.
Lemma deletePath_row a fuel p : P a _ (deletePath fuel a r p).
Proof. unfold deletePath. stay. Qed.
Lemma renameFile_row a folder old new : P a _ (renameFile a r folder old new).
Proof. unfold renameFile. stay. Qed.
Lemma renameFolder_row a fuel folder new : P a _ (renameFolder fuel a r folder new).
Proof. unfold renameFolder. stay. Qed.
Lemma moveFolderTo_row a fuel source target : P a _ (moveFolderTo fuel a r source target).
Proof. unfold moveFolderTo. stay. Qed.

(** ** The pages *)

Lemma listItems_row a folder items : P a _ (listItems a r folder items).
Proof. induction items as [|i items IH]; cbn [listItems]; stay. Qed.
Lemma subfolderItems_row a item items : P a _ (subfolderItems item a r items).
Proof. induction items as [|i items IH]; cbn [subfolderItems]; stay. Qed.
#[local] Hint Resolve listItems_row subfolderItems_row : row.
Lemma listFolder_row a user url folder : P a _ (listFolder a r user url folder).
Proof. unfold listFolder. stay. Qed.
Lemma currentSubfolders_row a item folder : P a _ (currentSubfolders item a r folder).
Proof. unfold currentSubfolders. stay. Qed.
#[local] Hint Resolve currentSubfolders_row : row.
Lemma moveFilePage_row a source name current : P a _ (moveFilePage a r source name current).
Proof. unfold moveFilePage. stay. Qed.
Lemma moveFolderPage_row a source current : P a _ (moveFolderPage a r source current).
Proof. unfold moveFolderPage. stay. Qed.
#[local] Hint Resolve loadFile_row createFolder_row deletePath_row renameFile_row : row.
#[local] Hint Resolve renameFolder_row moveFolderTo_row listFolder_row : row.
#[local] Hint Resolve moveFilePage_row moveFolderPage_row : row.


(** A request looks up the worker of its user's row and works on that row only: what holds of such
    programs holds of all requests. *)
Lemma storage_program_row q fuel user request reads (Q : M St string → Prop) :
  r = user +:+ "-storage" →
  (∀ handler, (∀ a, P a _ (handler a)) → Q (withWorker r handler)) →
  Q (storage_program q fuel user request reads).
Proof.
  intros Hr HQ. destruct q; cbn [storage_program];
    unfold webStorageList, webStorageDelete, webStorageRenameFolder, webStorageRenameFile,
      webStorageMoveFile, webStorageMoveFolder, webStorageCreateFolder, webStorageUpload,
      webStorageDownload; rewrite <-Hr; apply HQ; intros a; stay.
Qed.
End row.
