(* ===== verification/StorageIsolation.v ===== *)
(** * The storage service stays in the row of its user

    Whatever the request and whatever the row holds, malformed listings included, an operation of the
    storage service changes no row but "<username>-storage". *)
From S2P Require Import Prelude CppString Table Codec Utils CppStream Rpc Coordinator Worker WorkerFacts.
From S2P Require Import Cluster ClusterFacts Replication Kv StorageText Chunked Storage StoragePages.
From S2P Require Import StorageRow.

Section isolation.
Context `{KvLaws St}.

(** Rows other than [r] have not changed. *)
Definition off_row (r : string) (V V' : string → string → option string) : Prop :=
  ∀ r' c, r' ≠ r → V' r' c = V r' c.
Global Instance off_row_preorder r : PreOrder (off_row r).
Proof. split; [by intros V r' c|]. intros V1 V2 V3 H12 H23 r' c Hr. rewrite H23, H12; auto. Qed.

(** A program over the worker at [a] that changes no row but [r], whether it returns or throws. *)
Definition within {A} (a r : string) (m : M St A) : Prop :=
  ∀ V s s' o, session a r V s → m s = (s', o) → ∃ V', session a r V' s' ∧ off_row r V V'.

Lemma within_ret {A} a r (x : A) : within a r (mret x).
Proof. intros V s s' o Hs [= <- <-]. by exists V. Qed.
Lemma within_throw {A} a r : within a r (throw : M St A).
Proof. intros V s s' o Hs [= <- <-]. by exists V. Qed.
Lemma within_bind {A B} a r (m : M St A) (f : A → M St B) :
  within a r m → (∀ x, within a r (f x)) → within a r (m ≫= f).
Proof.
  intros Hm Hf V s s' o Hs. unfold mbind, M_bind. destruct (m s) as [s1 [x|]] eqn:E.
  - intros E'. destruct (Hm V s s1 (Some x) Hs E) as (V1 & Hs1 & O1).
    destruct (Hf x V1 s1 s' o Hs1 E') as (V2 & Hs2 & O2). exists V2. split; [done|by etrans].
  - intros [= <- <-]. by apply (Hm V s s1 None).
Qed.
Lemma within_runs {A} a r (m : M St A) :
  (∀ V s, session a r V s → runs m (λ _ s', ∃ V', session a r V' s' ∧ off_row r V V') s) → within a r m.
Proof. intros Hm V s s' o Hs E. destruct (Hm V s Hs) as (x & s1 & E1 & Hx). rewrite E in E1. by simplify_eq. Qed.
Lemma within_Get a r c : within a r (kv_Get a r c).
Proof. apply within_runs. intros V s Hs. apply (runs_Get _ _ _ _ _ _ Hs). intros v _. by exists V. Qed.
Lemma within_update a r u (m : M St string) :
  (∀ Q V s, session a r V s → (∀ res s', session a r (view_effect u V) s' → Q res s') → runs m Q s) →
  update_row u = r → within a r m.
Proof.
  intros Hm Hu. apply within_runs. intros V s Hs. apply (Hm _ V s Hs). intros res s' Hs'. eexists. split; [exact Hs'|].
  intros r' c Hr. destruct u; cbn in *; (rewrite decide_False; [done|]); [congruence|intros [? _]; congruence|congruence].
Qed.
Lemma within_Put a r c v : within a r (kv_Put a r c v).
Proof. apply (within_update _ _ (UPut r c v)); [|done]. intros Q V s Hs HQ. apply (runs_Put _ _ _ _ _ _ _ Hs). auto. Qed.
Lemma within_CPut a r c cur new : within a r (kv_CPut a r c cur new).
Proof. apply (within_update _ _ (UCPut r c cur new)); [|done]. intros Q V s Hs HQ. apply (runs_CPut _ _ _ _ _ _ _ _ Hs). auto. Qed.
Lemma within_Delete a r c : within a r (kv_Delete a r c).
Proof. apply (within_update _ _ (UDelete r c)); [|done]. intros Q V s Hs HQ. apply (runs_Delete _ _ _ _ _ _ Hs). auto. Qed.
Lemma within_row a r : RowClosed a r (λ A, within (A := A) a r).
Proof.
  split; intros; [apply within_ret|apply within_throw|by apply within_bind|apply within_Get
    |apply within_Put|apply within_CPut|apply within_Delete].
Qed.

(** ** The requests *)

(** A program that keeps the store healthy and changes no row but [r]. *)
Definition touches {A} (r : string) (m : M St A) : Prop :=
  ∀ s s' o, kv_ok s → m s = (s', o) → kv_ok s' ∧ ∀ r' c, r' ≠ r → kv_view s' r' c = kv_view s r' c.

Lemma touches_withWorker r (handler : string → M St string) :
  (∀ a, within a r (handler a)) → touches r (withWorker r handler).
Proof.
  intros Hh s s' o Hok. unfold withWorker, mbind, M_bind.
  destruct (kv_Lookup_law s r Hok) as (s1 & a & E & Ha & Hok1 & HV & Hhome & _). rewrite E, Ha. intros E'.
  assert (session a r (kv_view s1) s1) as Hs1 by (by split).
  destruct (Hh a _ _ _ _ Hs1 E') as (V' & [Hok' _ HV'] & Ho). split; [done|].
  intros r' c Hr. by rewrite HV', Ho, HV.
Qed.

Lemma storage_program_touches q fuel user request reads :
  touches (user +:+ "-storage") (storage_program q fuel user request reads).
Proof.
  apply (storage_program_row (user +:+ "-storage") (λ a A, within (A := A) a (user +:+ "-storage"))
    (λ a, within_row a _)); [done|]. intros handler Hh. by apply touches_withWorker.
Qed.

End isolation.
