(* ===== verification/Admin.v ===== *)
(** * The admin service: frontend/admin/admin_service.cc

    The pages with which an administrator watches the frontends and the workers, looks at tablets
    and shuts workers down and restarts them. *)
From S2P Require Import Prelude CppString Utils CppStream StorageText HttpText LoadBalancer.
From S2P Require Import Table Codec Rpc Coordinator Worker WorkerFacts Durability.
From S2P Require Import Cluster ClusterFacts Replication Kv Storage.

(** The calls of [masterClient_] and [workerClients_]; a worker is known by its number. *)
Class AdminOps (St : Type) := {
  adm_Alive : Z → M St string;
  adm_AdminConsole : Z → string → string → M St string;
  adm_CopyTablet : Z → Z → M St string;
}.

(** What is around the service: the load balancer's answer to a request ([None]: no connection), the
    exit status of shell commands, and the numbers [rand] returns. *)
Record admin_env := {
  balancer : string → option string;
  shell : string → Z;
  rands : nat → Z;
}.

Section service.
Context `{UMapOrder} `{AdminOps St}.
Variable env : admin_env.

(** [workerClients_[workerId - 1]]: there are six. *)
Definition workerClient (workerId : Z) : M St Z :=
  lift (if bool_decide (1 ≤ workerId ≤ 6) then Some workerId else None).

(** ** Shutting down and restarting *)

Definition shutdownServer (workerId : Z) : M St bool :=
  client ← workerClient workerId;
  res ← adm_AdminConsole client "admin" "SHUTDOWN";
  mret (negb (is_ERR res)).
Definition restartServer (workerId : Z) : M St bool :=
  client ← workerClient workerId;
  res ← adm_AdminConsole client "admin" "RESTART";
  mret (negb (is_ERR res)).
Definition handleToggle (worker command : string) : M St bool :=
  workerId ← lift (stoi worker);
  if bool_decide (command = "shutdown") then shutdownServer workerId else restartServer workerId.

Definition handleFrontendToggle (port action : string) : bool :=
  let run cmd :=
    let result := shell env cmd in bool_decide (result = 0 ∨ result = 15 ∨ result = 256) in
  if bool_decide (action = "shutdown") then run ("pkill -f 'http_server.*-p " +:+ port +:+ "'")
  else if bool_decide (action = "restart") then run ("./http_server -p " +:+ port +:+ " &")
  else false.

(** ** The state of the frontends and the workers *)

(** [checkHttpAlive]: the first 1023 bytes of the answer. *)
Definition checkHttpAlive (hostport : string) : string :=
  match stoi (substr_from (npos_add (find ":" 0 hostport) 1) hostport) with
  | None => "false"
  | Some _ =>
      match balancer env ("GET /health HTTP/1.1" +:+ crlf +:+ "Host: localhost" +:+ crlf +:+ crlf) with
      | None => "false"
      | Some reply => c_string (str_take 1023 reply)
      end
  end.
(** [frontends.substr(frontends.find("\r\n\r\n")+4)] *)
Definition frontendsBody : M St string :=
  let result := checkHttpAlive "127.0.0.1:8080" in
  lift (substr_from_exc (npos_add (find crlf2 0 result) 4) result).

(** The loop over the workers, from the [i]-th on. *)
Fixpoint workerStatuses (workers : list Z) : M St string :=
  match workers with
  | [] => mret ""
  | i :: workers =>
      alive ← adm_Alive i;
      rest ← workerStatuses workers;
      mret ("{" +:+ dq +:+ "id" +:+ dq +:+ ":" +:+ to_string i +:+ "," +:+ dq +:+ "alive" +:+ dq +:+ ":" +:+
            (if bool_decide (alive = "Alive") then "true" else "false") +:+ "}" +:+
            (if bool_decide (i ≠ 6) then "," else "") +:+ rest)
  end.
Definition fetchWorkerStatuses : M St string :=
  workers ← workerStatuses [1; 2; 3; 4; 5; 6];
  result ← frontendsBody;
  mret ("{" +:+ dq +:+ "workers" +:+ dq +:+ ":[" +:+ workers +:+ "]," +:+
        dq +:+ "frontends" +:+ dq +:+ ":" +:+ result +:+ "}").

Definition splitStringAdmin (str : string) (delimiter : ascii) : list string :=
  splitLoop (S (slen str)) str delimiter 0.

(** One element of [frontendStatus] per part of the answer that tells whether a frontend is alive. *)
Definition frontendStatus (frontends : string) : list bool :=
  omap (λ fe,
    if contains "alive" fe && contains "true" fe then Some true
    else if contains "alive" fe && contains "false" fe then Some false
    else None) (splitStringAdmin frontends ","%char).

(** ** The dashboard *)

Definition homeHead : string := "
        <!DOCTYPE html>
        <html>
        <head>
          <title>Admin Dashboard</title>
          <style>
            body { font-family: Arial; padding: 20px; }
            .worker { display: flex; justify-content: space-between; padding: 6px; border: 1px solid #ccc; margin: 4px 0; align-items: center; }
            .status { font-weight: bold; padding: 0 10px; }
            .alive { color: green; }
            .dead { color: red; }
            button { padding: 4px 10px; }
          </style>
        </head>
        <body>
          <h1>Admin Dashboard</h1>
          <h2>Front-End Workers</h2>".
Definition homeBackends : string := "
          <h2>Back-End Workers</h2>
        ".
Definition homeScript : string := "
          <script>
            function toggleWorker(workerId) {
                const statusEl = document.getElementById(`worker-status-${workerId}`);
                const buttonEl = document.getElementById(`worker-btn-${workerId}`);
                const isAlive = statusEl.classList.contains('alive');
                const action = isAlive ? 'shutdown' : 'restart';
        
                fetch('/admin/toggle', {
                    method: 'POST',
                    headers: { 'Content-Type': 'application/x-www-form-urlencoded' },
                    body: `workerId=${workerId}&action=${action}`
                })
                .then(response => response.text())
                .then(_ => {
                    // Toggle the UI on success
                    console.log('toggled');
                })
                .catch(err => {
                    alert('Toggle failed');
                    console.error(err);
                });
            }

            function toggleFrontend(port, id) {
                const statusEl = document.getElementById(`frontend-status-${id}`);
				console.log(" +:+ dq +:+ "Fe " +:+ dq +:+ "+id+" +:+ dq +:+ " status: " +:+ dq +:+ "+statusEl);
                const btnEl = document.getElementById(`frontend-btn-${id}`);
                const isAlive = statusEl.classList.contains('alive');
                const action = isAlive ? 'shutdown' : 'restart';

                fetch('/admin/frontend-toggle', {
                    method: 'POST',
                    headers: { 'Content-Type': 'application/x-www-form-urlencoded' },
                    body: `port=${port}&action=${action}`
                })
                .then(res => res.text())
                .then(text => {
                    console.log(`[Frontend ${port}] Toggle ${action}: ${text}`);
                    setTimeout(fetchStatus, 500);  // Refresh status
                })
                .catch(err => {
                    console.error(`[Frontend ${port}] Toggle failed`, err);
                    alert(`Toggle failed for frontend ${port}`);
                });
            }



            function fetchStatus() {
              fetch('/admin/worker-status')
                .then(res => res.json())
                .then(data => {
                  data.workers.forEach(worker => {
                    const id = worker.id;
                    const alive = worker.alive;
        
                    const statusElem = document.getElementById('worker-status-' + id);
                    const btnElem = document.getElementById('worker-btn-' + id);
                    const inputElem = document.getElementById('action-input-' + id);
        
                    if (statusElem) {
                      statusElem.textContent = alive ? 'Alive' : 'Dead';
                      statusElem.className = 'status ' + (alive ? 'alive' : 'dead');
                    }
                    if (btnElem) {
                      btnElem.textContent = alive ? 'Shutdown' : 'Restart';
                    }
                    if (inputElem) {
                      inputElem.value = alive ? 'shutdown' : 'restart';
                    }
                  });
                  data.frontends.forEach(fe => {
                        const id = fe.id;
                        const alive = fe.alive;
                        const row = document.querySelector(`#frontend-status-${id}`);
                        if (row) {
                            row.textContent = alive ? " +:+ dq +:+ "Alive" +:+ dq +:+ " : " +:+ dq +:+ "Dead" +:+ dq +:+ ";
                            row.className = " +:+ dq +:+ "status " +:+ dq +:+ " + (alive ? " +:+ dq +:+ "alive" +:+ dq +:+ " : " +:+ dq +:+ "dead" +:+ dq +:+ ");
                        }

                        const btn = document.querySelector(`#frontend-btn-${id}`);
                        if (btn) btn.textContent = alive ? " +:+ dq +:+ "Shutdown" +:+ dq +:+ " : " +:+ dq +:+ "Restart" +:+ dq +:+ ";
                    });
                });
            }
        
            setInterval(fetchStatus, 2000);
            window.onload = fetchStatus;
            console.log(" +:+ dq +:+ "Script loaded and fetchStatus registered." +:+ dq +:+ ");
          </script>


        </body>
        </html>
        ".

Fixpoint frontendRows (id : Z) (statuses : list bool) : string :=
  match statuses with
  | [] => ""
  | _ :: statuses =>
      let port := 8080 + id in
      "<div class='worker'>" +:+
      "<span>Front-End " +:+ to_string id +:+ "</span>" +:+
      "<span>(127.0.0.1:" +:+ to_string port +:+ ")</span>" +:+
      "<span id=" +:+ dq +:+ "frontend-status-" +:+ to_string id +:+ dq +:+ " class=" +:+ dq +:+ "status" +:+
      dq +:+ ">...</span>" +:+
      "<button id=" +:+ dq +:+ "frontend-btn-" +:+ to_string id +:+ dq +:+ " onclick=" +:+ dq +:+
      "toggleFrontend(" +:+ to_string port +:+ "," +:+ to_string id +:+ ")" +:+ dq +:+ ">...</button>" +:+ lf +:+
      "</div>" +:+ frontendRows (id + 1) statuses
  end.
Definition backendRow (i : Z) : string :=
  "<div class=" +:+ dq +:+ "worker" +:+ dq +:+ ">" +:+
  "<a href=" +:+ dq +:+ "/admin/backend?worker=" +:+ to_string i +:+ dq +:+ ">Back-End " +:+ to_string i +:+
  "</a>" +:+
  "<span>(127.0.0.1:1000" +:+ to_string i +:+ ")</span>" +:+ lf +:+
  "<span id=" +:+ dq +:+ "worker-status-" +:+ to_string i +:+ dq +:+ " class=" +:+ dq +:+ "status" +:+ dq +:+
  ">...</span>" +:+
  "<input type=" +:+ dq +:+ "hidden" +:+ dq +:+ " name=" +:+ dq +:+ "workerId" +:+ dq +:+ " value=" +:+ dq +:+
  to_string i +:+ dq +:+ " />" +:+
  "<input type=" +:+ dq +:+ "hidden" +:+ dq +:+ " id=" +:+ dq +:+ "action-input-" +:+ to_string i +:+ dq +:+
  " name=" +:+ dq +:+ "action" +:+ dq +:+ " value=" +:+ dq +:+ "shutdown" +:+ dq +:+ " />" +:+
  "<button id=" +:+ dq +:+ "worker-btn-" +:+ to_string i +:+ dq +:+ " onclick=" +:+ dq +:+ "toggleWorker(" +:+
  to_string i +:+ ")" +:+ dq +:+ ">...</button>" +:+ lf +:+
  "</div>" +:+ lf.

Fixpoint workersAlive (workers : list Z) : M St (list bool) :=
  match workers with
  | [] => mret []
  | worker :: workers =>
      status ← adm_Alive worker;
      rest ← workersAlive workers;
      mret (bool_decide (status = "Alive") :: rest)
  end.
Definition home : M St string :=
  _ ← workersAlive [1; 2; 3; 4; 5; 6];
  frontends ← frontendsBody;
  mret (homeHead +:+ frontendRows 1 (frontendStatus frontends) +:+
        homeBackends +:+ foldr (λ i acc, backendRow i +:+ acc) "" [1; 2; 3; 4; 5; 6] +:+ homeScript).

(** ** Workers and tablets *)

Definition isTabletStoredHere (workerId tabletId : Z) : bool :=
  let prev1 := (workerId + NUM_TABLETS - 2) %% NUM_TABLETS + 1 in
  let prev2 := (workerId + NUM_TABLETS - 3) %% NUM_TABLETS + 1 in
  bool_decide (tabletId = workerId ∨ tabletId = prev1 ∨ tabletId = prev2).
Definition tabletLink (workerId tablet : Z) : string :=
  "<li class='tablet-item'><a href='/admin/backend?worker=" +:+
  to_string workerId +:+ "&tablet=" +:+ to_string tablet +:+
  "'>Tablet " +:+ to_string tablet +:+ "</a></li>" +:+ lf.
(** The tablets with a link on the page. *)
Definition pageTablets (workerId : Z) : list Z :=
  filter (λ tablet, isTabletStoredHere workerId tablet = true) [1; 2; 3; 4; 5; 6].
Definition workerPage (workerId : Z) : string :=
  ("
    <!DOCTYPE html>
    <html>
    <head>
    <title>Worker Tablets</title>
    <style>
        body { font-family: Arial; padding: 20px; }
        .tablet-list { list-style: none; padding: 0; }
        .tablet-item { margin: 10px 0; }
        a { text-decoration: none; color: #007BFF; font-size: 18px; }
        a:hover { text-decoration: underline; }
    </style>
    </head>
    <body>
    <h1>Tablets Stored in Worker ") +:+ to_string workerId +:+ ("</h1>
    <ul class=" +:+ dq +:+ "tablet-list" +:+ dq +:+ ">
    ") +:+
  foldr (λ tablet acc, tabletLink workerId tablet +:+ acc) "" (pageTablets workerId) +:+
  ("
    </ul>
    </body>
    </html>
    ").

Definition tabletHead : string := "
    <html>
    <head>
      <title>Tablet View</title>
      <style>
        td { vertical-align: top; white-space: pre-wrap; max-width: 600px; }
        .value-preview { display: block; }
        .value-full { display: none; }
        .toggle-btn { margin-top: 5px; }
      </style>
      <script>
        function toggle(id) {
          const preview = document.getElementById(id + " +:+ dq +:+ "_preview" +:+ dq +:+ ");
          const full = document.getElementById(id + " +:+ dq +:+ "_full" +:+ dq +:+ ");
          const btn = document.getElementById(id + " +:+ dq +:+ "_btn" +:+ dq +:+ ");
          const isCollapsed = full.style.display === " +:+ dq +:+ "none" +:+ dq +:+ ";
          full.style.display = isCollapsed ? " +:+ dq +:+ "block" +:+ dq +:+ " : " +:+ dq +:+ "none" +:+ dq +:+ ";
          preview.style.display = isCollapsed ? " +:+ dq +:+ "none" +:+ dq +:+ " : " +:+ dq +:+ "block" +:+ dq +:+ ";
          btn.textContent = isCollapsed ? " +:+ dq +:+ "Show less" +:+ dq +:+ " : " +:+ dq +:+ "Show more" +:+ dq +:+ ";
        }
      </script>
    </head>
    <body>
    ".

(** A cell; [k] is the number of cells so far that called [rand]. *)
Definition cellValue (k : nat) (val : string) : string :=
  if bool_decide (slen val ≤ 200)%nat then val
  else
    let id := "cell_" +:+ to_string (rands env k) in
    "<div id='" +:+ id +:+ "_preview' class='value-preview'>" +:+ str_take 200 val +:+ "...</div>" +:+
    "<div id='" +:+ id +:+ "_full' class='value-full'>" +:+ val +:+ "</div>" +:+
    "<button id='" +:+ id +:+ "_btn' class='toggle-btn' onclick=" +:+ dq +:+ "toggle('" +:+ id +:+ "')" +:+
    dq +:+ ">Show more</button>".
(** The columns of a row: the first one has the cell of the row. *)
Fixpoint tabletCols (row : string) (n : nat) (first : bool) (k : nat) (cols : list (string * string)) :
    nat * string :=
  match cols with
  | [] => (k, "")
  | (col, val) :: cols =>
      let k' := if bool_decide (slen val ≤ 200)%nat then k else S k in
      let '(k', rest) := tabletCols row n false k' cols in
      (k', "<tr>" +:+
           (if first then "<td rowspan='" +:+ to_string (Z.of_nat n) +:+ "'>" +:+ row +:+ "</td>" else "") +:+
           "<td>" +:+ col +:+ "</td><td>" +:+ cellValue k val +:+ "</td></tr>" +:+ rest)
  end.
Fixpoint tabletRows (k : nat) (rows : list (string * row)) : string :=
  match rows with
  | [] => ""
  | (r, cols) :: rows =>
      let '(k, html) := tabletCols r (size cols) true k (umap_entries cols) in html +:+ tabletRows k rows
  end.
Definition tabletHtml (workerId tabletId : Z) (t : table) : string :=
  tabletHead +:+
  "<h1>Tablet " +:+ to_string tabletId +:+ " on Worker " +:+ to_string workerId +:+ "</h1>" +:+
  "<table border='1'><tr><th>Row</th><th>Column</th><th>Value</th></tr>" +:+
  tabletRows 0 (umap_entries t) +:+
  "</table><br><a href='/admin/dashboard'>Back</a></body></html>".
Definition tabletPage (workerId tabletId : Z) : M St string :=
  client ← workerClient workerId;
  binary ← adm_CopyTablet client tabletId;
  if is_ERR binary then
    mret "<html><body><h1>Could not load tablet data</h1><br><a href='/admin/dashboard'>Back</a></body></html>"
  else
    let '(t, ok) := deserializeTablet ∅ binary in
    if negb ok then
      mret "<html><body><h1>Deserialization failed</h1><br><a href='/admin/dashboard'>Back</a></body></html>"
    else mret (tabletHtml workerId tabletId t).

End service.

(** ** The service over the coordinator and the workers *)

Section backend.
Context `{StdHash} `{UMapOrder} `{Grpc}.

(** [AdminConsole] of the worker at [addr]: RESTART of a worker that is down asks the coordinator. *)
Definition system_AdminConsole (addr password command : string) (s : system) : system * (Status * bool) :=
  match sys_cluster s !! addr with
  | None => (s, (st_unreachable, false))
  | Some w =>
      let '(m, res) := WorkerLookup (workerId w) (sys_master s) in
      let recovers := bool_decide (password = ADMIN_PASS ∧ command = "RESTART" ∧ admin_workerUp w = false) in
      let m := if recovers then m else sys_master s in
      match AdminConsole (recoverAllTablets (rpc_CopyTablet (sys_cluster s)) (client_WorkerLookup res))
              password command w with
      | Some (w, r) => ({| sys_master := m; sys_cluster := <[addr := w]> (sys_cluster s) |}, r)
      | None => ({| sys_master := m; sys_cluster := delete addr (sys_cluster s) |}, (st_unreachable, false))
      end
  end.
Global Instance backend_admin : AdminOps system := {
  adm_Alive i := λ s, (s, Some (client_Alive (Alive i (sys_master s))));
  adm_AdminConsole i password command := λ s,
    let '(s, res) := system_AdminConsole (worker_addr i) password command s in
    (s, Some (client_AdminConsole res));
  adm_CopyTablet i tablet := λ s, (s, Some (rpc_CopyTablet (sys_cluster s) (worker_addr i) tablet));
}.

(** *** The pages *)

Lemma serializeTablet_not_ERR t : Z.of_nat (size t) < 2 ^ 16 → is_ERR (serializeTablet t) = false.
Proof.
  intros Hs. unfold serializeTablet. rewrite to_u32_small by lia. unfold write_u32.
  rewrite (Z.div_small _ (2 ^ 16)) by lia. rewrite !sapp_cons.
  apply not_true_iff_false. intros [u E]%starts_with_spec. injection E as _ _ E. done.
Qed.

(** The tablets that have a link on the page of a worker are those it holds. *)
Lemma pageTablets_held w t :
  1 ≤ workerId w ≤ 6 → t ∈ pageTablets (workerId w) ↔ 1 ≤ t ≤ 6 ∧ is_Some (getTabletById t w).
Proof.
  intros Hw. unfold pageTablets. rewrite list_elem_of_filter. unfold isTabletStoredHere, getTabletById.
  rewrite bool_decide_eq_true. fold (prev1 (workerId w)) (prev2 (workerId w)).
  assert (t ∈ [1; 2; 3; 4; 5; 6] ↔ 1 ≤ t ≤ 6) as ->.
  { rewrite !elem_of_cons, elem_of_nil. lia. }
  repeat case_bool_decide; split; intros [Ha Hb]; try done; (split; [tauto|]); try (by eexists); 
    try by destruct Hb. tauto.
Qed.

(** On the page of a worker that is up, every tablet with a link leads to a page that shows the
    tablet in the worker's memory: what is copied over the stream and parsed is that table, and each
    of its cells is rendered.  (With more than four million rows the size at the start of the stream
    could read "ERR".) *)
Theorem tabletPage_correct env i t w s :
  wf_cluster (sys_cluster s) → 1 ≤ i ≤ 6 → up (sys_cluster s) i = Some w → t ∈ pageTablets i →
  Forall (λ T, table_fits T ∧ Z.of_nat (size T) < 2 ^ 16) (tablets w) →
  ∃ T, tablet_of t w = Some T ∧ tabletPage env i t s = (s, Some (tabletHtml env i t T)).
Proof.
  intros Hcl Hi Hup Ht Hfits. destruct (up_wf _ _ _ Hcl Hi Hup) as [Hw <-].
  apply pageTablets_held in Ht as [_ Ht]; [|done]. destruct (tablet_of_wf t w Hw Ht) as [T HT].
  exists T. split; [done|].
  assert (T ∈ tablets w) as Hin.
  { unfold tablet_of in HT. destruct (getTabletById t w); [|done]. by eapply list_elem_of_lookup_2. }
  rewrite Forall_forall in Hfits. destruct (Hfits T Hin) as [Hfit Hsize].
  assert (no_empty_rows T) as Hrows by (pose proof (wf_rows w Hw) as Hr; rewrite Forall_forall in Hr; auto).
  unfold tabletPage, workerClient. rewrite bool_decide_true by done.
  unfold lift, mbind, M_bind, mret, M_ret, adm_CopyTablet, backend_admin.
  rewrite (rpc_CopyTablet_data _ _ w t T), serializeTablet_not_ERR by done.
  by rewrite deserialize_serialize_table.
Qed.

(** *** Shutting down and restarting a worker *)

Lemma handleToggle_run worker command i s :
  stoi worker = Some i → 1 ≤ i ≤ 6 →
  handleToggle worker command s =
    let '(s, res) := system_AdminConsole (worker_addr i) ADMIN_PASS
                       (if bool_decide (command = "shutdown") then "SHUTDOWN" else "RESTART") s in
    (s, Some (negb (is_ERR (client_AdminConsole res)))).
Proof.
  intros Hst Hi. unfold handleToggle. rewrite Hst.
  unfold lift, mbind, M_bind at 1, mret at 1, M_ret.
  case_bool_decide; [unfold shutdownServer|unfold restartServer]; unfold workerClient, mbind, M_bind;
    rewrite bool_decide_true by done; cbn; by destruct (system_AdminConsole _ _ _ _).
Qed.

Lemma toggle_down worker i w s :
  stoi worker = Some i → 1 ≤ i ≤ 6 → up (sys_cluster s) i = Some w →
  handleToggle worker "shutdown" s =
    ({| sys_master := sys_master s; sys_cluster := <[worker_addr i := set_up false w]> (sys_cluster s) |}, Some true).
Proof.
  intros Hst Hi [Ew Hadm]%up_Some. rewrite (handleToggle_run _ _ i) by done.
  change (bool_decide ("shutdown" = "shutdown")) with true. cbv iota. unfold system_AdminConsole.
  rewrite Ew. destruct (WorkerLookup (workerId w) (sys_master s)) as [m res].
  rewrite bool_decide_false by (by intros (_ & ? & _)). unfold AdminConsole.
  change (bool_decide (ADMIN_PASS ≠ ADMIN_PASS)) with false.
  change (bool_decide ("SHUTDOWN" = "SHUTDOWN")) with true. cbv iota. by rewrite Hadm.
Qed.
Lemma toggle_up worker w m cl T0 T1 T2 :
  stoi worker = Some (workerId w) → wf_worker w → wf_cluster cl → accurate m cl →
  cl !! worker_addr (workerId w) = Some w → admin_workerUp w = false →
  recoverable cl w 0 T0 → recoverable cl w 1 T1 → recoverable cl w 2 T2 →
  ∃ m2, handleToggle worker "restart" {| sys_master := m; sys_cluster := cl |} =
    ({| sys_master := m2; sys_cluster := joined (set_up true (loaded T0 T1 T2 w)) cl |}, Some true).
Proof.
  intros Hst Hw Hcl Hacc Ew Hdown R0 R1 R2. rewrite (handleToggle_run _ _ (workerId w)) by (done || apply Hw).
  change (bool_decide ("restart" = "shutdown")) with false. cbv iota. unfold system_AdminConsole.
  cbn [sys_cluster sys_master]. rewrite Ew.
  pose proof (recoverAllTablets_peers m cl w T0 T1 T2) as E.
  destruct (WorkerLookup (workerId w) m) as [m2 res]. cbn [snd] in E.
  unfold AdminConsole. change (bool_decide (ADMIN_PASS ≠ ADMIN_PASS)) with false.
  change (bool_decide ("RESTART" = "SHUTDOWN")) with false.
  change (bool_decide ("RESTART" = "RESTART")) with true. cbv iota. rewrite Hdown. cbn [negb].
  rewrite E; [by eexists| | | | | |by unfold up; rewrite Ew; simpl; rewrite Hdown|done..]; try apply Hw; done.
Qed.

(** The cluster while worker [i] is shut down. *)
Lemma up_shut cl i w id :
  1 ≤ i ≤ 6 → 1 ≤ id ≤ 6 →
  up (<[worker_addr i := set_up false w]> cl) id = if decide (id = i) then None else up cl id.
Proof.
  intros Hi Hid. unfold up. case_decide as E; [subst id; by rewrite lookup_insert_eq|].
  rewrite lookup_insert_ne; [done|]. intros Ea. apply worker_addr_inj in Ea; congruence.
Qed.
Lemma shut_agree cl i w : 1 ≤ i ≤ 6 → holders_agree cl → holders_agree (<[worker_addr i := set_up false w]> cl).
Proof.
  intros Hi Hag t id id' w1 w2 Ht Hid Hid'. rewrite !up_shut by eauto using candidate_range.
  repeat case_decide; try done. by apply Hag.
Qed.
Lemma shut_wf cl i w : up cl i = Some w → wf_cluster cl → wf_cluster (<[worker_addr i := set_up false w]> cl).
Proof.
  intros [Ew _]%up_Some Hcl a w' Ha. destruct (decide (a = worker_addr i)) as [->|Hne].
  - rewrite lookup_insert_eq in Ha. simplify_eq. destruct (Hcl _ _ Ew) as [[] ?]. by split.
  - rewrite lookup_insert_ne in Ha by done. by apply Hcl.
Qed.
(** Another holder has what the worker had. *)
Lemma shut_recoverable cl i w j T :
  1 ≤ i ≤ 6 → wf_cluster cl → holders_agree cl → up cl i = Some w → (j < 3)%nat →
  tablets w !! j = Some T → table_fits T →
  let cl1 := <[worker_addr i := set_up false w]> cl in
  is_Some (first_up cl1 (tablet_at_index i j)) → recoverable cl1 (set_up false w) j T.
Proof.
  intros Hi Hcl Hag Hup Hj HT Hfit cl1 [id Hid]. destruct (up_wf _ _ _ Hcl Hi Hup) as [Hw Ew].
  left. cbn [workerId set_up]. rewrite Ew. set (t := tablet_at_index i j) in *.
  pose proof (tablet_at_index_range i j Hi Hj) as Ht. fold t in Ht.
  assert (getTabletById t w = Some j) as Hgj.
  { apply getTabletById_index; [by rewrite Ew|]. split; [done|]. by rewrite Ew. }
  assert (tablet_of t w = Some T) as HTw by (unfold tablet_of; by rewrite Hgj).
  destruct (first_up_spec cl1 t id Ht Hid) as (Hin & [w' Hw'] & _).
  split; [|split; [done|]].
  - unfold table_at. rewrite Hid. cbn [mbind option_bind]. rewrite Hw'. cbn [mbind option_bind].
    subst cl1. rewrite up_shut in Hw' by eauto using candidate_range. case_decide as Ed; [done|].
    rewrite <-HTw. apply (Hag t id i w' w Ht Hin); [|done|done].
    rewrite <-Ew. apply candidate_holds; [done|by rewrite Ew|by eexists].
  - pose proof (wf_rows w Hw) as Hr. rewrite Forall_forall in Hr. apply Hr. by eapply list_elem_of_lookup_2.
Qed.

(** C25: an administrator shuts a worker down and, once the coordinator has noticed, restarts it:
    both buttons report success, in between the worker serves nothing, and afterwards it is up with
    exactly the tablets it had and agrees with all other holders, when each of its tablets has
    another holder that is up. *)
Theorem toggle_roundtrip worker i w s m' :
  let cl1 := <[worker_addr i := set_up false w]> (sys_cluster s) in
  stoi worker = Some i → 1 ≤ i ≤ 6 → wf_cluster (sys_cluster s) → holders_agree (sys_cluster s) →
  up (sys_cluster s) i = Some w → Forall table_fits (tablets w) →
  (∀ j, (j < 3)%nat → is_Some (first_up cl1 (tablet_at_index i j))) → accurate m' cl1 →
  handleToggle worker "shutdown" s = ({| sys_master := sys_master s; sys_cluster := cl1 |}, Some true) ∧
  up cl1 i = None ∧
  ∃ s2, handleToggle worker "restart" {| sys_master := m'; sys_cluster := cl1 |} = (s2, Some true) ∧
    tablets <$> up (sys_cluster s2) i = Some (tablets w) ∧
    wf_cluster (sys_cluster s2) ∧ holders_agree (sys_cluster s2).
Proof.
  intros cl1 Hst Hi Hcl Hag Hup Hfits Hother Hacc. destruct (up_wf _ _ _ Hcl Hi Hup) as [Hw Ew].
  assert (up cl1 i = None) as Hdown by (subst cl1; rewrite up_shut by done; by rewrite decide_True).
  split; [by apply toggle_down|]. split; [done|].
  destruct (tablets w) as [|T0 [|T1 [|T2 [|]]]] eqn:ET; try by pose proof (wf_tablets w Hw) as El; rewrite ET in El.
  assert (∀ j T, tablets w !! j = Some T → recoverable cl1 (set_up false w) j T) as Hrec.
  { intros j T Hj. assert (j < 3)%nat by (apply lookup_lt_Some in Hj; by rewrite ET in Hj).
    apply shut_recoverable; auto. rewrite <-ET in Hfits. by eapply Forall_lookup in Hfits. }
  rewrite ET in Hrec. pose proof (Hrec 0%nat T0 eq_refl) as R0. pose proof (Hrec 1%nat T1 eq_refl) as R1.
  pose proof (Hrec 2%nat T2 eq_refl) as R2.
  assert (wf_worker (set_up false w)) as Hw1 by (destruct Hw; by split).
  assert (wf_cluster cl1) as Hcl1 by (by apply shut_wf).
  assert (holders_agree cl1) as Hag1 by (by apply shut_agree).
  destruct (toggle_up worker (set_up false w) m' cl1 T0 T1 T2) as [m2 E]; try done.
  { cbn. by rewrite Ew. }
  { cbn. rewrite Ew. apply lookup_insert_eq. }
  eexists. split; [exact E|]. cbn [sys_cluster].
  rewrite up_joined by (try done; cbn; lia). cbn [workerId set_up loaded]. rewrite decide_True by done.
  split_and!; [done| |].
  - apply wf_joined; [done|]. apply wf_loaded; eauto using recoverable_rows.
  - apply joined_agree; try done. cbn. by rewrite Ew.
Qed.

(** *** The dashboard's status *)

Lemma adm_Alive_spec i s :
  adm_Alive i s = (s, Some (client_Alive (Alive i (sys_master s)))) ∧
  bool_decide (client_Alive (Alive i (sys_master s)) = "Alive") = alive (sys_master s) i.
Proof.
  split; [done|]. unfold client_Alive, Alive, alive. by destruct (isAlive (sys_master s) !! i) as [[]|].
Qed.
Definition json_bool (b : bool) : string := if b then "true" else "false".
Definition worker_json (m : master) (i : Z) : string :=
  "{" +:+ dq +:+ "id" +:+ dq +:+ ":" +:+ to_string i +:+ "," +:+ dq +:+ "alive" +:+ dq +:+ ":" +:+
  json_bool (alive m i) +:+ "}".
Lemma workerStatuses_spec s :
  workerStatuses [1; 2; 3; 4; 5; 6] s = (s, Some (join "," (worker_json (sys_master s) <$> [1; 2; 3; 4; 5; 6]))).
Proof.
  cbn [workerStatuses]. unfold mbind, M_bind, mret, M_ret. cbn [adm_Alive backend_admin].
  rewrite !(proj2 (adm_Alive_spec _ s)). unfold worker_json, json_bool.
  cbn [fmap list_fmap join]. rewrite !sapp_assoc. by cbn [negb].
Qed.
(** The balancer's answer to the request of [checkHttpAlive]. *)
Definition frontend_json (i : nat) (port : string) (b : bool) : string :=
  "{" +:+ dq +:+ "id" +:+ dq +:+ ":" +:+ to_string (Z.of_nat i + 1) +:+ "," +:+ dq +:+ "port" +:+ dq +:+ ":" +:+
  dq +:+ port +:+ dq +:+ "," +:+ dq +:+ "alive" +:+ dq +:+ ":" +:+ json_bool b +:+ "}".
Definition frontends_json (net : network) : string :=
  "[" +:+ join "," [frontend_json 0 "8081" (LoadBalancer.up net 0); frontend_json 1 "8082" (LoadBalancer.up net 1);
                    frontend_json 2 "8083" (LoadBalancer.up net 2)] +:+ "]".
Lemma health_json_spec net : health_json net = Some (frontends_json net).
Proof.
  assert (∀ i port f, FRONTENDS !! i = Some f →
    str_drop (npos_add (rfind ":" (without_scheme f)) 1) (without_scheme f) = port →
    health_entry net i f = Some (frontend_json i port (LoadBalancer.up net i))) as He.
  { intros i port f Hf <-. unfold health_entry. by rewrite (is_alive_FRONTENDS net i f Hf). }
  unfold health_json, FRONTENDS. cbn [health_entries].
  rewrite (He 0%nat "8081"), (He 1%nat "8082"), (He 2%nat "8083") by done. done.
Qed.

(** The status the dashboard polls tells, for each worker, whether the coordinator considers it
    alive, and for each frontend whether it answers the load balancer's probe. *)
Theorem fetchWorkerStatuses_correct env net next s :
  (∀ request, balancer env request = snd <$> handle_client net (Some request) next) →
  fetchWorkerStatuses env s =
    (s, Some ("{" +:+ dq +:+ "workers" +:+ dq +:+ ":[" +:+
       join "," (worker_json (sys_master s) <$> [1; 2; 3; 4; 5; 6]) +:+ "]," +:+
       dq +:+ "frontends" +:+ dq +:+ ":" +:+ frontends_json net +:+ "}")).
Proof.
  intros Hb. unfold fetchWorkerStatuses. unfold mbind, M_bind at 1. rewrite workerStatuses_spec.
  unfold frontendsBody. assert (checkHttpAlive env "127.0.0.1:8080" =
    "HTTP/1.1 200 OK" +:+ crlf +:+ "Content-Type: application/json" +:+ crlf +:+
    "Content-Length: " +:+ to_string (Z.of_nat (slen (frontends_json net))) +:+ crlf +:+
    "Connection: close" +:+ crlf +:+ crlf +:+ frontends_json net) as ->.
  { unfold checkHttpAlive. change (stoi _) with (Some 8080). cbv iota. rewrite Hb. unfold handle_client.
    rewrite health_json_spec. unfold frontends_json.
    destruct (LoadBalancer.up net 0), (LoadBalancer.up net 1), (LoadBalancer.up net 2); by vm_compute. }
  unfold frontends_json.
  destruct (LoadBalancer.up net 0), (LoadBalancer.up net 1), (LoadBalancer.up net 2); reflexivity.
Qed.

End backend.

(** ** Examples *)

Definition example_env : admin_env := {|
  balancer request := snd <$> handle_client (answering [8082]) (Some request) 0;
  shell _ := 0; rands _ := 0 |}.

Lemma fetchWorkerStatuses_correct_witness :
  @fetchWorkerStatuses system (@backend_admin canonical_order "unreachable") example_env new_system =
    (new_system, Some ("{" +:+ dq +:+ "workers" +:+ dq +:+ ":[" +:+
       join "," (worker_json all_alive <$> [1; 2; 3; 4; 5; 6]) +:+ "]," +:+
       dq +:+ "frontends" +:+ dq +:+ ":" +:+ frontends_json (answering [8082]) +:+ "}")).
Proof. apply (fetchWorkerStatuses_correct example_env (answering [8082]) 0). reflexivity. Defined.

(** A system of one worker, with the row of alice. *)
Definition one_worker : system := {| sys_master := all_alive; sys_cluster := {[ worker_addr 1 := one_put ]} |}.
Lemma one_put_wf : wf_worker one_put.
Proof. apply (@wreach_inv (λ _, 0) canonical_order (λ _ _, "") 1); [lia|apply one_put_reach]. Qed.
Lemma one_put_fits : Forall (λ T, table_fits T ∧ Z.of_nat (size T) < 2 ^ 16) (tablets one_put).
Proof.
  assert (∀ T, bool_decide (table_fits T) && (Z.of_nat (size T) <? 2 ^ 16) = true →
    table_fits T ∧ Z.of_nat (size T) < 2 ^ 16) as Hb
    by (intros T [H1%bool_decide_eq_true H2%Z.ltb_lt]%andb_prop; done).
  eapply Forall_impl; [|exact Hb]. by apply (bool_decide_unpack _); vm_compute.
Qed.

Lemma tabletPage_correct_witness :
  ∃ T, tablet_of 1 one_put = Some T ∧
    @tabletPage canonical_order system (@backend_admin canonical_order "unreachable") example_env 1 1 one_worker =
      (one_worker, Some (@tabletHtml canonical_order example_env 1 1 T)).
Proof.
  apply (@tabletPage_correct canonical_order "unreachable" example_env 1 1 one_put one_worker).
  - intros a w Ha. cbn [sys_cluster one_worker] in Ha. apply lookup_singleton_Some in Ha as [<- <-].
    split; [apply one_put_wf|reflexivity].
  - lia.
  - reflexivity.
  - apply (bool_decide_unpack _). vm_compute. exact I.
  - apply one_put_fits.
Defined.

Lemma toggle_roundtrip_witness :
  let ops := @backend_admin canonical_order "unreachable" in
  @handleToggle system ops "1" "shutdown" new_system =
    ({| sys_master := all_alive; sys_cluster := one_shut |}, Some true) ∧
  up one_shut 1 = None ∧
  ∃ s2, @handleToggle system ops "1" "restart" {| sys_master := example_master; sys_cluster := one_shut |} =
      (s2, Some true) ∧
    tablets <$> up (sys_cluster s2) 1 = Some [∅; ∅; ∅] ∧
    wf_cluster (sys_cluster s2) ∧ holders_agree (sys_cluster s2).
Proof.
  apply (@toggle_roundtrip canonical_order "unreachable" "1" 1 (boot 1 ∅) new_system example_master).
  - reflexivity.
  - lia.
  - apply booted_wf.
  - apply booted_agree.
  - reflexivity.
  - apply (bool_decide_unpack _). vm_compute. exact I.
  - intros [|[|[|j]]] Hj; [by eexists; vm_compute..|lia].
  - apply one_shut_accurate.
Defined.

(** ** Defects *)

(** Without the load balancer, the text "false" is cut as if it were a response with headers, and the
    status is no JSON; a balancer that closes the connection without an answer makes [substr] throw. *)
Theorem status_without_balancer `{AdminOps St} env env' (s : St) :
  (∀ request, balancer env request = None) → (∀ request, balancer env' request = Some "") →
  frontendsBody env s = (s, Some "se") ∧ frontendsBody env' s = (s, None).
Proof.
  intros Hb Hb'. unfold frontendsBody, checkHttpAlive. change (stoi _) with (Some 8080). cbv iota.
  by rewrite Hb, Hb'.
Qed.
