(* ===== verification/Smtp.v ===== *)
(** * The SMTP server: frontend/email/smtp_server.cc

    One connection is the loop of [handle_client]: packets are cut into lines, each line is a
    command or, in DATA mode, a line of the message; the end of the message delivers it to the
    mailboxes of the local recipients and relays it to the others. *)
From S2P Require Import Prelude CppString Table Codec Utils CppStream Rpc Coordinator Worker WorkerFacts.
From S2P Require Import Cluster ClusterFacts Replication Kv.

(** The clock, the random numbers and the network, which the server reads.  [dns_mx domain] is the
    answer section of [res_query] for MX records: [None] when the query fails, and for each record
    that can be parsed the two bytes of its preference and its host. *)
Class MailEnv := {
  env_date : string;
  env_timestamp : string;
  env_epoch : Z;
  env_rand : Z;
  dns_mx : string → option (list (option (ascii * ascii * string)));
  gethostbyname : string → bool;
  relay_socket : bool;
  relay_connect : string → Z → bool;
}.

(** ** Strings *)

Definition ltrim (s : string) : string := skip_space s.
Definition rtrim (s : string) : string := str_rev (skip_space (str_rev s)).
Definition trim (s : string) : string := rtrim (ltrim s).

Fixpoint remove_char (c : ascii) (s : string) : string :=
  match s with
  | "" => ""
  | String a s => if decide (a = c) then remove_char c s else String a (remove_char c s)
  end.
(** ** Mailboxes *)

Section mailboxes.
Context `{KvOps St}.

(** [ClientPool::getWorkerClient]: the client of the worker that serves the row. *)
Definition getWorkerClient (rowKey : string) : M St string := kv_Lookup rowKey.

Definition encrypt (metadata : string) : string := str_rev metadata.

Definition appendToMetadata (mailboxRow emailId : string) : M St unit :=
  client ← getWorkerClient mailboxRow;
  currentMeta ← kv_Get client mailboxRow "meta";
  let newMeta := if is_ERR currentMeta || bool_decide (currentMeta = "") then emailId
                 else currentMeta +:+ "," +:+ emailId in
  _ ← kv_Put client mailboxRow "meta" newMeta; mret tt.

(** [appendToMetadata] of the SMTP server takes the metadata in clear. *)
Definition appendRawMetadata (mailboxRow raw : string) : M St unit :=
  appendToMetadata mailboxRow (encrypt raw).

Definition rawMeta (sender recipient subject timestamp : string) : string :=
  "sender:" +:+ sender +:+ ";" +:+ "recipient:" +:+ recipient +:+ ";" +:+
  "subject:" +:+ subject +:+ ";" +:+ "timestamp:" +:+ timestamp +:+ ";".

Definition sendDeliveryFailure `{MailEnv} (sender failedRecipient reason : string) : M St unit :=
  let subject := "Delivery Failed to " +:+ failedRecipient in
  let body := "Your email could not be delivered to " +:+ failedRecipient +:+ "." +:+ lf +:+
    "Reason: " +:+ reason in
  let encryptedMeta := encrypt (rawMeta "mailer-daemon@localhost" sender subject env_timestamp) in
  let inboxRow := "inbox_email:" +:+ sender in
  client ← getWorkerClient inboxRow;
  _ ← kv_Put client inboxRow encryptedMeta body;
  curMeta ← kv_Get client inboxRow "meta";
  let newMeta := if is_ERR curMeta || bool_decide (curMeta = "") then encryptedMeta
                 else curMeta +:+ "," +:+ encryptedMeta in
  _ ← kv_Put client inboxRow "meta" newMeta; mret tt.

(** A message stored in a mailbox under its encrypted metadata, and listed there. *)
Definition storeMail (mailboxRow raw emailBdy : string) : M St unit :=
  client ← getWorkerClient mailboxRow;
  _ ← kv_Put client mailboxRow (encrypt raw) emailBdy;
  appendRawMetadata mailboxRow raw.

(** One local recipient: the message goes to the recipient's inbox and, when the sender is local,
    to the sender's sent folder. *)
Definition deliverLocal (senderEmail recipientEmail subject timestamp emailBdy : string) : M St unit :=
  let raw := rawMeta senderEmail recipientEmail subject timestamp in
  _ ← storeMail ("inbox_email:" +:+ recipientEmail) raw emailBdy;
  if contains "@localhost" senderEmail then
    storeMail ("sent_email:" +:+ senderEmail) raw emailBdy
  else mret tt.

(** ** Recipients elsewhere *)

(** [(rdata[0] << 8) | rdata[1]] *)
Definition mx_preference (b0 b1 : ascii) : Z :=
  Z.lor (Z.shiftl (Z.of_N (N_of_ascii b0)) 8) (Z.of_N (N_of_ascii b1)).
Definition INT_MAX : Z := 2 ^ 31 - 1.

(** The loop over the records: the host with the lowest preference. *)
Fixpoint best_mx (answers : list (option (ascii * ascii * string))) (lowest_pref : Z)
    (best_mx_host : string) : string :=
  match answers with
  | [] => best_mx_host
  | None :: answers => best_mx answers lowest_pref best_mx_host
  | Some (b0, b1, mxname) :: answers =>
      if bool_decide (mx_preference b0 b1 < lowest_pref)
      then best_mx answers (mx_preference b0 b1) mxname
      else best_mx answers lowest_pref best_mx_host
  end.
Definition resolveMXDomain `{MailEnv} (domain : string) : string :=
  match dns_mx domain with
  | None => ""
  | Some answers => best_mx answers INT_MAX ""
  end.

(** [rewrittenSender] *)
Definition replaceLocalhost (s : string) : string :=
  match find0 "@localhost" s with
  | Some p => str_take p s +:+ "@seas.upenn.edu" +:+ str_drop (p + 10) s
  | None => s
  end.
(** What is sent to the mail server of the recipient; its answers are ignored. *)
Definition relayConversation (senderEmail headersBlock bodyBlock recipient : string) : list string :=
  (λ cmd, cmd +:+ crlf) <$>
  ["HELO seas.upenn.edu"; "MAIL FROM:<" +:+ replaceLocalhost senderEmail +:+ ">";
   "RCPT TO:<" +:+ recipient +:+ ">"; "DATA";
   headersBlock +:+ crlf +:+ crlf +:+ bodyBlock +:+ crlf +:+ "."; "QUIT"].

(** The mail server to talk to and its port, or why there is none. *)
Definition relayRoute `{MailEnv} (domain : string) : string * Z + string :=
  let mxHost := resolveMXDomain domain in
  let relayPort := if bool_decide (mxHost = "127.0.0.1") then 2525 else 25 in
  if bool_decide (mxHost = "") then inr "MX record not found"
  else if negb (gethostbyname mxHost) then inr "host not found"
  else if negb relay_socket then inr "socket creation failed"
  else if negb (relay_connect mxHost relayPort) then inr "SMTP connect failed"
  else inl (mxHost, relayPort).

(** One recipient elsewhere: the mail server that is contacted and what is sent to it. *)
Definition deliverRemote `{MailEnv} (senderEmail headersBlock bodyBlock recipient : string) :
    M St (option (string * Z * list string)) :=
  match find_char0 "@"%char recipient with
  | None => mret None
  | Some atPos =>
      match relayRoute (str_drop (atPos + 1) recipient) with
      | inr reason => _ ← sendDeliveryFailure senderEmail recipient reason; mret None
      | inl target =>
          mret (Some (target, relayConversation senderEmail headersBlock bodyBlock recipient))
      end
  end.

End mailboxes.

(** ** The state of a connection *)

Record smtp := {
  senderEmail : string;
  validRecipients : list string;
  nonLocalRecipients : list string;
  isDataRecptMode : bool;
  inHeaderSection : bool;
  headersBlock : string;
  bodyBlock : string;
}.
Definition smtp_init : smtp :=
  {| senderEmail := ""; validRecipients := []; nonLocalRecipients := []; isDataRecptMode := false;
     inHeaderSection := true; headersBlock := ""; bodyBlock := "" |}.

(** ** DATA mode *)

(** The text of the "Subject:" header. *)
Fixpoint subjectOf (headerLines : list string) : string :=
  match headerLines with
  | [] => "No Subject"
  | headerLine :: rest =>
      if starts_with "Subject:" headerLine then trim (str_drop 8 headerLine) else subjectOf rest
  end.

(** "AUTO-FILL MISSING HEADERS", the date and the message id. *)
Definition fillHeaders `{MailEnv} (c : smtp) : string :=
  let h := headersBlock c in
  let h := if contains "From:" h then h else h +:+ "From: " +:+ senderEmail c +:+ lf in
  let h := if contains "To:" h then h
           else match validRecipients c, nonLocalRecipients c with
                | r :: _, _ => h +:+ "To: " +:+ r +:+ lf
                | [], r :: _ => h +:+ "To: " +:+ r +:+ lf
                | [], [] => h
                end in
  let h := if contains "Date:" h then h else h +:+ "Date: " +:+ env_date +:+ lf in
  h +:+ "Message-ID: <" +:+ to_string env_epoch +:+ "." +:+ to_string (env_rand %% 10000) +:+ "@" +:+
  str_drop (npos_add (find_char0 "@"%char (senderEmail c)) 1) (senderEmail c) +:+ ">" +:+ lf.

(** A line of the message. *)
Definition dataLine (line : string) (c : smtp) : smtp :=
  if inHeaderSection c then
    let trimmed := trim line in
    if bool_decide (trimmed = "") then
      {| senderEmail := senderEmail c; validRecipients := validRecipients c;
         nonLocalRecipients := nonLocalRecipients c; isDataRecptMode := isDataRecptMode c;
         inHeaderSection := false; headersBlock := headersBlock c; bodyBlock := bodyBlock c |}
    else if bool_decide (find_char0 ":"%char trimmed = None) then
      {| senderEmail := senderEmail c; validRecipients := validRecipients c;
         nonLocalRecipients := nonLocalRecipients c; isDataRecptMode := isDataRecptMode c;
         inHeaderSection := false; headersBlock := headersBlock c;
         bodyBlock := bodyBlock c +:+ line +:+ lf |}
    else
      {| senderEmail := senderEmail c; validRecipients := validRecipients c;
         nonLocalRecipients := nonLocalRecipients c; isDataRecptMode := isDataRecptMode c;
         inHeaderSection := true; headersBlock := headersBlock c +:+ line +:+ lf;
         bodyBlock := bodyBlock c |}
  else
    {| senderEmail := senderEmail c; validRecipients := validRecipients c;
       nonLocalRecipients := nonLocalRecipients c; isDataRecptMode := isDataRecptMode c;
       inHeaderSection := false; headersBlock := headersBlock c;
       bodyBlock := bodyBlock c +:+ line +:+ lf |}.

(** The line ".": the end of DATA mode. *)
Definition endData `{KvOps St} `{MailEnv} (extraCreditNonLocal : bool) (c : smtp) :
    M St (smtp * string) :=
  let off c := {| senderEmail := senderEmail c; validRecipients := validRecipients c;
    nonLocalRecipients := nonLocalRecipients c; isDataRecptMode := false;
    inHeaderSection := inHeaderSection c; headersBlock := headersBlock c; bodyBlock := bodyBlock c |} in
  if bool_decide (validRecipients c = [] ∧ nonLocalRecipients c = []) then
    mret (off c, "550 Requested action not taken: no valid recipients" +:+ crlf)
  else
    let subject := subjectOf (getlines LF (headersBlock c)) in
    let headers := fillHeaders c in
    _ ← for_each (λ recipient,
          deliverLocal (senderEmail c) recipient subject env_timestamp (bodyBlock c))
          (validRecipients c);
    _ ← (if extraCreditNonLocal then
           for_each (λ recipient,
             _ ← deliverRemote (senderEmail c) headers (bodyBlock c) recipient; mret tt)
             (nonLocalRecipients c)
         else mret tt);
    mret ({| senderEmail := senderEmail c; validRecipients := [];
             nonLocalRecipients := nonLocalRecipients c; isDataRecptMode := false;
             inHeaderSection := inHeaderSection c; headersBlock := ""; bodyBlock := "" |},
          "250 Data input complete. Exiting DATA mode." +:+ crlf).

(** ** Commands *)

(** [s.front() == '<' && s.back() == '>'] of a non-empty string. *)
Definition bracketed (s : string) : bool :=
  match s with
  | "" => false
  | String c _ => bool_decide (c = "<"%char) && bool_decide (String.get (slen s - 1) s = Some ">"%char)
  end.
Definition unbracket (s : string) : string := remove_char ">"%char (remove_char "<"%char s).

Definition cmd_MAIL (messagePart : string) (c : smtp) : smtp * string :=
  if starts_with "FROM:" messagePart then
    let sender := trim (str_drop 5 messagePart) in
    if negb (bracketed sender) then
      ({| senderEmail := sender; validRecipients := validRecipients c;
          nonLocalRecipients := nonLocalRecipients c; isDataRecptMode := isDataRecptMode c;
          inHeaderSection := inHeaderSection c; headersBlock := headersBlock c;
          bodyBlock := bodyBlock c |},
       "500 Syntax error, command format unrecognized. Use format MAIL FROM:<youremail>" +:+ crlf)
    else
      ({| senderEmail := unbracket sender; validRecipients := []; nonLocalRecipients := [];
          isDataRecptMode := isDataRecptMode c; inHeaderSection := inHeaderSection c;
          headersBlock := headersBlock c; bodyBlock := bodyBlock c |}, "250 OK" +:+ crlf)
  else (c, "500 Syntax error, command format unrecognized" +:+ crlf).

(** The first occurrence of "@localhost" ends the address. *)
Definition isLocal (recipient : string) : bool :=
  match find0 "@localhost" recipient with
  | Some pos => bool_decide (str_drop pos recipient = "@localhost")
  | None => false
  end.

Definition cmd_RCPT (extraCreditNonLocal : bool) (messagePart : string) (c : smtp) : smtp * string :=
  if bool_decide (senderEmail c = "") then
    (c, "503 Bad sequence of commands: MAIL FROM required before RCPT TO" +:+ crlf)
  else if starts_with "TO:" messagePart then
    let recipient := trim (str_drop 3 messagePart) in
    if negb (bracketed recipient) then (c, "500 Syntax error, command format unrecognized" +:+ crlf)
    else
      let recipient := unbracket recipient in
      if negb (isLocal recipient) then
        if extraCreditNonLocal then
          ({| senderEmail := senderEmail c; validRecipients := validRecipients c;
              nonLocalRecipients := nonLocalRecipients c ++ [recipient];
              isDataRecptMode := isDataRecptMode c; inHeaderSection := inHeaderSection c;
              headersBlock := headersBlock c; bodyBlock := bodyBlock c |}, "250 OK" +:+ crlf)
        else (c, "550 Requested action not taken: unavailable" +:+ crlf)
      else
        ({| senderEmail := senderEmail c; validRecipients := validRecipients c ++ [recipient];
            nonLocalRecipients := nonLocalRecipients c; isDataRecptMode := isDataRecptMode c;
            inHeaderSection := inHeaderSection c; headersBlock := headersBlock c;
            bodyBlock := bodyBlock c |}, "250 OK" +:+ crlf)
  else (c, "500 Syntax error, command format unrecognized" +:+ crlf).

Definition cmd_DATA (extraCreditNonLocal : bool) (c : smtp) : smtp * string :=
  if bool_decide (senderEmail c = "") then
    (c, "503 Bad sequence of commands: MAIL FROM required first" +:+ crlf)
  else if bool_decide (validRecipients c = []) &&
          (negb extraCreditNonLocal || bool_decide (nonLocalRecipients c = [])) then
    (c, "503 Bad sequence of commands: RCPT TO required first" +:+ crlf)
  else
    ({| senderEmail := senderEmail c; validRecipients := validRecipients c;
        nonLocalRecipients := nonLocalRecipients c; isDataRecptMode := true; inHeaderSection := true;
        headersBlock := ""; bodyBlock := "" |},
     "354 Start mail input; end with <CRLF>.<CRLF>" +:+ crlf).

Definition cmd_RSET (c : smtp) : smtp * string :=
  ({| senderEmail := ""; validRecipients := []; nonLocalRecipients := nonLocalRecipients c;
      isDataRecptMode := false; inHeaderSection := inHeaderSection c; headersBlock := "";
      bodyBlock := "" |}, "250 OK" +:+ crlf).

(** A command outside DATA mode: the new state, the answer, and whether the connection is closed. *)
Definition smtp_command (extraCreditNonLocal : bool) (line : string) (c : smtp) : smtp * string * bool :=
  let cmdPart := substr_to (find_char0 " "%char line) line in
  let messagePart := if bool_decide (slen cmdPart < slen line)%nat
                     then substr_from (slen cmdPart + 1) line else "" in
  let cmdPart := toupper cmdPart in
  if bool_decide (cmdPart = "HELO") then
    (c, "250 localhost HELO " +:+ messagePart +:+ ". Happy to meet you" +:+ crlf, false)
  else if bool_decide (cmdPart = "MAIL") then (cmd_MAIL messagePart c, false)
  else if bool_decide (cmdPart = "RCPT") then (cmd_RCPT extraCreditNonLocal messagePart c, false)
  else if bool_decide (cmdPart = "DATA") then (cmd_DATA extraCreditNonLocal c, false)
  else if bool_decide (cmdPart = "NOOP") then (c, "250 OK" +:+ crlf, false)
  else if bool_decide (cmdPart = "RSET") then (cmd_RSET c, false)
  else if bool_decide (cmdPart = "QUIT") then
    (c, "221 localhost SMTP Service Closing transmission!" +:+ crlf, true)
  else (c, "500 Syntax error, Unknown command" +:+ crlf, false).

(** ** The connection *)

Definition BUFFER_LENGTH : nat := 1024.

Section connection.
Context `{KvOps St} `{MailEnv}.
Variable extraCreditNonLocal : bool.

(** One line, with its CRLF removed: the answers it causes. *)
Definition smtp_line (line : string) (c : smtp) : M St (smtp * list string * bool) :=
  let currentCommand := trim line in
  if bool_decide (currentCommand = "") then mret (c, [], false)
  else if bool_decide (BUFFER_LENGTH < slen currentCommand)%nat then
    mret (c, ["-ERR Command given too long" +:+ crlf], false)
  else if isDataRecptMode c then
    if bool_decide (currentCommand = ".") then
      '(c, r) ← endData extraCreditNonLocal c; mret (c, [r], false)
    else mret (dataLine currentCommand c, [], false)
  else
    let '(c, r, closed) := smtp_command extraCreditNonLocal currentCommand c in
    mret (c, [r], closed).

(** The inner loop: the complete lines of the buffer.  Each removes its CRLF from it. *)
Fixpoint smtp_lines (fuel : nat) (finalBuf : string) (c : smtp) :
    M St (string * smtp * list string * bool) :=
  match find0 crlf finalBuf with
  | None => mret (finalBuf, c, [], false)
  | Some position =>
      match fuel with
      | O => throw
      | S fuel =>
          '(c, out, closed) ← smtp_line (str_take position finalBuf) c;
          let rest := str_drop (position + 2) finalBuf in
          if closed : bool then mret (rest, c, out, true)
          else
            '(rest, c, out', closed) ← smtp_lines fuel rest c;
            mret (rest, c, out ++ out', closed)
      end
  end.

(** The outer loop: [packets] are the successive results of [recv]. *)
Fixpoint smtp_session (packets : list string) (finalBuf : string) (c : smtp) : M St (list string) :=
  match packets with
  | [] => mret []
  | packet :: packets =>
      let finalBuf := finalBuf +:+ c_string packet in
      '(finalBuf, c, out, closed) ← smtp_lines (slen finalBuf) finalBuf c;
      if closed : bool then mret out
      else out' ← smtp_session packets finalBuf c; mret (out ++ out')
  end.

(** [handle_client]: everything sent to the client. *)
Definition handle_client (packets : list string) : M St (list string) :=
  out ← smtp_session packets "" smtp_init;
  mret (("220 localhost Simple Mail Transfer (SMTP) Server Ready" +:+ crlf) :: out).

End connection.
