(* ===== verification/SmtpFacts.v ===== *)
(** * Correctness of the SMTP server

    The invariant of a connection, independence from how the stream is cut into packets, delivery. *)
From S2P Require Import Prelude CppString Table Codec Utils CppStream Rpc Coordinator Worker WorkerFacts.
From S2P Require Import Cluster ClusterFacts Replication Kv Smtp.

(** ** The invariant of a connection *)

Record smtp_ok (extraCreditNonLocal : bool) (c : smtp) : Prop := {
  ok_local : Forall (λ r, isLocal r = true) (validRecipients c);
  ok_remote : extraCreditNonLocal = false → nonLocalRecipients c = [];
  ok_data : isDataRecptMode c = true →
    senderEmail c ≠ "" ∧ (validRecipients c ≠ [] ∨ nonLocalRecipients c ≠ []);
}.

Lemma smtp_ok_init x : smtp_ok x smtp_init.
Proof. by split. Qed.

Lemma dataLine_ok x line c : smtp_ok x c → smtp_ok x (dataLine line c).
Proof. intros [Hl Hr Hm]. unfold dataLine. split_cases; by split. Qed.

Lemma cmd_MAIL_ok x msg c : isDataRecptMode c = false → smtp_ok x c → smtp_ok x (cmd_MAIL msg c).1.
Proof.
  intros Hd [Hl Hr Hm]. unfold cmd_MAIL. split_cases; split; simpl; try done; by rewrite Hd.
Qed.
Lemma cmd_RCPT_ok x msg c : isDataRecptMode c = false → smtp_ok x c → smtp_ok x (cmd_RCPT x msg c).1.
Proof.
  intros Hd [Hl Hr Hm]. unfold cmd_RCPT. split_cases; split; simpl; try done; try by rewrite Hd.
  apply Forall_app_2; [done|]. constructor; [|done]. by apply negb_false_iff.
Qed.
Lemma cmd_DATA_ok x c : smtp_ok x c → smtp_ok x (cmd_DATA x c).1.
Proof.
  intros [Hl Hr Hm]. unfold cmd_DATA. case_bool_decide; [by split|].
  destruct (bool_decide (validRecipients c = []) && _) eqn:E; [by split|].
  split; simpl; [done..|]. intros _. split; [done|].
  apply andb_false_iff in E as [E|E].
  - left. by apply bool_decide_eq_false in E.
  - right. apply orb_false_iff in E as [_ E]. by apply bool_decide_eq_false in E.
Qed.

Lemma smtp_command_ok x line c :
  isDataRecptMode c = false → smtp_ok x c → smtp_ok x (smtp_command x line c).1.1.
Proof.
  intros Hd Hc. unfold smtp_command. cbv zeta.
  repeat case_bool_decide; simpl; auto using cmd_MAIL_ok, cmd_RCPT_ok, cmd_DATA_ok.
  all: destruct Hc as [Hl Hr Hm]; by split.
Qed.

Section invariant.
Context `{KvOps St} `{MailEnv}.

(** The connection goes from [c] to [c'] on a line, in whatever state the store is. *)
Definition smtp_step (x : bool) (c c' : smtp) : Prop :=
  ∃ line (s s' : St) out closed, smtp_line x line c s = (s', Some (c', out, closed)).

Lemma endData_state x c (s s' : St) c' r :
  endData x c s = (s', Some (c', r)) →
  isDataRecptMode c' = false ∧ senderEmail c' = senderEmail c ∧
  nonLocalRecipients c' = nonLocalRecipients c ∧
  (validRecipients c' = [] ∨ validRecipients c' = validRecipients c).
Proof.
  unfold endData. case_bool_decide.
  - intros [= <- <- <-]. auto.
  - unfold mbind, M_bind. destruct (for_each _ _ s) as [s1 [[]|]]; [|done].
    match goal with |- context [(if x then ?f else ?g) s1] =>
      destruct ((if x then f else g) s1) as [s2 [[]|]]; [|done] end.
    intros [= <- <- <-]. auto.
Qed.

Lemma smtp_step_ok x c c' : smtp_step x c c' → smtp_ok x c → smtp_ok x c'.
Proof.
  intros (line & s & s' & out & closed & E) Hc. unfold smtp_line in E. revert E.
  case_bool_decide; [by intros [= <- <- <- <-]|].
  case_bool_decide; [by intros [= <- <- <- <-]|].
  destruct (isDataRecptMode c) eqn:Ed.
  - case_bool_decide.
    + unfold mbind, M_bind. destruct (endData x c s) as [s1 [[c1 r]|]] eqn:Ee; [|done].
      intros [= <- <- <- <-]. destruct (endData_state x c s s1 c1 r Ee) as (E1 & E2 & E3 & E4).
      destruct Hc as [Hl Hr Hm]. split; [|by rewrite E3|by rewrite E1].
      destruct E4 as [-> | ->]; done.
    + intros [= <- <- <- <-]. by apply dataLine_ok.
  - pose proof (smtp_command_ok x (trim line) c Ed Hc) as Hk.
    destruct (smtp_command x (trim line) c) as [[c1 r] cl]. by intros [= <- <- <- <-].
Qed.

(** C35: in every state an SMTP connection can reach, every accepted local recipient is an address
    at localhost, nobody elsewhere is accepted unless the server was started with -x, and the server
    takes message lines only after a sender and a recipient. *)
Theorem smtp_invariant x c : rtc (smtp_step x) smtp_init c → smtp_ok x c.
Proof.
  assert (∀ c0, rtc (smtp_step x) c0 c → smtp_ok x c0 → smtp_ok x c) as Hind.
  { induction 1; eauto using smtp_step_ok. }
  intros Hr. eapply Hind; [done|apply smtp_ok_init].
Qed.

End invariant.

(** ** Packets *)

Lemma find0_crlf_app a b i : find0 crlf a = Some i → find0 crlf (a +:+ b) = Some i.
Proof.
  revert i. induction a as [|c a IH]; intros i; [done|]. rewrite sapp_cons. cbn [find0].
  destruct (String.prefix crlf (String c a)) eqn:E.
  - intros [= <-]. apply starts_with_spec in E as [t E]. rewrite <-sapp_cons, E, sapp_assoc.
    pose proof (starts_with_app crlf (t +:+ b)) as Ep. unfold starts_with in Ep. by rewrite Ep.
  - intros (j & Hj & ->)%fmap_Some. destruct (String.prefix crlf (String c (a +:+ b))) eqn:E'.
    + destruct a as [|d a]; [done|]. unfold crlf in E, E'. rewrite sapp_cons in E'.
      cbn [String.prefix] in E, E'. destruct (ascii_dec CR c); [|done].
      destruct (ascii_dec LF d); [|done]. by destruct a.
    + by rewrite (IH j Hj).
Qed.

Lemma find0_bound a i : find0 crlf a = Some i → (i + 2 ≤ slen a)%nat.
Proof.
  revert i. induction a as [|c a IH]; intros i; [done|]. cbn [find0].
  destruct (String.prefix crlf (String c a)) eqn:E.
  - intros [= <-]. apply starts_with_spec in E as [t ->]. rewrite slen_app. simpl. lia.
  - intros (j & Hj & ->)%fmap_Some. apply IH in Hj. simpl. lia.
Qed.

Lemma str_take_app_le n a b : (n ≤ slen a)%nat → str_take n (a +:+ b) = str_take n a.
Proof.
  revert a. induction n as [|n IH]; intros a Ha; [done|]. destruct a as [|c a]; simpl in *; [lia|].
  f_equal. apply IH. lia.
Qed.
Lemma str_drop_app_le n a b : (n ≤ slen a)%nat → str_drop n (a +:+ b) = str_drop n a +:+ b.
Proof.
  revert a. induction n as [|n IH]; intros a Ha; [done|]. destruct a as [|c a]; simpl in *; [lia|].
  apply IH. lia.
Qed.

Section packets.
Context `{KvOps St} `{MailEnv}.
Variable x : bool.

Lemma bind_eq {A B} (m : M St A) (f : A → M St B) s :
  (m ≫= f) s = match m s with (s', Some y) => f y s' | (s', None) => (s', None) end.
Proof. done. Qed.

Lemma smtp_lines_S f buf c i :
  find0 crlf buf = Some i →
  smtp_lines x (S f) buf c = ('(c, out, closed) ← smtp_line x (str_take i buf) c;
    let rest := str_drop (i + 2) buf in
    if closed : bool then mret (rest, c, out, true)
    else '(rest, c, out', closed) ← smtp_lines x f rest c; mret (rest, c, out ++ out', closed)).
Proof. intros E. cbn [smtp_lines]. by rewrite E. Qed.

(** Fuel above the length of the buffer changes nothing. *)
Lemma smtp_lines_fuel f1 f2 buf c s :
  (slen buf ≤ f1)%nat → (slen buf ≤ f2)%nat → smtp_lines x f1 buf c s = smtp_lines x f2 buf c s.
Proof.
  revert f2 buf c s. induction f1 as [|f1 IH]; intros f2 buf c s Hf1 Hf2; destruct f2 as [|f2];
    cbn [smtp_lines]; destruct (find0 crlf buf) as [i|] eqn:Ei; try done;
    apply find0_bound in Ei; try lia.
  rewrite !bind_eq. destruct (smtp_line _ _ _ s) as [s1 [[[c1 out] closed]|]]; [|done].
  destruct closed; [done|]. rewrite !bind_eq.
  rewrite (IH f2) by (rewrite slen_drop; lia). done.
Qed.

Lemma smtp_lines_rest f buf c s s' rest c' out cl :
  smtp_lines x f buf c s = (s', Some (rest, c', out, cl)) → (slen rest ≤ slen buf)%nat.
Proof.
  revert buf c s s' rest c' out cl.
  induction f as [|f IH]; intros buf c s s' rest c' out cl; cbn [smtp_lines];
    destruct (find0 crlf buf) as [i|]; try done; try (intros [= <- <- <- <- <-]; lia).
  rewrite bind_eq. destruct (smtp_line _ _ _ s) as [s1 [[[c1 o1] cl1]|]]; [|done].
  destruct cl1; [intros [= <- <- <- <- <-]; rewrite slen_drop; lia|]. rewrite bind_eq.
  destruct (smtp_lines x f _ c1 s1) as [s2 [[[[r2 c2] o2] cl2]|]] eqn:E; [|done].
  intros [= <- <- <- <- <-]. apply IH in E. rewrite slen_drop in E. lia.
Qed.

(** The lines of a buffer to which more is appended: first the lines that are already complete. *)
Lemma smtp_lines_app f g buf more c s :
  (slen buf ≤ f)%nat → (slen buf + slen more ≤ g)%nat →
  smtp_lines x g (buf +:+ more) c s =
    match smtp_lines x f buf c s with
    | (s1, Some (rest, c1, out, true)) => (s1, Some (rest +:+ more, c1, out, true))
    | (s1, Some (rest, c1, out, false)) =>
        match smtp_lines x g (rest +:+ more) c1 s1 with
        | (s2, Some (rest2, c2, out2, closed)) => (s2, Some (rest2, c2, out ++ out2, closed))
        | (s2, None) => (s2, None)
        end
    | (s1, None) => (s1, None)
    end.
Proof.
  revert g buf c s. induction f as [|f IH]; intros g buf c s Hf Hg.
  - destruct buf; [|simpl in Hf; lia]. cbn [smtp_lines find0]. rewrite sapp_nil_l.
    change (String.prefix crlf "") with false. unfold mret, M_ret. cbv beta iota. rewrite sapp_nil_l.
    by destruct (smtp_lines x g more c s) as [s2 [[[[rest2 c2] out2] closed]|]].
  - destruct (find0 crlf buf) as [i|] eqn:Ei; cycle 1.
    { cbn [smtp_lines]. rewrite Ei. unfold mret, M_ret. by destruct (smtp_lines x g (buf +:+ more) c s) as [s2 [[[[r2 c2] o2] cl]|]]. }
    pose proof (find0_bound buf i Ei) as Hi. destruct g as [|g]; [lia|].
    rewrite (smtp_lines_S g _ _ i (find0_crlf_app buf more i Ei)), (smtp_lines_S f _ _ i Ei).
    rewrite str_take_app_le, str_drop_app_le by lia. rewrite !bind_eq.
    destruct (smtp_line _ _ _ s) as [s1 [[[c1 out] closed]|]]; [|done].
    destruct closed; [done|]. rewrite !bind_eq.
    rewrite (IH g) by (rewrite ?slen_drop; lia).
    destruct (smtp_lines x f (str_drop (i + 2) buf) c1 s1) as [s2 [[[[r2 c2] o2] cl]|]] eqn:E2; [|done].
    destruct cl; [done|].
    assert (slen r2 ≤ slen buf - 2)%nat as Hr.
    { apply smtp_lines_rest in E2. rewrite slen_drop in E2. lia. }
    unfold mret, M_ret. cbv beta iota. rewrite (smtp_lines_fuel g (S g)) by (rewrite slen_app; lia).
    destruct (smtp_lines x (S g) (r2 +:+ more) c2 s2) as [s3 [[[[r3 c3] o3] cl3]|]]; [|done].
    by rewrite app_assoc.
Qed.

(** What is left of the buffer has no complete line, when the connection is still open. *)
Lemma smtp_lines_no_crlf f buf c s s' rest c' out :
  smtp_lines x f buf c s = (s', Some (rest, c', out, false)) → find0 crlf rest = None.
Proof.
  revert buf c s s' rest c' out.
  induction f as [|f IH]; intros buf c s s' rest c' out; cbn [smtp_lines];
    destruct (find0 crlf buf) as [i|] eqn:Ei; try done; try (by intros [= <- <- <- <-]).
  rewrite bind_eq. destruct (smtp_line _ _ _ s) as [s1 [[[c1 o1] cl1]|]]; [|done].
  destruct cl1; [done|]. rewrite bind_eq.
  destruct (smtp_lines x f _ c1 s1) as [s2 [[[[r2 c2] o2] cl2]|]] eqn:E; [|done].
  intros [= <- <- <- <- ->]. by eapply IH.
Qed.

Lemma c_string_id p : no_char "000"%char p → c_string p = p.
Proof.
  induction p as [|a p IH]; [done|]. intros [Ha Hp]%no_char_cons. simpl.
  rewrite decide_False by done. by rewrite IH.
Qed.
Lemma no_char_concat c l :
  Forall (no_char c) l → no_char c (foldr String.append "" l).
Proof. induction 1; [done|]. simpl. by apply no_char_app. Qed.

(** A session is the lines of the concatenation of its packets. *)
Lemma smtp_session_concat packets buf c s :
  Forall (no_char "000"%char) packets → find0 crlf buf = None →
  let whole := buf +:+ foldr String.append "" packets in
  smtp_session x packets buf c s =
    match smtp_lines x (slen whole) whole c s with
    | (s', Some (_, _, out, _)) => (s', Some out)
    | (s', None) => (s', None)
    end.
Proof.
  intros Hp. revert buf c s. induction Hp as [|p packets Hp Hps IH]; intros buf c s Hb; cbv zeta.
  - cbn [smtp_session foldr]. rewrite sapp_nil_r. by destruct (slen buf); cbn [smtp_lines]; rewrite Hb.
  - cbn [smtp_session foldr]. rewrite (c_string_id p Hp), <-sapp_assoc.
    set (b := buf +:+ p). set (more := foldr String.append "" packets).
    rewrite (smtp_lines_app (slen b) (slen (b +:+ more)) b more) by (rewrite ?slen_app; lia).
    rewrite bind_eq.
    destruct (smtp_lines x (slen b) b c s) as [s1 [[[[rest c1] out] closed]|]] eqn:E; [|done].
    destruct closed; [done|]. rewrite bind_eq, IH by (by eapply smtp_lines_no_crlf). fold more.
    rewrite (smtp_lines_fuel (slen (b +:+ more)) (slen (rest +:+ more)));
      [|apply smtp_lines_rest in E; rewrite !slen_app; lia|lia].
    by destruct (smtp_lines x _ (rest +:+ more) c1 s1) as [s2 [[[[rest2 c2] out2] closed2]|]].
Qed.

(** C36: what the SMTP server answers and stores does not depend on how TCP cuts the client's bytes
    into packets: a line that arrives in pieces, the CR and the LF in different packets included,
    is treated as if everything had arrived at once. *)
Theorem handle_client_packets packets s :
  Forall (no_char "000"%char) packets →
  handle_client x packets s = handle_client x [foldr String.append "" packets] s.
Proof.
  intros Hp. unfold handle_client. rewrite !bind_eq.
  rewrite (smtp_session_concat packets) by done.
  rewrite (smtp_session_concat [foldr String.append "" packets]); [|by constructor; [apply no_char_concat|]|done].
  cbn [foldr]. by rewrite sapp_nil_r.
Qed.

End packets.

(** ** Delivery *)

(** The list of a mailbox after an id was appended. *)
Definition appended (current : option string) (id : string) : string :=
  match current with
  | Some m => if is_ERR m || bool_decide (m = "") then id else m +:+ "," +:+ id
  | None => id
  end.
Definition append_effect (row id : string) (V : string → string → option string) :=
  view_effect (UPut row "meta" (appended (V row "meta") id)) V.
Definition mail_id (sender recipient subject timestamp : string) : string :=
  encrypt (rawMeta sender recipient subject timestamp).
(** A message stored in a mailbox and listed. *)
Definition store_effect (row id body : string) (V : string → string → option string) :=
  append_effect row id (view_effect (UPut row id body) V).
Definition deliver_effect (sender subject timestamp body recipient : string)
    (V : string → string → option string) :=
  let id := mail_id sender recipient subject timestamp in
  let V := store_effect ("inbox_email:" +:+ recipient) id body V in
  if contains "@localhost" sender then store_effect ("sent_email:" +:+ sender) id body V else V.

(** [id] is an entry of the list [m]. *)
Definition listed (id m : string) : Prop :=
  ∃ u v, m = u +:+ id +:+ v ∧ (u = "" ∨ ∃ u', u = u' +:+ ",") ∧ (v = "" ∨ ∃ v', v = "," +:+ v').
Definition delivered (V : string → string → option string) (row id body : string) : Prop :=
  V row id = Some body ∧ ∃ m, V row "meta" = Some m ∧ listed id m ∧ is_ERR m = false ∧ m ≠ "".

Lemma mail_id_head s r j t : ∃ rest, mail_id s r j t = String ";" rest.
Proof.
  unfold mail_id, encrypt, rawMeta. rewrite <-!sapp_assoc, str_rev_app. by eexists.
Qed.
Lemma appended_listed o id :
  (∃ rest, id = String ";" rest) →
  listed id (appended o id) ∧ is_ERR (appended o id) = false ∧ appended o id ≠ "".
Proof.
  intros [rest ->]. unfold appended. destruct o as [m|].
  - destruct (is_ERR m || bool_decide (m = "")) eqn:E.
    + split_and!; [|done..]. exists "", "". rewrite sapp_nil_r. auto.
    + apply orb_false_iff in E as [Em Ene%bool_decide_eq_false]. split_and!; [| |by destruct m].
      * exists (m +:+ ","), "". rewrite sapp_nil_r, sapp_assoc. split; [done|]. eauto.
      * apply not_true_iff_false. intros [t Ht]%starts_with_spec. destruct m as [|a [|b [|c m]]]; try done.
        cbn [String.append] in Ht. simplify_eq. by destruct m.
  - split_and!; [|done..]. exists "", "". rewrite sapp_nil_r. auto.
Qed.
Lemma appended_keeps id m id' :
  listed id m → is_ERR m = false → m ≠ "" → (∃ rest, id' = String ";" rest) →
  listed id (appended (Some m) id') ∧ is_ERR (appended (Some m) id') = false ∧ appended (Some m) id' ≠ "".
Proof.
  intros (u & v & -> & Hu & Hv) Hm Hne Hid'.
  split; [|by apply appended_listed]. unfold appended. rewrite Hm, bool_decide_false by done.
  exists u, (v +:+ "," +:+ id'). split; [by rewrite !sapp_assoc|]. split; [done|]. right.
  destruct Hv as [->|[v' ->]]; [by exists id'|]. exists (v' +:+ "," +:+ id'). by rewrite !sapp_assoc.
Qed.

Lemma store_delivered row id body V :
  (∃ rest, id = String ";" rest) → delivered (store_effect row id body V) row id body.
Proof.
  intros Hid. pose proof Hid as [rest ->]. unfold delivered, store_effect, append_effect.
  set (V1 := view_effect (UPut row (String ";" rest) body) V). cbn [view_effect].
  rewrite decide_False by naive_solver. split.
  - subst V1. cbn [view_effect]. by rewrite decide_True.
  - rewrite decide_True by done. eexists. split; [done|]. by apply appended_listed.
Qed.
Lemma store_keeps row id body row' id' body' V :
  (∃ rest, id = String ";" rest) → (∃ rest, id' = String ";" rest) →
  (row = row' → id = id' → body = body') →
  delivered V row id body → delivered (store_effect row' id' body' V) row id body.
Proof.
  intros [t ->] Hid' Hsame [Hb (m & Hm & Hl & He & Hne)]. pose proof Hid' as [t' ->].
  unfold delivered, store_effect, append_effect.
  set (V1 := view_effect (UPut row' (String ";" t') body') V).
  assert (V1 row (String ";" t) = Some body) as Hb1.
  { subst V1. cbn [view_effect]. case_decide; [|done]. simplify_eq. f_equal. symmetry. auto. }
  assert (V1 row "meta" = Some m) as Hm1.
  { subst V1. cbn [view_effect]. rewrite decide_False; [done|]. naive_solver. }
  cbn [view_effect]. rewrite decide_False by naive_solver. split; [done|].
  case_decide as Ed; [|by exists m]. simplify_eq. eexists. split; [done|]. rewrite Hm1.
  by apply appended_keeps.
Qed.

Section delivery.
Context `{KvLaws St}.

Lemma runs_append row id V (Q : unit → St → Prop) s :
  kv_ok s → (∀ r c, kv_view s r c = V r c) →
  (∀ s', kv_ok s' → (∀ r c, kv_view s' r c = append_effect row id V r c) → Q tt s') →
  runs (appendToMetadata row id) Q s.
Proof.
  intros Hok HV HQ. unfold appendToMetadata, getWorkerClient. apply runs_bind.
  apply (runs_Lookup _ V _ s Hok HV). intros a s1 _ Hs1. apply runs_bind.
  apply (runs_Get _ _ _ _ _ _ Hs1). intros v Hv. apply runs_bind.
  apply (runs_Put _ _ _ _ _ _ _ Hs1). intros _ s2 _ Hs2. apply runs_ret. apply HQ; [apply Hs2|].
  intros r c. rewrite (session_view _ _ _ _ Hs2). unfold append_effect, appended.
  unfold got in Hv. destruct (V row "meta") as [m|]; [by subst v|].
  by rewrite (missing_is_ERR v Hv).
Qed.

Lemma runs_store row id raw body V (Q : unit → St → Prop) s :
  id = encrypt raw → kv_ok s → (∀ r c, kv_view s r c = V r c) →
  (∀ s', kv_ok s' → (∀ r c, kv_view s' r c = store_effect row id body V r c) → Q tt s') →
  runs (storeMail row raw body) Q s.
Proof.
  intros -> Hok HV HQ. unfold storeMail, getWorkerClient. apply runs_bind. apply (runs_Lookup _ V _ s Hok HV). intros a s1 _ Hs1.
  apply runs_bind. apply (runs_Put _ _ _ _ _ _ _ Hs1). intros _ s2 _ Hs2.
  apply (runs_append _ _ (view_effect (UPut row (encrypt raw) body) V)); [apply Hs2..|].
  intros s3 Hok3 HV3. by apply HQ.
Qed.

Lemma runs_deliverLocal sender recipient subject timestamp body V (Q : unit → St → Prop) s :
  kv_ok s → (∀ r c, kv_view s r c = V r c) →
  (∀ s', kv_ok s' → (∀ r c, kv_view s' r c = deliver_effect sender subject timestamp body recipient V r c) →
    Q tt s') →
  runs (deliverLocal sender recipient subject timestamp body) Q s.
Proof.
  intros Hok HV HQ. unfold deliverLocal. apply runs_bind.
  apply (runs_store _ (mail_id sender recipient subject timestamp) _ _ V); [done..|].
  intros s1 Hok1 HV1. unfold deliver_effect in HQ. destruct (contains _ _).
  - by apply (runs_store _ (mail_id sender recipient subject timestamp) _ _ _ _ _ eq_refl Hok1 HV1).
  - apply runs_ret. by apply HQ.
Qed.

Lemma deliver_keeps sender subject timestamp body recipient r V :
  let id := mail_id sender r subject timestamp in
  delivered V ("inbox_email:" +:+ r) id body →
  delivered (deliver_effect sender subject timestamp body recipient V) ("inbox_email:" +:+ r) id body.
Proof.
  intros id Hd. unfold deliver_effect.
  assert (delivered (store_effect ("inbox_email:" +:+ recipient)
    (mail_id sender recipient subject timestamp) body V) ("inbox_email:" +:+ r) id body) as Hd1
    by (apply store_keeps; [apply mail_id_head|apply mail_id_head|done|done]).
  destruct (contains _ _); [|done]. apply store_keeps; [apply mail_id_head|apply mail_id_head|done|done].
Qed.
Lemma deliver_new sender subject timestamp body recipient V :
  delivered (deliver_effect sender subject timestamp body recipient V)
    ("inbox_email:" +:+ recipient) (mail_id sender recipient subject timestamp) body.
Proof.
  unfold deliver_effect.
  assert (delivered (store_effect ("inbox_email:" +:+ recipient)
    (mail_id sender recipient subject timestamp) body V) ("inbox_email:" +:+ recipient)
    (mail_id sender recipient subject timestamp) body) as Hd1
    by (apply store_delivered, mail_id_head).
  destruct (contains _ _); [|done]. apply store_keeps; [apply mail_id_head|apply mail_id_head|done|done].
Qed.

Lemma runs_deliveries sender subject timestamp body recipients done_ V (Q : unit → St → Prop) s :
  kv_ok s → (∀ r c, kv_view s r c = V r c) →
  (∀ r, r ∈ done_ → delivered V ("inbox_email:" +:+ r) (mail_id sender r subject timestamp) body) →
  (∀ s' V', kv_ok s' → (∀ r c, kv_view s' r c = V' r c) →
    (∀ r, r ∈ done_ ++ recipients →
      delivered V' ("inbox_email:" +:+ r) (mail_id sender r subject timestamp) body) → Q tt s') →
  runs (for_each (λ r, deliverLocal sender r subject timestamp body) recipients) Q s.
Proof.
  revert done_ V s. induction recipients as [|r recipients IH]; intros done_ V s Hok HV Hd HQ.
  { apply runs_ret. apply (HQ s V); [done..|]. by rewrite app_nil_r. }
  cbn [for_each]. apply runs_bind. apply (runs_deliverLocal _ _ _ _ _ V); [done..|].
  intros s1 Hok1 HV1. eapply (IH (done_ ++ [r])); [done|exact HV1| |].
  - intros r' [Hr'|Hr'%list_elem_of_singleton]%elem_of_app.
    + by apply deliver_keeps, Hd.
    + subst r'. apply deliver_new.
  - intros s' V' Hok' HV' Hd'. apply (HQ s' V'); [done..|]. by rewrite <-app_assoc in Hd'.
Qed.

(** The notice a sender gets about a recipient that cannot be reached. *)
Definition failure_id (sender recipient timestamp : string) : string :=
  mail_id "mailer-daemon@localhost" sender ("Delivery Failed to " +:+ recipient) timestamp.
Definition failure_body (recipient reason : string) : string :=
  "Your email could not be delivered to " +:+ recipient +:+ "." +:+ lf +:+ "Reason: " +:+ reason.

Lemma runs_sendDeliveryFailure `{MailEnv} sender recipient reason V (Q : unit → St → Prop) s :
  kv_ok s → (∀ r c, kv_view s r c = V r c) →
  (∀ s', kv_ok s' → (∀ r c, kv_view s' r c = store_effect ("inbox_email:" +:+ sender)
      (failure_id sender recipient env_timestamp) (failure_body recipient reason) V r c) → Q tt s') →
  runs (sendDeliveryFailure sender recipient reason) Q s.
Proof.
  intros Hok HV HQ. unfold sendDeliveryFailure, getWorkerClient. cbv zeta. apply runs_bind.
  apply (runs_Lookup _ V _ s Hok HV). intros a s1 _ Hs1. apply runs_bind.
  apply (runs_Put _ _ _ _ _ _ _ Hs1). intros _ s2 _ Hs2. apply runs_bind.
  apply (runs_Get _ _ _ _ _ _ Hs2). intros v Hv. apply runs_bind.
  apply (runs_Put _ _ _ _ _ _ _ Hs2). intros _ s3 _ Hs3. apply runs_ret. apply HQ; [apply Hs3|].
  intros r c. rewrite (session_view _ _ _ _ Hs3). unfold store_effect, append_effect, appended.
  unfold got in Hv. unfold failure_id, failure_body, mail_id.
  destruct (view_effect _ V ("inbox_email:" +:+ sender) "meta") as [m|]; [by subst v|].
  by rewrite (missing_is_ERR v Hv).
Qed.

(** What a delivery elsewhere does to the store. *)
Definition remote_effect `{MailEnv} (sender recipient : string)
    (V : string → string → option string) : string → string → option string :=
  match find_char0 "@"%char recipient with
  | None => V
  | Some atPos =>
      match relayRoute (str_drop (atPos + 1) recipient) with
      | inr reason => store_effect ("inbox_email:" +:+ sender)
                        (failure_id sender recipient env_timestamp) (failure_body recipient reason) V
      | inl _ => V
      end
  end.
Lemma runs_deliverRemote `{MailEnv} sender headers body recipient V (Q : _ → St → Prop) s :
  kv_ok s → (∀ r c, kv_view s r c = V r c) →
  (∀ sent s', kv_ok s' → (∀ r c, kv_view s' r c = remote_effect sender recipient V r c) →
    (∀ m, sent = Some m → ∃ at_ target, find_char0 "@"%char recipient = Some at_ ∧
      relayRoute (str_drop (at_ + 1) recipient) = inl target ∧
      m = (target, relayConversation sender headers body recipient)) →
    (sent = None → ∀ at_, find_char0 "@"%char recipient = Some at_ →
      ∃ reason, relayRoute (str_drop (at_ + 1) recipient) = inr reason) → Q sent s') →
  runs (deliverRemote sender headers body recipient) Q s.
Proof.
  intros Hok HV HQ. unfold deliverRemote. unfold remote_effect in HQ.
  destruct (find_char0 "@"%char recipient) as [at_|] eqn:Ea; [|by apply runs_ret, HQ].
  destruct (relayRoute _) as [target|reason] eqn:Er.
  - apply runs_ret. apply HQ; [done..| |done]. intros m [= <-]. eauto.
  - apply runs_bind. apply (runs_sendDeliveryFailure _ _ _ V); [done..|]. intros s' Hok' HV'.
    apply runs_ret. apply HQ; [done..|]. intros _ at' [= <-]. eauto.
Qed.

Lemma sapp_no_char_inj c a b t u :
  no_char c a → no_char c b → a +:+ String c t = b +:+ String c u → a = b.
Proof.
  intros Ha Hb E. pose proof (find_char0_here c a t Ha) as Fa. pose proof (find_char0_here c b u Hb) as Fb.
  rewrite E, Fb in Fa. injection Fa as El. apply (f_equal (str_take (slen a))) in E.
  by rewrite str_take_app, <-El, str_take_app in E.
Qed.
Lemma mail_id_sender sender r j t sender' r' j' t' :
  no_char ";"%char sender → no_char ";"%char sender' →
  mail_id sender r j t = mail_id sender' r' j' t' → sender = sender'.
Proof.
  intros Hs Hs' E. unfold mail_id, encrypt in E.
  apply (f_equal str_rev) in E. rewrite !str_rev_involutive in E. unfold rawMeta in E.
  cbn [String.append] in E. injection E as E. by eapply sapp_no_char_inj.
Qed.

(** A notice leaves the messages of an ordinary sender alone. *)
Lemma remote_keeps `{MailEnv} sender subject body recipient r V :
  sender ≠ "mailer-daemon@localhost" → no_char ";"%char sender →
  let id := mail_id sender r subject env_timestamp in
  delivered V ("inbox_email:" +:+ r) id body →
  delivered (remote_effect sender recipient V) ("inbox_email:" +:+ r) id body.
Proof.
  intros Hne Hs id Hd. unfold remote_effect. repeat case_match; try done.
  apply store_keeps; [apply mail_id_head|apply mail_id_head| |done].
  intros _ Hid. exfalso. apply Hne. by eapply mail_id_sender.
Qed.

Lemma runs_remotes `{MailEnv} sender subject headers body remotes (locals : list string) V
    (Q : unit → St → Prop) s :
  sender ≠ "mailer-daemon@localhost" → no_char ";"%char sender →
  kv_ok s → (∀ r c, kv_view s r c = V r c) →
  (∀ r, r ∈ locals → delivered V ("inbox_email:" +:+ r) (mail_id sender r subject env_timestamp) body) →
  (∀ s' V', kv_ok s' → (∀ r c, kv_view s' r c = V' r c) →
    (∀ r, r ∈ locals →
      delivered V' ("inbox_email:" +:+ r) (mail_id sender r subject env_timestamp) body) → Q tt s') →
  runs (for_each (λ r, _ ← deliverRemote sender headers body r; mret tt) remotes) Q s.
Proof.
  intros Hne Hs. revert V s. induction remotes as [|r remotes IH]; intros V s Hok HV Hd HQ.
  { apply runs_ret. by apply (HQ s V). }
  cbn [for_each]. apply runs_bind, runs_bind. apply (runs_deliverRemote _ _ _ _ V); [done..|].
  intros sent s1 Hok1 HV1 _ _. apply runs_ret. eapply IH; [done|exact HV1| |done].
  intros r' Hr'. by apply remote_keeps, Hd.
Qed.


(** [host] is listed with a preference no record undercuts. *)
Definition preferred (answers : list (option (ascii * ascii * string))) (host : string) : Prop :=
  ∃ b0 b1, Some (b0, b1, host) ∈ answers ∧
    ∀ b0' b1' host', Some (b0', b1', host') ∈ answers → mx_preference b0 b1 ≤ mx_preference b0' b1'.
Lemma best_mx_spec answers lowest host :
  (best_mx answers lowest host = host ∧
     ∀ b0 b1 h, Some (b0, b1, h) ∈ answers → lowest ≤ mx_preference b0 b1) ∨
  (preferred answers (best_mx answers lowest host) ∧
     ∃ b0 b1 h, Some (b0, b1, h) ∈ answers ∧ mx_preference b0 b1 < lowest).
Proof.
  revert lowest host. induction answers as [|[[[b0 b1] h]|] answers IH]; intros lowest host.
  - left. split; [done|]. by intros b0 b1 h Hin%elem_of_nil.
  - cbn [best_mx]. case_bool_decide as Hlt.
    + right. split; [|exists b0, b1, h; split; [by left|done]].
      destruct (IH (mx_preference b0 b1) h) as [[-> Hmin]|[(c0 & c1 & Hin & Hmin) (d0 & d1 & h' & Hd & Hlt')]].
      * exists b0, b1. split; [by left|]. intros c0 c1 h' [Heq|Hin]%elem_of_cons; [|by eauto].
        by simplify_eq.
      * exists c0, c1. split; [by right|]. intros e0 e1 h'' [Heq|Hin']%elem_of_cons; [|by eauto].
        simplify_eq. pose proof (Hmin _ _ _ Hd). lia.
    + destruct (IH lowest host) as [[-> Hmin]|[(c0 & c1 & Hin & Hmin) (d0 & d1 & h' & Hd & Hlt')]].
      * left. split; [done|]. intros c0 c1 h' [Heq|Hin]%elem_of_cons; [|by eauto]. simplify_eq. lia.
      * right. split; [|exists d0, d1, h'; split; [by right|done]].
        exists c0, c1. split; [by right|]. intros e0 e1 h'' [Heq|Hin']%elem_of_cons; [|by eauto].
        simplify_eq. pose proof (Hmin _ _ _ Hd). lia.
  - cbn [best_mx]. destruct (IH lowest host) as [[-> Hmin]|[(c0 & c1 & Hin & Hmin) (d0 & d1 & h' & Hd & Hlt')]].
    + left. split; [done|]. intros c0 c1 h' [Heq|Hin]%elem_of_cons; [done|by eauto].
    + right. split; [|exists d0, d1, h'; split; [by right|done]].
      exists c0, c1. split; [by right|]. intros e0 e1 h'' [Heq|Hin']%elem_of_cons; [done|by eauto].
Qed.
Lemma resolveMXDomain_preferred `{MailEnv} domain :
  resolveMXDomain domain ≠ "" →
  ∃ answers, dns_mx domain = Some answers ∧ preferred answers (resolveMXDomain domain).
Proof.
  unfold resolveMXDomain. destruct (dns_mx domain) as [answers|]; [|done]. intros Hne.
  exists answers. split; [done|].
  by destruct (best_mx_spec answers INT_MAX "") as [[E _]|[Hp _]].
Qed.
Lemma relayRoute_preferred `{MailEnv} domain host port :
  relayRoute domain = inl (host, port) →
  relay_connect host port = true ∧
  ∃ answers, dns_mx domain = Some answers ∧ preferred answers host.
Proof.
  unfold relayRoute. destruct (bool_decide (resolveMXDomain domain = "")) eqn:Hne; [done|].
  apply bool_decide_eq_false in Hne. destruct (negb (gethostbyname _)); [done|].
  destruct (negb relay_socket); [done|]. destruct (negb (relay_connect _ _)) eqn:Hc; [done|].
  intros [= <- <-]. split; [by apply negb_false_iff|]. by apply resolveMXDomain_preferred.
Qed.

(** C23: a message for a recipient elsewhere is never dropped silently: over a healthy store, it is
    either handed to a mail server of the recipient's domain that no other one is preferred to, with
    the store as before, or the sender finds a notice in the inbox. *)
Theorem deliverRemote_correct `{MailEnv} sender headers body name domain s :
  kv_ok s → no_char "@"%char name →
  let recipient := name +:+ "@" +:+ domain in
  runs (deliverRemote sender headers body recipient) (λ sent s', kv_ok s' ∧
    match sent with
    | Some ((host, port), lines) =>
        (∀ r c, kv_view s' r c = kv_view s r c) ∧
        lines = relayConversation sender headers body recipient ∧
        relay_connect host port = true ∧
        ∃ answers, dns_mx domain = Some answers ∧ preferred answers host
    | None =>
        ∃ reason, delivered (kv_view s') ("inbox_email:" +:+ sender)
          (failure_id sender recipient env_timestamp) (failure_body recipient reason)
    end) s.
Proof.
  intros Hok Hn recipient. apply (runs_deliverRemote _ _ _ _ (kv_view s)); [done..|].
  intros sent s' Hok' HV' Hsome Hnone. split; [done|].
  assert (find_char0 "@"%char recipient = Some (slen name)) as Ea by (by apply find_char0_here).
  assert (str_drop (slen name + 1) recipient = domain) as Ed.
  { unfold recipient. rewrite <-str_drop_drop, str_drop_app. done. }
  unfold remote_effect in HV'. rewrite Ea, Ed in HV'. destruct sent as [[[host port] lines]|].
  - destruct (Hsome _ eq_refl) as (at_ & target & Ha & Hr & Hm). rewrite Ea in Ha. simplify_eq.
    rewrite Ed in Hr. rewrite Hr in HV'. destruct (relayRoute_preferred _ _ _ Hr) as [Hc Hp]. auto.
  - destruct (Hnone eq_refl _ Ea) as [reason Hr]. rewrite Ed in Hr. rewrite Hr in HV'. exists reason.
    destruct (store_delivered ("inbox_email:" +:+ sender) (failure_id sender recipient env_timestamp)
      (failure_body recipient reason) (kv_view s) (mail_id_head _ _ _ _)) as [Hb (m & Hm & Hl)].
    rewrite <-HV' in Hb, Hm. split; [done|]. by exists m.
Qed.

End delivery.

(** ** Examples *)

#[local] Existing Instance example_ops.
#[local] Existing Instance example_laws.
Definition example_env : MailEnv :=
  {| env_date := "Thu, 01 May 2025 10:00:00 +0000"; env_timestamp := "2025-05-01 10:00:00";
     env_epoch := 1746093600; env_rand := 42; dns_mx := λ d,
       if bool_decide (d = "example.com") then
         Some [Some ("000"%char, "020"%char, "backup.example.com"); None;
               Some ("000"%char, "010"%char, "mx.example.com")]
       else None;
     gethostbyname := λ _, true; relay_socket := true; relay_connect := λ _ _, true |}.
#[local] Existing Instance example_env.

(** A connection in DATA mode. *)
Definition example_data : smtp :=
  {| senderEmail := "carol@localhost"; validRecipients := ["bob@localhost"]; nonLocalRecipients := ["x@example.com"];
     isDataRecptMode := true; inHeaderSection := false; headersBlock := "Subject: hi" +:+ lf;
     bodyBlock := "hello" +:+ lf |}.


Lemma deliverRemote_correct_witness :
  resolveMXDomain "example.com" = "mx.example.com" ∧
  runs (deliverRemote "carol@localhost" "" "hello" "x@example.com") (λ sent s', kv_ok s' ∧
    match sent with
    | Some ((host, port), lines) =>
        (∀ r c, kv_view s' r c = kv_view new_system r c) ∧
        lines = relayConversation "carol@localhost" "" "hello" "x@example.com" ∧
        relay_connect host port = true ∧
        ∃ answers, dns_mx "example.com" = Some answers ∧ preferred answers host
    | None =>
        ∃ reason, delivered (kv_view s') ("inbox_email:" +:+ "carol@localhost")
          (failure_id "carol@localhost" "x@example.com" env_timestamp)
          (failure_body "x@example.com" reason)
    end) new_system.
Proof.
  split; [reflexivity|].
  apply (deliverRemote_correct "carol@localhost" "" "hello" "x" "example.com" new_system new_system_ok).
  reflexivity.
Defined.

Lemma handle_client_packets_witness :
  handle_client false ["NOOP" +:+ String CR ""; lf +:+ "QUIT" +:+ crlf] new_system =
    handle_client false ["NOOP" +:+ crlf +:+ "QUIT" +:+ crlf] new_system.
Proof.
  apply (handle_client_packets false ["NOOP" +:+ String CR ""; lf +:+ "QUIT" +:+ crlf]).
  repeat constructor.
Defined.

(** The lines of a client, one packet each, on a server started with -x. *)
Fixpoint smtp_run (lines : list string) (c : smtp) : smtp * list string :=
  match lines with
  | [] => (c, [])
  | line :: lines =>
      let '(c, r, _) := smtp_command true line c in
      let '(c, rs) := smtp_run lines c in (c, r :: rs)
  end.

Lemma smtp_invariant_witness :
  smtp_ok false (smtp_command false "MAIL FROM:<bob@localhost>" smtp_init).1.1.
Proof.
  apply (smtp_invariant (St := system)). apply rtc_once.
  exists "MAIL FROM:<bob@localhost>", new_system, new_system. eexists _, _. vm_compute. reflexivity.
Defined.

(** The server accepts recipients and a message after a MAIL command that it has refused: the
    refused text stays as the sender. *)
Theorem rcpt_after_refused_mail :
  let '(c, replies) := smtp_run ["MAIL FROM:mallory"; "RCPT TO:<bob@localhost>"; "DATA"] smtp_init in
  senderEmail c = "mallory" ∧ validRecipients c = ["bob@localhost"] ∧ isDataRecptMode c = true ∧
  tail replies = ["250 OK" +:+ crlf; "354 Start mail input; end with <CRLF>.<CRLF>" +:+ crlf].
Proof. vm_compute. done. Qed.

(** RSET does not forget the recipients elsewhere: after RSET and a MAIL command that is refused,
    DATA is accepted without any RCPT command, and the message is for the recipient of before. *)
Theorem rset_keeps_remote :
  let '(c, _) := smtp_run ["MAIL FROM:<a@localhost>"; "RCPT TO:<x@example.com>"; "RSET";
    "MAIL FROM:mallory"; "DATA"] smtp_init in
  isDataRecptMode c = true ∧ validRecipients c = [] ∧ nonLocalRecipients c = ["x@example.com"].
Proof. vm_compute. done. Qed.

(** A line of the body that contains a colon is filed under the headers and never delivered:
    blank lines are skipped before the server looks for the end of the headers. *)
Theorem body_line_lost :
  let c := (smtp_run ["MAIL FROM:<a@localhost>"; "RCPT TO:<b@localhost>"; "DATA"] smtp_init).1 in
  let send line c := match smtp_line true line c new_system with (_, Some (c, _, _)) => c | _ => c end in
  let c := send "meet at 10:30" (send "" (send "Subject: lunch" c)) in
  headersBlock c = "Subject: lunch" +:+ lf +:+ "meet at 10:30" +:+ lf ∧ bodyBlock c = "".
Proof. vm_compute. done. Qed.
