(* ===== verification/ServiceConcurrency.v ===== *)
(** * The services at the same time

    Requests of different users do not disturb each other, however their calls to the store
    interleave; requests about the same row do, where the code reads a value and writes it back in
    two calls. *)
From S2P Require Import Prelude CppString Table Codec Utils CppStream Rpc Coordinator Worker WorkerFacts.
From S2P Require Import Cluster ClusterFacts Replication Kv SharedStore UserAccount StorageText Chunked.
From S2P Require Import Storage StoragePages StorageRow Smtp.

(** ** Requests of different users *)

Section users.
Variable address : string → string.
#[local] Instance ops : KvOps shared := shared_ops address.

Lemma undisturbed_row a r : RowClosed a r (λ A, undisturbed (A := A) r).
Proof.
  split; intros;
    [apply undisturbed_ret|apply undisturbed_throw|by apply undisturbed_bind|apply undisturbed_Get
    |apply undisturbed_Put|apply undisturbed_CPut|apply undisturbed_Delete].
Qed.

Lemma storage_program_undisturbed q fuel user request reads :
  undisturbed (user +:+ "-storage") (storage_program q fuel user request reads).
Proof.
  apply (storage_program_row (user +:+ "-storage") (λ _ A, undisturbed (A := A) (user +:+ "-storage"))
    (λ a, undisturbed_row a _)); [done|].
  intros handler Hh. unfold withWorker. apply undisturbed_bind; [apply undisturbed_Lookup|].
  intros a. destruct (is_ERR a); [apply undisturbed_ret|done].
Qed.

(** The requests of a user to the storage service, one after the other, with their answers. *)
Record storage_call := { sc_request : storage_request; sc_text : string; sc_reads : list string }.
Fixpoint storage_session (fuel : nat) (user : string) (calls : list storage_call) :
    M shared (list string) :=
  match calls with
  | [] => mret []
  | c :: calls =>
      res ← storage_program (sc_request c) fuel user (sc_text c) (sc_reads c);
      rest ← storage_session fuel user calls;
      mret (res :: rest)
  end.

(** What a user does with the account. *)
Inductive account_call := Authenticate (p : string) | SignUp (p : string) | ChangePw (old new : string).
Definition account_program (user : string) (c : account_call) : M shared Z :=
  match c with
  | Authenticate p => b ← authenticate user p; mret (Z.b2z b)
  | SignUp p => b ← signup user p; mret (Z.b2z b)
  | ChangePw old new => changePassword user old new
  end.

End users.

(** C9: while others use the store in any way, but for the row of this user's files, all requests
    of the user to the storage service give exactly the answers they give when nobody else is there,
    and leave the user's files as when nobody else is there; the other rows end as if the user had
    not been there.  The calls of all may interleave in any way. *)
Theorem storage_undisturbed address fuel user calls T others :
  leave_alone (user +:+ "-storage") others →
  let r := user +:+ "-storage" in
  let run := storage_session address fuel user calls in
  ∃ T' T0 used rest answers,
    run {| sh_table := T; sh_others := others |} = ({| sh_table := T'; sh_others := rest |}, answers) ∧
    run (alone T) = (alone T0, answers) ∧ T' !! r = T0 !! r ∧ others = used ++ rest ∧
    ∀ r', r' ≠ r → T' !! r' = apply_all (concat used) T !! r'.
Proof.
  intros Ho r run. assert (undisturbed r run) as Hu; [|by apply (Hu T T)]. clear Ho.
  subst run. induction calls as [|c calls IH]; cbn [storage_session]; [apply undisturbed_ret|].
  apply undisturbed_bind; [apply storage_program_undisturbed|]. intros res.
  apply undisturbed_bind; [exact IH|]. intros rest. apply undisturbed_ret.
Qed.

(** The same for accounts. *)
Theorem accounts_undisturbed address user c T others :
  leave_alone (user +:+ "-userinfo") others →
  ∃ T' T0 used rest o,
    account_program address user c {| sh_table := T; sh_others := others |} =
      ({| sh_table := T'; sh_others := rest |}, o) ∧
    account_program address user c (alone T) = (alone T0, o) ∧
    T' !! (user +:+ "-userinfo") = T0 !! (user +:+ "-userinfo") ∧ others = used ++ rest ∧
    ∀ r', r' ≠ user +:+ "-userinfo" → T' !! r' = apply_all (concat used) T !! r'.
Proof.
  intros Ho. assert (undisturbed (user +:+ "-userinfo") (account_program address user c)) as Hu;
    [|by apply (Hu T T)]. clear Ho.
  destruct c; cbn [account_program]; unfold authenticate, signup, changePassword;
    repeat first [ apply undisturbed_ret | apply undisturbed_Lookup | apply undisturbed_Get
                 | apply undisturbed_Put | apply undisturbed_CPut | apply undisturbed_bind; [|intros ?]
                 | match goal with |- undisturbed _ (if ?b then _ else _) => destruct b end ].
Qed.

(** ** Examples *)

Definition here : string → string := λ _, "127.0.0.1:10001".
#[local] Instance here_ops : KvOps shared := shared_ops here.

(** alice lists her files while bob puts one of his, between her first call and her second. *)
Definition list_call : storage_call :=
  {| sc_request := ReqList; sc_text := "GET /list HTTP/1.1" +:+ crlf2; sc_reads := [] |}.
Definition bob_writes : list (list update) :=
  [[]; [UPut "bob-storage" "b.txt" "KV-File"; UPut "bob-storage" "metadata" "b.txt"]].

Lemma storage_undisturbed_witness :
  leave_alone ("alice" +:+ "-storage") bob_writes ∧
  ∃ T' T0 used rest answers,
    storage_session here 5 "alice" [list_call] {| sh_table := ∅; sh_others := bob_writes |} =
      ({| sh_table := T'; sh_others := rest |}, answers) ∧
    storage_session here 5 "alice" [list_call] (alone ∅) = (alone T0, answers) ∧
    T' !! "alice-storage" = T0 !! "alice-storage" ∧ bob_writes = used ++ rest ∧
    ∀ r', r' ≠ "alice-storage" → T' !! r' = apply_all (concat used) ∅ !! r'.
Proof.
  assert (leave_alone ("alice" +:+ "-storage") bob_writes) as Hl
    by (apply (@bool_decide_unpack _ (leave_alone_dec _ _)); vm_compute; exact I).
  split; [exact Hl|]. exact (storage_undisturbed here 5 "alice" [list_call] ∅ bob_writes Hl).
Defined.

Lemma accounts_undisturbed_witness :
  ∃ T' T0 used rest o,
    account_program here "alice" (SignUp "secret") {| sh_table := ∅; sh_others := bob_writes |} =
      ({| sh_table := T'; sh_others := rest |}, o) ∧
    account_program here "alice" (SignUp "secret") (alone ∅) = (alone T0, o) ∧
    T' !! "alice-userinfo" = T0 !! "alice-userinfo" ∧ bob_writes = used ++ rest ∧
    ∀ r', r' ≠ "alice-userinfo" → T' !! r' = apply_all (concat used) ∅ !! r'.
Proof.
  apply (accounts_undisturbed here "alice" (SignUp "secret")).
  apply (@bool_decide_unpack _ (leave_alone_dec _ _)). vm_compute. exact I.
Defined.

(** ** Requests about the same row *)

(** The contents of a cell afterwards. *)
Definition cell (r c : string) (s : shared) : option string := flat (sh_table s) !! (r, c).

(** Two people sign up under one name at the same time: between the test and the put of the first,
    the second has signed up.  Both are told that they have the account; the second can not log in. *)
Theorem signup_race :
  let s := {| sh_table := ∅; sh_others := [[]; []; [UPut "alice-userinfo" "password" "second"]] |} in
  let '(s', o) := signup "alice" "first" s in
  o = Some true ∧ cell "alice-userinfo" "password" s' = Some "first" ∧
  (authenticate "alice" "second" s').2 = Some false.
Proof. by vm_compute. Qed.

(** Two uploads into one folder at the same time: the second one has listed its file between the
    first one's reading of the listing and its conditional put, whose failure is not noticed.  The
    user is told that the file is stored, and it is not listed. *)
Definition uploads : shared :=
  {| sh_table := {["alice-storage" := {["metadata" := "old.txt"]}]};
     sh_others := [[]; []; []; []; []; []; [UCPut "alice-storage" "metadata" "old.txt" "old.txt,b.txt"]] |}.
Theorem upload_race :
  let '(s', o) := storeFile 5 "127.0.0.1:10001" "alice-storage" "" "a.txt" "hello" uploads in
  (contains "UPLOADED" <$> o) = Some true ∧ sh_others s' = [] ∧
  cell "alice-storage" "a.txt" s' = Some "KV-File" ∧
  cell "alice-storage" "metadata" s' = Some "old.txt,b.txt".
Proof. by vm_compute. Qed.

(** Two messages for one mailbox at the same time: both are stored, and the list of the mailbox
    loses the one that was listed between the reading of the list and the put. *)
Definition mails : shared :=
  {| sh_table := {["inbox_email:bob@localhost" := {["meta" := "x"]}]};
     sh_others := [[]; []; []; []; [UPut "inbox_email:bob@localhost" "y" "hi";
                                    UPut "inbox_email:bob@localhost" "meta" "x,y"]] |}.
Theorem delivery_race :
  let '(s', o) := storeMail "inbox_email:bob@localhost" "z" "hello" mails in
  o = Some tt ∧ sh_others s' = [] ∧
  cell "inbox_email:bob@localhost" "y" s' = Some "hi" ∧
  cell "inbox_email:bob@localhost" "meta" s' = Some "x,z".
Proof. by vm_compute. Qed.

(** Two password changes at the same time: both answer that the password was changed. *)
Theorem changePassword_race :
  let s := {| sh_table := {["alice-userinfo" := {["password" := "old"]}]};
              sh_others := [[]; []; [UCPut "alice-userinfo" "password" "old" "second"]] |} in
  let '(s', o) := changePassword "alice" "old" "first" s in
  o = Some 0 ∧ cell "alice-userinfo" "password" s' = Some "second".
Proof. by vm_compute. Qed.
