(* ===== verification/Email.v ===== *)
(** * The email service: frontend/email/email_service.cc

    Mailboxes are the rows "inbox_email:<address>" and "sent_email:<address>": the column "meta" lists
    the ids of the messages, and the column of an id holds the body.  The id of a message is its
    metadata, "encrypted". *)
From S2P Require Import Prelude CppString Table Codec Utils CppStream Rpc Coordinator Worker WorkerFacts.
From S2P Require Import Cluster ClusterFacts Replication Kv Smtp.

Definition isExternalEmail (email : string) : bool := negb (contains "@localhost" email).

(** [headers[key]] *)
Definition header (headers : gmap string string) (key : string) : string := default "" (headers !! key).

(** The row of a folder. *)
Definition mailboxRow (folder username : string) : string :=
  if bool_decide (folder = "sent") then "sent_email:" +:+ username else "inbox_email:" +:+ username.

(** The ids of a mailbox: the non-empty entries of its list. *)
Definition mailIds (metaList : string) : list string :=
  filter (λ token, token ≠ "") (getlines ","%char metaList).

Section service.
Context `{KvOps St} `{MailEnv}.

(** ** Lists *)

Definition removeFromMetadata (mailboxRow emailId : string) : M St unit :=
  client ← getWorkerClient mailboxRow;
  currentMeta ← kv_Get client mailboxRow "meta";
  if is_ERR currentMeta then mret tt
  else
    let ids := filter (λ token, token ≠ "" ∧ token ≠ emailId) (getlines ","%char currentMeta) in
    _ ← kv_Put client mailboxRow "meta" (join "," ids); mret tt.

(** ** Pages *)

(** The rows of the two tables of the inbox page. *)
Definition inboxRowHtml (username encId : string) : string :=
  let hdr := header (parseMetadata (decryptMetadata encId)) in
  "<tr><td>" +:+ encId +:+ "</td><td>" +:+ hdr "sender" +:+ "</td><td>" +:+ hdr "subject" +:+
  "</td><td>" +:+ hdr "timestamp" +:+ "</td><td><a href='/email?id=" +:+ encId +:+
  "&folder=inbox&username=" +:+ username +:+ "'>View</a> | <a href='/delete?id=" +:+ encId +:+
  "&folder=inbox&username=" +:+ username +:+ "'>Delete</a></td></tr>".
Definition sentRowHtml (username encId : string) : string :=
  let hdr := header (parseMetadata (decryptMetadata encId)) in
  "<tr><td>" +:+ encId +:+ "</td><td>" +:+ hdr "recipient" +:+ "</td><td>" +:+ hdr "subject" +:+
  "</td><td>" +:+ hdr "timestamp" +:+ "</td><td><a href='/email?id=" +:+ encId +:+
  "&folder=sent&username=" +:+ username +:+ "'>View</a> | <a href='/delete?id=" +:+ encId +:+
  "&folder=sent&username=" +:+ username +:+ "'>Delete</a></td></tr>".
Definition concatHtml (l : list string) : string := foldr String.append "" l.

Definition renderInbox (username : string) : M St string :=
  let inboxRow := "inbox_email:" +:+ username in
  client ← getWorkerClient inboxRow;
  metaList ← kv_Get client inboxRow "meta";
  let inbox :=
    if is_ERR metaList || bool_decide (metaList = "") then "<p>No received emails found.</p>"
    else
      "<table border='1'><tr><th>Email ID</th><th>From</th><th>Subject</th><th>Date</th><th>Actions</th></tr>" +:+
      concatHtml (inboxRowHtml username <$> mailIds metaList) +:+ "</table>" in
  let sentRow := "sent_email:" +:+ username in
  client2 ← getWorkerClient sentRow;
  sentMeta ← kv_Get client2 sentRow "meta";
  let sent :=
    if is_ERR sentMeta || bool_decide (sentMeta = "") then "<p>No sent emails found.</p>"
    else
      "<table border='1'><tr><th>Email ID</th><th>To</th><th>Subject</th><th>Date</th><th>Actions</th></tr>" +:+
      concatHtml (sentRowHtml username <$> mailIds sentMeta) +:+ "</table>" in
  mret (
    "<html><head><title>Inbox</title><style>" +:+
    "body { font-family: Arial, sans-serif; background: #f4f4f4; padding: 20px; }" +:+
    "h1, h2 { color: #333; }" +:+
    "table { border-collapse: collapse; width: 100%; margin-bottom: 40px; background: #fff; box-shadow: 0 0 10px rgba(0,0,0,0.05); }" +:+
    "th, td { padding: 12px 15px; border: 1px solid #ddd; }" +:+
    "th { background-color: #007BFF; color: white; }tr:hover { background-color: #f1f1f1; }" +:+
    "a { text-decoration: none; color: #007BFF; }a:hover { text-decoration: underline; }" +:+
    ".compose-btn { padding: 10px 20px; background: #28a745; color: white; border-radius: 5px; font-weight: bold; text-decoration: none; }" +:+
    ".compose-btn:hover { background: #218838; }</style></head><body><h1>Welcome, " +:+
    username +:+ "</h1><h2>Inbox</h2>" +:+
    inbox +:+ "<h2>Sent Emails</h2>" +:+ sent +:+
    "<br/><a href='/compose?username=" +:+ username +:+ "'>Compose New Email</a></body></html>").

Definition viewEmail (username emailId folder : string) : M St string :=
  let rowKey := mailboxRow folder username in
  client ← getWorkerClient rowKey;
  body ← kv_Get client rowKey emailId;
  if is_ERR body then
    mret "<html><body><h1>Error:</h1><p>Email not found or failed to load.</p></body></html>"
  else
    let hdr := header (parseMetadata (decryptMetadata emailId)) in
    mret (
    "<html><head><title>Email Details</title><style>" +:+
    "body { font-family: Arial; background: #f4f4f4; padding: 20px; }h1, h2 { color: #333; }" +:+
    "p { line-height: 1.6; }a { color: #007BFF; text-decoration: none; }" +:+
    "a:hover { text-decoration: underline; }" +:+
    ".back-btn { margin-top: 20px; display: inline-block; padding: 10px 20px; background: #007BFF; color: white; border-radius: 5px; text-decoration: none; }" +:+
    ".back-btn:hover { background: #0056b3; }</style></head><body><h1>Email Details (" +:+
    folder +:+ ")</h1><p><strong>From:</strong> " +:+ hdr "sender" +:+
    "</p><p><strong>To:</strong> " +:+ hdr "recipient" +:+ "</p><p><strong>Subject:</strong> " +:+
    hdr "subject" +:+ "</p><p><strong>Date:</strong> " +:+ hdr "timestamp" +:+ "</p>" +:+
    "<p><strong>Body:</strong><br><div style='background:#fff;padding:15px;border:1px solid #ccc;'>" +:+
    body +:+ "</div></p><p><a href='/reply?username=" +:+ username +:+ "&id=" +:+ emailId +:+
    "&folder=" +:+ folder +:+ "'>Reply</a> | <a href='/forward?username=" +:+ username +:+
    "&id=" +:+ emailId +:+ "&folder=" +:+ folder +:+
    "'>Forward</a></p><a class='back-btn' href='/inbox?username=" +:+ username +:+ "&folder=" +:+
    folder +:+ "'>Back to Inbox</a></body></html>").

Definition renderCompose (username : string) : string :=
  "<html><head><title>Compose Email</title><style>" +:+
  "body { font-family: Arial; background: #f4f4f4; padding: 20px; }" +:+
  "form { background: #fff; padding: 20px; border-radius: 5px; box-shadow: 0 0 5px rgba(0,0,0,0.1); }" +:+
  "input[type=text], textarea { width: 100%; padding: 10px; margin-bottom: 15px; border: 1px solid #ccc; border-radius: 4px; }" +:+
  "input[type=submit] { background: #28a745; color: white; padding: 10px 20px; border: none; border-radius: 4px; cursor: pointer; }" +:+
  "input[type=submit]:hover { background: #218838; }" +:+
  ".back-link { margin-top: 20px; display: inline-block; color: #007BFF; }" +:+
  "</style></head><body><h1>Compose New Email</h1><form method='POST' action='/send'>" +:+
  "To: <input type='text' name='to'><br>Subject: <input type='text' name='subject'><br>" +:+
  "Body:<br><textarea name='body' rows='10' cols='30'></textarea><br>" +:+
  "<input type='hidden' name='username' value='" +:+ username +:+
  "'><input type='submit' value='Send'></form><a class='back-link' href='/inbox?username=" +:+
  username +:+ "'>Back to Inbox</a></body></html>".

(** ** Sending *)

(** [sendViaSMTP] to the SMTP server of this host: when it can be reached, the server handles the
    lines of the conversation, which are one packet each here; by [handle_client_packets] other
    packets make no difference.  The answers are read and ignored. *)
Definition smtpConversation (sender recipient subject body : string) : list string :=
  (λ msg, msg +:+ crlf) <$>
  ["HELO localhost"; "MAIL FROM:<" +:+ sender +:+ ">"; "RCPT TO:<" +:+ recipient +:+ ">"; "DATA";
   "From: " +:+ sender +:+ lf +:+ "To: " +:+ recipient +:+ lf +:+ "Subject: " +:+ subject +:+ lf +:+
   "Date: " +:+ env_date +:+ crlf +:+ crlf +:+ body +:+ crlf +:+ "."; "QUIT"].
Variables (smtp_reachable extraCreditNonLocal : bool).
Definition sendViaSMTP (sender recipient subject body : string) : M St bool :=
  if smtp_reachable then
    _ ← handle_client extraCreditNonLocal (smtpConversation sender recipient subject body); mret true
  else mret false.

(** A message stored in a mailbox and, when that succeeded, listed. *)
Definition storeAndList (row id body : string) : M St bool :=
  client ← getWorkerClient row;
  result ← kv_Put client row id body;
  if is_ERR result then mret false
  else _ ← appendToMetadata row id; mret true.

Definition sendEmail (postData : string) : M St string :=
  let formData := urlDecode <$> parseQueryString postData in
  let field k := default "" (formData !! k) in
  let recipient := field "to" in
  let subject := field "subject" in
  let body := field "body" in
  let senderUsername := field "username" in
  let encryptedMetadata :=
    encryptMetadata (createMetadata senderUsername recipient subject env_timestamp) in
  inboxSuccess ←
    (if isExternalEmail recipient then sendViaSMTP senderUsername recipient subject body
     else storeAndList ("inbox_email:" +:+ recipient) encryptedMetadata body);
  senderSuccess ← storeAndList ("sent_email:" +:+ senderUsername) encryptedMetadata body;
  mret (
    "<html><head><meta http-equiv='refresh' content='2;url=/inbox?username=" +:+ senderUsername +:+
    "'></head><body>" +:+
    (if (inboxSuccess : bool) then "" else
       "<p style='color:red;'>Warning: Failed to deliver to " +:+ recipient +:+ "</p>") +:+
    (if (senderSuccess : bool) then "" else
       "<p style='color:red;'>Warning: Email was not stored in your sent folder</p>") +:+
    "<p>Email send attempt completed. Redirecting...</p></body></html>").

(** ** Replying and forwarding *)

(** The headers, as these two pages parse them: empty tokens are skipped, which changes nothing. *)
Definition originalBody (username emailId folder : string) : M St string :=
  let rowKey := mailboxRow folder username in
  client ← getWorkerClient rowKey;
  body ← kv_Get client rowKey emailId;
  mret (if is_ERR body then "[Original message not available]" else body).

Definition renderReplyCompose (username emailId folder : string) : M St string :=
  body ← originalBody username emailId folder;
  let hdr := header (parseMetadata (decryptMetadata emailId)) in
  let replyTo := hdr "sender" in
  let originalSubject := hdr "subject" in
  let replySubject := if starts_with "Re:" originalSubject then originalSubject
                      else "Re: " +:+ originalSubject in
  let quotedBody := lf +:+ lf +:+ "---------- Original Message ----------" +:+ lf +:+ "From: " +:+
    hdr "sender" +:+ lf +:+ "Subject: " +:+ originalSubject +:+ lf +:+ lf +:+ body in
  mret (
    "<html><head><title>Reply Email</title></head><body><h1>Reply to Message</h1>" +:+
    "<form method='POST' action='/send'><input type='hidden' name='is_reply' value='true'>" +:+
    "<input type='hidden' name='original_id' value='" +:+ emailId +:+
    "'>To: <input type='text' name='to' value='" +:+ replyTo +:+
    "'><br>Subject: <input type='text' name='subject' value='" +:+ replySubject +:+
    "'><br>Body:<textarea name='body' rows='10' cols='30'>" +:+ quotedBody +:+
    "</textarea><br><input type='hidden' name='username' value='" +:+ username +:+
    "'><input type='submit' value='Send'></form><a href='/inbox?username=" +:+ username +:+
    "'>Back to Inbox</a></body></html>").

Definition renderForwardCompose (username emailId folder : string) : M St string :=
  body ← originalBody username emailId folder;
  let hdr := header (parseMetadata (decryptMetadata emailId)) in
  let originalSubject := hdr "subject" in
  let forwardSubject := if starts_with "Fwd:" originalSubject then originalSubject
                        else "Fwd: " +:+ originalSubject in
  let quotedBody := lf +:+ lf +:+ "---------- Forwarded Message ----------" +:+ lf +:+ "From: " +:+
    hdr "sender" +:+ lf +:+ "Subject: " +:+ originalSubject +:+ lf +:+ "Date: " +:+ hdr "timestamp" +:+
    lf +:+ lf +:+ body in
  mret (
    "<html><head><title>Forward Email</title></head><body><h1>Forward Message</h1>" +:+
    "<form method='POST' action='/send'><input type='hidden' name='is_forward' value='true'>" +:+
    "<input type='hidden' name='original_id' value='" +:+ emailId +:+
    "'>To: <input type='text' name='to'><br>" +:+
    "Subject: <input type='text' name='subject' value='" +:+ forwardSubject +:+
    "'><br>Body:<textarea name='body' rows='10' cols='30'>" +:+ quotedBody +:+
    "</textarea><br><input type='hidden' name='username' value='" +:+ username +:+
    "'><input type='submit' value='Send'></form><a href='/inbox?username=" +:+ username +:+
    "'>Back to Inbox</a></body></html>").

(** ** Deleting *)

Definition deleteEmail (username emailId folder : string) : M St string :=
  let rowKey := mailboxRow folder username in
  client ← getWorkerClient rowKey;
  res ← kv_Delete client rowKey emailId;
  if is_ERR res then
    mret "<html><body><h1>Error:</h1><p>Delete failed: email not found or server error.</p></body></html>"
  else
    _ ← removeFromMetadata rowKey emailId;
    mret "Email deleted successfully!".

(** ** Requests *)

Definition handleRequest (path reqType queryStr postData : string) : M St string :=
  let queryParams := parseQueryString queryStr in
  let username := match queryParams !! "username" with Some u => urlDecode u | None => "test" end in
  let username := if contains "@" username then username else username +:+ "@localhost" in
  let folder := default "inbox" (queryParams !! "folder") in
  let emailId := match queryParams !! "id" with Some i => urlDecode i | None => "1" end in
  let route p t := bool_decide (path = p) && bool_decide (reqType = t) in
  if route "/inbox" "GET" then renderInbox username
  else if route "/send" "POST" then sendEmail postData
  else if route "/email" "GET" then viewEmail username emailId folder
  else if route "/compose" "GET" then mret (renderCompose username)
  else if route "/delete" "POST" then deleteEmail username emailId folder
  else if route "/reply" "GET" then renderReplyCompose username emailId folder
  else if route "/forward" "GET" then renderForwardCompose username emailId folder
  else mret "Invalid path".

End service.
