(* ===== verification/EmailFacts.v ===== *)
(** * Correctness of the email service

    Sending stores and lists the message on both sides; deleting removes exactly it. *)
From S2P Require Import Prelude CppString Table Codec Utils CppStream Rpc Coordinator Worker WorkerFacts.
From S2P Require Import Cluster ClusterFacts Replication Kv Smtp SmtpFacts Email.

(** ** Lists of ids *)

Lemma getlines_filter d s : filter (λ t, t ≠ "") (getlines d s) = filter (λ t, t ≠ "") (split_on d s).
Proof.
  unfold getlines. destruct (last (split_on d s)) as [[|c t]|] eqn:E; [|done..].
  apply last_Some in E as [l El]. rewrite El, removelast_last, filter_app.
  rewrite filter_cons, decide_False by (by intros []). by rewrite app_nil_r.
Qed.

Lemma filter_filter_id (id : string) (l : list string) :
  filter (λ t, t ≠ id) (filter (λ t, t ≠ "") l) = filter (λ t, t ≠ "" ∧ t ≠ id) l.
Proof.
  induction l as [|t l IH]; [done|]. rewrite !filter_cons. repeat case_decide; rewrite ?filter_cons;
    repeat case_decide; try tauto; by rewrite IH.
Qed.

(** The ids of a list that was put together from ids. *)
Lemma mailIds_join ids :
  Forall (λ t, no_char ","%char t ∧ t ≠ "") ids → mailIds (join "," ids) = ids.
Proof.
  intros Hids. unfold mailIds. rewrite getlines_filter.
  destruct ids as [|i ids]; [done|]. rewrite (split_on_join ","%char); [|done|].
  - clear -Hids. induction Hids as [|t l [_ Ht] _ IH]; [done|].
    by rewrite filter_cons, decide_True, IH.
  - eapply Forall_impl; [done|]. by intros t [? _].
Qed.

Lemma removed_ids m id :
  mailIds (join "," (filter (λ t, t ≠ "" ∧ t ≠ id) (getlines ","%char m))) =
    filter (λ t, t ≠ id) (mailIds m).
Proof.
  rewrite mailIds_join.
  - unfold mailIds. by rewrite filter_filter_id.
  - rewrite <-filter_filter_id, getlines_filter. apply Forall_forall. intros t Ht.
    apply list_elem_of_filter in Ht as [_ Ht]. apply list_elem_of_filter in Ht as [Hne Ht].
    split; [|done]. pose proof (split_on_pieces ","%char m) as Hp. rewrite Forall_forall in Hp. auto.
Qed.

Section email.
Context `{KvLaws St} `{MailEnv}.

Lemma runs_storeAndList row id body V (Q : bool → St → Prop) s :
  kv_ok s → (∀ r c, kv_view s r c = V r c) →
  (∀ s', kv_ok s' → (∀ r c, kv_view s' r c = store_effect row id body V r c) → Q true s') →
  runs (storeAndList row id body) Q s.
Proof.
  intros Hok HV HQ. unfold storeAndList, getWorkerClient. apply runs_bind.
  apply (runs_Lookup _ V _ s Hok HV). intros a s1 _ Hs1. apply runs_bind.
  apply (runs_Put _ _ _ _ _ _ _ Hs1). intros res s2 -> Hs2. apply runs_bind.
  apply (runs_append _ _ (view_effect (UPut row id body) V)); [apply Hs2..|].
  intros s3 Hok3 HV3. by apply runs_ret, HQ.
Qed.

Lemma createMetadata_rawMeta s r j t : encryptMetadata (createMetadata s r j t) = mail_id s r j t.
Proof. done. Qed.

Lemma delivered_ext V V' row id body :
  (∀ r c, V' r c = V r c) → delivered V row id body → delivered V' row id body.
Proof. intros E [Hb (m & Hm & Hl)]. split; [by rewrite E|]. exists m. by rewrite E. Qed.


(** Deleting an email over a healthy store removes its body, and its id, exactly, from the list
    of the folder: the other messages stay listed, in order.  The id is not the name "meta" of the
    column of the list. *)
Theorem deleteEmail_correct username emailId folder s :
  kv_ok s → emailId ≠ "meta" →
  let row := mailboxRow folder username in
  runs (deleteEmail username emailId folder) (λ reply s', kv_ok s' ∧
    reply = "Email deleted successfully!" ∧ kv_view s' row emailId = None ∧
    (∀ m, kv_view s row "meta" = Some m → is_ERR m = false →
      ∃ m', kv_view s' row "meta" = Some m' ∧
        mailIds m' = filter (λ t, t ≠ emailId) (mailIds m)) ∧
    ∀ r c, (r, c) ≠ (row, emailId) → (r, c) ≠ (row, "meta") → kv_view s' r c = kv_view s r c) s.
Proof.
  intros Hok Hne row. unfold deleteEmail, getWorkerClient. fold row. apply runs_bind.
  apply (runs_Lookup _ (kv_view s) _ s Hok (λ _ _, eq_refl)). intros a s1 _ Hs1. apply runs_bind.
  apply (runs_Delete _ _ _ _ _ _ Hs1). intros res s2 -> Hs2. apply runs_bind.
  unfold removeFromMetadata, getWorkerClient. apply runs_bind.
  apply (runs_Lookup _ _ _ s2 (session_ok _ _ _ _ Hs2) (session_view _ _ _ _ Hs2)).
  intros a3 s3 _ Hs3. apply runs_bind. apply (runs_Get _ _ _ _ _ _ Hs3). intros v Hv.
  unfold got in Hv. cbn [view_effect] in Hv. rewrite decide_False in Hv by congruence.
  destruct (is_ERR v) eqn:Ev.
  - apply runs_ret, runs_ret. split_and!; [apply Hs3|done|..].
    + rewrite (session_view _ _ _ _ Hs3). cbn [view_effect]. by rewrite decide_True.
    + intros m Hm Hme. rewrite Hm in Hv. congruence.
    + intros r c Hrc _. rewrite (session_view _ _ _ _ Hs3). cbn [view_effect]. by rewrite decide_False.
  - apply runs_bind. apply (runs_Put _ _ _ _ _ _ _ Hs3). intros _ s4 _ Hs4.
    apply runs_ret, runs_ret. split_and!; [apply Hs4|done|..].
    + rewrite (session_view _ _ _ _ Hs4). cbn [view_effect]. rewrite decide_False by congruence.
      by rewrite decide_True.
    + intros m Hm Hme. rewrite Hm in Hv. subst v. rewrite (session_view _ _ _ _ Hs4). cbn [view_effect].
      rewrite decide_True by done. eexists. split; [done|]. apply removed_ids.
    + intros r c Hrc Hrm. rewrite (session_view _ _ _ _ Hs4). cbn [view_effect].
      by rewrite !decide_False.
Qed.

End email.

(** ** Examples *)

#[local] Existing Instance example_ops.
#[local] Existing Instance example_laws.
#[local] Existing Instance example_env.


Lemma deleteEmail_correct_witness :
  runs (deleteEmail "bob@localhost" ";id" "inbox") (λ reply s', kv_ok s' ∧
    reply = "Email deleted successfully!" ∧ kv_view s' "inbox_email:bob@localhost" ";id" = None ∧
    (∀ m, kv_view new_system "inbox_email:bob@localhost" "meta" = Some m → is_ERR m = false →
      ∃ m', kv_view s' "inbox_email:bob@localhost" "meta" = Some m' ∧
        mailIds m' = filter (λ t, t ≠ ";id") (mailIds m)) ∧
    ∀ r c, (r, c) ≠ ("inbox_email:bob@localhost", ";id") →
      (r, c) ≠ ("inbox_email:bob@localhost", "meta") → kv_view s' r c = kv_view new_system r c) new_system.
Proof. apply (deleteEmail_correct "bob@localhost" ";id" "inbox" new_system new_system_ok). discriminate. Defined.

(** A comma in the subject of an email splits its id in the list of the mailbox: the pages that
    follow the list do not find the message. *)
Theorem comma_in_subject :
  let id := mail_id "carol@localhost" "bob@localhost" "lunch, tomorrow" env_timestamp in
  id ∉ mailIds (appended None id) ∧ length (mailIds (appended None id)) = 2%nat.
Proof.
  split; [|vm_compute; done]. apply (@bool_decide_unpack _ (not_dec _)). vm_compute. exact I.
Qed.
