(* ===== verification/HttpServer.v ===== *)
(** * The HTTP server: frontend/http_server.cc

    Sessions, which live in the row "session-ids" of the store, and the connection of one client:
    every request is routed to a service and answered, until the client asks to close. *)
From S2P Require Import Prelude CppString Table Codec Utils CppStream Rpc Coordinator Worker WorkerFacts.
From S2P Require Import Cluster ClusterFacts Replication Kv UserAccount StorageText HttpText Chunked Storage.
From S2P Require Import StoragePages Smtp Email Admin.

(** What the environment supplies to one round of the connection: the bytes [recv] returns, those
    that the service reads from the socket afterwards, and the numbers [rand] returns. *)
Record event := { packet : string; reads : list string; rand_ids : list Z }.

Section server.
Context `{UMapOrder} `{KvOps St} `{AdminOps St} `{MailEnv}.
(** The admin service's surroundings, the SMTP server's two settings, the files of the web pages
    ("" when there is none), and the fuel of the storage service's recursions. *)
Variables (env : admin_env) (smtp_reachable extraCreditNonLocal : bool).
Variables (get_file_content : string → string) (fuel : nat).

(** ** Sessions *)

Definition getUsernameFromSession (sessionId : string) : M St string :=
  worker ← kv_Lookup "session-ids";
  if is_ERR worker then mret ""
  else
    username ← kv_Get worker "session-ids" sessionId;
    if is_ERR username then mret "" else mret username.

(** The loop that looks for an id that is not in use; it asks twice. *)
Fixpoint freshSid (client : string) (rands : list Z) : M St string :=
  match rands with
  | [] => throw
  | n :: rands =>
      let sid := to_string n in
      v ← kv_Get client "session-ids" sid;
      if bool_decide (v = "") then mret sid
      else
        v ← kv_Get client "session-ids" sid;
        if is_ERR v then mret sid else freshSid client rands
  end.
Definition generateSessionCookie (rands : list Z) (username : string) : M St string :=
  worker ← kv_Lookup "session-ids";
  if is_ERR worker then mret "error"
  else
    sid ← freshSid worker rands;
    activeUsers ← kv_Get worker "session-ids" "active-users";
    if negb (is_ERR activeUsers) then
      let updatedActiveUsers := activeUsers +:+ ";" +:+ username +:+ ":" +:+ sid +:+ ";" in
      _ ← kv_Put worker "session-ids" sid username;
      _ ← kv_CPut worker "session-ids" "active-users" activeUsers updatedActiveUsers;
      mret sid
    else
      let updatedActiveUsers := username +:+ ":" +:+ sid +:+ ";" in
      _ ← kv_Put worker "session-ids" sid username;
      _ ← kv_Put worker "session-ids" "active-users" updatedActiveUsers;
      mret sid.

(** The loop of [handleLogout] over the entries: [found] is never reset. *)
Fixpoint dropUsers (sid : string) (found : bool) (userinfos : list string) : string :=
  match userinfos with
  | [] => ""
  | userinfo :: userinfos =>
      let found :=
        match find_char ":"%char 0 userinfo with
        | Some eqPos => if bool_decide (sid = substr_from (eqPos + 1) userinfo) then true else found
        | None => found
        end in
      (if found then "" else userinfo +:+ ";") +:+ dropUsers sid found userinfos
  end.
Definition handleLogout (sid username : string) : M St unit :=
  worker ← kv_Lookup "session-ids";
  if is_ERR worker then mret tt
  else
    activeUsers ← kv_Get worker "session-ids" "active-users";
    let updatedActiveUsers := dropUsers sid false (getlines ";"%char activeUsers) in
    _ ← kv_Delete worker "session-ids" sid;
    _ ← kv_CPut worker "session-ids" "active-users" activeUsers updatedActiveUsers;
    mret tt.

(** [dummySetUp]: the users that are there from the start. *)
Fixpoint setUpUsers (users : list (string * string)) : M St unit :=
  match users with
  | [] => mret tt
  | (user, password) :: users =>
      worker ← kv_Lookup (user +:+ "-userinfo");
      if is_ERR worker then mret tt
      else _ ← kv_Put worker (user +:+ "-userinfo") "password" password; setUpUsers users
  end.
Definition dummySetUp : M St unit :=
  setUpUsers [("user1", "pass1"); ("user2", "pass2"); ("admin", "admin")].

(** ** Email *)

Definition servers_down : string :=
  httpResponse "503 Service Unavailable" "<html><body>Servers down, sorry for the inconvenience!</body></html>".

Definition handleEmailService (session_id request type queryParams data : string) : M St string :=
  username ← getUsernameFromSession session_id;
  if bool_decide (username = "") then
    mret (httpResponse "401 Unauthorized" "<html><body>Please login to access emails.</body></html>")
  else
    worker ← kv_Lookup (username +:+ "-email");
    if is_ERR worker then mret servers_down
    else
      response ← handleRequest smtp_reachable extraCreditNonLocal request type queryParams data;
      if is_ERR response then
        mret (httpResponse "400 Bad Request" ("<html><body><h1>" +:+ response +:+ "</h1></body></html>"))
      else mret (httpResponse "200 OK" response).

(** ** Routing *)

(** The branches of [client_connection]. *)
Inductive route :=
  | Credentials | Signup | ChangePassword | Logout
  | Dashboard | WorkerStatus | Backend | Toggle
  | List_ | DeleteStorage | RenameFolder | Rename | MoveFile | MoveFolder | CreateSubFolder | Upload | Download
  | EmailGet | EmailDelete | EmailSend | EmailCompose | EmailInbox | EmailReply | EmailForward
  | Health | FrontendToggle | GetFile | HeadFile | NotAllowed.
Global Instance route_eq_dec : EqDecision route.
Proof. solve_decision. Defined.

(** The conditions of the branches, in order. *)
Definition route_of (request : string) : route :=
  let has p := contains p request in
  let at0 p := starts_with p request in
  if has "POST /credentials" || has "HEAD /credentials" then Credentials
  else if has "POST /signup" || has "HEAD /signup" then Signup
  else if has "POST /changepassword" || has "HEAD /changepassword" then ChangePassword
  else if has "GET /logout" || has "HEAD /logout" then Logout
  else if has "GET /admin/dashboard" then Dashboard
  else if has "GET /admin/worker-status" then WorkerStatus
  else if has "GET /admin/backend?worker=" then Backend
  else if has "POST /admin/toggle" then Toggle
  else if has "GET /storage" || has "GET /list" then List_
  else if at0 "GET /deleteStorage" || at0 "HEAD /deleteStorage" then DeleteStorage
  else if at0 "GET /renameFolder" || at0 "POST /renameFolder" || at0 "HEAD /renameFolder" then RenameFolder
  else if at0 "GET /rename" || at0 "POST /rename" || at0 "HEAD /rename" then Rename
  else if at0 "POST /moveFile" || at0 "GET /moveFile" then MoveFile
  else if at0 "POST /moveFolder" || at0 "GET /moveFolder" then MoveFolder
  else if has "POST /createSubFolder" || has "HEAD /createSubFolder" then CreateSubFolder
  else if has "POST /upload" || has "HEAD /upload" then Upload
  else if has "GET /download" || has "HEAD /download" then Download
  else if has "GET /email" && negb (has "GET /email.html") then EmailGet
  else if has "/delete" then EmailDelete
  else if has "POST /send" then EmailSend
  else if has "GET /compose" then EmailCompose
  else if has "/inbox" || has "/email.html" then EmailInbox
  else if has "GET /reply" then EmailReply
  else if has "GET /forward" then EmailForward
  else if has "HEAD /health" then Health
  else if has "POST /admin/frontend-toggle" then FrontendToggle
  else if has "GET" then GetFile
  else if has "HEAD" then HeadFile
  else NotAllowed.

(** ** Accounts *)

Definition isHead (request : string) : bool := contains "HEAD /" request.
(** [request.substr(request.find("\r\n\r\n")+4)] *)
Definition bodyOf (request : string) : option string :=
  substr_from_exc (npos_add (find crlf2 0 request) 4) request.
(** [isHead ? buildHttpHeader(status, "text/html", error.size()) : httpResponse(status, body)] *)
Definition headOr (request status error body : string) : string :=
  if isHead request then buildHttpHeader status "text/html" (slen error) "" else httpResponse status body.

Definition sessionHeader (sid : string) : string :=
  "Set-Cookie: session_id=" +:+ sid +:+ "; Path=/; HttpOnly" +:+ crlf.
Definition userPage (u : string) : string :=
  "
						<!DOCTYPE html><html><head><title>Dashboard</title></head>
						<body><h1>Welcome " +:+ u +:+ "</h1>
						<nav>
						  <a href=" +:+ dq +:+ "/email.html" +:+ dq +:+ ">Email</a> |
						  <a href=" +:+ dq +:+ "/storage" +:+ dq +:+ ">Storage</a>
						</nav>
						</body></html>
						".
Definition do_credentials (request : string) (rands : list Z) : M St string :=
  body ← lift (bodyOf request);
  let params := parseQueryParams body in
  let u := field params "username" in
  let p := field params "password" in
  ok ← authenticate u p;
  if ok : bool then
    sid ← generateSessionCookie rands u;
    if bool_decide (sid = "error") then mret servers_down
    else if bool_decide (u = "admin") then
      mret (buildHttpHeader "302 Found" "text/html" 0
              (sessionHeader sid +:+ "Location: /admin/dashboard" +:+ crlf))
    else mret (buildHttpHeader "200 OK" "text/html" (slen (userPage u)) (sessionHeader sid) +:+ userPage u)
  else
    mret (httpResponse "401 Unauthorized"
            ("<html><body><h1>Invalid credentials</h1>" +:+ "<a href='/login.html'>Try again</a></body></html>")).

Definition do_signup (request : string) : M St string :=
  body ← lift (bodyOf request);
  let params := parseQueryParams body in
  ok ← signup (field params "username") (field params "password");
  if ok : bool then
    let html := "<html><body><h1>Signed up!</h1>" +:+ "<a href='/login.html'>Login</a></body></html>" in
    mret (headOr request "200 OK" html html)
  else
    mret (httpResponse "409 Conflict"
            ("<html><body><h1>User exists</h1>" +:+ "<a href='/login.html'>Login</a></body></html>")).

Definition do_changepassword (request : string) : M St string :=
  body ← lift (bodyOf request);
  let p := parseQueryParams body in
  response ← changePassword (field p "username") (field p "old_password") (field p "new_password");
  if bool_decide (response = 0) then
    let html := "<html><body><h1>Password changed</h1>" +:+ "<a href='/login.html'>Login</a></body></html>" in
    mret (headOr request "200 OK" html html)
  else if bool_decide (response = 1) then
    let error := "<html><body>User not found</body></html>" in mret (headOr request "404 Not Found" error error)
  else if bool_decide (response = 2) then
    let error := "<html><body>Wrong old password</body></html>" in
    mret (headOr request "401 Unauthorized" error error)
  else
    mret (headOr request "503 Service Unavailable"
            "<html><body>Servers down, sorry for the inconvenience!</body></html>"
            "<html><body>Wrong old password</body></html>").

Definition do_logout (request : string) : M St string :=
  let session_id := extractSessionId request in
  username ← getUsernameFromSession session_id;
  _ ← handleLogout session_id username;
  let html := "<html><body><h1>Logged out successfully!</h1>" +:+ "<a href='/login.html'>Login</a></body></html>" in
  mret (headOr request "200 OK" html html).

(** ** Administration *)

(** The branches that only the administrator may use. *)
Definition asAdmin (request : string) (handler : M St string) : M St string :=
  username ← getUsernameFromSession (extractSessionId request);
  if bool_decide (username = "" ∨ username ≠ "admin") then
    mret (httpResponse "401 Unauthorized"
            "<html><body>Restricted Access. Only Admin can view this page.</body></html>")
  else handler.

Definition do_dashboard (request : string) : M St string :=
  asAdmin request (html ← home env; mret (httpResponse "200 OK" html)).
Definition do_workerStatus : M St string :=
  json ← fetchWorkerStatuses env;
  mret (buildHttpHeader "200 OK" "application/json" (slen json) "" +:+ json).
(** [request[pos] - '0'], a signed [char]. *)
Definition digitAt (pos : nat) (request : string) : Z :=
  let c := Z.of_N (N_of_ascii (char_at pos request)) in (if bool_decide (c < 128) then c else c - 256) - 48.
Definition do_backend (request : string) : M St string :=
  let workerId := digitAt (npos_add (find "worker=" 0 request) 7) request in
  match find "&tablet=" 0 request with
  | Some tabletPos =>
      html ← tabletPage env workerId (digitAt (tabletPos + 8) request); mret (httpResponse "200 OK" html)
  | None => mret (httpResponse "200 OK" (workerPage workerId))
  end.
Definition do_toggle (request : string) : M St string :=
  asAdmin request (
    let postData := match find crlf2 0 request with Some p => substr_from (p + 4) request | None => "" end in
    let params := parseQueryParams postData in
    ok ← handleToggle (field params "workerId") (field params "action");
    if ok : bool then mret (httpResponse "200 OK" "")
    else mret (httpResponse "500 Internal Server Error"
                 "<html><body>Something went wrong on our end!</body></html>")).
Definition do_frontendToggle (request : string) (reads : list string) : M St string :=
  asAdmin request (
    postData ← lift (readRequestBody reads request (find crlf2 0 request));
    let params := parseQueryParams postData in
    if handleFrontendToggle env (field params "port") (field params "action")
    then mret (httpResponse "200 OK" "Success")
    else mret (httpResponse "500 Internal Server Error" "<html><body>Failed to toggle frontend.</body></html>")).

(** ** Storage *)

(** The branches of the storage service; two of them answer a HEAD request as any other. *)
Definition asUser (request : string) (headAware : bool) (handler : string → M St string) : M St string :=
  username ← getUsernameFromSession (extractSessionId request);
  if bool_decide (username = "") then
    let error := "<html><body>Unauthorized. Please login.</body></html>" in
    mret (if headAware then headOr request "401 Unauthorized" error error
          else httpResponse "401 Unauthorized" error)
  else handler username.
Definition do_storage (r : route) (request : string) (reads : list string) : M St string :=
  match r with
  | List_ => asUser request true (λ u, webStorageList u request)
  | DeleteStorage => asUser request true (λ u, webStorageDelete fuel u request)
  | RenameFolder => asUser request true (λ u, webStorageRenameFolder fuel u request reads)
  | Rename => asUser request true (λ u, webStorageRenameFile u request reads)
  | MoveFile => asUser request false (λ u, webStorageMoveFile fuel u request reads)
  | MoveFolder => asUser request false (λ u, webStorageMoveFolder fuel u request reads)
  | CreateSubFolder => asUser request true (λ u, webStorageCreateFolder u request reads)
  | Upload => asUser request true (λ u, webStorageUpload fuel u request reads)
  | _ => asUser request true (λ u, webStorageDownload u request)
  end.

(** ** Email routes *)

Definition do_email (r : route) (request : string) : M St string :=
  let session_id := extractSessionId request in
  let queryStr := urlQuery (requestUrl request) in
  match r with
  | EmailGet => handleEmailService session_id "/email" "GET" queryStr ""
  | EmailDelete => handleEmailService session_id "/delete" "POST" queryStr ""
  | EmailSend =>
      let postData := match find crlf2 0 request with Some p => substr_from (p + 4) request | None => "" end in
      handleEmailService session_id "/send" "POST" "" postData
  | EmailCompose => handleEmailService session_id "/compose" "GET" queryStr ""
  | EmailInbox =>
      username ← getUsernameFromSession session_id;
      let queryStr :=
        match find_char "?"%char 0 (requestUrl request) with
        | Some _ => if contains "username=" queryStr then queryStr else queryStr +:+ "&username=" +:+ username
        | None => "username=" +:+ username
        end in
      handleEmailService session_id "/inbox" "GET" queryStr ""
  | EmailReply => handleEmailService session_id "/reply" "GET" queryStr ""
  | _ => handleEmailService session_id "/forward" "GET" queryStr ""
  end.

(** ** Files *)

Definition not_found : string :=
  "HTTP/1.1 404 Not Found" +:+ crlf +:+ "Content-Type: text/plain" +:+ crlf +:+ "Content-Length: 0" +:+ crlf +:+
  "Connection: keep-alive" +:+ crlf +:+ crlf.
(** The words of the request line: reading the second or third when it is not there is undefined, and
    counts as a throw. *)
Definition requestWords (request : string) : option (string * string * string) :=
  match getlines " "%char (substr_to (find crlf 0 request) request) with
  | method :: target :: version :: _ => Some (method, target, version)
  | _ => None
  end.
Definition do_get (request : string) : M St string :=
  '(_, target, _) ← lift (requestWords request);
  let path := match find "/" 0 target with Some p => substr_from p target | None => "/" end in
  let path := "../frontend/web_pages" +:+ (if bool_decide (path = "/") then "/index.html" else path) in
  let content := get_file_content path in
  if bool_decide (content = "") then mret not_found
  else
    mret ("HTTP/1.1 200 OK" +:+ crlf +:+ "content-type: " +:+ get_content_type path +:+ crlf +:+
          "content-length: " +:+ to_string (Z.of_nat (slen content)) +:+ crlf +:+
          "Connection: keep-alive" +:+ crlf +:+ crlf +:+ content).
Definition do_head (request : string) : M St string :=
  '(_, target, _) ← lift (requestWords request);
  let path := if contains "/" target then target else "/" in
  let full_path := "../frontend/web_pages" +:+ (if bool_decide (path = "/") then "/index.html" else path) in
  let content := get_file_content full_path in
  if bool_decide (content = "") then mret not_found
  else
    mret ("HTTP/1.1 200 OK" +:+ crlf +:+ "Content-Type: " +:+ get_content_type full_path +:+ crlf +:+
          "Content-Length: " +:+ to_string (Z.of_nat (slen content)) +:+ crlf +:+
          "Connection: keep-alive" +:+ crlf +:+ crlf).

(** ** A connection *)

Definition respond (request : string) (e : event) : M St string :=
  match route_of request with
  | Credentials => do_credentials request (rand_ids e)
  | Signup => do_signup request
  | ChangePassword => do_changepassword request
  | Logout => do_logout request
  | Dashboard => do_dashboard request
  | WorkerStatus => do_workerStatus
  | Backend => do_backend request
  | Toggle => do_toggle request
  | (List_ | DeleteStorage | RenameFolder | Rename | MoveFile | MoveFolder | CreateSubFolder | Upload |
     Download) as r => do_storage r request (reads e)
  | (EmailGet | EmailDelete | EmailSend | EmailCompose | EmailInbox | EmailReply | EmailForward) as r =>
      do_email r request
  | Health => mret ("HTTP/1.1 200 OK" +:+ crlf +:+ "Content-Length: 2" +:+ crlf +:+ crlf)
  | FrontendToggle => do_frontendToggle request (reads e)
  | GetFile => do_get request
  | HeadFile => do_head request
  | NotAllowed => mret ("HTTP/1.1 405 Method Not Allowed" +:+ crlf +:+ "Connection: keep-alive" +:+ crlf +:+ crlf)
  end.

(** [client_connection]: the responses it sends, until the client closes or a request does not ask to
    keep the connection.  [recv] takes at most 1999 bytes, and the request ends at a NUL. *)
Fixpoint client_connection (events : list event) : M St (list string) :=
  match events with
  | [] => mret []
  | e :: events =>
      let request := c_string (str_take 1999 (packet e)) in
      if bool_decide (packet e = "") then mret []
      else if bool_decide (extractConnectionHeader request ≠ "keep-alive") then mret []
      else
        res ← respond request e;
        rest ← client_connection events;
        mret (res :: rest)
  end.

End server.

(** ** The open connections *)

(** [sockets_active] and [buffer_clients]. *)
Record connections := { sockets_active : list Z; buffer_clients : gmap Z string }.
Definition accept_client (client : Z) (c : connections) : connections :=
  {| sockets_active := sockets_active c ++ [client]; buffer_clients := buffer_clients c |}.
Definition buffer_request (client : Z) (request : string) (c : connections) : connections :=
  {| sockets_active := sockets_active c;
     buffer_clients := <[client := default "" (buffer_clients c !! client) +:+ request]> (buffer_clients c) |}.
Definition remove_client_connection (client : Z) (c : connections) : connections :=
  {| sockets_active := filter (λ s, s ≠ client) (sockets_active c);
     buffer_clients := delete client (buffer_clients c) |}.
(** [server_shutdown]: what is sent to every client, and the tables afterwards. *)
Definition server_shutdown (c : connections) : list (Z * string) * connections :=
  ((λ client, (client, "HTTP/1.1 503 Server shutting down" +:+ crlf)) <$> sockets_active c,
   {| sockets_active := []; buffer_clients := ∅ |}).
