(* ===== verification/HttpFacts.v ===== *)
(** * Correctness of the HTTP server

    Sessions; what a request may change; the answer to the load balancer's probe; the table of open
    connections. *)
From S2P Require Import Prelude CppString Table Codec Utils CppStream Rpc Coordinator Worker WorkerFacts.
From S2P Require Import Cluster ClusterFacts Replication Kv UserAccount StorageText HttpText LoadBalancer Chunked.
From S2P Require Import Storage StoragePages StorageFacts StorageRow StorageIsolation Smtp SmtpFacts Email Admin HttpServer.

Create HintDb within.

(** What the admin service's calls promise to the pages that show the system: they change nothing. *)
Class AdminLaws (St : Type) `{AdminOps St} := {
  adm_Alive_law i s : (adm_Alive i s).1 = s;
  adm_CopyTablet_law i t s : (adm_CopyTablet i t s).1 = s;
}.
Global Instance backend_admin_laws `{UMapOrder} `{Grpc} : AdminLaws system.
Proof. by split. Qed.

(** The user of a session, in a store with contents [V]. *)
Definition session_user (V : string → string → option string) (sid : string) : string :=
  match V "session-ids" sid with
  | Some u => if is_ERR u then "" else u
  | None => ""
  end.

Section sessions.
Context `{KvLaws St}.

Lemma getUsernameFromSession_spec sid s :
  kv_ok s →
  ∃ s', getUsernameFromSession sid s = (s', Some (session_user (kv_view s) sid)) ∧ kv_ok s' ∧
    ∀ r c, kv_view s' r c = kv_view s r c.
Proof.
  intros Hok. unfold getUsernameFromSession, mbind, M_bind.
  destruct (kv_Lookup_law s "session-ids" Hok) as (s1 & a & E & Ha & Hok1 & HV & Hhome & _). rewrite E, Ha.
  destruct (kv_Get_law s1 a "session-ids" sid Hok1 Hhome) as (v & Ev & Hv). rewrite Ev. exists s1.
  split; [|by split]. rewrite HV in Hv. unfold session_user.
  destruct (kv_view s "session-ids" sid) as [u|]; [subst v; by destruct (is_ERR u)|].
  by rewrite (missing_is_ERR v Hv).
Qed.


(** *** The cookie *)

(** The first occurrence of a pattern that begins a line. *)
Lemma find0_line q c s t :
  no_char c q → q ≠ "" → contains q s = false → find0 q (s +:+ String c (q +:+ t)) = Some (S (slen s)).
Proof.
  intros Hq Hne. assert (∀ x, String.prefix q x = true → ∃ v, x = q +:+ v) as Hpre by (intros x; apply starts_with_spec).
  induction s as [|a s IH]; intros Hs.
  - rewrite sapp_nil_l. cbn [find0]. destruct (String.prefix q (String c (q +:+ t))) eqn:E.
    + apply Hpre in E as [v E]. destruct q as [|b q]; [done|]. rewrite !sapp_cons in E. simplify_eq.
      by apply no_char_cons in Hq as [? _].
    + assert (String.prefix q (q +:+ t) = true) as Et by apply starts_with_app.
      destruct (q +:+ t); cbn [find0]; by rewrite Et.
  - rewrite sapp_cons. cbn [find0]. destruct (String.prefix q (String a (s +:+ String c (q +:+ t)))) eqn:E.
    + exfalso. apply Hpre in E as [v E]. rewrite <-sapp_cons in E.
      assert (contains q (String a s) = true); [|congruence]. apply contains_spec. exists "".
      destruct (Nat.le_gt_cases (slen q) (slen (String a s))) as [Hl|Hl].
      * destruct (sapp_split_le q v (String a s) (String c (q +:+ t))) as (w & Ew & _); [done..|]. by exists w.
      * destruct (sapp_split_le (String a s) (String c (q +:+ t)) q v) as (w & Ew & Ew'); [done|lia|].
        destruct w as [|b w]; [rewrite sapp_nil_r in Ew; subst q; lia|]. rewrite sapp_cons in Ew'. simplify_eq.
        apply no_char_app in Hq as [_ Hq]. by apply no_char_cons in Hq as [? _].
    + rewrite IH; [done|]. apply not_true_iff_false. intros (u & v & ->)%contains_spec.
      assert (contains q (String a (u +:+ q +:+ v)) = true); [|congruence].
      apply contains_spec. by exists (String a u), v.
Qed.

Lemma find0_after q c s t i : no_char c s → find0 (String c "") (s +:+ t) = Some i → q = slen s → (q ≤ i)%nat.
Proof.
  intros Hs Hi ->. revert i Hs Hi. induction s as [|a s IH]; intros i Hs Hi; [simpl; lia|].
  apply no_char_cons in Hs as [Ha Hs]. rewrite sapp_cons in Hi. cbn [find0 String.prefix] in Hi.
  destruct (ascii_dec c a); [congruence|]. destruct (find0 (String c "") (s +:+ t)) as [j|] eqn:E; [|done].
  injection Hi as <-. specialize (IH j Hs eq_refl). simpl. lia.
Qed.

Lemma find_at q p t : find q (slen p) (p +:+ t) = Nat.add (slen p) <$> find0 q t.
Proof. unfold find. rewrite bool_decide_false by (rewrite slen_app; lia). by rewrite str_drop_app. Qed.
Lemma str_take_add_app s t n : str_take (slen s + n) (s +:+ t) = s +:+ str_take n t.
Proof. induction s as [|c s IH]; [done|]. rewrite !sapp_cons. simpl. by rewrite IH. Qed.

(** A request whose [Cookie] header has the session first: the id that is extracted. *)
Lemma extractSessionId_cookie pre sid post :
  contains "Cookie:" pre = false → no_char ";"%char sid → no_char CR sid →
  extractSessionId (pre +:+ String LF ("Cookie: session_id=" +:+ sid +:+ crlf +:+ post)) = sid.
Proof.
  intros Hpre Hsemi Hcr. set (rest := sid +:+ crlf +:+ post). set (P := pre +:+ lf).
  assert (pre +:+ String LF ("Cookie: session_id=" +:+ rest) = P +:+ "Cookie: session_id=" +:+ rest) as E
    by (subst P; by rewrite sapp_assoc).
  assert (find "Cookie:" 0 (P +:+ "Cookie: session_id=" +:+ rest) = Some (slen P)) as E1.
  { rewrite <-E. unfold find. rewrite bool_decide_false by lia. cbn [str_drop].
    pose proof (find0_line "Cookie:" LF pre (" session_id=" +:+ rest) eq_refl ltac:(done) Hpre) as Ef.
    change ("Cookie:" +:+ " session_id=" +:+ rest) with ("Cookie: session_id=" +:+ rest) in Ef. rewrite Ef.
    subst P. rewrite slen_app. cbn. f_equal. lia. }
  set (Q := P +:+ "Cookie: "). assert (slen Q = slen P + 8)%nat as EQ by (subst Q; by rewrite slen_app).
  assert (P +:+ "Cookie: session_id=" +:+ rest = Q +:+ "session_id=" +:+ rest) as E2
    by (subst Q; by rewrite sapp_assoc).
  rewrite E. unfold extractSessionId. rewrite E1, find_at.
  assert (find0 "session_id=" ("Cookie: session_id=" +:+ rest) = Some 8%nat) as -> by (destruct rest; reflexivity).
  cbn [fmap option_fmap option_map]. rewrite <-EQ, E2, find_at.
  set (R := Q +:+ "session_id="). assert (slen R = slen Q + 11)%nat as ER by (subst R; by rewrite slen_app).
  assert (Q +:+ "session_id=" +:+ rest = R +:+ rest) as -> by (subst R; by rewrite sapp_assoc).
  rewrite <-ER.
  assert (∃ x, substr_upto (slen R) (Nat.add (slen Q) <$> find0 ";" ("session_id=" +:+ rest)) (R +:+ rest) =
    sid +:+ String CR x) as [x ->].
  { destruct (find0 ";" ("session_id=" +:+ rest)) as [i|] eqn:Ei; cbn [fmap option_fmap option_map substr_upto].
    - assert (11 + slen sid + 1 ≤ i)%nat as Hi.
      { eapply (find0_after _ ";" ("session_id=" +:+ sid +:+ String CR "") (String LF post)).
        - apply no_char_app. split; [done|]. by apply no_char_app.
        - subst rest. rewrite <-Ei, !sapp_assoc. done.
        - rewrite !slen_app. simpl. lia. }
      unfold substr. rewrite str_drop_app. subst rest. unfold crlf. rewrite sapp_cons.
      assert (∃ n, slen Q + i - slen R = slen sid + S n)%nat as [n ->].
      { exists (slen Q + i - slen R - slen sid - 1)%nat. lia. }
      exists (str_take n (String LF post)). by rewrite str_take_add_app.
    - unfold substr_from. rewrite str_drop_app. by eexists. }
  unfold substr_to. rewrite find_char0_here by done. apply str_take_app.
Qed.

(** *** Logging in and out *)

Definition in_use (V : string → string → option string) (sid : string) : Prop :=
  ∃ v, V "session-ids" sid = Some v ∧ v ≠ "" ∧ is_ERR v = false.

Lemma freshSid_spec a V s pre n post :
  session a "session-ids" V s → Forall (λ m, in_use V (to_string m)) pre → ¬ in_use V (to_string n) →
  runs (freshSid a (pre ++ n :: post)) (λ sid s', session a "session-ids" V s' ∧ sid = to_string n) s.
Proof.
  intros Hs Hpre Hn. induction pre as [|m pre IH]; cbn [app freshSid]; apply runs_bind;
    apply (runs_Get _ _ _ _ _ _ Hs); intros v Hv; unfold got in Hv.
  - case_bool_decide; [by apply runs_ret|]. apply runs_bind, (runs_Get _ _ _ _ _ _ Hs). intros v' Hv'.
    unfold got in Hv'. destruct (is_ERR v') eqn:Ev; [by apply runs_ret|]. exfalso.
    destruct (V "session-ids" (to_string n)) as [x|] eqn:EV; [|by rewrite missing_is_ERR in Ev].
    subst v v'. apply Hn. by exists x.
  - apply Forall_cons in Hpre as [(x & EV & Hx & Ex) Hpre]. rewrite EV in Hv. subst v.
    rewrite bool_decide_false by done. apply runs_bind, (runs_Get _ _ _ _ _ _ Hs). intros v' Hv'.
    unfold got in Hv'. rewrite EV in Hv'. subst v'. rewrite Ex. by apply IH.
Qed.

(** Nothing has changed but the session [sid] and the list of active users. *)
Definition only_session (sid : string) (V V' : string → string → option string) : Prop :=
  ∀ r c, r ≠ "session-ids" ∨ (c ≠ sid ∧ c ≠ "active-users") → V' r c = V r c.

Lemma active_users_not_number (n : nat) : to_string (Z.of_nat n) ≠ "active-users".
Proof.
  intros E. assert (no_char "a"%char (to_string (Z.of_nat n))) as Hn
    by (apply no_char_to_string; vm_compute; lia).
  by rewrite E in Hn.
Qed.
Lemma generateSessionCookie_spec pre (n : nat) post u s :
  kv_ok s → Forall (λ m, in_use (kv_view s) (to_string m)) pre → ¬ in_use (kv_view s) (to_string (Z.of_nat n)) →
  runs (generateSessionCookie (pre ++ Z.of_nat n :: post) u) (λ sid s', sid = to_string (Z.of_nat n) ∧ kv_ok s' ∧
    kv_view s' "session-ids" sid = Some u ∧ only_session sid (kv_view s) (kv_view s')) s.
Proof.
  intros Hok Hpre Hn. unfold generateSessionCookie. apply runs_bind.
  apply (runs_Lookup _ (kv_view s) _ s Hok (λ _ _, eq_refl)). intros a s1 Ha Hs1. rewrite Ha.
  apply runs_bind. eapply runs_mono; [by apply (freshSid_spec a (kv_view s) s1 pre _ post)|]. cbv beta.
  intros sid s2 [Hs2 ->]. set (sid := to_string (Z.of_nat n)) in *.
  assert (sid ≠ "active-users") as Hsid by apply active_users_not_number.
  apply runs_bind, (runs_Get _ _ _ _ _ _ Hs2). intros active _. destruct (is_ERR active); cbn [negb].
  - apply runs_bind, (runs_Put _ _ _ _ _ _ _ Hs2). intros _ s3 _ Hs3.
    apply runs_bind, (runs_Put _ _ _ _ _ _ _ Hs3). intros _ s4 _ [Hok4 _ HV4]. apply runs_ret.
    split_and!; [done..| |].
    + rewrite HV4. cbn. rewrite decide_False by congruence. by rewrite decide_True.
    + intros r c Hrc. rewrite HV4. cbn. by rewrite !decide_False by naive_solver.
  - apply runs_bind, (runs_Put _ _ _ _ _ _ _ Hs2). intros _ s3 _ Hs3.
    apply runs_bind, (runs_CPut _ _ _ _ _ _ _ _ Hs3). intros _ s4 _ [Hok4 _ HV4]. apply runs_ret.
    split_and!; [done..| |].
    + rewrite HV4. cbn. rewrite decide_False by (intros [? _]; congruence). by rewrite decide_True.
    + intros r c Hrc. rewrite HV4. cbn. by rewrite !decide_False by naive_solver.
Qed.

Lemma handleLogout_spec sid u s :
  kv_ok s →
  runs (handleLogout sid u) (λ _ s', kv_ok s' ∧ kv_view s' "session-ids" sid = None ∧
    only_session sid (kv_view s) (kv_view s')) s.
Proof.
  intros Hok. unfold handleLogout. apply runs_bind.
  apply (runs_Lookup _ (kv_view s) _ s Hok (λ _ _, eq_refl)). intros a s1 Ha Hs1. rewrite Ha.
  apply runs_bind, (runs_Get _ _ _ _ _ _ Hs1). intros active _.
  apply runs_bind, (runs_Delete _ _ _ _ _ _ Hs1). intros _ s2 _ Hs2.
  apply runs_bind, (runs_CPut _ _ _ _ _ _ _ _ Hs2). intros _ s3 _ [Hok3 _ HV3]. apply runs_ret.
  split_and!; [done| |].
  - rewrite HV3. cbn [view_effect]. rewrite (decide_True (P := ("session-ids", sid) = ("session-ids", sid))) by done.
    by rewrite decide_False by (by intros [_ ?]).

  - intros r c Hrc. rewrite HV3. cbn. by rewrite !decide_False by naive_solver.
Qed.

End sessions.

(** ** What a request may change *)

Section isolation.
Context `{UMapOrder} `{KvLaws St} `{AdminLaws St} `{MailEnv}.
Variables (env : admin_env) (smtp_reachable extraCreditNonLocal : bool).
Variables (get_file_content : string → string) (fuel : nat).

(** A program that leaves a healthy store as it is. *)
Definition keeps {A} (m : M St A) : Prop :=
  ∀ s s' o, kv_ok s → m s = (s', o) → kv_ok s' ∧ ∀ r c, kv_view s' r c = kv_view s r c.
Lemma keeps_ret {A} (x : A) : keeps (mret x).
Proof. by intros s s' o Hok [= <- <-]. Qed.
Lemma keeps_lift {A} (o : option A) : keeps (lift o).
Proof. by destruct o; intros s s' o' Hok [= <- <-]. Qed.
Lemma keeps_bind {A B} (m : M St A) (f : A → M St B) : keeps m → (∀ x, keeps (f x)) → keeps (m ≫= f).
Proof.
  intros Hm Hf s s' o Hok. unfold mbind, M_bind. destruct (m s) as [s1 [x|]] eqn:E.
  - intros E'. destruct (Hm s s1 _ Hok E) as [Hok1 V1]. destruct (Hf x s1 s' o Hok1 E') as [Hok2 V2].
    split; [done|]. intros r c. by rewrite V2, V1.
  - intros [= <- <-]. by apply (Hm s s1 None).
Qed.
Lemma keeps_same {A} (m : M St A) : (∀ s, (m s).1 = s) → keeps m.
Proof. intros Hm s s' o Hok E. specialize (Hm s). rewrite E in Hm. by simplify_eq/=. Qed.
Lemma keeps_Alive i : keeps (adm_Alive i).
Proof. apply keeps_same, adm_Alive_law. Qed.
Lemma keeps_CopyTablet i t : keeps (adm_CopyTablet i t).
Proof. apply keeps_same, adm_CopyTablet_law. Qed.
#[local] Hint Resolve keeps_ret keeps_lift keeps_Alive keeps_CopyTablet : within.
Ltac kept :=
  repeat (intros; cbv zeta;
    first [ solve [eauto with within nocore] | apply keeps_bind
          | match goal with |- keeps (match ?x with _ => _ end) => destruct x end ]).

Lemma home_keeps : keeps (Admin.home env).
Proof.
  assert (∀ l, keeps (workersAlive l)) as Hw by (induction l; cbn [workersAlive]; kept).
  unfold Admin.home, frontendsBody. kept.
Qed.
Lemma fetchWorkerStatuses_keeps : keeps (fetchWorkerStatuses env).
Proof.
  assert (∀ l, keeps (workerStatuses l)) as Hw by (induction l; cbn [workerStatuses]; kept).
  unfold fetchWorkerStatuses, frontendsBody. kept.
Qed.
Lemma tabletPage_keeps i t : keeps (tabletPage env i t).
Proof. unfold tabletPage, workerClient. kept. Qed.
#[local] Hint Resolve home_keeps fetchWorkerStatuses_keeps tabletPage_keeps : within.

(** A request in a session of user [u] changes at most the row of the user's files. *)
Definition confined (u : string) (m : M St string) (s : St) : Prop :=
  ∀ s' o, m s = (s', o) →
    kv_ok s' ∧ ∀ r c, u = "" ∨ r ≠ u +:+ "-storage" → kv_view s' r c = kv_view s r c.

Lemma keeps_confined u m s : kv_ok s → keeps m → confined u m s.
Proof. intros Hok Hm s' o E. destruct (Hm s s' o Hok E). auto. Qed.
(** The branches that ask for the user first. *)
Lemma confined_session sid (f : string → M St string) s (u := session_user (kv_view s) sid) :
  kv_ok s →
  (∀ s1, kv_ok s1 → (∀ r c, kv_view s1 r c = kv_view s r c) → confined u (f u) s1) →
  confined u (username ← getUsernameFromSession sid; f username) s.
Proof.
  intros Hok Hf s' o. unfold mbind, M_bind.
  destruct (getUsernameFromSession_spec sid s Hok) as (s1 & -> & Hok1 & HV). intros E.
  destruct (Hf s1 Hok1 HV s' o E) as [Hok' Hr]. split; [done|]. intros r c Hrc. by rewrite Hr, HV.
Qed.
Lemma confined_asUser request b (f : string → M St string) s (u := session_user (kv_view s) (extractSessionId request)) :
  kv_ok s → (∀ u, touches (u +:+ "-storage") (f u)) → confined u (asUser request b f) s.
Proof.
  intros Hok Hf. apply confined_session; [done|]. intros s1 Hok1 HV. fold u. case_bool_decide as Eu.
  - apply keeps_confined; [done|apply keeps_ret].
  - intros s' o E. destruct (Hf u s1 s' o Hok1 E) as [? Hr]. split; [done|]. intros r c [?|?]; [done|auto].
Qed.
Lemma confined_asAdmin request (m : M St string) s (u := session_user (kv_view s) (extractSessionId request)) :
  kv_ok s → (u = "admin" → keeps m) → confined u (asAdmin request m) s.
Proof.
  intros Hok Hm. apply confined_session; [done|]. intros s1 Hok1 HV. fold u.
  apply keeps_confined; [done|]. case_bool_decide as Eu; [apply keeps_ret|]. apply Hm.
  destruct (decide (u = "admin")); [done|]. exfalso. tauto.
Qed.
Lemma confined_email sid path type query data s (u := session_user (kv_view s) sid) :
  kv_ok s → u = "" → confined u (handleEmailService smtp_reachable extraCreditNonLocal sid path type query data) s.
Proof.
  intros Hok Hu. apply confined_session; [done|]. intros s1 Hok1 HV. fold u. rewrite Hu.
  rewrite bool_decide_true by done. apply keeps_confined; [done|apply keeps_ret].
Qed.

Definition is_account (r : route) : bool :=
  bool_decide (r ∈ [Credentials; Signup; ChangePassword; Logout]).
Definition is_email (r : route) : bool :=
  bool_decide (r ∈ [EmailGet; EmailDelete; EmailSend; EmailCompose; EmailInbox; EmailReply; EmailForward]).

Lemma do_email_confined r request s (u := session_user (kv_view s) (extractSessionId request)) :
  kv_ok s → u = "" → confined u (do_email smtp_reachable extraCreditNonLocal r request) s.
Proof.
  intros Hok Hu. unfold do_email. cbv zeta. destruct r; try by apply confined_email.
  apply confined_session; [done|]. intros s1 Hok1 HV. fold u.
  assert (u = session_user (kv_view s1) (extractSessionId request)) as E
    by (unfold u, session_user; by rewrite HV).
  rewrite E. apply confined_email; [done|congruence].
Qed.
Lemma do_storage_confined r request reads s (u := session_user (kv_view s) (extractSessionId request)) :
  kv_ok s → confined u (do_storage fuel r request reads) s.
Proof.
  intros Hok. pose proof (λ q u, storage_program_touches q fuel u request reads) as Hq.
  destruct r; apply confined_asUser; try done;
    first [exact (Hq ReqDownload) | exact (Hq ReqList) | exact (Hq ReqDelete) | exact (Hq ReqRenameFolder)
          | exact (Hq ReqRename) | exact (Hq ReqMoveFile) | exact (Hq ReqMoveFolder)
          | exact (Hq ReqCreateFolder) | exact (Hq ReqUpload)].
Qed.


End isolation.

(** ** Sessions *)

Section requests.
Context `{UMapOrder} `{KvLaws St} `{AdminOps St} `{MailEnv}.
Variables (env : admin_env) (smtp_reachable extraCreditNonLocal : bool).
Variables (get_file_content : string → string) (fuel : nat).
Abbreviation answer := (respond env smtp_reachable extraCreditNonLocal get_file_content fuel).

Lemma contains_app_r q s t : contains q t = true → contains q (s +:+ t) = true.
Proof. intros (u & v & ->)%contains_spec. apply contains_spec. exists (s +:+ u), v. by rewrite sapp_assoc. Qed.
Lemma contains_app_l q s t : contains q s = true → contains q (s +:+ t) = true.
Proof. intros (u & v & ->)%contains_spec. apply contains_spec. exists u, (v +:+ t). by rewrite !sapp_assoc. Qed.
Lemma header_has_extra status type n extra : contains extra (buildHttpHeader status type n extra) = true.
Proof.
  unfold buildHttpHeader. do 9 apply contains_app_r. apply contains_app_l. apply contains_spec.
  exists "", "". by rewrite sapp_nil_r.
Qed.
Lemma contains_trans p q s : contains p q = true → contains q s = true → contains p s = true.
Proof.
  intros Hp (u & v & ->)%contains_spec. by apply contains_app_r, contains_app_l.
Qed.

(** C22: logging in with the right password answers with a fresh session id in a cookie, and every
    later request that sends the cookie back is recognised as one of the user; no other session and
    no other row changes. *)
Theorem login_session request e body u pre (n : nat) post s :
  let params := parseQueryParams body in
  let p := field params "password" in
  let sid := to_string (Z.of_nat n) in
  kv_ok s → route_of request = Credentials → bodyOf request = Some body → field params "username" = u →
  kv_view s (u +:+ "-userinfo") "password" = Some p → p ≠ "" → is_ERR p = false → is_ERR u = false →
  rand_ids e = pre ++ Z.of_nat n :: post → Forall (λ m, in_use (kv_view s) (to_string m)) pre →
  ¬ in_use (kv_view s) sid →
  runs (answer request e) (λ res s', kv_ok s' ∧ contains (sessionHeader sid) res = true ∧
    only_session sid (kv_view s) (kv_view s') ∧
    ∀ before after, contains "Cookie:" before = false →
      session_user (kv_view s')
        (extractSessionId (before +:+ String LF ("Cookie: session_id=" +:+ sid +:+ crlf +:+ after))) = u) s.
Proof.
  intros params p sid Hok Hr Hb Hu Hpw Hp Hpe Hue Hrand Hpre Hn. unfold respond. rewrite Hr.
  unfold do_credentials. rewrite Hb. apply runs_bind, runs_ret. fold params p. cbv zeta. rewrite Hu.
  apply runs_bind. eapply runs_mono; [by apply (authenticate_spec u p)|]. cbv beta.
  intros b s1 (HV1 & Hok1 & Hb1). assert (b = true) as -> by (by apply Hb1).
  assert (∀ sid, in_use (kv_view s1) sid ↔ in_use (kv_view s) sid) as Huse by (intros; unfold in_use; by rewrite HV1).
  apply runs_bind. rewrite Hrand. eapply runs_mono; [apply (generateSessionCookie_spec pre n post u s1 Hok1)|].
  { apply (Forall_impl _ _ _ Hpre). intros m. apply Huse. }
  { by rewrite Huse. }
  cbv beta. intros sid' s2 (-> & Hok2 & Hsid & Hfr). fold sid in Hsid, Hfr |- *.
  assert (only_session sid (kv_view s) (kv_view s2)) as Hfr' by (intros r c Hrc; by rewrite Hfr, HV1).
  assert (∀ before after, contains "Cookie:" before = false →
    session_user (kv_view s2)
      (extractSessionId (before +:+ String LF ("Cookie: session_id=" +:+ sid +:+ crlf +:+ after))) = u) as Hlater.
  { intros before after Hbe. rewrite extractSessionId_cookie; [|done|apply no_char_to_string; vm_compute; lia..].
    unfold session_user. by rewrite Hsid, Hue. }
  rewrite bool_decide_false; cycle 1.
  { intros Ee. assert (no_char "e"%char sid) as He by (apply no_char_to_string; vm_compute; lia). by rewrite Ee in He. }
  case_bool_decide; apply runs_ret; split_and!; try done.
  - eapply contains_trans; [|apply header_has_extra]. apply contains_app_l, contains_spec. exists "", "". by rewrite sapp_nil_r.
  - apply contains_app_l, header_has_extra.
Qed.

(** Logging out ends the session of the request and no other. *)
Theorem logout_ends_session request e s (sid := extractSessionId request) :
  kv_ok s → route_of request = Logout →
  runs (answer request e) (λ _ s', kv_ok s' ∧ session_user (kv_view s') sid = "" ∧
    only_session sid (kv_view s) (kv_view s') ∧
    ∀ sid', sid' ≠ sid → sid' ≠ "active-users" →
      session_user (kv_view s') sid' = session_user (kv_view s) sid') s.
Proof.
  intros Hok Hr. unfold respond. rewrite Hr. unfold do_logout. fold sid. apply runs_bind.
  destruct (getUsernameFromSession_spec sid s Hok) as (s1 & E & Hok1 & HV1). exists (session_user (kv_view s) sid), s1.
  split; [done|]. apply runs_bind. eapply runs_mono; [by apply handleLogout_spec|]. cbv beta.
  intros [] s2 (Hok2 & Hnone & Hfr). apply runs_ret.
  assert (only_session sid (kv_view s) (kv_view s2)) as Hfr' by (intros r c Hrc; by rewrite Hfr, HV1).
  split_and!; [done| |done|].
  - unfold session_user. by rewrite Hnone.
  - intros sid' Hs1 Hs2. unfold session_user. by rewrite Hfr' by auto.
Qed.

(** A frontend that runs answers the load balancer's probe such that the balancer counts it as
    alive, whatever the state of the store. *)
Theorem health_probe_answered rs ids s f :
  f ∈ FRONTENDS →
  is_alive (λ _ _ request,
    match client_connection env smtp_reachable extraCreditNonLocal get_file_content fuel
            [{| packet := request; reads := rs; rand_ids := ids |}] s with
    | (_, Some (res :: _)) => Some res
    | _ => None
    end) f = Some true.
Proof.
  intros Hf. unfold FRONTENDS in Hf. rewrite !elem_of_cons, elem_of_nil in Hf.
  destruct Hf as [->|[->|[->|[]]]]; reflexivity.
Qed.

End requests.

(** ** Examples *)

#[local] Existing Instance table_ops.
#[local] Existing Instance table_laws.
(** An admin service without workers. *)
Definition no_workers : AdminOps (string → string → option string) :=
  {| adm_Alive _ := mret "Dead"; adm_AdminConsole _ _ _ := mret "ERR"; adm_CopyTablet _ _ := mret "ERR" |}.
#[local] Existing Instance no_workers.
Lemma no_workers_laws : AdminLaws (string → string → option string).
Proof. by split. Qed.

(** A store in which alice has a password and a session. *)
Definition some_session : string → string → option string := λ r c,
  if bool_decide (r = "alice-userinfo" ∧ c = "password") then Some "secret"
  else if bool_decide (r = "session-ids" ∧ c = "7") then Some "alice" else None.
Definition list_request : string :=
  "GET /list HTTP/1.1" +:+ crlf +:+ "Connection: keep-alive" +:+ crlf +:+ "Cookie: session_id=7" +:+ crlf2.
Definition login_request : string :=
  "POST /credentials HTTP/1.1" +:+ crlf +:+ "Connection: keep-alive" +:+ crlf2 +:+ "username=alice&password=secret".
Definition logout_request : string :=
  "GET /logout HTTP/1.1" +:+ crlf +:+ "Connection: keep-alive" +:+ crlf +:+ "Cookie: session_id=7" +:+ crlf2.
Definition one_event (p : string) : event := {| packet := p; reads := []; rand_ids := [7; 8] |}.
#[local] Existing Instance canonical_order.
#[local] Existing Instance SmtpFacts.example_env.
#[local] Existing Instance no_workers_laws.
Abbreviation example_answer := (respond Admin.example_env true false (λ _, "") 5).


Lemma login_session_witness :
  runs (example_answer login_request (one_event login_request)) (λ res s', kv_ok s' ∧
    contains (sessionHeader (to_string (Z.of_nat 8))) res = true ∧ only_session (to_string (Z.of_nat 8)) some_session s' ∧
    ∀ before after, contains "Cookie:" before = false →
      session_user s' (extractSessionId (before +:+ String LF ("Cookie: session_id=" +:+ to_string (Z.of_nat 8) +:+ crlf +:+ after))) =
        "alice") some_session.
Proof.
  eapply runs_mono; [apply (login_session Admin.example_env true false (λ _, "") 5 login_request
    (one_event login_request) "username=alice&password=secret" "alice" [7] 8 [] some_session)|].
  - exact I.
  - reflexivity.
  - reflexivity.
  - reflexivity.
  - reflexivity.
  - discriminate.
  - reflexivity.
  - reflexivity.
  - reflexivity.
  - constructor; [|constructor]. exists "alice". split_and!; [reflexivity|discriminate|reflexivity].
  - intros (v & Hv & _). discriminate Hv.
  - intros res s' Hs'. exact Hs'.
Defined.

Lemma logout_ends_session_witness :
  runs (example_answer logout_request (one_event logout_request)) (λ _ s', kv_ok s' ∧ session_user s' "7" = "" ∧
    only_session "7" some_session s' ∧
    ∀ sid', sid' ≠ "7" → sid' ≠ "active-users" → session_user s' sid' = session_user some_session sid') some_session.
Proof.
  eapply runs_mono; [apply (logout_ends_session Admin.example_env true false (λ _, "") 5 logout_request
    (one_event logout_request) some_session); [exact I|reflexivity]|].
  intros res s' Hs'. exact Hs'.
Defined.

Lemma health_probe_answered_witness :
  is_alive (λ _ _ request,
    match client_connection Admin.example_env true false (λ _, "") 5 [one_event request] some_session with
    | (_, Some (res :: _)) => Some res
    | _ => None
    end) "http://127.0.0.1:8082" = Some true.
Proof. apply (health_probe_answered Admin.example_env true false (λ _, "") 5 [] [7; 8] some_session). right. left. Defined.

(** ** Defects *)

(** The list of active users is in the row of the sessions: its column name passes as a session id,
    of a user called by the whole list. *)
Theorem active_users_is_a_session V v :
  V "session-ids" "active-users" = Some v → is_ERR v = false → session_user V "active-users" = v.
Proof. intros E Hv. unfold session_user. by rewrite E, Hv. Qed.

(** Logging out removes from the list of active users also those who logged in later. *)
Theorem logout_drops_later_users :
  dropUsers "7" false (getlines ";"%char "alice:7;;bob:8;") = "".
Proof. reflexivity. Qed.

(** The mailbox that is shown is that of the query, not that of the session: alice reads bob's. *)
Theorem inbox_of_another_user :
  let request := "GET /inbox?username=bob HTTP/1.1" +:+ crlf +:+ "Connection: keep-alive" +:+ crlf +:+
                 "Cookie: session_id=7" +:+ crlf2 in
  (example_answer request (one_event request) some_session).2 =
    ((page ← renderInbox "bob@localhost"; mret (httpResponse "200 OK" page)) some_session).2.
Proof. by vm_compute. Qed.
