(* ===== verification/HttpFraming.v ===== *)
(** * The responses of the HTTP server as a browser reads them

    Connections are kept open, so that a browser must find out where one response ends and the next
    begins: from [Content-Length], or from the chunks of a chunked body.  A reader of that kind, and
    the proof that it finds exactly the responses the server has sent. *)
From S2P Require Import Prelude CppString Table Codec Utils CppStream Rpc Coordinator Worker WorkerFacts.
From S2P Require Import Cluster ClusterFacts Replication Kv UserAccount StorageText HttpText Chunked Storage.
From S2P Require Import StorageFacts StoragePages StorageRow Smtp SmtpFacts Email Admin HttpServer HttpFacts.

(** ** The reader *)

(** A line up to CRLF, and what follows. *)
Definition read_line (s : string) : option (string * string) :=
  i ← find0 crlf s; Some (str_take i s, str_drop (i + 2) s).
(** The lines up to the empty one. *)
Fixpoint read_headers (fuel : nat) (s : string) : option (list string * string) :=
  match fuel with
  | O => None
  | S fuel =>
      '(l, s) ← read_line s;
      if bool_decide (l = "") then Some ([], s)
      else '(lines, s) ← read_headers fuel s; Some (l :: lines, s)
  end.
(** The value of a header, whose name is compared without regard to case. *)
Fixpoint header (name : string) (lines : list string) : option string :=
  match lines with
  | [] => None
  | l :: lines =>
      if starts_with (toupper (name +:+ ": ")) (toupper l) then Some (str_drop (slen name + 2) l)
      else header name lines
  end.
(** What follows the body. *)
Definition skip_body (lines : list string) (s : string) : option string :=
  if bool_decide (header "Transfer-Encoding" lines = Some "chunked") then snd <$> readChunkedBodyRaw s
  else
    value ← header "Content-Length" lines;
    n ← (digits None value).1;
    if bool_decide (Z.of_nat (slen s) < n) then None else Some (str_drop (Z.to_nat n) s).
(** The first response of a stream, and what follows. *)
Definition read_response (stream : string) : option (string * string) :=
  '(lines, s) ← read_headers (S (slen stream)) stream;
  rest ← skip_body lines s;
  let len := (slen stream - slen rest)%nat in
  Some (str_take len stream, rest).
Fixpoint read_stream (fuel : nat) (stream : string) : option (list string) :=
  match fuel with
  | O => None
  | S fuel =>
      if bool_decide (stream = "") then Some []
      else
        '(response, rest) ← read_response stream;
        responses ← read_stream fuel rest;
        Some (response :: responses)
  end.

(** ** Responses that can be told apart *)

Definition plain_line (l : string) : Prop := l ≠ "" ∧ no_char CR l.
Global Instance plain_line_dec l : Decision (plain_line l).
Proof. unfold plain_line, no_char. apply _. Defined.
Definition head_of (lines : list string) (s : string) : string :=
  foldr (λ l s, l +:+ crlf +:+ s) (crlf +:+ s) lines.
(** Headers, an empty line, and a body whose end the headers tell. *)
Definition framed (res : string) : Prop :=
  ∃ lines body, Forall plain_line lines ∧ res = head_of lines body ∧
    ∀ rest, skip_body lines (body +:+ rest) = Some rest.

Lemma read_line_app l s : no_char CR l → read_line (l +:+ crlf +:+ s) = Some (l, s).
Proof.
  intros Hl. unfold read_line. rewrite find0_crlf by done. simpl. do 2 f_equal.
  - apply str_take_app.
  - replace (slen l + 2)%nat with (slen (l +:+ crlf)) by (by rewrite slen_app).
    rewrite <-sapp_assoc. apply str_drop_app.
Qed.
Lemma read_headers_head lines s fuel :
  Forall plain_line lines → (length lines < fuel)%nat →
  read_headers fuel (head_of lines s) = Some (lines, s).
Proof.
  intros Hl. revert fuel. induction Hl as [|l lines [Hne Hcr] _ IH]; intros [|fuel] Hf;
    simpl in Hf; try lia; cbn [read_headers head_of foldr].
  - by change (read_line _) with (read_line ("" +:+ crlf +:+ s)); rewrite read_line_app.
  - rewrite read_line_app by done. cbn [mbind option_bind]. rewrite bool_decide_false by done.
    fold (head_of lines s). rewrite IH by lia. done.
Qed.
Lemma head_of_app lines s t : head_of lines (s +:+ t) = head_of lines s +:+ t.
Proof.
  induction lines as [|l lines IH]; cbn [head_of foldr]; [by rewrite sapp_assoc|].
  fold (head_of lines (s +:+ t)) (head_of lines s). by rewrite IH, !sapp_assoc.
Qed.
Lemma slen_head lines s : (2 * length lines < slen (head_of lines s))%nat.
Proof.
  induction lines as [|l lines IH]; cbn [head_of foldr length].
  - rewrite slen_app. change (slen crlf) with 2%nat. lia.
  - fold (head_of lines s). rewrite !slen_app. change (slen crlf) with 2%nat. lia.
Qed.

Lemma read_response_framed res rest : framed res → read_response (res +:+ rest) = Some (res, rest).
Proof.
  intros (lines & body & Hl & -> & Hskip). unfold read_response.
  rewrite <-head_of_app. pose proof (slen_head lines (body +:+ rest)) as Hlen.
  rewrite read_headers_head by (done || lia). cbn [mbind option_bind]. rewrite Hskip.
  cbn [mbind option_bind]. rewrite head_of_app, slen_app.
  replace (slen (head_of lines body) + slen rest - slen rest)%nat with (slen (head_of lines body)) by lia.
  by rewrite str_take_app.
Qed.
Lemma framed_nonempty res : framed res → res ≠ "".
Proof.
  intros (lines & body & _ & -> & _) E. pose proof (slen_head lines body). rewrite E in *. simpl in *. lia.
Qed.
Lemma read_stream_framed responses fuel :
  Forall framed responses → (length responses < fuel)%nat →
  read_stream fuel (foldr String.append "" responses) = Some responses.
Proof.
  intros Hr. revert fuel. induction Hr as [|res responses Hres _ IH]; intros [|fuel] Hf;
    simpl in Hf; try lia; cbn [read_stream foldr]; [done|].
  rewrite bool_decide_false.
  - rewrite read_response_framed by done. cbn [mbind option_bind]. by rewrite IH by lia.
  - intros [E _]%sapp_nil_inv. by apply framed_nonempty in Hres.
Qed.

(** ** The forms of the server's responses *)

(** Lines that end in a body of the length they give. *)
Lemma skip_sized lines body rest :
  header "Transfer-Encoding" lines = None →
  header "Content-Length" lines = Some (to_string (Z.of_nat (slen body))) →
  skip_body lines (body +:+ rest) = Some rest.
Proof.
  intros Ht Hc. unfold skip_body. rewrite Ht, Hc. rewrite bool_decide_false by done.
  cbn [mbind option_bind]. rewrite digits_to_string. cbn [fst mbind option_bind].
  rewrite bool_decide_false by (rewrite slen_app; lia). by rewrite Nat2Z.id, str_drop_app.
Qed.

Lemma plain_number p (n : nat) : plain_line p → plain_line (p +:+ to_string (Z.of_nat n)).
Proof.
  intros [Hne Hcr]. split; [intros [? _]%sapp_nil_inv; done|]. apply no_char_app. split; [done|].
  apply no_char_to_string. vm_compute. lia.
Qed.
Lemma plain_app p s : plain_line p → no_char CR s → plain_line (p +:+ s).
Proof. intros [Hne Hcr] Hs. split; [intros [? _]%sapp_nil_inv; done|]. by apply no_char_app. Qed.

Lemma header_app name l1 l2 :
  header name (l1 ++ l2) = match header name l1 with Some v => Some v | None => header name l2 end.
Proof.
  induction l1 as [|l l1 IH]; [done|]. cbn [app header].
  destruct (starts_with (toupper (name +:+ ": ")) (toupper l)); [done|exact IH].
Qed.

Lemma toupper_app s t : toupper (s +:+ t) = toupper s +:+ toupper t.
Proof. induction s as [|c s IH]; [done|]. rewrite !sapp_cons. cbn [toupper]. by rewrite IH. Qed.
Lemma header_here name v lines : header name ((name +:+ ": " +:+ v) :: lines) = Some v.
Proof.
  cbn [header]. rewrite <-sapp_assoc, (toupper_app (name +:+ ": ") v), starts_with_app.
  replace (slen name + 2)%nat with (slen (name +:+ ": ")) by (by rewrite slen_app).
  by rewrite str_drop_app.
Qed.

(** The lines of some headers, and what follows them. *)
Definition lines_then (lines : list string) (s : string) : string :=
  foldr (λ l s, l +:+ crlf +:+ s) s lines.
Lemma lines_then_app l1 l2 s : lines_then (l1 ++ l2) s = lines_then l1 (lines_then l2 s).
Proof. apply foldr_app. Qed.
Lemma lines_then_sapp lines s t : lines_then lines (s +:+ t) = lines_then lines s +:+ t.
Proof.
  induction lines as [|l lines IH]; [done|]. unfold lines_then in *. cbn [foldr].
  by rewrite IH, !sapp_assoc.
Qed.

(** [buildHttpHeader] with any number of further headers. *)
Lemma framed_header status ctype extra body :
  no_char CR status → no_char CR ctype → Forall plain_line extra →
  header "Transfer-Encoding" extra = None →
  framed (buildHttpHeader status ctype (slen body) (lines_then extra "") +:+ body).
Proof.
  intros Hs Hc He Ht.
  exists (["HTTP/1.1 " +:+ status; "Content-Type: " +:+ ctype;
      "Content-Length: " +:+ to_string (Z.of_nat (slen body))] ++ extra ++ ["Connection: keep-alive"]), body.
  split_and!.
  - repeat (apply Forall_cons; split; [by first [apply plain_number|apply plain_app]|]).
    apply Forall_app. split; [done|]. by repeat constructor.
  - unfold buildHttpHeader. change (head_of ?l ?s) with (lines_then l (crlf +:+ s)).
    rewrite !lines_then_app. cbn [lines_then foldr]. fold (lines_then extra "").
    rewrite !sapp_assoc. do 11 f_equal. rewrite <-(lines_then_sapp extra ""). done.
  - intros rest. apply skip_sized; [by rewrite !header_app, Ht|].
    exact (header_here "Content-Length" _ _).
Qed.

Lemma framed_httpResponse status body : no_char CR status → framed (httpResponse status body).
Proof. intros Hs. by apply (framed_header status "text/html" [] body). Qed.
Lemma framed_storage status body : no_char CR status → framed (httpResponseStorage status body).
Proof. apply framed_httpResponse. Qed.
Lemma framed_not_found : framed not_found.
Proof.
  exists ["HTTP/1.1 404 Not Found"; "Content-Type: text/plain"; "Content-Length: 0"; "Connection: keep-alive"], "".
  split_and!; [by repeat constructor|done|]. intros rest. by apply (skip_sized _ "").
Qed.

(** A download. *)
Lemma framed_chunked ctype filename data :
  no_char CR ctype → no_char CR filename →
  framed (sendChunkedResponse "HTTP/1.1 200 OK" ctype data
    ("Content-Disposition: attachment; filename=" +:+ dq +:+ filename +:+ dq) (Z.to_nat 65536)).
Proof.
  intros Hc Hf.
  exists ["HTTP/1.1 200 OK"; "Content-Type: " +:+ ctype;
    "Content-Disposition: attachment; filename=" +:+ dq +:+ filename +:+ dq;
    "Transfer-Encoding: chunked"; "Connection: keep-alive"],
    (sendChunkLoop (slen data) (Z.to_nat 65536) data +:+ "0" +:+ crlf +:+ crlf).
  split_and!.
  - repeat constructor; try done; rewrite ?sapp_cons; try by apply no_char_app.
    + by apply (plain_app "Content-Type: " ctype).
    + apply (plain_app "Content-Disposition: attachment; filename=" _); [done|].
      by repeat (apply no_char_app; split).
  - unfold sendChunkedResponse, head_of. cbn [foldr]. by rewrite !sapp_assoc.
  - intros rest. unfold skip_body. rewrite bool_decide_true by reflexivity.
    rewrite !sapp_assoc, (chunked_roundtrip (Z.to_nat 65536) data rest) by lia. done.
Qed.

Lemma mime_plain : map_Forall (λ _ t, no_char CR t) HttpText.mime_types.
Proof. apply (@bool_decide_unpack _ (map_Forall_dec _ _)). vm_compute. exact I. Qed.
Lemma mime_storage_plain : map_Forall (λ _ t, no_char CR t) StorageText.mime_types.
Proof. apply (@bool_decide_unpack _ (map_Forall_dec _ _)). vm_compute. exact I. Qed.
Lemma content_type_plain p : no_char CR (get_content_type p).
Proof.
  unfold get_content_type. destruct (find_last_of _ _) as [d|]; [|done].
  destruct (HttpText.mime_types !! _) as [t|] eqn:E; [|done]. by apply mime_plain in E.
Qed.
Lemma content_type_storage_plain p : no_char CR (get_content_type_storage p).
Proof.
  unfold get_content_type_storage. cbv zeta.
  repeat (case_match; try done); simplify_eq.
  all: destruct (StorageText.mime_types !! _) as [t|] eqn:E; [by apply mime_storage_plain in E|done].
Qed.
Lemma framed_file path content :
  framed ("HTTP/1.1 200 OK" +:+ crlf +:+ "content-type: " +:+ get_content_type path +:+ crlf +:+
          "content-length: " +:+ to_string (Z.of_nat (slen content)) +:+ crlf +:+
          "Connection: keep-alive" +:+ crlf +:+ crlf +:+ content).
Proof.
  exists ["HTTP/1.1 200 OK"; "content-type: " +:+ get_content_type path;
    "content-length: " +:+ to_string (Z.of_nat (slen content)); "Connection: keep-alive"], content.
  split_and!.
  - repeat (apply Forall_cons; split); [done|apply plain_app; [done|apply content_type_plain]
      |by apply plain_number|done|by constructor].
  - unfold head_of. cbn [foldr]. by rewrite !sapp_assoc.
  - intros rest. apply skip_sized; [done|].
    exact (header_here "content-length" _ ["Connection: keep-alive"]).
Qed.

(** ** The answers of a program *)

Definition returns {St A} (P : A → Prop) (m : M St A) : Prop :=
  ∀ s s' x, m s = (s', Some x) → P x.
Lemma returns_ret {St A} (P : A → Prop) x : P x → returns P (mret x : M St A).
Proof. by intros HP s s' y [= <- <-]. Qed.
Lemma returns_throw {St A} (P : A → Prop) : returns P (throw : M St A).
Proof. by intros s s' x. Qed.
Lemma returns_bind {St A B} (P : B → Prop) (m : M St A) (f : A → M St B) :
  (∀ x, returns P (f x)) → returns P (m ≫= f).
Proof.
  intros Hf s s' y. unfold mbind, M_bind. destruct (m s) as [s1 [x|]]; [apply Hf|done].
Qed.
Lemma returns_bind_with {St A B} (Q : A → Prop) (P : B → Prop) (m : M St A) (f : A → M St B) :
  returns Q m → (∀ x, Q x → returns P (f x)) → returns P (m ≫= f).
Proof.
  intros Hm Hf s s' y. unfold mbind, M_bind. destruct (m s) as [s1 [x|]] eqn:E; [|done].
  apply Hf. by eapply Hm.
Qed.
Lemma returns_lift {St A} (o : option A) : returns (λ x, o = Some x) (lift o : M St A).
Proof. destruct o as [x|]; intros s s' y; [by intros [= _ ->]|done]. Qed.

Create HintDb framing.
#[export] Hint Resolve framed_not_found framed_file framed_chunked content_type_storage_plain : framing.
#[export] Hint Extern 1 (framed (httpResponse _ _)) => apply framed_httpResponse; reflexivity : framing.
#[export] Hint Extern 1 (framed (httpResponseStorage _ _)) => apply framed_storage; reflexivity : framing.
#[export] Hint Extern 1 (framed (badRequest _)) => apply framed_storage; reflexivity : framing.
#[export] Hint Extern 1 (framed Storage.servers_down) => apply framed_storage; reflexivity : framing.
#[export] Hint Extern 1 (framed servers_down) => apply framed_httpResponse; reflexivity : framing.
#[export] Hint Extern 1 (framed (renameFolderForm _)) => apply framed_storage; reflexivity : framing.

(** Follows a program to its answers. *)
Ltac answers :=
  repeat (intros; cbv zeta;
    first [ solve [eauto with framing nocore]
          | apply returns_ret | apply returns_throw | apply returns_bind
          | match goal with
            | |- returns _ (match ?x with _ => _ end) => destruct x
            | |- framed (match ?x with _ => _ end) => destruct x
            end ]).

Section server.
Context `{UMapOrder} `{KvOps St} `{AdminOps St} `{MailEnv}.
Variables (env : admin_env) (smtp_reachable extraCreditNonLocal : bool).
Variables (get_file_content : string → string) (fuel : nat).
Abbreviation answer := (respond env smtp_reachable extraCreditNonLocal get_file_content fuel).

(** *** Storage *)

Lemma withWorker_framed row (handler : string → M St string) :
  (∀ a, returns framed (handler a)) → returns framed (withWorker row handler).
Proof. intros Hh. unfold withWorker. answers. Qed.

Lemma storage_framed q user request rs :
  q ≠ ReqDownload → returns framed (storage_program q fuel user request rs : M St string).
Proof.
  intros Hq. destruct q; try done; apply withWorker_framed; intros a;
    unfold renameFile, renameFolder, listFolder, deletePath, createFolder, storeFile, moveFilePage,
      moveFolderPage, moveFolderTo; answers.
Qed.

(** The name a download is sent under. *)
Definition download_name (request : string) : string :=
  match requestParams request with
  | Some params => default "myfile" (params ≫= λ p, p !! "filename")
  | None => ""
  end.
Lemma download_framed user request :
  no_char CR (download_name request) → returns framed (webStorageDownload user request : M St string).
Proof.
  intros Hn. apply withWorker_framed. intros a.
  apply (returns_bind_with _ _ _ _ (returns_lift _)). intros params Ep. cbv zeta.
  unfold download_name in Hn. rewrite Ep in Hn. answers.
Qed.

Lemma asUser_framed request b (handler : string → M St string) :
  isHead request = false → (∀ u, returns framed (handler u)) →
  returns framed (asUser request b handler).
Proof.
  intros Hh Hf. unfold asUser, headOr. rewrite Hh. answers.
Qed.
Lemma asAdmin_framed request (handler : M St string) :
  returns framed handler → returns framed (asAdmin request handler).
Proof. intros Hf. unfold asAdmin. answers. Qed.
#[local] Hint Resolve asAdmin_framed : framing.

(** *** The other branches *)

Lemma no_char_int (n : Z) : no_char CR (to_string n).
Proof.
  destruct (Z.le_gt_cases 0 n) as [Hn|Hn].
  - rewrite <-(Z2Nat.id n Hn). apply no_char_to_string. vm_compute. lia.
  - destruct n as [|p|p]; try done. unfold to_string.
    change (pretty (Z.neg p)) with ("-" +:+ pretty (N.pos p)).
    apply no_char_app. split; [done|].
    pose proof (no_char_to_string CR (Pos.to_nat p) ltac:(vm_compute; lia)) as Hp.
    by rewrite positive_nat_Z in Hp.
Qed.
Lemma freshSid_plain client rands : returns (no_char CR) (freshSid client rands : M St string).
Proof. induction rands as [|n rands IH]; cbn [freshSid]; answers; apply no_char_int. Qed.
Lemma generateSessionCookie_plain rands u :
  returns (no_char CR) (generateSessionCookie rands u : M St string).
Proof.
  unfold generateSessionCookie. apply returns_bind. intros a. destruct (is_ERR a); [by apply returns_ret|].
  apply (returns_bind_with _ _ _ _ (freshSid_plain a rands)). intros sid Hsid.
  answers; eauto with framing.
Qed.

(** The line of the cookie. *)
Lemma framed_cookie status ctype sid more body :
  no_char CR status → no_char CR ctype → no_char CR sid → Forall plain_line more →
  header "Transfer-Encoding" more = None →
  framed (buildHttpHeader status ctype (slen body) (sessionHeader sid +:+ lines_then more "") +:+ body).
Proof.
  intros Hs Hc Hsid Hm Ht.
  assert (sessionHeader sid +:+ lines_then more "" =
    lines_then (("Set-Cookie: session_id=" +:+ sid +:+ "; Path=/; HttpOnly") :: more) "") as ->.
  { unfold sessionHeader, lines_then. cbn [foldr]. by rewrite !sapp_assoc. }
  apply framed_header; [done..| |done]. constructor; [|done].
  apply (plain_app "Set-Cookie: session_id=" _); [done|]. by apply no_char_app.
Qed.
Lemma credentials_framed request rands : returns framed (do_credentials request rands : M St string).
Proof.
  unfold do_credentials. apply returns_bind. intros body. cbv zeta. apply returns_bind. intros [].
  - apply (returns_bind_with _ _ _ _ (generateSessionCookie_plain rands _)). intros sid Hsid.
    case_bool_decide; [answers|]. case_bool_decide; apply returns_ret.
    + rewrite <-(sapp_nil_r (buildHttpHeader _ _ _ _)).
      by apply (framed_cookie "302 Found" "text/html" sid ["Location: /admin/dashboard"] ""); [..|repeat constructor|].
    + rewrite <-(sapp_nil_r (sessionHeader sid)).
      by apply (framed_cookie "200 OK" "text/html" sid [] (userPage _)).
  - answers.
Qed.

(** A request that wants a body: no HEAD request, none with an unknown method, and no download of a
    name with a line break. *)
Definition wants_body (request : string) : Prop :=
  isHead request = false ∧ route_of request ∉ [Health; HeadFile; NotAllowed] ∧
  (route_of request = Download → no_char CR (download_name request)).

Lemma respond_framed request e : wants_body request → returns framed (answer request e).
Proof.
  intros (Hh & Hr & Hd). unfold respond.
  assert (∀ q u, q ≠ ReqDownload → returns framed (storage_program q fuel u request (reads e) : M St string))
    as Hq by (intros; by apply storage_framed).
  rewrite !not_elem_of_cons in Hr. destruct Hr as (N1 & N2 & N3 & _).
  destruct (route_of request); try done; clear N1 N2 N3.
  - apply credentials_framed.
  - unfold do_signup, headOr. rewrite Hh. answers.
  - unfold do_changepassword, headOr. rewrite Hh. answers.
  - unfold do_logout, headOr. rewrite Hh. answers.
  - unfold do_dashboard. answers.
  - unfold do_workerStatus. answers.
    by apply (framed_header "200 OK" "application/json" []).
  - unfold do_backend. answers.
  - unfold do_toggle. answers.
  - apply asUser_framed; [done|]. intros u. by apply (Hq ReqList).
  - apply asUser_framed; [done|]. intros u. by apply (Hq ReqDelete).
  - apply asUser_framed; [done|]. intros u. by apply (Hq ReqRenameFolder).
  - apply asUser_framed; [done|]. intros u. by apply (Hq ReqRename).
  - apply asUser_framed; [done|]. intros u. by apply (Hq ReqMoveFile).
  - apply asUser_framed; [done|]. intros u. by apply (Hq ReqMoveFolder).
  - apply asUser_framed; [done|]. intros u. by apply (Hq ReqCreateFolder).
  - apply asUser_framed; [done|]. intros u. by apply (Hq ReqUpload).
  - apply asUser_framed; [done|]. intros u. by apply download_framed, Hd.
  - unfold do_email, handleEmailService. answers.
  - unfold do_email, handleEmailService. answers.
  - unfold do_email, handleEmailService. answers.
  - unfold do_email, handleEmailService. answers.
  - unfold do_email, handleEmailService. answers.
  - unfold do_email, handleEmailService. answers.
  - unfold do_email, handleEmailService. answers.
  - unfold do_frontendToggle. answers.
  - unfold do_get. answers.
Qed.

(** The request of a round. *)
Definition request_of (e : event) : string := c_string (str_take 1999 (packet e)).

Lemma connection_framed events s s' responses :
  Forall (λ e, wants_body (request_of e)) events →
  client_connection env smtp_reachable extraCreditNonLocal get_file_content fuel events s =
    (s', Some responses) → Forall framed responses.
Proof.
  intros He. revert s responses. induction He as [|e events Hw _ IH]; intros s responses;
    cbn [client_connection]; [by intros [= <- <-]|]. fold (request_of e).
  case_bool_decide; [by intros [= <- <-]|]. case_bool_decide; [by intros [= <- <-]|].
  unfold mbind, M_bind. destruct (answer (request_of e) e s) as [s1 [res|]] eqn:E1; [|done].
  destruct (client_connection _ _ _ _ _ events s1) as [s2 [rest|]] eqn:E2; [|done].
  intros [= <- <-]. constructor; [by eapply respond_framed|by eapply IH].
Qed.

(** C14: responses that belong to the right requests.  On a connection that is kept open a browser
    that looks for the end of each response as HTTP prescribes, from the headers, reads from the
    stream of bytes exactly the responses the server has given to its requests, in order, whatever
    the pages, files and forms contain.  (HEAD requests, whose answers have no body, are left out,
    and with them a request of an unknown method, whose answer has no length.) *)
Theorem responses_read events s s' responses :
  Forall (λ e, wants_body (request_of e)) events →
  client_connection env smtp_reachable extraCreditNonLocal get_file_content fuel events s =
    (s', Some responses) →
  Forall framed responses ∧
  read_stream (S (length responses)) (foldr String.append "" responses) = Some responses.
Proof.
  intros He Hc. pose proof (connection_framed events s s' responses He Hc) as Hf.
  split; [done|]. apply read_stream_framed; [done|lia].
Qed.
End server.

(** ** Examples *)

#[local] Existing Instance table_ops.
#[local] Existing Instance table_laws.
#[local] Existing Instance no_workers.
#[local] Existing Instance canonical_order.
#[local] Existing Instance SmtpFacts.example_env.

(** A login and a list of files on one connection. *)
Definition two_rounds : list event := [one_event login_request; one_event list_request].
Definition two_answers : (string → string → option string) * option (list string) :=
  client_connection Admin.example_env true false (λ _, "") 5 two_rounds some_session.

Global Instance wants_body_dec request : Decision (wants_body request).
Proof. unfold wants_body, no_char. apply _. Defined.

Lemma responses_read_witness :
  ∃ responses, two_answers.2 = Some responses ∧ length responses = 2%nat ∧
    read_stream 3 (foldr String.append "" responses) = Some responses.
Proof.
  destruct two_answers as [s' [responses|]] eqn:E; [|vm_compute in E; discriminate].
  exists responses. split; [reflexivity|].
  assert (length responses = 2%nat) as Hlen.
  { assert (length <$> two_answers.2 = Some 2%nat) as Hl by (vm_compute; reflexivity).
    rewrite E in Hl. simpl in Hl. by injection Hl. }
  split; [exact Hlen|]. rewrite <-Hlen.
  apply (responses_read Admin.example_env true false (λ _, "") 5 two_rounds some_session s' responses).
  - apply (@bool_decide_unpack _ (Forall_dec _ _)). vm_compute. exact I.
  - exact E.
Defined.

(** ** Defects *)

(** The answer to an unknown method has no length: a reader can not tell where it ends. *)
Theorem not_allowed_has_no_length :
  read_response (from_option id ""
    (respond Admin.example_env true false (λ _, "") 5 "PUT /x HTTP/1.1" (one_event "") some_session).2) = None.
Proof. by vm_compute. Qed.

(** A download of a file that does not exist is answered with status 200 and the text of the store's
    error as the contents of the file. *)
Theorem download_of_nothing :
  (webStorageDownload "alice" ("GET /download?filename=a.txt HTTP/1.1" +:+ crlf2) some_session).2 =
    Some (sendChunkedResponse "HTTP/1.1 200 OK" "text/plain" (err_string st_no_col)
      ("Content-Disposition: attachment; filename=" +:+ dq +:+ "a.txt" +:+ dq) (Z.to_nat 65536)).
Proof. by vm_compute. Qed.

(** A line break in the name of a download becomes a header of the answer. *)
Theorem download_header_injection :
  let res := from_option id "" (webStorageDownload "alice"
    ("GET /download?filename=a%0D%0ASet-Cookie:%20session_id=7%0D%0A HTTP/1.1" +:+ crlf2) some_session).2 in
  header "Set-Cookie" (from_option fst [] (read_headers 9 res)) = Some "session_id=7".
Proof. by vm_compute. Qed.
