(* ===== verification/Launch.v ===== *)
(** * Launching the programs: the [main] functions

    The options of the servers, the sockets that they open and the addresses that they announce:
    frontend/email/smtp_server.cc, frontend/http_server.cc, frontend/load_balancer.cc,
    backend/key_val_store.cc (both programs), web_storage_service, and the gRPC servers of
    backend/coordinator.cc and backend/worker.cc.  The loops that accept connections are in
    [Connections]. *)
From S2P Require Import Prelude CppString Table Codec Utils CppStream Rpc Coordinator Worker WorkerFacts.
From S2P Require Import Cluster ClusterFacts.

(** ** What becomes of a process *)

(** It ends with a status, it ends with an uncaught exception or a null pointer, it goes round its
    loop although [accept] can only fail, or it serves. *)
Inductive launched (A : Type) := Exits (status : Z) | Dies | Spins | Serves (a : A).
Arguments Exits {_} _.
Arguments Dies {_}.
Arguments Spins {_}.
Arguments Serves {_} _.

(** The results of [socket], [bind] and [listen]. *)
Record os := { os_socket : bool; os_bind : bool; os_listen : bool }.
Definition all_well : os := {| os_socket := true; os_bind := true; os_listen := true |}.

(** The port on which the socket listens, [None] when the system chooses it, and the line that is
    printed. *)
Record listening := { sin_port : option Z; announced : string }.

(** [(unsigned short) port], and the [uint16_t] parameter of [htons]. *)
Definition to_u16 (z : Z) : Z := z `mod` 2 ^ 16.

(** [bind] to port 0 lets the system choose. *)
Definition bound_to (port : Z) : option Z := if bool_decide (port = 0) then None else Some port.

(** ** The SMTP server *)

Record smtp_options := { smtp_port : Z; smtp_verbose : bool; extraCreditNonLocal : bool }.
Definition smtp_defaults : smtp_options :=
  {| smtp_port := 2500; smtp_verbose := false; extraCreditNonLocal := false |}.
Definition set_smtp_port (p : Z) (o : smtp_options) : smtp_options :=
  {| smtp_port := p; smtp_verbose := smtp_verbose o; extraCreditNonLocal := extraCreditNonLocal o |}.

(** An argument that is not [-p] with a value; [None]: the program ends after [-a]. *)
Definition smtp_flag (arg : string) (o : smtp_options) : option smtp_options :=
  if bool_decide (arg = "-a") then None
  else if bool_decide (arg = "-v") then
    Some {| smtp_port := smtp_port o; smtp_verbose := true; extraCreditNonLocal := extraCreditNonLocal o |}
  else if bool_decide (arg = "-x") then
    Some {| smtp_port := smtp_port o; smtp_verbose := smtp_verbose o; extraCreditNonLocal := true |}
  else Some o.
(** The loop over [argv]. *)
Fixpoint smtp_arguments (argv : list string) (o : smtp_options) : option smtp_options :=
  match argv with
  | [] => Some o
  | [arg] => smtp_flag arg o
  | arg :: (value :: rest') as rest =>
      if bool_decide (arg = "-p") then smtp_arguments rest' (set_smtp_port (atoi value) o)
      else o ← smtp_flag arg o; smtp_arguments rest o
  end.

(** [SMTPServer::run] up to its loop. *)
Definition smtp_listen (sys : os) (portNumber : Z) : launched listening :=
  if negb (os_socket sys) then Exits 1
  else if negb (os_bind sys) then Exits 1
  else if negb (os_listen sys) then Exits 1
  else Serves {| sin_port := bound_to portNumber;
                 announced := "SMTP Server Listening on port " +:+ to_string portNumber |}.

Definition smtp_main (sys : os) (argv : list string) : launched (smtp_options * listening) :=
  match smtp_arguments argv smtp_defaults with
  | None => Exits 0
  | Some o =>
      match smtp_listen sys (to_u16 (smtp_port o)) with
      | Serves l => Serves (o, l)
      | Exits status => Exits status
      | Dies => Dies
      | Spins => Spins
      end
  end.

(** ** The HTTP server *)

(** The port and [v]; [None]: [stoi] throws. *)
Fixpoint http_arguments (argv : list string) (port : Z) (v : bool) : option (Z * bool) :=
  match argv with
  | [] => Some (port, v)
  | [arg] => Some (port, if bool_decide (arg = "-v") then true else v)
  | arg :: (value :: rest') as rest =>
      if bool_decide (arg = "-p") then port ← stoi value; http_arguments rest' port v
      else if bool_decide (arg = "-v") then http_arguments rest port true
      else http_arguments rest port v
  end.

Definition http_main (sys : os) (argv : list string) : launched (bool * listening) :=
  match http_arguments argv 8080 false with
  | None => Dies
  | Some (port, v) =>
      if negb (os_socket sys) then Exits 1
      else if negb (os_bind sys) then Exits 1
      else if negb (os_listen sys) then Exits 1
      else Serves (v, {| sin_port := bound_to (to_u16 port);
                         announced := "Server running on port " +:+ to_string port |})
  end.

(** ** The load balancer *)

(** [for (i = 1; i + 1 < argc; ++i)]: the value of an option is looked at as an option too. *)
Fixpoint lb_arguments (argv : list string) (port : Z) : option Z :=
  match argv with
  | [] => Some port
  | arg :: rest =>
      match rest with
      | [] => Some port
      | value :: _ =>
          port ← (if bool_decide (arg = "-p") then stoi value else Some port);
          lb_arguments rest port
      end
  end.

Definition lb_main (sys : os) (argv : list string) : launched listening :=
  match lb_arguments argv 80 with
  | None => Dies
  | Some port =>
      if negb (os_socket sys) then Exits 1
      else if negb (os_bind sys) then Exits 1
      else if negb (os_listen sys) then Exits 1
      else Serves {| sin_port := bound_to (to_u16 port);
                     announced := "Load balancer listening on port " +:+ to_string port |}
  end.

(** ** The first key-value servers

    [opts] is what the calls of [getopt(argc, argv, "vp:")] return: an option and its [optarg].  An
    option that is not known is returned as ['?']. *)

(** The first program: an unknown option is ignored. *)
Fixpoint kvs_options (opts : list (ascii * string)) (debugMode : bool) (portNumber : Z) : bool * Z :=
  match opts with
  | [] => (debugMode, portNumber)
  | (c, optarg) :: opts =>
      if bool_decide (c = "v"%char) then kvs_options opts true portNumber
      else if bool_decide (c = "p"%char) then kvs_options opts debugMode (to_u16 (atoi optarg))
      else kvs_options opts debugMode portNumber
  end.
(** Its [main]: the results of [bind] and [listen] are not looked at, and a socket that is not bound
    listens on a port of the system's choice. *)
Definition kvs_main (sys : os) (opts : list (ascii * string)) : launched (bool * listening) :=
  let '(debugMode, portNumber) := kvs_options opts false 10000 in
  if negb (os_socket sys) then Exits 1
  else if negb (os_listen sys) then Spins
  else Serves (debugMode, {| sin_port := if os_bind sys then bound_to portNumber else None;
                             announced := "" |}).

(** The second program: an unknown option sets [aSet]. *)
Fixpoint line_options (opts : list (ascii * string)) (debugMode aSet : bool) (portNumber : Z) :
    bool * bool * Z :=
  match opts with
  | [] => (debugMode, aSet, portNumber)
  | (c, optarg) :: opts =>
      if bool_decide (c = "v"%char) then line_options opts true aSet portNumber
      else if bool_decide (c = "p"%char) then line_options opts debugMode aSet (to_u16 (atoi optarg))
      else line_options opts debugMode true portNumber
  end.
Definition line_main (sys : os) (opts : list (ascii * string)) : launched (bool * listening) :=
  let '(debugMode, aSet, portNumber) := line_options opts false false 10000 in
  if aSet then Exits 1
  else if negb (os_socket sys) then Exits 1
  else if negb (os_bind sys) then Exits 1
  else if negb (os_listen sys) then Exits 1
  else Serves (debugMode, {| sin_port := bound_to portNumber;
                             announced := "KVStore server listening on port " +:+ to_string portNumber |}).

(** ** The first web storage service *)

Definition wbs_main (sys : os) : launched listening :=
  if negb (os_socket sys) then Exits 1
  else if negb (os_bind sys) then Exits 1
  else if negb (os_listen sys) then Spins
  else Serves {| sin_port := Some 8080; announced := "Web storage service listening on port 8080..." |}.

(** ** The gRPC servers

    [started]: whether [BuildAndStart] could use the address; it returns a null pointer otherwise,
    and [server->Wait()] goes through it. *)

Definition master_address : string := DEFAULT_HOST +:+ ":" +:+ "10000".
Definition master_RunServer (started : bool) : launched string :=
  if started then Serves master_address else Dies.

Definition worker_RunServer (started : bool) (port : string) : launched string :=
  let server_address := DEFAULT_HOST +:+ ":" +:+ port in
  if started then Serves server_address else Dies.

(** The worker's [main]: [worker_main] has the loggers, the clients of the other workers and the
    recovery, from what the coordinator and the others answer. *)
Definition worker_launch (copy : string → Z → string) (res : string) (started : bool) (fs : filesystem)
    (argv : list string) : launched (worker * string) :=
  match argv with
  | [] => Exits 1
  | arg :: _ =>
      match stoi arg with
      | None => Dies
      | Some workerId =>
          match worker_main copy res workerId fs with
          | None => Dies
          | Some w =>
              match worker_RunServer started (to_string (10000 + workerId)) with
              | Serves address => Serves (w, address)
              | Exits status => Exits status
              | Dies => Dies
              | Spins => Spins
              end
          end
      end
  end.

(** ** Options *)

(** The options of the SMTP server as a user writes them. *)
Inductive smtp_option := OnPort (p : Z) | Verbose | NonLocal.
Definition written (o : smtp_option) : list string :=
  match o with OnPort p => ["-p"; to_string p] | Verbose => ["-v"] | NonLocal => ["-x"] end.
Definition chosen (o : smtp_options) (x : smtp_option) : smtp_options :=
  match x with
  | OnPort p => set_smtp_port p o
  | Verbose => {| smtp_port := smtp_port o; smtp_verbose := true; extraCreditNonLocal := extraCreditNonLocal o |}
  | NonLocal => {| smtp_port := smtp_port o; smtp_verbose := smtp_verbose o; extraCreditNonLocal := true |}
  end.
Definition int_option (x : smtp_option) : Prop :=
  match x with OnPort p => - 2 ^ 31 ≤ p < 2 ^ 31 | _ => True end.

Lemma smtp_arguments_flag arg rest o :
  arg ≠ "-p" → smtp_arguments (arg :: rest) o = (o ← smtp_flag arg o; smtp_arguments rest o).
Proof.
  intros Ha. destruct rest as [|value rest].
  - cbn [smtp_arguments]. by destruct (smtp_flag arg o).
  - cbn [smtp_arguments]. by rewrite bool_decide_false.
Qed.

(** The options are understood in any number and any order; the last of several ports counts. *)
Theorem smtp_arguments_written options o :
  Forall int_option options → smtp_arguments (options ≫= written) o = Some (foldl chosen o options).
Proof.
  intros H. revert o. induction H as [|x options Hx _ IH]; intros o; [done|].
  destruct x as [p| |].
  - change ((OnPort p :: options) ≫= written) with ("-p" :: to_string p :: (options ≫= written)).
    cbn [smtp_arguments]. rewrite bool_decide_true, atoi_to_string by done. apply IH.
  - change ((Verbose :: options) ≫= written) with ("-v" :: (options ≫= written)).
    rewrite smtp_arguments_flag by done. apply IH.
  - change ((NonLocal :: options) ≫= written) with ("-x" :: (options ≫= written)).
    rewrite smtp_arguments_flag by done. apply IH.
Qed.
Lemma smtp_arguments_written_witness :
  smtp_arguments ["-v"; "-p"; "2501"; "-x"; "-p"; "2502"] smtp_defaults =
    Some {| smtp_port := 2502; smtp_verbose := true; extraCreditNonLocal := true |}.
Proof.
  refine (smtp_arguments_written [Verbose; OnPort 2501; NonLocal; OnPort 2502] smtp_defaults _).
  repeat constructor; done.
Defined.

(** ** Ports *)

(** Where a server listens, if it does. *)
Definition listens {A} (port_of : A → option Z) (l : launched A) : option (option Z) :=
  match l with Serves a => Some (port_of a) | _ => None end.

(** C29: every server that is given a port [p] on its command line, and whose socket the system
    grants, listens on [p] modulo 2^16, the port itself when it is one, and on a port of the system's choice when that is 0; the SMTP server
    and the key-value servers announce the port that they use, the HTTP server and the load balancer
    the number that they were given. *)
Theorem requested_port p :
  - 2 ^ 31 ≤ p < 2 ^ 31 →
  let q := p `mod` 2 ^ 16 in
  smtp_main all_well ["-p"; to_string p] =
    Serves (set_smtp_port p smtp_defaults,
            {| sin_port := bound_to q; announced := "SMTP Server Listening on port " +:+ to_string q |}) ∧
  http_main all_well ["-p"; to_string p] =
    Serves (false, {| sin_port := bound_to q; announced := "Server running on port " +:+ to_string p |}) ∧
  lb_main all_well ["-p"; to_string p] =
    Serves {| sin_port := bound_to q; announced := "Load balancer listening on port " +:+ to_string p |} ∧
  kvs_main all_well [("p"%char, to_string p)] = Serves (false, {| sin_port := bound_to q; announced := "" |}) ∧
  line_main all_well [("p"%char, to_string p)] =
    Serves (false, {| sin_port := bound_to q;
                      announced := "KVStore server listening on port " +:+ to_string q |}) ∧
  (0 < p < 2 ^ 16 → bound_to q = Some p).
Proof.
  intros Hp q.
  assert (lb_arguments ["-p"; to_string p] 80 = Some p) as Elb.
  { cbn [lb_arguments]. rewrite bool_decide_true by done. by rewrite stoi_to_string. }
  assert (http_arguments ["-p"; to_string p] 8080 false = Some (p, false)) as Ehttp.
  { cbn [http_arguments]. rewrite bool_decide_true by done. by rewrite stoi_to_string. }
  assert (smtp_arguments ["-p"; to_string p] smtp_defaults = Some (set_smtp_port p smtp_defaults)) as Esmtp.
  { cbn [smtp_arguments]. rewrite bool_decide_true by done. by rewrite atoi_to_string. }
  repeat split.
  - unfold smtp_main. by rewrite Esmtp.
  - unfold http_main. by rewrite Ehttp.
  - unfold lb_main. by rewrite Elb.
  - unfold kvs_main. cbn [kvs_options]. by rewrite atoi_to_string.
  - unfold line_main. cbn [line_options]. by rewrite atoi_to_string.
  - intros Hr. unfold q, bound_to. rewrite Z.mod_small, bool_decide_false by lia. done.
Qed.
Lemma requested_port_witness :
  listens (sin_port ∘ snd) (smtp_main all_well ["-p"; "2501"]) = Some (Some 2501) ∧
  listens (sin_port ∘ snd) (http_main all_well ["-p"; "70000"]) = Some (Some 4464).
Proof.
  pose proof (requested_port 2501 ltac:(lia)) as [H1 _].
  pose proof (requested_port 70000 ltac:(lia)) as (_ & H2 & _).
  change (to_string 2501) with "2501" in H1. change (to_string 70000) with "70000" in H2.
  rewrite H1, H2. split; reflexivity.
Defined.

(** A port that is not one is not rejected: the HTTP server announces 70000 and listens on 4464. *)
Theorem announced_port_differs :
  http_main all_well ["-p"; "70000"] =
    Serves (false, {| sin_port := Some 4464; announced := "Server running on port 70000" |}).
Proof. reflexivity. Qed.

(** Text that is not a number ends the HTTP server and the load balancer with an uncaught exception;
    the others take it for port 0. *)
Theorem not_a_port :
  http_main all_well ["-p"; "http"] = Dies ∧ lb_main all_well ["-p"; "http"] = Dies ∧
  listens (sin_port ∘ snd) (smtp_main all_well ["-p"; "smtp"]) = Some None ∧
  listens (sin_port ∘ snd) (line_main all_well [("p"%char, "kvs")]) = Some None.
Proof. repeat split. Qed.

(** The load balancer looks at the value of an option as an option: [-p -p 90] is no port 90. *)
Theorem lb_value_as_option : lb_main all_well ["-p"; "-p"; "90"] = Dies.
Proof. reflexivity. Qed.

(** When its port is taken, only the first key-value server goes on, on a port nobody asked for. *)
Theorem taken_port (argv : list string) (opts : list (ascii * string)) :
  let taken := {| os_socket := true; os_bind := false; os_listen := true |} in
  listens (sin_port ∘ snd) (smtp_main taken argv) = None ∧
  listens (sin_port ∘ snd) (http_main taken argv) = None ∧
  listens sin_port (lb_main taken argv) = None ∧
  listens (sin_port ∘ snd) (line_main taken opts) = None ∧
  listens sin_port (wbs_main taken) = None ∧
  listens (sin_port ∘ snd) (kvs_main taken opts) = Some None.
Proof.
  intros taken. repeat split.
  - unfold smtp_main. by destruct (smtp_arguments argv smtp_defaults).
  - unfold http_main. by destruct (http_arguments argv 8080 false) as [[? ?]|].
  - unfold lb_main. by destruct (lb_arguments argv 80).
  - unfold line_main. destruct (line_options opts false false 10000) as [[? []] ?]; done.
  - unfold kvs_main. by destruct (kvs_options opts false 10000).
Qed.

(** ** Addresses of the gRPC servers *)

(** The address of every worker is the one that the coordinator and the other workers know it by
    ([worker_addr]), and no two of the seven servers share one. *)
Theorem server_addresses id copy res fs :
  1 ≤ id ≤ 6 →
  worker_launch copy res true fs [to_string id] =
    match worker_main copy res id fs with Some w => Serves (w, worker_addr id) | None => Dies end ∧
  master_RunServer true = Serves master_address ∧
  NoDup (master_address :: (worker_addr <$> [1; 2; 3; 4; 5; 6])).
Proof.
  intros Hid. split; [|split; [done|]].
  - unfold worker_launch. rewrite stoi_to_string by lia. by destruct (worker_main copy res id fs).
  - apply (@bool_decide_unpack _ _). by vm_compute.
Qed.
Lemma server_addresses_witness :
  ∃ w, worker_launch (λ _ _, "") "" true ∅ ["3"] = Serves (w, "127.0.0.1:10003").
Proof.
  pose proof (server_addresses 3 (λ _ _, "") "" ∅ ltac:(lia)) as [E _].
  change (to_string 3) with "3" in E. rewrite E.
  destruct (worker_main (λ _ _, "") "" 3 ∅) as [w|] eqn:Ew; [by exists w|vm_compute in Ew; discriminate].
Defined.

(** The identifier of a worker is not checked: worker 0 asks for the coordinator's address. *)
Theorem worker_zero :
  ∃ w, worker_launch (λ _ _, "") "" true ∅ ["0"] = Serves (w, master_address).
Proof. vm_compute. eexists. reflexivity. Qed.
