(* ===== verification/Connections.v ===== *)
(** * Accepting connections

    The loops of the servers that have a thread per connection, and the tables of connections that
    they keep: frontend/http_server.cc ([sockets_active], [buffer_clients]),
    frontend/email/smtp_server.cc ([active_client_file_desc]) and backend/key_val_store.cc
    ([activeClients]).  A step is a call of the system or a statement on the table; the threads
    interleave at steps.  Descriptors are the system's: [accept] returns one that is not open. *)
From S2P Require Import Prelude CppString HttpServer.

(** ** Tables of connections *)

(** What a server does with its table when a connection arrives ([enter]), when a request arrives
    ([note]) and when a thread ends ([leave]); the descriptors it has in the table. *)
Class Tracking (T : Type) := {
  enter : Z → T → T;
  note : Z → string → T → T;
  leave : Z → T → T;
  registered : T → gset Z;
}.
(** A table that forgets the connections that leave, and only these. *)
Class Forgets T `{Tracking T} := {
  registered_enter fd t : registered (enter fd t) = {[fd]} ∪ registered t;
  registered_note fd r t : registered (note fd r t) ⊆ {[fd]} ∪ registered t;
  registered_leave fd t : registered (leave fd t) = registered t ∖ {[fd]};
}.

(** [sockets_active] and [buffer_clients] of the HTTP server. *)
Definition http_tracking : Tracking connections := {|
  enter := accept_client;
  note := buffer_request;
  leave := remove_client_connection;
  registered c := list_to_set (sockets_active c) ∪ dom (buffer_clients c);
|}.
(** [activeClients] of the first key-value server, a set. *)
Definition kvs_tracking : Tracking (gset Z) := {|
  enter fd t := {[fd]} ∪ t;
  note fd r t := t;
  leave fd t := t ∖ {[fd]};
  registered t := t;
|}.
(** [active_client_file_desc] of the SMTP server: nothing removes a descriptor. *)
Definition smtp_tracking : Tracking (list Z) := {|
  enter fd t := t ++ [fd];
  note fd r t := t;
  leave fd t := t;
  registered t := list_to_set t;
|}.

(** ** The loop and the threads *)

(** Where the loop is: before [accept], after it, after the descriptor went into the table. *)
Inductive main_loop := Accepting | Accepted (fd : Z) | Registered (fd : Z).
(** A thread has not read its argument yet, serves, has closed its socket, or has ended. *)
Inductive thread := Starting | Serving (fd : Z) | Closing (fd : Z) | Ended.

Record net (T : Type) := {
  descriptors : gset Z;
  tracked : T;
  client_fd : Z;
  main : main_loop;
  threads : list thread;
}.
Arguments descriptors {_} _.
Arguments tracked {_} _.
Arguments client_fd {_} _.
Arguments main {_} _.
Arguments threads {_} _.

Section accepting.
Context {T : Type} `{Tracking T} (by_value may_fail : bool).

(** [by_value]: the thread's argument is a copy of the descriptor ([new int(client)]); otherwise it is
    the address of the loop's variable.  With [may_fail], [pthread_create] may fail; no server closes
    the socket then. *)
Inductive net_step : net T → net T → Prop :=
  | net_accept fd s :
      main s = Accepting → fd ∉ descriptors s →
      net_step s {| descriptors := {[fd]} ∪ descriptors s; tracked := tracked s; client_fd := fd;
                    main := Accepted fd; threads := threads s |}
  | net_register fd s :
      main s = Accepted fd →
      net_step s {| descriptors := descriptors s; tracked := enter fd (tracked s);
                    client_fd := client_fd s; main := Registered fd; threads := threads s |}
  | net_create fd s :
      main s = Registered fd →
      net_step s {| descriptors := descriptors s; tracked := tracked s; client_fd := client_fd s;
                    main := Accepting;
                    threads := threads s ++ [if by_value then Serving fd else Starting] |}
  | net_no_thread fd s :
      may_fail = true → main s = Registered fd →
      net_step s {| descriptors := descriptors s; tracked := tracked s; client_fd := client_fd s;
                    main := Accepting; threads := threads s |}
  | net_start i s :
      threads s !! i = Some Starting →
      net_step s {| descriptors := descriptors s; tracked := tracked s; client_fd := client_fd s;
                    main := main s; threads := <[i := Serving (client_fd s)]> (threads s) |}
  | net_request i fd r s :
      threads s !! i = Some (Serving fd) →
      net_step s {| descriptors := descriptors s; tracked := note fd r (tracked s);
                    client_fd := client_fd s; main := main s; threads := threads s |}
  | net_close i fd s :
      threads s !! i = Some (Serving fd) →
      net_step s {| descriptors := descriptors s ∖ {[fd]}; tracked := tracked s;
                    client_fd := client_fd s; main := main s;
                    threads := <[i := Closing fd]> (threads s) |}
  | net_leave i fd s :
      threads s !! i = Some (Closing fd) →
      net_step s {| descriptors := descriptors s; tracked := leave fd (tracked s);
                    client_fd := client_fd s; main := main s; threads := <[i := Ended]> (threads s) |}.

Definition net_init (t : T) : net T :=
  {| descriptors := ∅; tracked := t; client_fd := 0; main := Accepting; threads := [] |}.

(** Steps in which the loop does not accept another connection while a thread has not read its
    argument. *)
Definition patient_step (s s' : net T) : Prop :=
  net_step s s' ∧ (Starting ∈ threads s → main s = Accepting → main s' = Accepting).

(** The descriptors in use: by the loop and by the threads. *)
Definition main_fd (m : main_loop) : list Z :=
  match m with Accepting => [] | Accepted fd | Registered fd => [fd] end.
Definition thread_fd (slot : Z) (th : thread) : list Z :=
  match th with Starting => [slot] | Serving fd => [fd] | Closing _ | Ended => [] end.
Definition in_use (s : net T) : list Z := main_fd (main s) ++ (threads s ≫= thread_fd (client_fd s)).

(** Every connection in use is open and nobody else uses it. *)
Definition exclusive (s : net T) : Prop := NoDup (in_use s) ∧ list_to_set (in_use s) ⊆ descriptors s.

Definition closing_fd (th : thread) : list Z := match th with Closing fd => [fd] | _ => [] end.
(** What may be in the table: connections in use, and those that a thread is about to remove. *)
Definition may_be_registered (s : net T) : gset Z :=
  list_to_set (in_use s ++ (threads s ≫= closing_fd)).

(** ** What the loop and the threads keep *)

Lemma insert_split {A} (l : list A) i x :
  l !! i = Some x → ∃ l1 l2, l = l1 ++ x :: l2 ∧ ∀ y, <[i := y]> l = l1 ++ y :: l2.
Proof.
  intros Hi. exists (take i l), (drop (S i) l). split; [by rewrite take_drop_middle|].
  intros y. apply lookup_lt_Some in Hi. by rewrite insert_take_drop.
Qed.

(** The loop's variable is the connection that the loop has. *)
Definition loop_ok (s : net T) : Prop := Forall (eq (client_fd s)) (main_fd (main s)).
Definition net_ok (s : net T) : Prop := loop_ok s ∧ exclusive s.

Lemma in_use_slot slot slot' ths :
  Starting ∉ ths → ths ≫= thread_fd slot = ths ≫= thread_fd slot'.
Proof.
  intros Hs. induction ths as [|th ths IH]; [done|]. apply not_elem_of_cons in Hs as [Hth Hs].
  cbn [mbind list_bind]. rewrite IH by done. by destruct th.
Qed.

Lemma net_ok_init t : net_ok (net_init t).
Proof. repeat split; [constructor|constructor|set_solver]. Qed.

Lemma net_ok_step s s' : net_ok s → patient_step s s' → net_ok s'.
Proof.
  intros [Hl [Hn Ho]] [Hstep Hp]. unfold net_ok, loop_ok, exclusive, in_use in *.
  destruct Hstep as [fd s Hm Hfd|fd s Hm|fd s Hm|fd s Hf Hm|i s Hi|i fd r s Hi|i fd s Hi|i fd s Hi];
    cbn [main client_fd threads descriptors main_fd] in *; try rewrite Hm in *; cbn [main_fd] in *.
  - assert (Starting ∉ threads s) as Hs by (intros Hs; by specialize (Hp Hs eq_refl)).
    rewrite (in_use_slot fd (client_fd s)) by done.
    split; [by constructor|]. cbn [app] in *. split; [constructor; [set_solver|done]|set_solver].
  - done.
  - rewrite Forall_singleton in Hl. subst fd. rewrite bind_app. cbn [app] in *. split; [constructor|].
    replace (([if by_value then Serving (client_fd s) else Starting]) ≫= thread_fd (client_fd s))
      with [client_fd s] by (by destruct by_value).
    split; [|set_solver]. by rewrite <-Permutation_cons_append.
  - cbn [app] in *. split; [constructor|]. split; [by apply NoDup_cons_1_2 in Hn|set_solver].
  - split; [done|]. destruct (insert_split _ _ _ Hi) as (l1 & l2 & El & Ey). rewrite Ey.
    rewrite El, bind_app in Hn, Ho. rewrite bind_app. done.
  - done.
  - split; [done|]. destruct (insert_split _ _ _ Hi) as (l1 & l2 & El & Ey). rewrite Ey.
    rewrite El, bind_app in Hn, Ho. rewrite bind_app. cbn [mbind list_bind thread_fd app] in *.
    rewrite !(assoc_L (++)), <-Permutation_middle in Hn. rewrite <-!(assoc_L (++)) in Hn.
    apply NoDup_cons in Hn as [Hfd Hn]. split; [done|]. revert Hfd Ho. rewrite !list_to_set_app_L.
    cbn [list_to_set foldr]. set_solver.
  - split; [done|]. destruct (insert_split _ _ _ Hi) as (l1 & l2 & El & Ey). rewrite Ey.
    rewrite El, bind_app in Hn, Ho. rewrite bind_app. done.
Qed.
Lemma net_ok_reached s s' : net_ok s → rtc patient_step s s' → net_ok s'.
Proof. intros Hs. by induction 1; eauto using net_ok_step. Qed.

(** With arguments by value no thread waits for the loop, and every step is patient. *)
Lemma by_value_patient s s' :
  by_value = true → Forall (.≠ Starting) (threads s) → rtc net_step s s' → rtc patient_step s s'.
Proof.
  intros Hv Hs Hr. revert Hs. induction Hr as [s|s s1 s' Hstep _ IH]; intros Hs; [done|].
  apply rtc_l with s1; [split; [done|]|apply IH].
  - intros Hin. rewrite Forall_forall in Hs. by destruct (Hs _ Hin).
  - destruct Hstep; cbn [threads]; try done.
    + apply Forall_app. rewrite Hv. by repeat constructor.
    + by apply Forall_insert.
    + by apply Forall_insert.
    + by apply Forall_insert.
Qed.

Lemma may_be_registered_app s :
  may_be_registered s =
    list_to_set (main_fd (main s)) ∪ list_to_set (threads s ≫= thread_fd (client_fd s)) ∪
    list_to_set (threads s ≫= closing_fd).
Proof. unfold may_be_registered, in_use. by rewrite !list_to_set_app_L. Qed.

Lemma registered_step `{!Forgets T} s s' :
  may_fail = false → net_ok s → registered (tracked s) ⊆ may_be_registered s → patient_step s s' →
  registered (tracked s') ⊆ may_be_registered s'.
Proof.
  intros Hfail [Hl _] Hr [Hstep Hp]. rewrite !may_be_registered_app in *. unfold loop_ok in Hl.
  destruct Hstep as [fd s Hm Hfd|fd s Hm|fd s Hm|fd s Hf Hm|i s Hi|i fd r s Hi|i fd s Hi|i fd s Hi];
    cbn [main client_fd threads descriptors tracked main_fd] in *; try rewrite Hm in *; cbn [main_fd] in *;
    try (destruct (insert_split _ _ _ Hi) as (l1 & l2 & El & Ey); rewrite ?Ey, ?El; rewrite El in Hr;
         rewrite !bind_app, !list_to_set_app_L in *; cbn [mbind list_bind thread_fd closing_fd app] in *).
  - rewrite (in_use_slot fd (client_fd s)) by (intros Hs; by specialize (Hp Hs eq_refl)). set_solver.
  - rewrite registered_enter. set_solver.
  - rewrite Forall_singleton in Hl. subst fd. rewrite !bind_app, !list_to_set_app_L.
    destruct by_value; cbn [mbind list_bind thread_fd closing_fd app]; set_solver.
  - by rewrite Hfail in Hf.
  - set_solver.
  - pose proof (registered_note fd r (tracked s)). set_solver.
  - set_solver.
  - rewrite registered_leave. set_solver.
Qed.
Lemma registered_reached `{!Forgets T} s s' :
  may_fail = false → net_ok s → registered (tracked s) ⊆ may_be_registered s → rtc patient_step s s' →
  registered (tracked s') ⊆ may_be_registered s'.
Proof. intros Hf Hs Hr Hsteps. induction Hsteps; eauto using net_ok_step, registered_step. Qed.
End accepting.

(** ** The servers *)

(** The loop of [main] in http_server.cc with the threads of [client_connection]. *)
Definition http_serving : net connections → net connections → Prop :=
  @net_step connections http_tracking true false.
Definition no_connections : connections := {| sockets_active := []; buffer_clients := ∅ |}.
(** The loop of [main] in key_val_store.cc with the threads of [communicationThreadFunc]. *)
Definition kvs_serving : net (gset Z) → net (gset Z) → Prop := @net_step (gset Z) kvs_tracking false false.
(** [SMTPServer::run] with the threads of [handle_client]. *)
Definition smtp_serving : net (list Z) → net (list Z) → Prop := @net_step (list Z) smtp_tracking true false.
(** [serverShutdown]: what is sent, and to whom. *)
Definition serverShutdown (active_client_file_desc : list Z) : list (Z * string) :=
  (λ client_fd, (client_fd,
     "421 localhost SMTP Server not available. Shutting down transmission channel" +:+ crlf))
    <$> active_client_file_desc.

Lemma http_forgets : @Forgets connections http_tracking.
Proof.
  constructor.
  - intros fd [l b]. cbn. rewrite list_to_set_app_L. set_solver.
  - intros fd r [l b]. cbn. rewrite dom_insert_L. set_solver.
  - intros fd [l b]. cbn. rewrite dom_delete_L.
    replace (list_to_set (filter (λ s, s ≠ fd) l)) with (list_to_set l ∖ {[fd]} : gset Z); [set_solver|].
    apply leibniz_equiv. intros x. rewrite elem_of_difference, !elem_of_list_to_set, list_elem_of_filter.
    set_solver.
Qed.
Lemma kvs_forgets : @Forgets (gset Z) kvs_tracking.
Proof. constructor; cbn; set_solver. Qed.

Lemma ended_released {T} `{Tracking T} (s : net T) :
  main s = Accepting → Forall (.= Ended) (threads s) → may_be_registered s = ∅.
Proof.
  intros Hm Ht. rewrite may_be_registered_app, Hm. cbn [main_fd].
  induction Ht as [|th ths -> _ IH]; [done|]. exact IH.
Qed.

(** C15: whatever the clients of the HTTP server do and however its threads interleave, as long as
    the system can create them, the loop and the threads never share a socket and never use one that another has closed; the tables hold
    nothing but connections that somebody serves or is about to remove, and are empty again when all
    the clients have left. *)
Theorem http_connections s :
  rtc http_serving (net_init no_connections) s →
  exclusive s ∧ registered (Tracking := http_tracking) (tracked s) ⊆ may_be_registered s ∧
  (main s = Accepting → Forall (.= Ended) (threads s) → tracked s = no_connections).
Proof.
  intros Hr. apply (by_value_patient true false) in Hr; [|done|constructor].
  assert (registered (Tracking := http_tracking) (tracked s) ⊆ may_be_registered s) as Hreg.
  { eapply (registered_reached (H := http_tracking) true false (Forgets0 := http_forgets));
      [done|apply net_ok_init| |exact Hr]. set_solver. }
  split; [|split; [done|]].
  - apply (net_ok_reached _ _ _ _ (net_ok_init _) Hr).
  - intros Hm Ht. rewrite (ended_released (H := http_tracking) s Hm Ht) in Hreg.
    destruct (tracked s) as [l b]. cbn in Hreg. unfold no_connections. f_equal.
    + destruct l as [|x l]; [done|]. set_solver.
    + apply dom_empty_inv_L. set_solver.
Qed.

(** One step of a run: the constructor with its arguments. *)
Ltac run_step c := eapply rtc_l; [eapply c; first [reflexivity|set_solver]|]; cbn.

Lemma http_connections_witness :
  ∃ s, main s = Accepting ∧ Forall (.= Ended) (threads s) ∧ threads s ≠ [] ∧ tracked s = no_connections.
Proof.
  assert (∃ s, rtc http_serving (net_init no_connections) s ∧ main s = Accepting ∧ threads s = [Ended])
    as (s & Hr & Hm & Ht).
  { eexists. split; [|split].
    - run_step (net_accept (H := http_tracking) true false 4).
      run_step (net_register (H := http_tracking) true false 4).
      run_step (net_create (H := http_tracking) true false 4).
      run_step (net_request (H := http_tracking) true false 0 4 "GET / HTTP/1.1").
      run_step (net_close (H := http_tracking) true false 0 4).
      run_step (net_leave (H := http_tracking) true false 0 4). apply rtc_refl.
    - reflexivity.
    - reflexivity. }
  exists s. split; [done|]. rewrite Ht. split; [by repeat constructor|]. split; [done|].
  apply (http_connections s Hr); [done|]. rewrite Ht. by repeat constructor.
Defined.

(** The key-value server hands out the address of its loop's variable: as long as it does not accept a
    connection before the last thread has read it, its connections are exclusive and its table is
    right too. *)
Theorem kvs_connections s :
  rtc (@patient_step (gset Z) kvs_tracking false false) (net_init ∅) s →
  exclusive s ∧ tracked s ⊆ may_be_registered s.
Proof.
  intros Hr. split; [apply (net_ok_reached _ _ _ _ (net_ok_init _) Hr)|].
  eapply (registered_reached (H := kvs_tracking) false false (Forgets0 := kvs_forgets));
    [done|apply net_ok_init| |exact Hr]. set_solver.
Qed.
Lemma kvs_connections_witness :
  ∃ s, threads s = [Serving 4] ∧ exclusive s ∧ tracked s ⊆ may_be_registered s.
Proof.
  assert (∃ s, rtc (@patient_step (gset Z) kvs_tracking false false) (net_init ∅) s ∧
               threads s = [Serving 4]) as (s & Hr & Ht).
  { eexists. split; [|].
    - eapply rtc_l; [split; [apply (net_accept false false 4); [done|set_solver]|set_solver]|].
      eapply rtc_l; [split; [apply (net_register false false 4); done|set_solver]|].
      eapply rtc_l; [split; [apply (net_create false false 4); done|set_solver]|].
      eapply rtc_l; [split; [apply (net_start false false 0); done|done]|]. apply rtc_refl.
    - reflexivity. }
  exists s. split; [done|]. exact (kvs_connections s Hr).
Defined.

(** Two clients of the key-value server connect before the first thread reads its argument: both
    threads serve the second client, and nobody serves the first. *)
Theorem two_threads_one_socket :
  ∃ s, rtc kvs_serving (net_init ∅) s ∧ threads s = [Serving 5; Serving 5] ∧ descriptors s = {[4; 5]}.
Proof.
  eexists. split; [|split].
  - run_step (net_accept (H := kvs_tracking) false false 4).
    run_step (net_register (H := kvs_tracking) false false 4).
    run_step (net_create (H := kvs_tracking) false false 4).
    run_step (net_accept (H := kvs_tracking) false false 5).
    run_step (net_register (H := kvs_tracking) false false 5).
    run_step (net_create (H := kvs_tracking) false false 5).
    run_step (net_start (H := kvs_tracking) false false 0).
    run_step (net_start (H := kvs_tracking) false false 1). apply rtc_refl.
  - reflexivity.
  - set_solver.
Qed.

(** The HTTP server closes a socket before it takes it out of its tables: a client that connects in
    between gets the same descriptor and is taken out with it.  It is served, but [server_shutdown]
    does not know it. *)
Theorem served_but_not_registered :
  ∃ s, rtc http_serving (net_init no_connections) s ∧ Serving 4 ∈ threads s ∧
       server_shutdown (tracked s) = ([], no_connections).
Proof.
  eexists. split; [|split].
  - run_step (net_accept (H := http_tracking) true false 4).
    run_step (net_register (H := http_tracking) true false 4).
    run_step (net_create (H := http_tracking) true false 4).
    run_step (net_close (H := http_tracking) true false 0 4).
    run_step (net_accept (H := http_tracking) true false 4).
    run_step (net_register (H := http_tracking) true false 4).
    run_step (net_create (H := http_tracking) true false 4).
    run_step (net_leave (H := http_tracking) true false 0 4). apply rtc_refl.
  - set_solver.
  - reflexivity.
Qed.

(** The SMTP server keeps the descriptors of the clients that have left: after a second client has
    come and gone on the same descriptor, its shutdown writes to it twice, and it may belong to
    something else by then. *)
Theorem smtp_keeps_descriptors :
  ∃ s, rtc smtp_serving (net_init []) s ∧ threads s = [Ended; Ended] ∧ descriptors s = ∅ ∧
       (serverShutdown (tracked s)).*1 = [4; 4].
Proof.
  eexists. split; [|split; [|split]].
  - do 2 (run_step (net_accept (H := smtp_tracking) true false 4);
      run_step (net_register (H := smtp_tracking) true false 4);
      run_step (net_create (H := smtp_tracking) true false 4);
      match goal with |- rtc _ ?s _ =>
        let ths := eval cbn in (threads s) in
        let i := eval cbn in (pred (length ths)) in
        run_step (net_close (H := smtp_tracking) true false i 4);
        run_step (net_leave (H := smtp_tracking) true false i 4)
      end).
    apply rtc_refl.
  - reflexivity.
  - set_solver.
  - reflexivity.
Qed.

(** When a thread cannot be created, the HTTP server keeps the socket open and in its tables for
    good, with nobody to serve it. *)
Theorem connection_without_thread :
  ∃ s, rtc (@net_step connections http_tracking true true) (net_init no_connections) s ∧
       main s = Accepting ∧ threads s = [] ∧ 4 ∈ descriptors s ∧ sockets_active (tracked s) = [4].
Proof.
  eexists. split; [|split; [|split; [|split]]].
  - run_step (net_accept (H := http_tracking) true true 4).
    run_step (net_register (H := http_tracking) true true 4).
    run_step (net_no_thread (H := http_tracking) true true 4). apply rtc_refl.
  - reflexivity.
  - reflexivity.
  - set_solver.
  - reflexivity.
Qed.
