(* ===== verification/LegacyKvs.v ===== *)
(** * The first versions of the key-value store: backend/key_val_store.cc, backend/kvs_server.h

    Three servers over one table: two with a text protocol over sockets and one with gRPC.  They keep
    the table that the worker keeps per tablet. *)
From S2P Require Import Prelude CppString Table Codec Utils CppStream Rpc.

(** ** The server with the handshake (key_val_store.cc, the first program) *)
Module TextServer.

(** [readFromSocket]: the packets are appended until the end mark is there; the rest of the packets.
    [None]: the connection ends first, and the loop does not return. *)
Fixpoint readFromSocket (end_ : string) (packets : list string) (recvdMsg : string) :
    option (string * list string) :=
  match packets with
  | [] => None
  | p :: packets =>
      let recvdMsg := recvdMsg +:+ p in
      if contains end_ recvdMsg then Some (recvdMsg, packets) else readFromSocket end_ packets recvdMsg
  end.
(** [writeToSocket]: [sent] are the results of [send]; the bytes that were sent and the result.
    [None]: no more results, the loop has not ended. *)
Fixpoint writeToSocket (sent : list Z) (message : string) : option (string * bool) :=
  match message with
  | "" => Some ("", true)
  | _ =>
      match sent with
      | [] => None
      | n :: sent =>
          if bool_decide (n < 0) then Some ("", false)
          else
            '(rest, ok) ← writeToSocket sent (str_drop (Z.to_nat n) message);
            Some (str_take (Z.to_nat n) message +:+ rest, ok)
      end
  end.

(** The handlers: the table and the answer. *)
Definition handleGET (row col : string) (kvstore : table) : table * string :=
  (kvstore,
   match table_get row col kvstore with
   | RowMissing => "-ERR Row does not exist" +:+ crlf
   | ColMissing => "-ERR Column does not exist" +:+ crlf
   | Found value => "+OK" +:+ lf +:+ value +:+ crlf
   end).
Definition handlePUT (row col value : string) (kvstore : table) : table * string :=
  (table_put row col value kvstore, "+OK" +:+ crlf).
Definition handleCPUT (row col oldvalue newvalue : string) (kvstore : table) : table * string :=
  match table_cput row col oldvalue newvalue kvstore with
  | CPutRow => (kvstore, "-ERR Row does not exist" +:+ crlf)
  | CPutCol => (kvstore, "-ERR Column does not exist" +:+ crlf)
  | CPutMismatch => (kvstore, "-ERR Current value is different from provided value" +:+ crlf)
  | CPutDone kvstore => (kvstore, "+OK" +:+ crlf)
  end.
Definition handleDELETE (row col : string) (kvstore : table) : table * string :=
  (table_delete row col kvstore, "+OK" +:+ crlf).

(** The branches of [processMessage]: the table, the answer and [quit].  [params.at] throws when a
    parameter is missing. *)
Definition dispatch (command : string) (params : list string) (message : string) (kvstore : table) :
    option (table * string * bool) :=
  let at_ i := params !! i in
  let reply '(t, res) := (t, res, false) in
  if bool_decide (command = "GET") then
    r ← at_ 0%nat; c ← at_ 1%nat; Some (reply (handleGET r c kvstore))
  else if bool_decide (command = "PUT") then
    r ← at_ 0%nat; c ← at_ 1%nat; v ← at_ 2%nat; Some (reply (handlePUT r c v kvstore))
  else if bool_decide (command = "CPUT") then
    r ← at_ 0%nat; c ← at_ 1%nat; v ← at_ 2%nat; w ← at_ 3%nat; Some (reply (handleCPUT r c v w kvstore))
  else if bool_decide (command = "DELETE") then
    r ← at_ 0%nat; c ← at_ 1%nat; Some (reply (handleDELETE r c kvstore))
  else if bool_decide (message = "QUIT" +:+ crlf) then Some (kvstore, "+OK Goodbye" +:+ crlf, true)
  else Some (kvstore, "-ERR Command unrecognized" +:+ crlf, false).
(** [parameterString.substr(0, size - 2)] takes all of a text shorter than two. *)
Definition processMessage (message : string) (kvstore : table) : option (table * string * bool) :=
  let pos := find_char " "%char 0 message in
  let command := substr_to pos message in
  let parameterString := substr_from (npos_add pos 1) message in
  let text := if bool_decide (slen parameterString < 2)%nat then parameterString
              else str_take (slen parameterString - 2) parameterString in
  dispatch command (getlines "|"%char text) message kvstore.

(** [expectHELLO] and [communicationThreadFunc] on the packets of a client that reads all answers:
    the table, the answers, and whether the thread has come to its end. *)
Fixpoint expectHELLO (fuel : nat) (packets : list string) : list string * option (list string) :=
  match fuel with
  | O => ([], None)
  | S fuel =>
      match readFromSocket crlf packets "" with
      | None => ([], None)
      | Some (message, packets) =>
          if bool_decide (message = "HELLO" +:+ crlf) then (["+OK Server Ready" +:+ crlf], Some packets)
          else
            let '(answers, rest) := expectHELLO fuel packets in
            (("-ERR Invalid command, start with HELLO" +:+ crlf) :: answers, rest)
      end
  end.
Fixpoint serve (fuel : nat) (packets : list string) (kvstore : table) : table * list string * bool :=
  match fuel with
  | O => (kvstore, [], false)
  | S fuel =>
      match readFromSocket crlf packets "" with
      | None => (kvstore, [], false)
      | Some (message, packets) =>
          match processMessage message kvstore with
          | None => (kvstore, [], false)
          | Some (kvstore, res, true) => (kvstore, [res], true)
          | Some (kvstore, res, false) =>
              let '(kvstore, answers, ended) := serve fuel packets kvstore in (kvstore, res :: answers, ended)
          end
      end
  end.
Definition communicationThreadFunc (packets : list string) (kvstore : table) : table * list string * bool :=
  let '(greeting, packets') := expectHELLO (length packets) packets in
  match packets' with
  | None => (kvstore, greeting, false)
  | Some packets' =>
      let '(kvstore, answers, ended) := serve (length packets') packets' kvstore in
      (kvstore, greeting ++ answers, ended)
  end.

(** *** The protocol *)

Inductive command := GET (r c : string) | PUT (r c v : string) | CPUT (r c v w : string) | DELETE (r c : string).
Definition parameters (q : command) : list string :=
  match q with
  | GET r c | DELETE r c => [r; c]
  | PUT r c v => [r; c; v]
  | CPUT r c v w => [r; c; v; w]
  end.
Definition name (q : command) : string :=
  match q with GET _ _ => "GET" | PUT _ _ _ => "PUT" | CPUT _ _ _ _ => "CPUT" | DELETE _ _ => "DELETE" end.
(** What a client sends. *)
Definition encode (q : command) : string := name q +:+ " " +:+ join "|" (parameters q) +:+ crlf.
Definition execute (q : command) : table → table * string :=
  match q with
  | GET r c => handleGET r c
  | PUT r c v => handlePUT r c v
  | CPUT r c v w => handleCPUT r c v w
  | DELETE r c => handleDELETE r c
  end.

Lemma getlines_join d l :
  l ≠ [] → Forall (no_char d) l → last l ≠ Some "" → getlines d (join (String d "") l) = l.
Proof.
  intros Hne Hl Hlast. unfold getlines. rewrite split_on_join by done.
  destruct (last l) as [[|]|]; done.
Qed.

Lemma processMessage_dispatch command text t :
  no_char " "%char command →
  processMessage (command +:+ String " " (text +:+ crlf)) t =
    dispatch command (getlines "|"%char text) (command +:+ String " " (text +:+ crlf)) t.
Proof.
  intros Hn. unfold processMessage, find_char. cbn [str_drop]. rewrite find_char0_here by done.
  cbn [fmap option_fmap option_map Nat.add substr_to npos_add]. rewrite str_take_app. unfold substr_from.
  rewrite <-str_drop_drop, str_drop_app. cbn [str_drop].
  rewrite (bool_decide_false (slen (text +:+ crlf) < 2)%nat) by (rewrite slen_app; simpl; lia).
  replace (slen (text +:+ crlf) - 2)%nat with (slen text) by (rewrite slen_app; simpl; lia).
  by rewrite str_take_app.
Qed.

(** A command whose parameters have no '|' and whose last one is not empty is executed as it was
    meant, whatever else the parameters hold: spaces and line ends too. *)
Lemma processMessage_encode q t :
  Forall (no_char "|"%char) (parameters q) → last (parameters q) ≠ Some "" →
  processMessage (encode q) t = Some (execute q t, false).
Proof.
  intros Hp Hlast. assert (no_char " "%char (name q)) as Hn by (by destruct q).
  assert (parameters q ≠ []) as Hne by (by destruct q).
  unfold encode. change (" " +:+ join "|" (parameters q) +:+ crlf) with (String " " (join "|" (parameters q) +:+ crlf)).
  rewrite processMessage_dispatch, getlines_join by done. destruct q as [| |r c v w|]; try done.
  transitivity (Some (let '(t, res) := handleCPUT r c v w t in (t, res, false))); [done|].
  unfold execute. by destruct (handleCPUT r c v w t).
Qed.

(** An empty last parameter is not seen at all: storing an empty value ends the server. *)
Theorem put_empty_throws r c t :
  no_char "|"%char r → no_char "|"%char c → processMessage (encode (PUT r c "")) t = None.
Proof.
  intros Hr Hc. unfold encode.
  change (" " +:+ join "|" (parameters (PUT r c "")) +:+ crlf) with
    (String " " ((r +:+ String "|" (c +:+ String "|" "")) +:+ crlf)).
  rewrite processMessage_dispatch by done. by rewrite !getlines_token by done.
Qed.

(** *** Sessions *)

Fixpoint execute_all (qs : list command) (t : table) : table * list string :=
  match qs with
  | [] => (t, [])
  | q :: qs =>
      let '(t, res) := execute q t in
      let '(t, answers) := execute_all qs t in (t, res :: answers)
  end.
Definition clean (q : command) : Prop := Forall (no_char "|"%char) (parameters q) ∧ last (parameters q) ≠ Some "".

Lemma contains_end s t : contains t (s +:+ t) = true.
Proof.
  unfold contains. apply bool_decide_eq_true.
  induction s as [|a s IH].
  - rewrite sapp_nil_l. assert (String.prefix t t = true) as E.
    { pose proof (starts_with_app t "") as E. by rewrite sapp_nil_r in E. }
    destruct t; cbn [find0]; by rewrite E.
  - rewrite sapp_cons. cbn [find0]. destruct (String.prefix t _); [by eexists|]. by apply fmap_is_Some.
Qed.
Lemma readFromSocket_packet s packets : readFromSocket crlf ((s +:+ crlf) :: packets) "" = Some (s +:+ crlf, packets).
Proof. cbn [readFromSocket]. rewrite sapp_nil_l. by rewrite contains_end. Qed.
Lemma encode_crlf q : ∃ s, encode q = s +:+ crlf.
Proof. exists (name q +:+ " " +:+ join "|" (parameters q)). unfold encode. by rewrite !sapp_assoc. Qed.

Lemma serve_commands qs fuel t :
  Forall clean qs → (length qs < fuel)%nat →
  serve fuel ((encode <$> qs) ++ ["QUIT" +:+ crlf]) t =
    let '(t, answers) := execute_all qs t in (t, answers ++ ["+OK Goodbye" +:+ crlf], true).
Proof.
  revert fuel t. induction qs as [|q qs IH]; intros [|fuel] t Hq Hf; cbn [length] in Hf; try lia; [done|].
  apply Forall_cons in Hq as [[Hq Hlast] Hqs]. cbn [fmap list_fmap app serve].
  destruct (encode_crlf q) as [s E]. rewrite E, readFromSocket_packet, <-E. rewrite processMessage_encode by done.
  cbn [execute_all]. destruct (execute q t) as [t1 res]. rewrite IH by (done || lia).
  by destruct (execute_all qs t1).
Qed.



End TextServer.

(** ** The server without a handshake (key_val_store.cc, the second program) *)
Module LineServer.

(** [iss >> word] on a stream, [None] when it has failed. *)
Definition next (iss : option string) : string * option string :=
  match iss ≫= extract_word with Some (w, rest) => (w, Some rest) | None => ("", None) end.
(** [getline(iss, value)] and the removal of one leading blank. *)
Definition rest_of_line (iss : option string) : string :=
  match iss with
  | None => ""
  | Some rest =>
      let value := substr_to (find_char0 LF rest) rest in
      match value with String " "%char value' => value' | _ => value end
  end.

(** [kvStore[row].erase(col)]: the row stays, though it may be empty. *)
Definition erase (row col : string) (t : table) : table := alter (delete col) row t.

Section server.
Context `{UMapOrder}.

Definition processCommand (commandLine : string) (kvStore : table) : table * string :=
  let '(cmd, iss) := next (Some commandLine) in
  if bool_decide (cmd = "PUT") then
    let '(row, iss) := next iss in
    let '(col, iss) := next iss in
    (table_assign row col (rest_of_line iss) kvStore, "OK" +:+ lf)
  else if bool_decide (cmd = "GET") then
    let '(row, iss) := next iss in
    let '(col, iss) := next iss in
    (kvStore, match table_get row col kvStore with Found v => v +:+ lf | _ => "NOT_FOUND" +:+ lf end)
  else if bool_decide (cmd = "DELETE") then
    let '(row, iss) := next iss in
    let '(col, iss) := next iss in
    match table_get row col kvStore with
    | Found _ => (erase row col kvStore, "OK" +:+ lf)
    | _ => (kvStore, "NOT_FOUND" +:+ lf)
    end
  else if bool_decide (cmd = "CPUT") then
    let '(row, iss) := next iss in
    let '(col, iss) := next iss in
    let '(oldVal, iss) := next iss in
    match table_get row col kvStore with
    | Found v => if bool_decide (v = oldVal) then (table_set row col (rest_of_line iss) kvStore, "OK" +:+ lf)
                 else (kvStore, "FAIL" +:+ lf)
    | _ => (kvStore, "NOT_FOUND" +:+ lf)
    end
  else if bool_decide (cmd = "SCAN") then
    let '(prefix, iss) := next iss in
    let rows := filter (λ r, starts_with prefix r = true) (umap_entries kvStore).*1 in
    (kvStore, "+OK" +:+ lf +:+ foldr (λ r acc, r +:+ lf +:+ acc) "" rows)
  else (kvStore, "ERROR: Unknown command" +:+ lf).

(** One connection: a single [read] of at most 4095 bytes. *)
Definition handle_connection (received : string) (kvStore : table) : table * string :=
  processCommand (c_string (str_take 4095 received)) kvStore.

(** After the last column of a row is deleted, SCAN still lists the row; the other servers erase it. *)
Theorem scan_lists_deleted_row `{UMapOrder} :
  let t := (processCommand "DELETE alice name" {["alice" := {["name" := "x"]}]}).1 in
  t = {["alice" := ∅]} ∧ table_delete "alice" "name" {["alice" := {["name" := "x"]}]} = ∅.
Proof. split; by vm_compute. Qed.

End server.
End LineServer.

(** ** The gRPC server (kvs_server.h) *)
Module GrpcServer.

(** [Status::CANCELLED] *)
Definition st_cancelled : Status := mkStatus CANCELLED "".

Definition Get (row column : string) (kvs : table) : Status * (bool * string) :=
  match table_get row column kvs with
  | Found value => (Status_OK, (true, value))
  | _ => (st_cancelled, (false, ""))
  end.
Definition Put (row column value : string) (kvs : table) : table * (Status * bool) :=
  (table_put row column value kvs, (Status_OK, true)).
Definition CPut (row column current_value new_value : string) (kvs : table) : table * (Status * bool) :=
  match table_cput row column current_value new_value kvs with
  | CPutDone kvs => (kvs, (Status_OK, true))
  | _ => (kvs, (st_cancelled, false))
  end.
Definition Delete (row column : string) (kvs : table) : table * (Status * bool) :=
  (table_delete row column kvs, (Status_OK, true)).

End GrpcServer.
