(* ===== verification/LegacyWeb.v ===== *)
(** * The first version of the storage service: web_storage_service/WEB STORAGE SERVICE/wbs.cc

    One upload and one download request over the row "user" of one worker. *)
From S2P Require Import Prelude CppString Table Codec Utils CppStream Rpc Coordinator Worker WorkerFacts.
From S2P Require Import Cluster ClusterFacts Replication Kv StorageText Chunked Storage.

Definition MAX_FILE_SIZE : Z := 2 * 1024 * 1024.

Definition httpResponse (status body contentType : string) : string :=
  "HTTP/1.1 " +:+ status +:+ crlf +:+
  "Content-Type: " +:+ contentType +:+ crlf +:+
  "Content-Length: " +:+ to_string (Z.of_nat (slen body)) +:+ crlf +:+ crlf +:+ body.

Definition parseQueryParams (query : string) : gmap string string := parsePairs query.

(** The loop of [readRequestBody]; [reads] are the results of [read] until it fails. *)
Fixpoint readBody (reads : list string) (contentLength : Z) (body : string) : string :=
  if bool_decide (Z.of_nat (slen body) < contentLength ∧ Z.of_nat (slen body) < MAX_FILE_SIZE) then
    match reads with
    | [] => body
    | buf :: reads => readBody reads contentLength (body +:+ buf)
    end
  else body.
Definition readRequestBody (reads : list string) (request : string) (headerEnd : nat) : string :=
  let n := contentLengthOf request in
  let contentLength := if bool_decide (n = 0 ∨ MAX_FILE_SIZE < n) then MAX_FILE_SIZE else n in
  readBody reads contentLength (substr_from (headerEnd + 4) request).

Section server.
Context `{KvOps St}.
(** The worker [kvClient] talks to, and the page, [None] when its file is missing. *)
Definition kvClient : string := "0.0.0.0:10001".
Variable webpage : option string.

Definition requestedFile (url : string) : string :=
  match find "?filename=" 0 url with Some qPos => substr_from (qPos + 10) url | None => "myfile" end.

(** The part of a stored request that is the file. *)
Definition filePart (fileContent : string) : option string :=
  content ← substr_from_exc (npos_add (find crlf2 0 fileContent) 4) fileContent;
  Some (substr_to (find crlf 0 content) content).
Definition download (filename : string) : M St string :=
  fileContent ← kv_Get kvClient "user" filename;
  if bool_decide (fileContent = "") then
    mret (httpResponse "404 Not Found"
            "<html><body><h1>404 Not Found</h1><p>File not found.</p></body></html>" "text/html")
  else
    content ← lift (filePart fileContent);
    mret (httpResponse "200 OK" content "application/octet-stream").
Definition upload (filename fileContent : string) : M St string :=
  result ← kv_Put kvClient "user" filename fileContent;
  mret (httpResponse "200 OK"
          ("<html><body>Upload Result: " +:+ result +:+ "<br/><a href='/'>Back</a></body></html>") "text/html").

(** The first line without its LF, and its first words. *)
Definition requestLine (request : string) : string * string :=
  let ws := words (substr_to (find_char0 LF request) request) in
  (default "" (ws !! 0%nat), default "" (ws !! 1%nat)).
Definition badRequest (text : string) : string :=
  httpResponse "400 Bad Request" ("<html><body>" +:+ text +:+ "</body></html>") "text/html".
(** [handleClient]: [received] is what the first [read] returned, at most 8191 bytes. *)
Definition handleClient (received : string) (reads : list string) : M St string :=
  if bool_decide (received = "") then mret ""
  else
    let request := c_string (str_take 8191 received) in
    let '(method, url) := requestLine request in
    if bool_decide (method = "GET") then
      if bool_decide (url = "/" ∨ url = "/index.html") then
        mret match webpage with
             | None => httpResponse "404 Not Found"
                         "<html><body><h1>404 Not Found</h1><p>webpage.html missing.</p></body></html>" "text/html"
             | Some htmlContent => httpResponse "200 OK" htmlContent "text/html"
             end
      else if starts_with "/download" url then download (requestedFile url)
      else mret (badRequest "Unsupported GET URL.")
    else if bool_decide (method = "POST") then
      if starts_with "/upload" url then
        match find crlf2 0 request with
        | None => mret (badRequest "Missing header terminator.")
        | Some headerEnd => upload (requestedFile url) (readRequestBody reads request headerEnd)
        end
      else mret (badRequest "Unsupported POST URL.")
    else mret (badRequest "Unsupported method.").

End server.

(** ** What is downloaded *)

(** The file is what stands between the headers of its part and the next line end: a file that
    contains a line end is cut there. *)
Theorem filePart_first_line header data tail :
  find0 crlf2 (header +:+ crlf2 +:+ data +:+ crlf +:+ tail) = Some (slen header) → no_char CR data →
  filePart (header +:+ crlf2 +:+ data +:+ crlf +:+ tail) = Some data.
Proof.
  intros Hh Hd. unfold filePart, find. cbn [str_drop].
  rewrite !(bool_decide_false (_ < 0)%nat) by lia. rewrite Hh.
  cbn [fmap option_fmap option_map Nat.add npos_add].
  unfold substr_from_exc. rewrite bool_decide_false by (rewrite !slen_app; simpl; lia).
  rewrite <-str_drop_drop, str_drop_app.
  change (str_drop 4 (crlf2 +:+ data +:+ crlf +:+ tail)) with (data +:+ crlf +:+ tail).
  cbn [mbind option_bind]. rewrite find0_crlf by done. cbn [fmap option_fmap option_map substr_to Nat.add].
  rewrite bool_decide_false by lia. cbn [substr_to]. by rewrite str_take_app.
Qed.
